(* ===== verification/_CoqProject ===== *)
-Q . S2P
Prelude.v
GoStrings.v
ApiTypes.v
Heap.v
KubeApi.v
KubeMem.v
Lease.v
Naming.v
Secrets.v
SecretsSpec.v
MysqlUsers.v
Users.v
UserHandlers.v
CustomUsers.v
UsersSpec.v
CustomUsersSpec.v
UsersRotation.v
CollectorPod.v
RestoreTypes.v
ClusterStatus.v
ClusterStatusSpec.v
CrashRecovery.v
ApiDefaults.v
ApiDefaultsSpec.v
BackupTypes.v
ScheduledBackups.v
Deletion.v
DeletionSpec.v
ScheduledSpec.v
BackupController.v
BackupFinalizers.v
MutexHandlers.v
BackupMutex.v
BackupMem.v
SafeDefaults.v
PitrPxc.v
Collector.v
CollectorSpec.v
Recoverer.v
RecovererSpec.v
PitrWitness.v
PitrStatus.v
PauseCluster.v
Restore.v
RestoreSpec.v
RestoreWitness.v
SmartUpdate.v
Queries.v
Replication.v
Version.v
VersionSpec.v
Services.v
ServicesSpec.v
Tls.v
TlsSpec.v
ReplicationSpec.v
SmartUpdateSpec.v
SmartMem.v
Volumes.v
Config.v
ConfigSpec.v
VolumesSpec.v
VolumesMem.v
StatusWitness.v
BackupWitness.v
UsersMem.v
ReplicationMem.v
VersionMem.v
ObjMem.v
ServicesMem.v
StatefulSet.v
Templates.v
StatefulSetSpec.v
TemplatesSpec.v
StatefulSetMem.v
ClusterPass.v
ClusterPassSpec.v
ClusterPassMem.v
