(* ===== verification/Prelude.v ===== *)
(** * Verification of the Percona XtraDB Cluster operator

    The operator runs MySQL clusters on Kubernetes.  It is a set of controllers:
    a controller is called with the name of an object, reads the object and what
    belongs to it from the API server, makes changes, writes a status and
    returns; it is called again when something changes or after some seconds.
    Three controllers share the API server: one for clusters, one for backups
    and one for restores.  Besides, a collector program uploads the binary logs
    of a cluster to an object storage, and a recoverer program replays them.

    ** How Go code is modelled

    A Go function that talks to the API server, a database or a storage is a
    function in the state monad [M W] of this file, over a world [W] that is a
    parameter: it ends with a result, an error or a panic, and keeps what it did
    to the world on every exit.  What is not Go code of the repository, such as
    the API server, SDKs, databases, clocks and cron, is an operation of a type
    class ([KubeClient], [StatusEnv], [PitrEnv], [RestoreEnv], [SmartEnv] and so
    on); what the code relies on of it is a second class of laws ([KubeLaws],
    [RestoreLaws], [SmartLaws], ...), and a concrete world that satisfies the
    laws (the files whose names end in [Mem] or [Witness]) carries the
    examples.  Pure functions are plain functions; an
    object that is changed in place is threaded through ([RW], [VW], [CW]).
    Integers whose width matters are wrapped or checked ([int64], [int32],
    [int64_ok]); sizes and times are otherwise unbounded integers.

    ** Files

    - [Prelude], [GoStrings]: errors, results, the monad with its Hoare triples
      and tactics, Go's string and number functions.
    - [ApiTypes], [BackupTypes], [RestoreTypes]: pkg/apis/pxc/v1 (types, accessors,
      destination strings); [ApiDefaults], [ApiDefaultsSpec], [SafeDefaults]:
      validation and defaulting of clusters in pxc_types.go.
    - [KubeApi], [KubeMem]: the API server as the controllers use it; [Lease]:
      pkg/k8s/lease.go; [Naming]: pkg/naming; [Heap]: container/heap.
    - [ClusterPass], [ClusterPassSpec], [ClusterPassMem]: the whole pass of the
      cluster controller, [Reconcile] of pkg/controller/pxc/controller.go, put
      together from the components below with the state they share.
    - [StatefulSet], [StatefulSetSpec], [StatefulSetMem]: pkg/pxc/statefulset.go,
      pdb.go, [updatePod] of upgrade.go, [createOrUpdate] of controller.go;
      [Templates], [TemplatesSpec]: the containers and volumes of the pods,
      pkg/pxc/app and pkg/pxc/app/statefulset.  The interface [api.App] is the
      class [AppTemplates]; the proofs about stateful sets use its laws, and
      [app_templates] is the instance of the repository.
    - [Secrets], [SecretsSpec]: secrets.go; [MysqlUsers]: pkg/pxc/users; [Users],
      [UserHandlers], [UsersLaws], [UsersSpec], [UsersRotation], [UsersMem]:
      users.go and users_without_dp.go; [CustomUsers], [CustomUsersSpec]:
      users_custom.go.
    - [Queries]: pkg/pxc/queries; [Replication], [ReplicationSpec],
      [ReplicationMem]: replication.go.
    - [Version], [VersionSpec], [VersionMem]: version.go, vs.go and the jobs of
      scheduled upgrades; [Services], [ServicesSpec], [ServicesMem]:
      pkg/pxc/service.go and the parts of controller.go that write services;
      [Config], [ConfigSpec]: config.go and pkg/pxc/app/config; [Tls],
      [TlsSpec]: tls.go and pkg/pxctls; [Deletion], [DeletionSpec], [ObjMem]: the
      finalizers of controller.go.
    - [ClusterStatus], [ClusterStatusSpec], [StatusWitness]: status.go;
      [CrashRecovery]: full_crash_recovery.go; [Volumes], [VolumesSpec],
      [VolumesMem]: volumes.go and pkg/k8s/annotation.go; [SmartUpdate],
      [SmartUpdateSpec], [SmartMem]: the smart update of upgrade.go, with
      pkg/pxc/pxc.go; [ScheduledBackups], [ScheduledSpec]: backup.go with the
      cron registry of controller.go.
    - [BackupController], [BackupFinalizers], [MutexInv], [MutexHandlers],
      [BackupMutex], [BackupMem], [BackupWitness]: pkg/controller/pxcbackup.
    - [Restore], [RestoreSpec], [RestoreWitness]: pkg/controller/pxcrestore;
      [PauseCluster]: pkg/k8s/cluster.go.
    - [PitrPxc], [Collector], [CollectorSpec], [Recoverer], [RecovererSpec],
      [PitrWitness]: cmd/pitr; [CollectorPod]: the files in the collector's pod,
      of pkg/pxc/app/binlogcollector; [PitrStatus]: pkg/pxc/backup/pitr.go.

    ** What the theorems show

    - Backups: at most one running job per cluster when backups must not run in
      parallel, through every interleaving of passes, finalizer workers and
      outside events ([backup_mutual_exclusion]); the worker limit; removal of a
      backup leaves nothing behind; where the lock is lost or leaked.
    - Schedules: the cron registry has exactly the jobs of the specification,
      retention deletes exactly the oldest backups, names and labels.
    - Cluster status, defaults and crash recovery: ready means ready, accepted
      clusters are safe, the history of conditions is bounded, one signal at
      most is sent after a crash, to the node with the newest data.
    - Point-in-time recovery: what a collection uploads and in which order, that
      it resumes where it stopped, which logs are chosen and replayed, round
      trips between the names the collector writes and the recoverer reads.
    - Restores: a pass refines an abstract state machine ([rstep]), at most one
      restore of a cluster is under way, the cluster gets its sizes back; a
      completion time is never set, a second restore fails the running one.
    - Volumes: what a pass may write, when a resize ends, how sizes are rounded,
      and that a claim left behind keeps the operator busy for ever.
    - Smart update: one pod at a time, each one back before the next, the
      primary last.
    - Users: a pass never locks an account out, whatever fails in it; a changed
      password reaches the internal secret and every account; generated passwords
      are valid; statements for custom users name no reserved user.
    - Replication, versions, services, configuration, certificates, deletion: each
      pass leaves what the specification asks for (sources of a channel, images
      of a version, config maps, secrets) and touches nothing else; a change of
      TLS waits for the pods; a deleted cluster leaves no data behind when asked.
    - Stateful sets and pods: pods show the hashes of their configuration and
      secrets, a second pass writes nothing, every mount names a volume of its
      pod; a claim template that is removed makes the operator panic, and two hook
      scripts give two volumes one name.
    - The pass as a whole: which errors the status is told, what happens to a
      cluster that is being deleted, one goroutine at a time copies users to
      ProxySQL.

    ** Bounds, fuel and granularity

    Loops of the code are structural recursions, over lists or over the exact
    number of turns the code allows (the waits of [PauseCluster], the attempts to
    connect).  A loop that a timer ends takes the number of ticks from the world
    ([sm_ticks]); retries of the client library run one or more times, as the
    relation [retries] says, and [retry_loop] is an instance.  Fuel is used for
    the digits of a 32-bit number in base 32 (13 is more than the 7 there can
    be) and for the sifting of the heap (its length).  No theorem assumes that
    fuel suffices.

    A pass of a controller is one atomic step of the transition systems
    ([restore_run], the system of [BackupMutex]): a controller handles one object
    at a time.  Reads are fresh: the cache of the client is not modelled.  The
    backup lock relies on status reads and updates not failing ([StatusReliable]);
    without that [lock_lost_on_refused_update] is what happens.  A status update
    that fails inside the loop of [updateStatus] does not give back the partly
    changed object.  Texts of some errors are abbreviated, records keep the
    fields the modelled functions touch, log lines are left out.

    The goroutine that copies users to ProxySQL is part of the state of a pass
    ([ps_sync]) and ends at any later time; it gets a snapshot of the object.

    ** Not modelled

    Probes, lifecycle hooks and security contexts of containers are left out of
    the templates; the templates of the jobs of backups and restores are reduced
    to what the controllers look at.  Wrappers of the storage SDKs (S3, Azure) are
    parameters of the models that use them.  Generated code (deepcopy, the client
    of the version service, protobuf), the gRPC sidecar for xtrabackup, the webhook
    server, the manager and the small command line programs are left out: they
    are process and network I/O, or have no logic of their own. *)

From stdpp Require Export base tactics list gmap strings numbers pretty sorting.
From coqutil Require Export Datatypes.RecordSetters.
Export TriangleBracketNotations.

#[global] Open Scope Z_scope.

Declare Scope go_scope.
Delimit Scope go_scope with go.
#[global] Open Scope go_scope.

(** The newline and carriage return characters, as strings. *)
Definition nl : string :=
  String (Ascii.Ascii false true false true false false false false) EmptyString.
Definition cr_char : string :=
  String (Ascii.Ascii true false true true false false false false) EmptyString.
Definition tab : string :=
  String (Ascii.Ascii true false false true false false false false) EmptyString.

(** ** Go errors

    An [error] value of the Go program.  [ErrVar] is a package-level error
    variable, compared by identity; [ErrStatus] is an error of the Kubernetes
    API carrying its [metav1.StatusReason]; [ErrWrap] is [errors.Wrap]. *)

Inductive StatusReason :=
| ReasonNotFound
| ReasonAlreadyExists
| ReasonConflict
| ReasonUnknown.

#[export] Instance StatusReason_eq_dec : EqDecision StatusReason.
Proof. solve_decision. Defined.

Inductive error :=
| ErrNew (msg : string)
| ErrVar (name msg : string)
| ErrStatus (reason : StatusReason) (msg : string)
| ErrMySQL (number : Z) (msg : string)
| ErrWrap (msg : string) (cause : error)
| ErrJoin (e1 e2 : error).

#[export] Instance error_eq_dec : EqDecision error.
Proof. solve_decision. Defined.

(** [err.Error()] *)
Fixpoint Error (e : error) : string :=
  match e with
  | ErrNew m | ErrVar _ m | ErrStatus _ m | ErrMySQL _ m => m
  | ErrWrap m c => m +:+ ": " +:+ Error c
  | ErrJoin a b => Error a +:+ nl +:+ Error b
  end.

(** [errors.Is(err, target)] for an error variable [target]: the error itself
    or something it wraps. *)
Fixpoint errors_Is (e target : error) : bool :=
  bool_decide (e = target) ||
  match e with
  | ErrWrap _ c => errors_Is c target
  | ErrJoin a b => errors_Is a target || errors_Is b target
  | _ => false
  end.

(** The API error reason an error carries ([k8serrors.ReasonForError]). *)
Fixpoint ReasonForError (e : error) : option StatusReason :=
  match e with
  | ErrStatus r _ => Some r
  | ErrWrap _ c => ReasonForError c
  | ErrJoin a b =>
      match ReasonForError a with Some r => Some r | None => ReasonForError b end
  | _ => None
  end.

Definition IsNotFound (e : error) : bool :=
  bool_decide (ReasonForError e = Some ReasonNotFound).
Definition IsAlreadyExists (e : error) : bool :=
  bool_decide (ReasonForError e = Some ReasonAlreadyExists).
Definition IsConflict (e : error) : bool :=
  bool_decide (ReasonForError e = Some ReasonConflict).

(** The storage package's error for a missing object. *)
Definition ErrObjectNotFound : error := ErrVar "ErrObjectNotFound" "object not found".

(** [errors.Is(err, &mysql.MySQLError{Number: n})]: the driver's errors are
    compared by number. *)
Fixpoint is_mysql_error (n : Z) (e : error) : bool :=
  match e with
  | ErrMySQL m _ => bool_decide (m = n)
  | ErrWrap _ c => is_mysql_error n c
  | ErrJoin a b => is_mysql_error n a || is_mysql_error n b
  | _ => false
  end.

(** [errors.Wrap(err, msg)] on a possibly nil error: nil stays nil. *)
Definition Wrap (msg : string) (e : option error) : option error :=
  ErrWrap msg <$> e.

(** ** Results of a Go call

    [Ok] is a return with a nil error, [Err] a return with a non-nil error and
    [Panic] a run-time panic (nil dereference, index out of range). *)

Inductive res (A : Type) :=
| Ok (a : A)
| Err (e : error)
| Panic.
Arguments Ok {A} a.
Arguments Err {A} e.
Arguments Panic {A}.

#[export] Instance res_eq_dec {A} `{EqDecision A} : EqDecision (res A).
Proof. solve_decision. Defined.

#[export] Instance res_ret : MRet res := fun A a => Ok a.
#[export] Instance res_bind : MBind res := fun A B f r =>
  match r with Ok a => f a | Err e => Err e | Panic => Panic end.

Definition is_ok {A} (r : res A) : bool :=
  match r with Ok _ => true | _ => false end.

(** [if err != nil { return errors.Wrap(err, msg) }] *)
Definition wrap_res {A} (msg : string) (r : res A) : res A :=
  match r with Err e => Err (ErrWrap msg e) | r => r end.

(** A nil pointer dereference panics. *)
Definition deref {A} (p : option A) : res A :=
  match p with Some a => Ok a | None => Panic end.

(** ** Stateful Go code

    [M W A] is a Go function that returns an [A], an error or panics, and acts
    on a world [W]: state passing, with the world kept on every exit. *)

Definition M (W A : Type) : Type := W -> W * res A.

#[export] Instance M_ret {W} : MRet (M W) := fun A a w => (w, Ok a).
#[export] Instance M_bind {W} : MBind (M W) := fun A B f m w =>
  match m w with
  | (w', Ok a) => f a w'
  | (w', Err e) => (w', Err e)
  | (w', Panic) => (w', Panic)
  end.

Definition fail {W A} (e : error) : M W A := fun w => (w, Err e).
Definition panic {W A} : M W A := fun w => (w, Panic).
Definition lift {W A} (r : res A) : M W A := fun w => (w, r).
Definition gets {W A} (f : W -> A) : M W A := fun w => (w, Ok (f w)).
Definition modify {W} (f : W -> W) : M W unit := fun w => (f w, Ok tt).

(** [x, err := m()]: the error becomes a value the caller inspects. *)
Definition try {W A} (m : M W A) : M W (error + A) := fun w =>
  match m w with
  | (w', Ok a) => (w', Ok (inr a))
  | (w', Err e) => (w', Ok (inl e))
  | (w', Panic) => (w', Panic)
  end.

(** [if err := m(); err != nil { return errors.Wrap(err, msg) }] *)
Definition wrap {W A} (msg : string) (m : M W A) : M W A := fun w =>
  let '(w', r) := m w in (w', wrap_res msg r).

(** [for _, x := range l { body(x) }] with early return on error. *)
Fixpoint for_each {W A} (body : A -> M W unit) (l : list A) : M W unit :=
  match l with
  | [] => mret tt
  | x :: l' => _ ← body x; for_each body l'
  end.

Notation "'when' b 'do' m" := (if b then m else mret tt)
  (at level 10, b at level 200, m at level 200) : go_scope.

Create HintDb go discriminated.

Section monad_lemmas.
Context {W : Type}.

Lemma bind_Ok {A B} (m : M W A) (f : A -> M W B) w w' a :
  m w = (w', Ok a) -> (m ≫= f) w = f a w'.
Proof. intros H. unfold mbind, M_bind. by rewrite H. Qed.

Lemma bind_Err {A B} (m : M W A) (f : A -> M W B) w w' e :
  m w = (w', Err e) -> (m ≫= f) w = (w', Err e).
Proof. intros H. unfold mbind, M_bind. by rewrite H. Qed.

(** Inversion of a successful sequence. *)
Lemma bind_inv_Ok {A B} (m : M W A) (f : A -> M W B) w w' b :
  (m ≫= f) w = (w', Ok b) ->
  exists w1 a, m w = (w1, Ok a) /\ f a w1 = (w', Ok b).
Proof.
  unfold mbind, M_bind. destruct (m w) as [w1 [a|e|]]; naive_solver.
Qed.

Lemma wrap_inv_Ok {A} msg (m : M W A) w w' a :
  wrap msg m w = (w', Ok a) -> m w = (w', Ok a).
Proof. unfold wrap. destruct (m w) as [w1 [?|?|]]; naive_solver. Qed.

Lemma try_inv_Ok {A} (m : M W A) w w' r :
  try m w = (w', Ok r) ->
  (exists a, r = inr a /\ m w = (w', Ok a)) \/
  (exists e, r = inl e /\ m w = (w', Err e)).
Proof. unfold try. destruct (m w) as [w1 [?|?|]]; naive_solver. Qed.

Lemma for_each_app {A} (body : A -> M W unit) l1 l2 :
  forall w, for_each body (l1 ++ l2) w = (_ ← for_each body l1; for_each body l2) w.
Proof.
  induction l1 as [|x l1 IH]; intros w; simpl; [done|].
  unfold mbind, M_bind. destruct (body x w) as [w1 [[]|e|]]; simpl; [|done|done].
  rewrite IH. done.
Qed.
End monad_lemmas.

(** Steps through a successful monadic run: splits binds, wraps and returns. *)
Ltac go_inv :=
  repeat match goal with
  | H : (_ ≫= _) _ = (_, Ok _) |- _ =>
      let w := fresh "w" in let a := fresh "a" in
      let Hm := fresh "Hm" in let Hk := fresh "Hk" in
      apply bind_inv_Ok in H as (w & a & Hm & Hk)
  | H : wrap _ _ _ = (_, Ok _) |- _ => apply wrap_inv_Ok in H
  | H : mret _ _ = (_, _) |- _ => unfold mret, M_ret in H; simplify_eq/=
  | H : gets _ _ = (_, _) |- _ => unfold gets in H; simplify_eq/=
  | H : modify _ _ = (_, _) |- _ => unfold modify in H; simplify_eq/=
  | H : lift _ _ = (_, _) |- _ => unfold lift in H; simplify_eq/=
  | H : fail _ _ = (_, Ok _) |- _ => discriminate H
  | H : panic _ = (_, Ok _) |- _ => discriminate H
  end.

(** ** Hoare triples

    [hoare P m Q]: started in a world with [P], the call ends in a world and
    with a result that satisfy [Q], whatever the result is. *)

Definition hoare {W A} (P : W -> Prop) (m : M W A) (Q : res A -> W -> Prop) : Prop :=
  forall w, P w -> Q (m w).2 (m w).1.

(** [keeps I m]: [m] preserves [I] on every exit. *)
Definition keeps {W A} (I : W -> Prop) (m : M W A) : Prop :=
  hoare I m (fun _ w => I w).

(** A deferred call: [d] runs after [m] whatever [m] returned; its own error is
    dropped (a panic of [m] is kept). *)
Definition with_defer {W A} (m : M W A) (d : M W unit) : M W A := fun w =>
  let '(w', r) := m w in ((d w').1, r).

(** [wait.Backoff] retries run the function one or more times; every run but
    the last ends in an error that [retriable] accepts. *)
Inductive retries {W A} (retriable : error -> bool) (fn : M W A) : W -> W -> res A -> Prop :=
| retries_last w : retries retriable fn w (fn w).1 (fn w).2
| retries_again w w1 e w2 r :
    fn w = (w1, Err e) -> retriable e = true ->
    retries retriable fn w1 w2 r -> retries retriable fn w w2 r.

Lemma retries_one {W A} f (fn : M W A) w w' r : fn w = (w', r) -> retries f fn w w' r.
Proof. intros H. pose proof (retries_last f fn w) as Hl. by rewrite H in Hl. Qed.

Section hoare_rules.
Context {W : Type}.
Implicit Types (P I : W -> Prop).

Lemma hoare_conseq {A} P P' (m : M W A) Q Q' :
  hoare P' m Q' -> (forall w, P w -> P' w) -> (forall r w, Q' r w -> Q r w) -> hoare P m Q.
Proof. intros Hm HP HQ w Hw. apply HQ, Hm, HP, Hw. Qed.

Lemma hoare_ret {A} (a : A) P Q : (forall w, P w -> Q (Ok a) w) -> hoare P (mret a) Q.
Proof. intros H w Hw. by apply H. Qed.

Lemma hoare_bind {A B} P R (m : M W A) (f : A -> M W B) Q :
  hoare P m R -> (forall a, hoare (R (Ok a)) (f a) Q) ->
  (forall e w, R (Err e) w -> Q (Err e) w) -> (forall w, R Panic w -> Q Panic w) ->
  hoare P (m ≫= f) Q.
Proof.
  intros Hm Hf He Hp w Hw. specialize (Hm w Hw). unfold mbind, M_bind.
  destruct (m w) as [w' [a|e|]]; simpl in *; [by apply Hf|by apply He|by apply Hp].
Qed.

Lemma hoare_wrap {A} P msg (m : M W A) Q :
  hoare P m (fun r w => Q (wrap_res msg r) w) -> hoare P (wrap msg m) Q.
Proof. intros Hm w Hw. specialize (Hm w Hw). unfold wrap. by destruct (m w). Qed.

Lemma hoare_try {A} P (m : M W A) (Q : res (error + A) -> W -> Prop) :
  hoare P m (fun r w => match r with
                        | Ok a => Q (Ok (inr a)) w
                        | Err e => Q (Ok (inl e)) w
                        | Panic => Q Panic w
                        end) -> hoare P (try m) Q.
Proof.
  intros Hm w Hw. specialize (Hm w Hw). unfold try. by destruct (m w) as [w' [a|e|]].
Qed.

Lemma hoare_retries {A} P f (fn : M W A) Q w w' r :
  hoare P fn Q -> (forall e w, f e = true -> Q (Err e) w -> P w) ->
  retries f fn w w' r -> P w -> Q r w'.
Proof.
  intros Hfn Hb. induction 1 as [w|w w1 e w2 r H1 H2 H3 IH]; intros Hw; [by apply Hfn|].
  apply IH, (Hb e); [done|]. specialize (Hfn w Hw). by rewrite H1 in Hfn.
Qed.

Lemma keeps_ret {A} I (a : A) : keeps I (mret a).
Proof. by intros w. Qed.
Lemma keeps_fail {A} I e : keeps I (fail e : M W A).
Proof. by intros w. Qed.
Lemma keeps_panic {A} I : keeps I (panic : M W A).
Proof. by intros w. Qed.
Lemma keeps_lift {A} I (r : res A) : keeps I (lift r).
Proof. by intros w. Qed.
Lemma keeps_gets {A} I (f : W -> A) : keeps I (gets f).
Proof. by intros w. Qed.
Lemma keeps_bind {A B} I (m : M W A) (f : A -> M W B) :
  keeps I m -> (forall a, keeps I (f a)) -> keeps I (m ≫= f).
Proof. intros Hm Hf. by eapply hoare_bind; [apply Hm| |..]. Qed.
Lemma keeps_wrap {A} I msg (m : M W A) : keeps I m -> keeps I (wrap msg m).
Proof. intros Hm. by apply hoare_wrap. Qed.
Lemma keeps_try {A} I (m : M W A) : keeps I m -> keeps I (try m).
Proof. intros Hm. apply hoare_try. intros w Hw. specialize (Hm w Hw). by destruct (m w).2. Qed.
Lemma keeps_for_each {A} I (body : A -> M W unit) l :
  (forall x, keeps I (body x)) -> keeps I (for_each body l).
Proof.
  intros Hb. induction l as [|x l IH]; simpl; [apply keeps_ret|].
  by apply keeps_bind; [apply Hb|intros []].
Qed.
Lemma keeps_defer {A} I (m : M W A) d : keeps I m -> keeps I d -> keeps I (with_defer m d).
Proof.
  intros Hm Hd w Hw. unfold with_defer. specialize (Hm w Hw).
  destruct (m w) as [w' r]. by apply Hd.
Qed.
Lemma keeps_and {A} I1 I2 (m : M W A) :
  keeps I1 m -> keeps I2 m -> keeps (fun w => I1 w /\ I2 w) m.
Proof. intros H1 H2 w [? ?]. split; [by apply H1|by apply H2]. Qed.
End hoare_rules.

(** ** Triples with an exceptional postcondition

    [triple P m R E]: from [P], a return of [a] ends in [R a], a return of an
    error and a panic end in [E]. *)

Definition triple {W A} (P : W -> Prop) (m : M W A) (R : A -> W -> Prop) (E : W -> Prop) : Prop :=
  hoare P m (fun r w => match r with Ok a => R a w | _ => E w end).

Section triple_rules.
Context {W : Type}.
Implicit Types (P E : W -> Prop).

Lemma triple_run {A} P (m : M W A) R E w w' r :
  triple P m R E -> P w -> m w = (w', r) -> match r with Ok a => R a w' | _ => E w' end.
Proof. intros Ht Hw Hm. specialize (Ht w Hw). by rewrite Hm in Ht. Qed.

Lemma triple_of_run {A} P (m : M W A) R E :
  (forall w w' r, P w -> m w = (w', r) -> match r with Ok a => R a w' | _ => E w' end) ->
  triple P m R E.
Proof. intros Ht w Hw. apply (Ht w); [done|by destruct (m w)]. Qed.

Lemma triple_conseq {A} P P' (m : M W A) R R' E E' :
  triple P' m R' E' -> (forall w, P w -> P' w) -> (forall a w, R' a w -> R a w) ->
  (forall w, E' w -> E w) -> triple P m R E.
Proof.
  intros Hm HP HR HE w Hw. specialize (Hm w (HP w Hw)). destruct (m w).2; eauto.
Qed.

Lemma triple_pre {A} P P' (m : M W A) R E :
  triple P' m R E -> (forall w, P w -> P' w) -> triple P m R E.
Proof. intros Hm HP. by eapply triple_conseq. Qed.

Lemma triple_post {A} P (m : M W A) R R' E E' :
  triple P m R' E' -> (forall a w, R' a w -> R a w) -> (forall w, E' w -> E w) ->
  triple P m R E.
Proof. intros Hm HR HE. by eapply triple_conseq. Qed.

Lemma triple_ret {A} (a : A) P R E : (forall w, P w -> R a w) -> triple P (mret a) R E.
Proof. intros Hr w Hw. by apply Hr. Qed.
Lemma triple_fail {A} e P (R : A -> W -> Prop) E :
  (forall w, P w -> E w) -> triple P (fail e) R E.
Proof. intros Hr w Hw. by apply Hr. Qed.
Lemma triple_panic {A} P (R : A -> W -> Prop) E :
  (forall w, P w -> E w) -> triple P panic R E.
Proof. intros Hr w Hw. by apply Hr. Qed.
Lemma triple_gets {A} (f : W -> A) P R E :
  (forall w, P w -> R (f w) w) -> triple P (gets f) R E.
Proof. intros Hr w Hw. by apply Hr. Qed.
Lemma triple_modify f P R E :
  (forall w, P w -> R tt (f w)) -> triple P (modify f) R E.
Proof. intros Hr w Hw. by apply Hr. Qed.
Lemma triple_lift {A} (x : res A) P R E :
  (forall w a, P w -> x = Ok a -> R a w) -> (forall w, P w -> E w) -> triple P (lift x) R E.
Proof. intros Hr He w Hw. unfold lift. simpl. destruct x; eauto. Qed.

Lemma triple_bind {A B} P (m : M W A) (f : A -> M W B) R R' E :
  triple P m R' E -> (forall a, triple (R' a) (f a) R E) -> triple P (m ≫= f) R E.
Proof. intros Hm Hf. by eapply hoare_bind; [apply Hm|intros a; apply Hf|..]. Qed.

Lemma triple_pure {A} (phi : Prop) P (m : M W A) R E :
  (phi -> triple P m R E) -> triple (fun w => phi /\ P w) m R E.
Proof. intros Hm w [? ?]. by apply Hm. Qed.

Lemma triple_ex {A X} (P : X -> W -> Prop) (m : M W A) R E :
  (forall x, triple (P x) m R E) -> triple (fun w => exists x, P x w) m R E.
Proof. intros Hm w [x ?]. by apply (Hm x). Qed.

Lemma triple_seq {A B} P (m : M W A) (f : A -> M W B) R P' E :
  triple P m (fun _ => P') E -> (forall a, triple P' (f a) R E) -> triple P (m ≫= f) R E.
Proof. apply triple_bind. Qed.

Lemma triple_wrap {A} msg P (m : M W A) R E : triple P m R E -> triple P (wrap msg m) R E.
Proof. intros Hm w Hw. specialize (Hm w Hw). unfold wrap. by destruct (m w) as [? []]. Qed.

Lemma triple_try {A} P (m : M W A) (R : error + A -> W -> Prop) E :
  hoare P m (fun r w => match r with
                        | Ok a => R (inr a) w | Err e => R (inl e) w | Panic => E w end) ->
  triple P (try m) R E.
Proof. intros Hm w Hw. specialize (Hm w Hw). unfold try. by destruct (m w) as [? []]. Qed.

(** The error is inspected, but nothing is known about it. *)
Lemma triple_try_any {A} P (m : M W A) R E :
  triple P m R E ->
  triple P (try m) (fun x w => match x with inr a => R a w | inl _ => E w end) E.
Proof. intros Hm w Hw. specialize (Hm w Hw). unfold try. by destruct (m w) as [? []]. Qed.

Lemma triple_defer {A} P Q I (m : M W A) d :
  triple P m (fun _ => Q) Q -> triple Q d (fun _ => I) I ->
  triple P (with_defer m d) (fun _ => I) I.
Proof.
  intros Hm Hd w Hw. specialize (Hm w Hw). unfold with_defer. destruct (m w) as [w' r]. simpl in *.
  assert (Q w') as Hq by by destruct r. specialize (Hd w' Hq).
  destruct (d w') as [w'' r']. simpl in *. destruct r, r'; done.
Qed.

Lemma triple_keeps {A} P (m : M W A) : keeps P m -> triple P m (fun _ => P) P.
Proof. intros Hm w Hw. specialize (Hm w Hw). by destruct (m w).2. Qed.

Lemma triple_retries {A} P f (fn : M W A) R E w w' r :
  triple P fn R E -> (forall w, E w -> P w) ->
  retries f fn w w' r -> P w -> match r with Ok a => R a w' | _ => E w' end.
Proof.
  intros Hfn Hb Hr Hw.
  exact (hoare_retries P f fn _ w w' r Hfn (fun e w1 _ => Hb w1) Hr Hw).
Qed.
End triple_rules.

#[export] Hint Resolve keeps_ret keeps_fail keeps_panic keeps_lift keeps_gets keeps_bind
  keeps_wrap keeps_try keeps_for_each keeps_defer : go.

(** Decomposes a [keeps] goal along the structure of the program. *)
Ltac keeps_step :=
  lazymatch goal with
  | |- keeps _ (match ?x with _ => _ end) => destruct x
  | |- keeps _ (if ?b then _ else _) => destruct b
  | |- keeps _ (mret _) => apply keeps_ret
  | |- keeps _ (fail _) => apply keeps_fail
  | |- keeps _ panic => apply keeps_panic
  | |- keeps _ (lift _) => apply keeps_lift
  | |- keeps _ (gets _) => apply keeps_gets
  | |- keeps _ (_ ≫= _) => apply keeps_bind; [|intros ?]
  | |- keeps _ (wrap _ _) => apply keeps_wrap
  | |- keeps _ (try _) => apply keeps_try
  | |- keeps _ (for_each _ _) => apply keeps_for_each; intros ?
  | |- keeps _ (with_defer _ _) => apply keeps_defer
  end.
Ltac keeps_solve := repeat first [keeps_step | solve [eauto with go]].

#[global] Arguments apply_update : simpl never.

(** Simplifies field accesses of updated records, in goal and hypotheses. *)
Ltac rsimp := try record.simp; simpl in *.

(** ** Generic lemmas *)

Lemma last_drop {A} (l : list A) (n : nat) :
  (n < length l)%nat -> last (drop n l) = last l.
Proof.
  revert n. induction l as [|x l IH]; intros [|n] Hn; simpl in *; try lia; [done|].
  rewrite IH by lia. destruct l; simpl in *; [lia|done].
Qed.

(** The list without its last [n] elements is a prefix, and so on: elements of
    [drop] are elements of the list. *)
Lemma elem_of_drop {A} (x : A) n l : x ∈ drop n l -> x ∈ l.
Proof.
  intros H. rewrite <- (take_drop n l). set_solver.
Qed.
