(* ===== verification/GoStrings.v ===== *)
(** * Go's [strings], [strconv], [path] and [sort] functions

    The functions of Go's standard library the operator calls on strings, on
    byte strings ([string] of 8-bit characters), with the lemmas the
    components share: [Split]/[Join] round trips, [Cut], prefix and suffix
    trimming, [ParseInt] and [path.Join]. *)

From S2P Require Import Prelude.

(** ** Prefixes and suffixes *)

Fixpoint strip_prefix (p s : string) : option string :=
  match p, s with
  | EmptyString, _ => Some s
  | String a p', String b s' => if bool_decide (a = b) then strip_prefix p' s' else None
  | String _ _, EmptyString => None
  end.

Fixpoint strip_suffix (p s : string) : option string :=
  if bool_decide (s = p) then Some "" else
  match s with
  | EmptyString => None
  | String c s' => String c <$> strip_suffix p s'
  end.

(** [strings.HasPrefix], [strings.TrimPrefix], [strings.TrimSuffix] *)
Definition HasPrefix (s p : string) : bool := bool_decide (is_Some (strip_prefix p s)).
Definition TrimPrefix (s p : string) : string := default s (strip_prefix p s).
Definition TrimSuffix (s p : string) : string := default s (strip_suffix p s).

(** ** Search: [strings.Cut], [strings.Index], [strings.Contains] *)

(** [strings.Cut]: the parts around the first [sep], if there is one. *)
Fixpoint cut_at (sep s : string) : option (string * string) :=
  match strip_prefix sep s with
  | Some r => Some ("", r)
  | None =>
      match s with
      | EmptyString => None
      | String c s' => prod_map (String c) id <$> cut_at sep s'
      end
  end.

Definition Cut (s sep : string) : string * string :=
  default (s, "") (cut_at sep s).

Definition Contains (s sub : string) : bool := bool_decide (is_Some (cut_at sub s)).

(** [strings.Index]; -1 when there is no occurrence. *)
Definition Index (s sub : string) : Z :=
  match cut_at sub s with
  | Some (b, _) => Z.of_nat (String.length b)
  | None => -1
  end.

(** ** [strings.Split], [strings.Join], [strings.ReplaceAll] *)

Definition cons_head (c : Ascii.ascii) (l : list string) : list string :=
  match l with
  | [] => [String c ""]
  | x :: l' => String c x :: l'
  end.

(** [skip] characters of a separator are still to be dropped. *)
Fixpoint split_go (sep s : string) (skip : nat) : list string :=
  match s with
  | EmptyString => [""]
  | String c s' =>
      match skip with
      | S k => split_go sep s' k
      | O => if HasPrefix s sep
             then "" :: split_go sep s' (String.length sep - 1)%nat
             else cons_head c (split_go sep s' 0)
      end
  end.

(** [strings.Split(s, sep)] for a non-empty [sep]. *)
Definition Split (s sep : string) : list string := split_go sep s 0.

Fixpoint Join (l : list string) (sep : string) : string :=
  match l with
  | [] => ""
  | [x] => x
  | x :: l' => x +:+ sep +:+ Join l' sep
  end.

(** [strings.ReplaceAll(s, old, new)] for a non-empty [old]. *)
Definition ReplaceAll (s old new : string) : string := Join (Split s old) new.

(** ** [strconv.ParseInt(s, 10, 64)] *)

Fixpoint parse_digits (acc : Z) (s : string) : option Z :=
  match s with
  | EmptyString => Some acc
  | String c s' =>
      let n := Z.of_nat (Ascii.nat_of_ascii c) in
      if bool_decide (48 ≤ n ≤ 57) then parse_digits (acc * 10 + (n - 48)) s' else None
  end.

Definition parse_Z (s : string) : option Z :=
  match s with
  | EmptyString => None
  | _ =>
      match strip_prefix "-" s, strip_prefix "+" s with
      | Some "", _ | _, Some "" => None
      | Some r, _ => Z.opp <$> parse_digits 0 r
      | None, Some r => parse_digits 0 r
      | None, None => parse_digits 0 s
      end
  end.

Definition int64_ok (z : Z) : bool := bool_decide (- 2 ^ 63 ≤ z < 2 ^ 63).

Definition dquote : string :=
  String (Ascii.Ascii false true false false false true false false) EmptyString.

(** The error text quotes the input; escapes of unprintable characters in it
    are not modelled. *)
Definition NumError (fn s msg : string) : error :=
  ErrNew ("strconv." +:+ fn +:+ ": parsing " +:+ dquote +:+ s +:+ dquote +:+ ": " +:+ msg).

Definition parse_int64 (fn s : string) : res Z :=
  match parse_Z s with
  | None => Err (NumError fn s "invalid syntax")
  | Some z => if int64_ok z then Ok z else Err (NumError fn s "value out of range")
  end.

(** [strconv.ParseInt(s, 10, 64)], and [strconv.Atoi] where [int] has 64 bits. *)
Definition ParseInt64 : string -> res Z := parse_int64 "ParseInt".
Definition Atoi : string -> res Z := parse_int64 "Atoi".

(** ** [path.Clean] and [path.Join] *)

(** The components of a cleaned path; [rooted] paths drop a leading [..]. *)
Definition clean_step (rooted : bool) (out : list string) (e : string) : list string :=
  if bool_decide (e = "" \/ e = ".") then out
  else if bool_decide (e = "..") then
    match last out with
    | None => if rooted then out else out ++ [e]
    | Some l => if bool_decide (l = "..") then out ++ [e] else removelast out
    end
  else out ++ [e].

Definition path_Clean (p : string) : string :=
  let rooted := HasPrefix p "/" in
  let out := foldl (clean_step rooted) [] (Split p "/") in
  if rooted then "/" +:+ Join out "/"
  else if bool_decide (out = []) then "." else Join out "/".

Definition path_Join (elems : list string) : string :=
  let ne := filter (fun e => e <> "") elems in
  if bool_decide (ne = []) then "" else path_Clean (Join ne "/").

(** ** [sort.Strings] *)
Definition sort_Strings (l : list string) : list string := merge_sort String.le l.

(** ** Lemmas *)

#[local] Arguments String.append : simpl nomatch.

Lemma str_app_nil_r s : s +:+ "" = s.
Proof. induction s as [|c s IH]; simpl; [done|by rewrite IH]. Qed.

Lemma str_app_assoc s1 s2 s3 : s1 +:+ (s2 +:+ s3) = (s1 +:+ s2) +:+ s3.
Proof. induction s1 as [|c s1 IH]; simpl; [done|by rewrite IH]. Qed.

Lemma str_app_length s1 s2 :
  String.length (s1 +:+ s2) = (String.length s1 + String.length s2)%nat.
Proof. induction s1 as [|c s1 IH]; simpl; [done|by rewrite IH]. Qed.

Lemma str_app_nil s1 s2 : s1 +:+ s2 = "" -> s1 = "" /\ s2 = "".
Proof. by destruct s1. Qed.

Lemma strip_prefix_Some p s r : strip_prefix p s = Some r <-> s = p +:+ r.
Proof.
  revert s. induction p as [|a p IH]; intros s; simpl; [naive_solver|].
  destruct s as [|b s]; [naive_solver|].
  case_bool_decide; [rewrite IH|]; naive_solver.
Qed.

Lemma strip_prefix_app p r : strip_prefix p (p +:+ r) = Some r.
Proof. by apply strip_prefix_Some. Qed.

Lemma strip_suffix_Some p s r : strip_suffix p s = Some r <-> s = r +:+ p.
Proof.
  revert r. induction s as [|c s IH]; intros r; simpl.
  - case_bool_decide as Hp; [subst|].
    + split; [naive_solver|]. intros H. by symmetry in H; apply str_app_nil in H as [-> _].
    + split; [done|]. intros H. by symmetry in H; apply str_app_nil in H as [_ ->].
  - case_bool_decide as Hp; [subst|].
    + split; [naive_solver|]. intros H.
      assert (String.length (String c s) = String.length (r +:+ String c s)) as Hl by congruence.
      rewrite str_app_length in Hl. destruct r; simpl in *; [done|lia].
    + rewrite fmap_Some. setoid_rewrite IH. destruct r as [|d r]; naive_solver.
Qed.

Lemma strip_suffix_app p r : strip_suffix p (r +:+ p) = Some r.
Proof. by apply strip_suffix_Some. Qed.

Lemma TrimPrefix_app p r : TrimPrefix (p +:+ r) p = r.
Proof. unfold TrimPrefix. by rewrite strip_prefix_app. Qed.

Lemma TrimSuffix_app p r : TrimSuffix (r +:+ p) p = r.
Proof. unfold TrimSuffix. by rewrite strip_suffix_app. Qed.

Lemma HasPrefix_spec s p : HasPrefix s p = true <-> exists r, s = p +:+ r.
Proof.
  unfold HasPrefix, is_Some. rewrite bool_decide_eq_true. by setoid_rewrite strip_prefix_Some.
Qed.

Lemma HasPrefix_app p r : HasPrefix (p +:+ r) p = true.
Proof. apply HasPrefix_spec. eauto. Qed.

Lemma cut_at_Some sep s b a : cut_at sep s = Some (b, a) -> s = b +:+ sep +:+ a.
Proof.
  revert b. induction s as [|c s IH]; intros b; simpl;
    destruct (strip_prefix sep _) as [r|] eqn:E; try naive_solver.
  - intros [= <- <-]. by apply strip_prefix_Some in E.
  - intros [= <- <-]. by apply strip_prefix_Some in E.
  - rewrite fmap_Some. intros ([b' a'] & Hc & [= -> ->]). simpl. by rewrite (IH _ Hc).
Qed.

(** *** Splitting on a one-character separator *)

(** The character [c] does not occur in the string. *)
Fixpoint no_char (c : Ascii.ascii) (s : string) : bool :=
  match s with
  | EmptyString => true
  | String d s' => negb (bool_decide (d = c)) && no_char c s'
  end.

Lemma no_char_app c s1 s2 : no_char c (s1 +:+ s2) = no_char c s1 && no_char c s2.
Proof. induction s1 as [|d s1 IH]; simpl; [done|]. by rewrite IH, andb_assoc. Qed.

Lemma HasPrefix_char c d s :
  HasPrefix (String d s) (String c "") = bool_decide (d = c).
Proof.
  unfold HasPrefix. simpl. destruct (decide (d = c)) as [->|Hd].
  - by rewrite (bool_decide_eq_true_2 (c = c)).
  - rewrite (bool_decide_eq_false_2 (c = d)) by congruence.
    by rewrite (bool_decide_eq_false_2 (d = c)).
Qed.

Section split_char.
Variable c : Ascii.ascii.
Abbreviation sep := (String c "").

Lemma Split_cons d s :
  Split (String d s) sep =
  if bool_decide (d = c) then "" :: Split s sep else cons_head d (Split s sep).
Proof. unfold Split. simpl. rewrite HasPrefix_char. by case_bool_decide. Qed.

Lemma Split_not_nil s : Split s sep <> [].
Proof.
  destruct s as [|d s]; [done|]. rewrite Split_cons.
  case_bool_decide; [done|]. by destruct (Split s sep).
Qed.

(** Joining the parts gives the string back. *)
Lemma Join_Split s : Join (Split s sep) sep = s.
Proof.
  induction s as [|d s IH]; [done|]. rewrite Split_cons.
  pose proof (Split_not_nil s) as Hn.
  case_bool_decide; subst; destruct (Split s sep) as [|x l]; try done.
  - change (Join ("" :: x :: l) sep) with (String c (Join (x :: l) sep)). by rewrite IH.
  - destruct l; simpl in *; [by rewrite IH|]. f_equal. by rewrite <- IH.
Qed.

Lemma Split_no_char s : no_char c s = true -> Split s sep = [s].
Proof.
  induction s as [|d s IH]; [done|]. rewrite Split_cons. simpl.
  rewrite andb_true_iff, negb_true_iff, bool_decide_eq_false. intros [Hd Hs].
  rewrite bool_decide_eq_false_2 by done. by rewrite IH.
Qed.

Lemma Split_app_sep s1 s2 :
  no_char c s1 = true -> Split (s1 +:+ sep +:+ s2) sep = s1 :: Split s2 sep.
Proof.
  induction s1 as [|d s1 IH]; simpl.
  - intros _. rewrite Split_cons. by rewrite bool_decide_eq_true_2.
  - rewrite andb_true_iff, negb_true_iff, bool_decide_eq_false. intros [Hd Hs].
    rewrite Split_cons, bool_decide_eq_false_2 by done.
    simpl in IH. by rewrite IH.
Qed.

(** No part contains the separator. *)
Lemma Split_parts_no_char s : Forall (fun p => no_char c p = true) (Split s sep).
Proof.
  induction s as [|d s IH]; [by repeat constructor|]. rewrite Split_cons.
  case_bool_decide as Hd; [by constructor|].
  destruct (Split s sep) as [|x l]; simpl; inversion_clear IH; repeat constructor; try done;
    simpl; rewrite bool_decide_eq_false_2 by done; done.
Qed.

(** Splitting a join of separator-free parts gives the parts back. *)
Lemma Split_Join l :
  l <> [] -> Forall (fun p => no_char c p = true) l -> Split (Join l sep) sep = l.
Proof.
  induction l as [|x [|y l] IH]; [done| |]; intros _ Hl; inversion_clear Hl as [|?? Hx Hl'].
  - by apply Split_no_char.
  - change (Join (x :: y :: l) sep) with (x +:+ sep +:+ Join (y :: l) sep).
    rewrite Split_app_sep by done. by rewrite IH.
Qed.

Lemma cut_at_no_char s : no_char c s = true -> cut_at sep s = None.
Proof.
  induction s as [|d s IH]; [done|]. simpl.
  rewrite andb_true_iff, negb_true_iff, bool_decide_eq_false. intros [Hd Hs].
  rewrite bool_decide_eq_false_2 by congruence. by rewrite IH.
Qed.

Lemma cut_at_app s1 s2 :
  no_char c s1 = true -> cut_at sep (s1 +:+ sep +:+ s2) = Some (s1, s2).
Proof.
  induction s1 as [|d s1 IH]; simpl.
  - intros _. by rewrite bool_decide_eq_true_2.
  - rewrite andb_true_iff, negb_true_iff, bool_decide_eq_false. intros [Hd Hs].
    rewrite bool_decide_eq_false_2 by congruence. simpl in IH. by rewrite IH.
Qed.
End split_char.

Lemma sort_Strings_perm l : sort_Strings l ≡ₚ l.
Proof. apply merge_sort_Permutation. Qed.

Lemma sort_Strings_sorted l : StronglySorted String.le (sort_Strings l).
Proof. apply StronglySorted_merge_sort; apply _. Qed.

Create Rewrite HintDb gostr.
#[export] Hint Rewrite strip_prefix_app strip_suffix_app TrimPrefix_app TrimSuffix_app
  str_app_nil_r : gostr.

(** *** Paths made of plain components *)

Definition slash : Ascii.ascii := Ascii.Ascii true true true true false true false false.

(** A component that [path.Clean] keeps. *)
Definition plain_seg (s : string) : Prop :=
  s <> "" /\ s <> "." /\ s <> ".." /\ no_char slash s = true.

Lemma plain_no_char l : Forall plain_seg l -> Forall (fun p => no_char slash p = true) l.
Proof. intros Hl. eapply Forall_impl; [exact Hl|]. by intros s (_ & _ & _ & ?). Qed.

(** [path.Clean] drops empty components and keeps plain ones. *)
Lemma clean_plain rooted l acc :
  Forall (fun s => s = "" \/ plain_seg s) l ->
  foldl (clean_step rooted) acc l = acc ++ filter (fun s => s <> "") l.
Proof.
  revert acc. induction l as [|x l IH]; intros acc Hl; simpl; [by rewrite app_nil_r|].
  inversion_clear Hl as [|?? Hx Hl']. unfold clean_step at 2.
  destruct Hx as [->|(H1 & H2 & H3 & _)].
  - rewrite bool_decide_eq_true_2 by tauto. rewrite filter_cons_False by tauto. by apply IH.
  - rewrite !bool_decide_eq_false_2 by tauto. rewrite filter_cons_True by done.
    rewrite IH by done. by rewrite <- app_assoc.
Qed.

Lemma Join_cons x l sep : l <> [] -> Join (x :: l) sep = x +:+ sep +:+ Join l sep.
Proof. by destruct l. Qed.

Lemma Join_app l1 l2 sep :
  l1 <> [] -> l2 <> [] -> Join (l1 ++ l2) sep = Join l1 sep +:+ sep +:+ Join l2 sep.
Proof.
  intros H1 H2. induction l1 as [|x l1 IH]; [done|]. destruct l1 as [|y l1].
  - simpl. by apply Join_cons.
  - change ((x :: y :: l1) ++ l2) with (x :: ((y :: l1) ++ l2)).
    rewrite !Join_cons by done. rewrite IH by done. by rewrite !str_app_assoc.
Qed.

Lemma path_Clean_Join x l :
  plain_seg x -> Forall (fun s => s = "" \/ plain_seg s) l ->
  path_Clean (Join (x :: l) "/") = Join (x :: filter (fun s => s <> "") l) "/".
Proof.
  intros Hx Hl. unfold path_Clean.
  assert (HasPrefix (Join (x :: l) "/") "/" = false) as ->.
  { destruct x as [|c x]; [by destruct Hx|]. destruct Hx as (_ & _ & _ & Hc).
    simpl in Hc. rewrite andb_true_iff, negb_true_iff in Hc. destruct Hc as [Hc _].
    destruct l; simpl; by rewrite HasPrefix_char. }
  rewrite (Split_Join slash); [|done|].
  - rewrite clean_plain by (constructor; tauto). rewrite filter_cons_True by apply Hx. done.
  - constructor; [apply Hx|]. eapply Forall_impl; [exact Hl|]. intros s [->|(_ & _ & _ & ?)]; done.
Qed.

Lemma filter_plain l : Forall plain_seg l -> filter (fun e => e <> "") l = l.
Proof.
  induction 1 as [|x l (H1 & _) Hl IH]; [done|]. rewrite filter_cons_True by done. by rewrite IH.
Qed.

Lemma path_Join_plain l : l <> [] -> Forall plain_seg l -> path_Join l = Join l "/".
Proof.
  intros Hn Hl. unfold path_Join. rewrite filter_plain by done.
  rewrite bool_decide_eq_false_2 by done. destruct l as [|x l]; [done|].
  inversion_clear Hl as [|?? Hx Hl']. rewrite path_Clean_Join; [|done|].
  - by rewrite filter_plain.
  - eapply Forall_impl; [exact Hl'|]. tauto.
Qed.

(** ** Decimal numerals

    What [%d] prints, [strconv.ParseInt] reads back. *)

Definition digit_ok (c : Ascii.ascii) : bool :=
  bool_decide (48 <= Z.of_nat (Ascii.nat_of_ascii c) <= 57).

Lemma pretty_digit (x : N) : (x < 10)%N ->
  Z.of_nat (Ascii.nat_of_ascii (pretty_N_char x)) = 48 + Z.of_N x.
Proof.
  intros Hx. assert (x = 0 \/ x = 1 \/ x = 2 \/ x = 3 \/ x = 4 \/ x = 5 \/ x = 6 \/ x = 7 \/ x = 8 \/ x = 9)%N
    as Hc by lia.
  destruct_or! Hc; subst x; reflexivity.
Qed.

Lemma digit_range (x : N) : 48 <= 48 + Z.of_N (x `mod` 10) <= 57.
Proof. pose proof (N.mod_lt x 10 ltac:(done)) as Hm. generalize dependent (x `mod` 10)%N. intros n Hm. lia. Qed.

Lemma parse_pretty_go (x : N) s : parse_digits 0 (pretty_N_go x s) = parse_digits (Z.of_N x) s.
Proof.
  revert s. induction (N.lt_wf_0 x) as [x _ IH]; intros s.
  assert (x = 0 \/ 0 < x)%N as [-> |Hx] by lia; [by rewrite pretty_N_go_0|].
  rewrite pretty_N_go_step, IH by (done || by apply N.div_lt). cbn [parse_digits].
  rewrite pretty_digit by (by apply N.mod_lt). rewrite bool_decide_eq_true_2 by apply digit_range.
  f_equal. pose proof (N.div_mod x 10 ltac:(done)) as Hd.
  generalize dependent (x `mod` 10)%N. generalize dependent (x `div` 10)%N. intros. lia.
Qed.

Fixpoint all_digits (s : string) : bool :=
  match s with EmptyString => true | String c s => digit_ok c && all_digits s end.

Lemma all_digits_go (x : N) s : all_digits s = true -> all_digits (pretty_N_go x s) = true.
Proof.
  revert s. induction (N.lt_wf_0 x) as [x _ IH]; intros s Hs.
  assert (x = 0 \/ 0 < x)%N as [-> |Hx] by lia; [by rewrite pretty_N_go_0|].
  rewrite pretty_N_go_step by done. apply IH; [by apply N.div_lt|]. cbn [all_digits]. rewrite Hs.
  unfold digit_ok. rewrite pretty_digit by (by apply N.mod_lt). by rewrite bool_decide_eq_true_2 by apply digit_range.
Qed.

Lemma pretty_Z_N (z : Z) : 0 <= z -> pretty z = pretty (Z.to_N z).
Proof. intros Hz. unfold pretty at 1, pretty_Z. by destruct z; [..|lia]. Qed.

Lemma all_digits_pretty (z : Z) : 0 <= z -> all_digits (pretty z) = true.
Proof.
  intros Hz. rewrite pretty_Z_N by done. unfold pretty, pretty_N.
  case_decide; [done|]. by apply all_digits_go.
Qed.

Lemma no_char_digits c s : digit_ok c = false -> all_digits s = true -> no_char c s = true.
Proof.
  intros Hc. induction s as [|d s IH]; cbn [all_digits no_char]; [done|].
  intros [Hd Hs]%andb_true_iff. rewrite IH by done. rewrite bool_decide_eq_false_2; [done|]. congruence.
Qed.

Lemma pretty_no_char c (z : Z) : digit_ok c = false -> 0 <= z -> no_char c (pretty z) = true.
Proof. intros Hc Hz. by apply no_char_digits, all_digits_pretty. Qed.

Lemma parse_Z_digits s : s <> "" -> all_digits s = true -> parse_Z s = parse_digits 0 s.
Proof.
  intros Hne Hs. destruct s as [|d s]; [done|]. cbn [all_digits] in Hs. apply andb_true_iff in Hs as [Hd _].
  unfold parse_Z. cbn [strip_prefix].
  rewrite !bool_decide_eq_false_2; [done|..]; by intros <-.
Qed.

Lemma pretty_not_empty (z : Z) : 0 <= z -> pretty z <> "".
Proof.
  intros Hz. rewrite pretty_Z_N by done. unfold pretty, pretty_N. case_decide as H0; [done|].
  intros E. pose proof (parse_pretty_go (Z.to_N z) "") as Hp. rewrite E in Hp. simpl in Hp.
  injection Hp as Hp. lia.
Qed.

Lemma parse_Z_pretty (z : Z) : 0 <= z -> parse_Z (pretty z) = Some z.
Proof.
  intros Hz. rewrite parse_Z_digits; [|by apply pretty_not_empty|by apply all_digits_pretty].
  rewrite pretty_Z_N by lia. unfold pretty, pretty_N. case_decide as H0; [replace z with 0 by lia; done|].
  rewrite parse_pretty_go. simpl. f_equal. lia.
Qed.

Lemma ParseInt64_pretty (z : Z) : 0 <= z < 2 ^ 63 -> ParseInt64 (pretty z) = Ok z.
Proof.
  intros Hz. unfold ParseInt64, parse_int64. rewrite parse_Z_pretty by lia.
  unfold int64_ok. by rewrite bool_decide_eq_true_2 by lia.
Qed.
