(* ===== verification/ApiTypes.v ===== *)
(** * The custom resources of [pkg/apis/pxc/v1]

    The [PerconaXtraDBCluster] and [PerconaXtraDBClusterBackup] objects as
    records.  A Go pointer is an [option], a [map[string]T] a [gmap string T],
    a width-limited integer a [Z].  The records hold the fields that a modelled
    operation reads or writes; fields that are only copied into pod templates
    (tolerations, node selectors, sidecar definitions and the like) are left
    out.  Timestamps and durations are nanoseconds. *)

From S2P Require Import Prelude GoStrings.

Record NamespacedName := mkNN { nn_namespace : string; nn_name : string }.

#[export] Instance NamespacedName_eq_dec : EqDecision NamespacedName.
Proof. solve_decision. Defined.
#[export] Instance NamespacedName_countable : Countable NamespacedName.
Proof.
  refine (inj_countable' (fun n => (nn_namespace n, nn_name n)) (fun p => mkNN p.1 p.2) _).
  by intros [].
Defined.

(** [metav1.ObjectMeta] *)
Record ObjectMeta := mkMeta {
  meta_Name : string;
  meta_Namespace : string;
  meta_UID : string;
  meta_Labels : gmap string string;
  meta_Annotations : gmap string string;
  meta_Finalizers : list string;
  meta_Generation : Z;
  meta_CreationTimestamp : Z;
  meta_DeletionTimestamp : option Z }.

#[export] Instance ObjectMeta_eq_dec : EqDecision ObjectMeta.
Proof. solve_decision. Defined.

Definition meta_key (m : ObjectMeta) : NamespacedName := mkNN (meta_Namespace m) (meta_Name m).

(** ** Application states *)

(** [AppState]; [AppStateUnset] is the empty string, and [ConditionTLS] is the type of
    a condition only. *)
Inductive AppState :=
| AppStateUnset | AppStateInit | AppStatePaused | AppStateStopping | AppStateReady | AppStateError
| ConditionTLS.

#[export] Instance AppState_eq_dec : EqDecision AppState.
Proof. solve_decision. Defined.

Definition AppState_string (s : AppState) : string :=
  match s with
  | AppStateUnset => "" | AppStateInit => "initializing" | AppStatePaused => "paused"
  | AppStateStopping => "stopping" | AppStateReady => "ready" | AppStateError => "error"
  | ConditionTLS => "tls"
  end.

(** [PXCBackupState]; [BackupNew] is the empty string. *)
Inductive PXCBackupState :=
| BackupNew | BackupSuspended | BackupStarting | BackupRunning | BackupFailed | BackupSucceeded.

#[export] Instance PXCBackupState_eq_dec : EqDecision PXCBackupState.
Proof. solve_decision. Defined.

(** [BackupStorageType]; [StorageOther ""] is the zero value. *)
Inductive BackupStorageType :=
| BackupStorageFilesystem | BackupStorageS3 | BackupStorageAzure | StorageOther (s : string).

#[export] Instance BackupStorageType_eq_dec : EqDecision BackupStorageType.
Proof. solve_decision. Defined.

(** ** Storage specifications *)

Record SecretKeySelector := mkSecretKey { sks_Name : string; sks_Key : string }.

#[export] Instance SecretKeySelector_eq_dec : EqDecision SecretKeySelector.
Proof. solve_decision. Defined.

Record BackupStorageS3Spec := mkS3 {
  s3_Bucket : string;
  s3_CredentialsSecret : string;
  s3_Region : string;
  s3_EndpointURL : string;
  s3_CABundle : option SecretKeySelector;
  s3_ForcePathStyle : bool }.

#[export] Instance BackupStorageS3Spec_eq_dec : EqDecision BackupStorageS3Spec.
Proof. solve_decision. Defined.

Record BackupStorageAzureSpec := mkAzure {
  az_CredentialsSecret : string;
  az_ContainerPath : string;
  az_Endpoint : string;
  az_StorageClass : string;
  az_BlockSize : Z;
  az_Concurrency : Z }.

#[export] Instance BackupStorageAzureSpec_eq_dec : EqDecision BackupStorageAzureSpec.
Proof. solve_decision. Defined.

(** [corev1.PersistentVolumeClaimSpec]: access modes and resource requests. *)
Record PVCSpec := mkPVCSpec {
  pvc_AccessModes : list string;
  pvc_Requests : gmap string Z }.

#[export] Instance PVCSpec_eq_dec : EqDecision PVCSpec.
Proof. solve_decision. Defined.

(** [VolumeSpec]; the contents of [emptyDir] and [hostPath] are not looked at. *)
Record VolumeSpec := mkVolumeSpec {
  vol_EmptyDir : option string;
  vol_HostPath : option string;
  vol_PersistentVolumeClaim : option PVCSpec }.

#[export] Instance VolumeSpec_eq_dec : EqDecision VolumeSpec.
Proof. solve_decision. Defined.

(** [corev1.PodSecurityContext] *)
Record PodSecurityContext := mkPodSC {
  psc_SupplementalGroups : list Z;
  psc_FSGroup : option Z }.

#[export] Instance PodSecurityContext_eq_dec : EqDecision PodSecurityContext.
Proof. solve_decision. Defined.

(** [corev1.ResourceRequirements]: quantities in their base unit (bytes, or
    thousandths of a CPU). *)
Record ResourceRequirements := mkResources {
  rr_Limits : gmap string Z;
  rr_Requests : gmap string Z }.

(** Where the value of an environment variable comes from: the text itself, a key of a
    secret (which may be optional), or a field of the pod. *)
Inductive EnvSource :=
| EnvValue (value : string)
| EnvSecret (name key : string) (opt : bool)
| EnvField (path : string).

Record EnvVar := mkEnv { en_Name : string; en_Source : EnvSource }.

(** [BackupContainerOptions], with the arguments of the three programs. *)
Record BackupContainerOptions := mkContainerOptions {
  co_Env : list EnvVar;
  co_Xtrabackup : list string;
  co_Xbcloud : list string;
  co_Xbstream : list string }.

(** [st_Rest] stands for the fields that are only passed on to the pods. *)
Record BackupStorageSpec := mkStorage {
  st_Type : BackupStorageType;
  st_S3 : option BackupStorageS3Spec;
  st_Azure : option BackupStorageAzureSpec;
  st_Volume : option VolumeSpec;
  st_Annotations : gmap string string;
  st_Labels : gmap string string;
  st_PodSecurityContext : option PodSecurityContext;
  st_VerifyTLS : option bool;
  st_Resources : ResourceRequirements;
  st_ContainerOptions : option BackupContainerOptions;
  st_Rest : string }.

Inductive RetentionType := RetentionCount | RetentionOther (s : string).

#[export] Instance RetentionType_eq_dec : EqDecision RetentionType.
Proof. solve_decision. Defined.

Record PXCScheduledBackupRetention := mkRetention {
  ret_Type : RetentionType;
  ret_Count : Z;
  ret_DeleteFromStorage : bool }.

#[export] Instance Retention_eq_dec : EqDecision PXCScheduledBackupRetention.
Proof. solve_decision. Defined.

Record PXCScheduledBackupSchedule := mkSchedule {
  sch_Name : string;
  sch_Schedule : string;
  sch_Keep : Z;
  sch_Retention : option PXCScheduledBackupRetention;
  sch_StorageName : string }.

#[export] Instance Schedule_eq_dec : EqDecision PXCScheduledBackupSchedule.
Proof. solve_decision. Defined.

(** [TimeBetweenUploads] and [TimeoutSeconds] are [float64] seconds; the
    operator only compares them with zero and assigns whole seconds. *)
Record PITRSpec := mkPITR {
  pitr_Enabled : bool;
  pitr_StorageName : string;
  pitr_TimeBetweenUploads : Z;
  pitr_TimeoutSeconds : Z;
  pitr_Resources : ResourceRequirements }.

Record BackupSpec := mkBackupSpec {
  bs_AllowParallel : option bool;
  bs_Image : string;
  bs_ImagePullPolicy : string;
  bs_Schedule : list PXCScheduledBackupSchedule;
  bs_Storages : gmap string BackupStorageSpec;
  bs_PITR : PITRSpec;
  bs_StartingDeadlineSeconds : option Z;
  bs_SuspendedDeadlineSeconds : option Z;
  bs_RunningDeadlineSeconds : option Z;
  bs_ActiveDeadlineSeconds : option Z;
  bs_BackoffLimit : option Z;
  bs_TTLSecondsAfterFinished : option Z;
  bs_ImagePullSecrets : list string;
  bs_ServiceAccountName : string }.

(** ** The cluster specification *)

Record UnsafeFlags := mkUnsafe {
  unsafe_TLS : bool;
  unsafe_PXCSize : bool;
  unsafe_ProxySize : bool;
  unsafe_BackupIfUnhealthy : bool }.

Record ReplicationSource := mkSource {
  src_Host : string; src_Port : Z; src_Weight : Z }.

Record ReplicationChannelConfig := mkChannelConfig {
  cc_SourceRetryCount : Z;
  cc_SourceConnectRetry : Z;
  cc_SSL : bool;
  cc_SSLSkipVerify : bool;
  cc_CA : string }.

#[export] Instance ReplicationChannelConfig_eq_dec : EqDecision ReplicationChannelConfig.
Proof. solve_decision. Defined.

Record ReplicationChannel := mkChannel {
  ch_Name : string;
  ch_IsSource : bool;
  ch_SourcesList : list ReplicationSource;
  ch_Config : option ReplicationChannelConfig }.

(** [cmmeta.ObjectReference] *)
Record IssuerRef := mkIssuerRef {
  ir_Name : string;
  ir_Kind : string;
  ir_Group : string }.

Record TLSSpec := mkTLS {
  tls_Enabled : option bool;
  tls_SANs : list string;
  tls_IssuerConf : option IssuerRef;
  tls_Duration : option Z;
  tls_CADuration : option Z }.

Record UpgradeOptions := mkUpgradeOptions {
  up_VersionServiceEndpoint : string;
  up_Apply : string;
  up_Schedule : string }.

(** [corev1.Probe], as far as the defaults touch it. *)
Record Probe := mkProbe {
  pr_InitialDelaySeconds : Z;
  pr_TimeoutSeconds : Z;
  pr_PeriodSeconds : Z;
  pr_SuccessThreshold : Z;
  pr_FailureThreshold : Z }.

(** [PodAffinity]; an [Advanced] affinity is kept opaque. *)
Record PodAffinity := mkAffinity {
  aff_TopologyKey : option string;
  aff_Advanced : option string }.

(** [PodDisruptionBudgetSpec] with integer bounds. *)
Record PodDisruptionBudgetSpec := mkPDB {
  pdb_MinAvailable : option Z;
  pdb_MaxUnavailable : option Z }.

Record ExtraPVC := mkExtraPVC {
  ep_Name : string;
  ep_ClaimName : string;
  ep_MountPath : string;
  ep_SubPath : string;
  ep_ReadOnly : bool }.

Record ServiceExpose := mkExpose {
  exp_Enabled : bool;
  exp_Type : string;
  exp_LoadBalancerClass : option string;
  exp_LoadBalancerSourceRanges : list string;
  exp_Annotations : gmap string string;
  exp_Labels : gmap string string;
  exp_ExternalTrafficPolicy : string;
  exp_InternalTrafficPolicy : string;
  exp_LoadBalancerIP : string }.

(** ** Containers and volumes *)

Record VolumeMount := mkMount {
  mnt_Name : string;
  mnt_MountPath : string;
  mnt_SubPath : string;
  mnt_ReadOnly : bool }.

(** [corev1.Container]; [ctr_Rest] stands for the fields that are only passed on. *)
Record Container := mkContainer {
  ctr_Name : string;
  ctr_Image : string;
  ctr_ImagePullPolicy : string;
  ctr_Command : list string;
  ctr_Args : list string;
  ctr_Env : list EnvVar;
  ctr_EnvFrom : list (string * bool);
  ctr_Ports : list (string * Z);
  ctr_Mounts : list VolumeMount;
  ctr_Resources : ResourceRequirements;
  ctr_Rest : string }.

(** [corev1.Volume]; a projected volume has the names of its secrets, [None] for a source
    that is no secret. *)
Inductive VolumeSource :=
| VolSecret (name : string) (opt : bool)
| VolConfigMap (name : string) (opt : bool)
| VolProjected (secrets : list (option string))
| VolClaim (claim : string) (readOnly : bool)
| VolEmptyDir
| VolOther (s : string).

Record PodVolume := mkPodVolume { pv_Name : string; pv_Source : VolumeSource }.

(** [corev1.PersistentVolumeClaim] as a template. *)
Record ClaimTemplate := mkClaimTemplate {
  clm_Name : string;
  clm_Labels : gmap string string;
  clm_Spec : PVCSpec }.

(** [PodSpec], shared by PXC, HAProxy and ProxySQL; [pod_Rest] stands for the fields that
    are only passed on to the pods. *)
Record PodSpec := mkPodSpec {
  pod_Enabled : bool;
  pod_Size : Z;
  pod_Image : string;
  pod_Resources : ResourceRequirements;
  pod_VolumeSpec : option VolumeSpec;
  pod_Affinity : option PodAffinity;
  pod_Configuration : string;
  pod_PodDisruptionBudget : option PodDisruptionBudgetSpec;
  pod_VaultSecretName : string;
  pod_SSLSecretName : string;
  pod_SSLInternalSecretName : string;
  pod_EnvVarsSecretName : string;
  pod_TerminationGracePeriodSeconds : option Z;
  pod_ReadinessInitialDelaySeconds : option Z;
  pod_ReadinessProbes : Probe;
  pod_LivenessInitialDelaySeconds : option Z;
  pod_LivenessProbes : Probe;
  pod_PodSecurityContext : option PodSecurityContext;
  pod_ServiceAccountName : string;
  pod_ImagePullPolicy : string;
  pod_ExtraPVCs : list ExtraPVC;
  pod_Sidecars : option (list Container);
  pod_SidecarVolumes : list PodVolume;
  pod_HookScript : string;
  pod_Annotations : gmap string string;
  pod_Labels : gmap string string;
  pod_SidecarPVCs : list ClaimTemplate;
  pod_SidecarResources : ResourceRequirements;
  pod_Rest : string }.

(** [PXCSpec]; its embedded [*PodSpec] is taken to be allocated. *)
Record PXCSpec := mkPXCSpec {
  pxc_AutoRecovery : option bool;
  pxc_ReplicationChannels : list ReplicationChannel;
  pxc_Expose : ServiceExpose;
  pxc_PodSpec : PodSpec;
  pxc_MySQLAllocator : string }.

(** [HAProxyHealthCheckSpec]; [ha_OnlyReaders] is a field of [ReplicasServiceExpose]. *)
Record HAProxyHealthCheckSpec := mkHealthCheck {
  hc_Interval : option Z;
  hc_Fall : option Z;
  hc_Rise : option Z }.

Record HAProxySpec := mkHAProxySpec {
  ha_PodSpec : PodSpec;
  ha_ExposePrimary : ServiceExpose;
  ha_ExposeReplicas : option ServiceExpose;
  ha_ReplicasServiceEnabled : option bool;
  ha_HealthCheck : option HAProxyHealthCheckSpec;
  ha_OnlyReaders : bool }.

Record ProxySQLSchedulerSpec := mkScheduler {
  sch_Enabled : bool;
  sch_CheckTimeoutMilliseconds : Z;
  sch_WriterIsAlsoReader : bool;
  sch_SuccessThreshold : Z;
  sch_FailureThreshold : Z;
  sch_PingTimeoutMilliseconds : Z;
  sch_NodeCheckIntervalMilliseconds : Z;
  sch_MaxConnections : Z }.

Record ProxySQLSpec := mkProxySQLSpec {
  ps_PodSpec : PodSpec;
  ps_Expose : ServiceExpose;
  ps_Scheduler : ProxySQLSchedulerSpec }.

Record PMMSpec := mkPMM {
  pmm_Enabled : bool;
  pmm_Image : string;
  pmm_Resources : ResourceRequirements;
  pmm_ImagePullPolicy : string;
  pmm_ServerHost : string;
  pmm_ServerUser : string;
  pmm_CustomClusterName : string;
  pmm_PxcParams : string;
  pmm_ProxysqlParams : string }.

Record LogCollectorSpec := mkLogCollector {
  lc_Enabled : bool;
  lc_Resources : ResourceRequirements;
  lc_ImagePullPolicy : string;
  lc_Image : string;
  lc_Configuration : string;
  lc_HookScript : string }.

Record PasswordGenerationOptions := mkPwGen {
  pw_Symbols : string;
  pw_MaxLength : Z;
  pw_MinLength : Z }.

Record User := mkUser {
  user_Name : string;
  user_PasswordSecretRef : option SecretKeySelector;
  user_DBs : list string;
  user_Hosts : list string;
  user_Grants : list string;
  user_WithGrantOption : bool }.

Record PerconaXtraDBClusterSpec := mkClusterSpec {
  spec_Platform : string;
  spec_CRVersion : string;
  spec_Pause : bool;
  spec_SecretsName : string;
  spec_PasswordGenerationOptions : option PasswordGenerationOptions;
  spec_VaultSecretName : string;
  spec_SSLSecretName : string;
  spec_SSLInternalSecretName : string;
  spec_LogCollectorSecretName : string;
  spec_TLS : option TLSSpec;
  spec_PXC : option PXCSpec;
  spec_ProxySQL : option ProxySQLSpec;
  spec_HAProxy : option HAProxySpec;
  spec_PMM : option PMMSpec;
  spec_LogCollector : option LogCollectorSpec;
  spec_Backup : option BackupSpec;
  spec_UpdateStrategy : string;
  spec_UpgradeOptions : UpgradeOptions;
  spec_AllowUnsafeConfig : bool;
  spec_Unsafe : UnsafeFlags;
  spec_VolumeExpansionEnabled : bool;
  spec_InitContainerResources : option ResourceRequirements;
  spec_EnableCRValidationWebhook : option bool;
  spec_Users : list User;
  spec_IgnoreAnnotations : list string;
  spec_IgnoreLabels : list string;
  spec_InitImage : string;
  spec_InitContainerImage : string }.

(** ** The cluster status *)

Record ClusterCondition := mkCondition {
  cond_Status : string;
  cond_Type : AppState;
  cond_LastTransitionTime : Z;
  cond_Reason : string;
  cond_Message : string }.

#[export] Instance ClusterCondition_eq_dec : EqDecision ClusterCondition.
Proof. solve_decision. Defined.

(** [AppStatus] with its embedded [ComponentStatus]. *)
Record AppStatus := mkAppStatus {
  app_Status : AppState;
  app_Message : string;
  app_Version : string;
  app_Image : string;
  app_LabelSelectorPath : string;
  app_Size : Z;
  app_Ready : Z }.

(** [ComponentStatus] of the parts without pods of their own. *)
Record ComponentStatus := mkComponentStatus {
  comp_Version : string;
  comp_Image : string }.

(** [ReplicationChannelStatus]: the name of a channel with its configuration. *)
Record ReplicationChannelStatus := mkChannelStatus {
  rcs_Name : string;
  rcs_Config : ReplicationChannelConfig }.

Record PerconaXtraDBClusterStatus := mkClusterStatus {
  cs_PXC : AppStatus;
  cs_ProxySQL : AppStatus;
  cs_HAProxy : AppStatus;
  cs_Host : string;
  cs_Messages : list string;
  cs_Status : AppState;
  cs_Conditions : list ClusterCondition;
  cs_ObservedGeneration : Z;
  cs_Size : Z;
  cs_Ready : Z;
  cs_PXCReplication : option (list ReplicationChannelStatus);
  cs_Backup : ComponentStatus;
  cs_PMM : ComponentStatus;
  cs_LogCollector : ComponentStatus }.

Record PerconaXtraDBCluster := mkCluster {
  cluster_Meta : ObjectMeta;
  cluster_Spec : PerconaXtraDBClusterSpec;
  cluster_Status : PerconaXtraDBClusterStatus }.

(** ** Backups *)

Record PXCBackupSpec := mkBcpSpec {
  bsp_PXCCluster : string;
  bsp_StorageName : string;
  bsp_StartingDeadlineSeconds : option Z;
  bsp_SuspendedDeadlineSeconds : option Z;
  bsp_RunningDeadlineSeconds : option Z;
  bsp_ActiveDeadlineSeconds : option Z;
  bsp_ContainerOptions : option BackupContainerOptions }.

Record PXCBackupStatus := mkBcpStatus {
  bst_State : PXCBackupState;
  bst_Error : string;
  bst_CompletedAt : option Z;
  bst_Destination : string;
  bst_StorageName : string;
  bst_S3 : option BackupStorageS3Spec;
  bst_Azure : option BackupStorageAzureSpec;
  bst_PVC : option PVCSpec;
  bst_StorageType : BackupStorageType;
  bst_Image : string;
  bst_SSLSecretName : string;
  bst_SSLInternalSecretName : string;
  bst_VaultSecretName : string;
  bst_VerifyTLS : option bool;
  bst_LastScheduled : option Z;
  bst_Conditions : list (string * bool);
  bst_LatestRestorableTime : option Z }.

#[export] Instance PXCBackupStatus_eq_dec : EqDecision PXCBackupStatus.
Proof. solve_decision. Defined.

Record PerconaXtraDBClusterBackup := mkBcp {
  bcp_Meta : ObjectMeta;
  bcp_Spec : PXCBackupSpec;
  bcp_Status : PXCBackupStatus }.

(** ** Versions

    [github.com/hashicorp/go-version]: which strings are versions, and their
    comparison (-1, 0 or 1). *)
Class VersionLib := {
  ver_valid : string -> bool;
  ver_compare : string -> string -> Z }.

(** Dotted numbers, compared segment by segment with missing segments zero:
    an instance for evaluation. *)
Definition dotted_parse (s : string) : option (list Z) := mapM (parse_digits 0) (Split s ".").

Fixpoint dotted_compare (l1 l2 : list Z) : Z :=
  match l1, l2 with
  | [], l2 => if existsb (Z.ltb 0) l2 then -1 else 0
  | l1, [] => if existsb (Z.ltb 0) l1 then 1 else 0
  | x :: l1', y :: l2' =>
      if bool_decide (x < y) then -1 else if bool_decide (y < x) then 1
      else dotted_compare l1' l2'
  end.

Definition dotted_versions : VersionLib := {|
  ver_valid s := negb (bool_decide (s = "")) && bool_decide (is_Some (dotted_parse s));
  ver_compare s1 s2 := dotted_compare (default [] (dotted_parse s1)) (default [] (dotted_parse s2)) |}.

(** ** Accessors of the cluster object *)

Definition cluster_Name (cr : PerconaXtraDBCluster) : string := meta_Name (cluster_Meta cr).
Definition cluster_Namespace (cr : PerconaXtraDBCluster) : string :=
  meta_Namespace (cluster_Meta cr).

(** [GetAllowParallel]: parallel backups are allowed unless switched off. *)
Definition GetAllowParallel (b : BackupSpec) : bool := default true (bs_AllowParallel b).

Definition GetRetention (s : PXCScheduledBackupSchedule) : PXCScheduledBackupRetention :=
  match sch_Retention s with
  | Some r => r
  | None => mkRetention RetentionCount (sch_Keep s) true
  end.

Definition IsValidCountRetention (r : PXCScheduledBackupRetention) : bool :=
  bool_decide (ret_Type r = RetentionCount) && bool_decide (0 < ret_Count r).

Definition spec_HAProxyEnabled (s : PerconaXtraDBClusterSpec) : bool :=
  match spec_HAProxy s with Some h => pod_Enabled (ha_PodSpec h) | None => false end.

Definition spec_ProxySQLEnabled (s : PerconaXtraDBClusterSpec) : bool :=
  match spec_ProxySQL s with Some p => pod_Enabled (ps_PodSpec p) | None => false end.

Definition HAProxyEnabled (cr : PerconaXtraDBCluster) : bool :=
  spec_HAProxyEnabled (cluster_Spec cr).

Definition ProxySQLEnabled (cr : PerconaXtraDBCluster) : bool :=
  spec_ProxySQLEnabled (cluster_Spec cr).

Definition PITREnabled (cr : PerconaXtraDBCluster) : bool :=
  match spec_Backup (cluster_Spec cr) with
  | Some b => pitr_Enabled (bs_PITR b)
  | None => false
  end.

Definition AnnotationPVCResizeInProgress : string := "percona.com/pvc-resize-in-progress".

Definition PVCResizeInProgress (cr : PerconaXtraDBCluster) : bool :=
  bool_decide (is_Some (meta_Annotations (cluster_Meta cr) !! AnnotationPVCResizeInProgress)).

(** [CanBackup]: [None] is a nil error. *)
Definition CanBackup (cr : PerconaXtraDBCluster) : option error :=
  let st := cluster_Status cr in
  if bool_decide (cs_Status st = AppStateReady) then None
  else if negb (unsafe_BackupIfUnhealthy (spec_Unsafe (cluster_Spec cr))) then
    Some (ErrNew ("unsafe.backupIfUnhealthy must be true to run backup on cluster with status "
                  +:+ AppState_string (cs_Status st)))
  else if bool_decide (app_Ready (cs_PXC st) < 1) then
    Some (ErrNew "there are no ready PXC nodes")
  else None.

(** [CompareVersionWith]: [v.Must] panics on a CR version that does not parse.
    The result is negative when the CR version is the smaller one. *)
Definition CompareVersionWith `{VersionLib} (cr : PerconaXtraDBCluster) (ver : string) : res Z :=
  if ver_valid (spec_CRVersion (cluster_Spec cr))
  then Ok (ver_compare (spec_CRVersion (cluster_Spec cr)) ver)
  else Panic.

(** ** The cluster object in memory

    The functions of the cluster controller work on the object a pass has read,
    and change it in place. *)

(** The world and the cluster the pass works on. *)
Record VW (W : Type) := mkVW { vw_w : W; vw_cr : PerconaXtraDBCluster }.
Arguments mkVW {W}.
Arguments vw_w {W}.
Arguments vw_cr {W}.

Definition onV {W A} (m : M W A) : M (VW W) A := fun s =>
  let '(w', r) := m (vw_w s) in (mkVW w' (vw_cr s), r).
Definition getCr {W} : M (VW W) PerconaXtraDBCluster := gets vw_cr.
Definition setCr {W} (cr : PerconaXtraDBCluster) : M (VW W) unit := modify (fun s => mkVW (vw_w s) cr).
