(* ===== verification/Heap.v ===== *)
(** * [container/heap]

    The binary heap of Go's standard library, on a list with an integer key per
    element, as [minHeap] of [pkg/controller/pxc/backup.go] instantiates it:
    [Less(i, j)] compares keys, [Push] appends, [Pop] takes the last element. *)

From S2P Require Import Prelude.
From Stdlib Require Import Arith.

Section heap.
Context {A : Type} `{Inhabited A} (key : A -> Z).

Definition Less (h : list A) (i j : nat) : bool := bool_decide (key (h !!! i) < key (h !!! j)).
Definition Swap (h : list A) (i j : nat) : list A := <[i := h !!! j]> (<[j := h !!! i]> h).

(** [heap.up]; the index decreases, so [S j] steps are enough. *)
Fixpoint up (fuel : nat) (h : list A) (j : nat) : list A :=
  match fuel with
  | O => h
  | S fuel' =>
      let i := ((j - 1) / 2)%nat in
      if bool_decide (i = j) || negb (Less h j i) then h else up fuel' (Swap h i j) i
  end.

(** [heap.down] on the first [n] elements; the index grows, so [n] steps are
    enough. *)
Fixpoint down (fuel : nat) (h : list A) (i n : nat) : list A :=
  match fuel with
  | O => h
  | S fuel' =>
      let j1 := (2 * i + 1)%nat in
      if bool_decide (n ≤ j1)%nat then h else
      let j2 := (j1 + 1)%nat in
      let j := if bool_decide (j2 < n)%nat && Less h j2 j1 then j2 else j1 in
      if negb (Less h j i) then h else down fuel' (Swap h i j) j n
  end.

Definition heap_Push (h : list A) (x : A) : list A :=
  up (S (length h)) (h ++ [x]) (length h).

(** The element and the heap without it. *)
Definition heap_Pop (h : list A) : A * list A :=
  let n := (length h - 1)%nat in
  let h := down n (Swap h 0 n) 0 n in
  (h !!! n, take n h).

(** ** Keys by index *)

Definition kat (h : list A) (i : nat) : Z := key (h !!! i).
Definition par (i : nat) : nat := ((i - 1) / 2)%nat.

(** The first [n] elements are a min-heap. *)
Definition Heap (n : nat) (h : list A) : Prop :=
  forall i, (0 < i < n)%nat -> kat h (par i) ≤ kat h i.

Lemma par_lt i : (0 < i)%nat -> (par i < i)%nat.
Proof. intros Hi. unfold par. apply Nat.Div0.div_lt_upper_bound; lia. Qed.
Lemma par_children i k : (0 < k)%nat -> par k = i -> k = (2 * i + 1)%nat \/ k = (2 * i + 2)%nat.
Proof.
  intros Hk Hp. unfold par in Hp.
  pose proof (Nat.div_mod_eq (k - 1) 2). pose proof (Nat.mod_upper_bound (k - 1) 2). lia.
Qed.
Lemma par_left i : par (2 * i + 1) = i.
Proof. unfold par. replace (2 * i + 1 - 1)%nat with (i * 2)%nat by lia. by rewrite Nat.div_mul. Qed.
Lemma par_right i : par (2 * i + 2) = i.
Proof.
  unfold par. replace (2 * i + 2 - 1)%nat with (1 + i * 2)%nat by lia.
  rewrite Nat.div_add by lia. done.
Qed.

Lemma Swap_length h i j : length (Swap h i j) = length h.
Proof. unfold Swap. by rewrite !length_insert. Qed.

Lemma kat_Swap h i j k :
  (i < length h)%nat -> (j < length h)%nat ->
  kat (Swap h i j) k = if decide (k = i) then kat h j else if decide (k = j) then kat h i else kat h k.
Proof.
  intros Hi Hj. unfold kat, Swap. destruct (decide (k = i)) as [->|Hki].
  - by rewrite list_lookup_total_insert_eq by (by rewrite length_insert).
  - rewrite list_lookup_total_insert_ne by done. destruct (decide (k = j)) as [->|Hkj].
    + by rewrite list_lookup_total_insert_eq.
    + by rewrite list_lookup_total_insert_ne.
Qed.

Lemma Swap_l h i j : (i < length h)%nat -> (j < length h)%nat -> kat (Swap h i j) i = kat h j.
Proof. intros. rewrite kat_Swap by done. by rewrite decide_True. Qed.
Lemma Swap_r h i j : (i < length h)%nat -> (j < length h)%nat -> kat (Swap h i j) j = kat h i.
Proof. intros. rewrite kat_Swap by done. repeat case_decide; congruence. Qed.
Lemma Swap_ne h i j k : (i < length h)%nat -> (j < length h)%nat -> k <> i -> k <> j ->
  kat (Swap h i j) k = kat h k.
Proof. intros. rewrite kat_Swap by done. by rewrite !decide_False. Qed.

Lemma Swap_Permutation h i j : (i < length h)%nat -> (j < length h)%nat -> Swap h i j ≡ₚ h.
Proof.
  intros Hi Hj. unfold Swap.
  destruct (lookup_lt_is_Some_2 h i Hi) as [x Hx]. destruct (lookup_lt_is_Some_2 h j Hj) as [y Hy].
  rewrite (list_lookup_total_correct _ _ _ Hx), (list_lookup_total_correct _ _ _ Hy).
  symmetry. apply Permutation_inj. split; [by rewrite !length_insert|].
  exists (fun k => if decide (k = i) then j else if decide (k = j) then i else k). split.
  - intros a b. repeat case_decide; congruence.
  - intros k. destruct (decide (k = i)) as [->|Hki].
    + destruct (decide (j = i)) as [->|Hji].
      * rewrite list_lookup_insert_eq by (by rewrite length_insert). congruence.
      * rewrite list_lookup_insert_ne by done. by rewrite list_lookup_insert_eq.
    + destruct (decide (k = j)) as [->|Hkj].
      * by rewrite list_lookup_insert_eq by (by rewrite length_insert).
      * by rewrite !list_lookup_insert_ne.
Qed.

(** ** [up] *)

(** A heap but for [j], whose key may be too small. *)
Definition up_inv (n j : nat) (h : list A) : Prop :=
  (forall k, (0 < k < n)%nat -> k <> j -> kat h (par k) ≤ kat h k) /\
  (forall k, (0 < k < n)%nat -> par k = j -> (0 < j)%nat -> kat h (par j) ≤ kat h k).

Lemma up_spec fuel h j :
  (j < fuel)%nat -> (j < length h)%nat -> up_inv (length h) j h ->
  Heap (length h) (up fuel h j) /\ up fuel h j ≡ₚ h.
Proof.
  revert h j. induction fuel as [|fuel IH]; intros h j Hf Hj [H1 H2]; [lia|].
  cbn [up]. cbv zeta. fold (par j). case_bool_decide as Hij; simpl.
  { assert (j = 0)%nat as ->.
    { destruct (decide (j = 0%nat)) as [|Hj0]; [done|]. pose proof (par_lt j ltac:(lia)). lia. }
    split; [|done]. intros k Hk. apply H1; [done|lia]. }
  assert (0 < j)%nat as Hj0 by (destruct (decide (j = 0%nat)) as [->|]; [done|lia]). pose proof (par_lt j Hj0) as Hlt.
  unfold Less. fold (kat h j). fold (kat h (par j)). case_bool_decide as Hless; simpl.
  2: { split; [|done]. intros k Hk. destruct (decide (k = j)) as [->|]; [lia|by apply H1]. }
  destruct (IH (Swap h (par j) j) (par j)) as [Hh Hp]; [lia|rewrite Swap_length; lia| |].
  - rewrite Swap_length. split.
    + intros k Hk Hkp. destruct (decide (k = j)) as [->|Hkj]; [rewrite Swap_l, Swap_r by lia; lia|].
      rewrite (Swap_ne _ _ _ k) by lia. specialize (H1 k Hk Hkj).
      destruct (decide (par k = par j)) as [Hpp|]; [rewrite Hpp in *; rewrite Swap_l by lia; lia|].
      destruct (decide (par k = j)) as [Hpj|]; [rewrite Hpj, Swap_r by lia; by apply H2|].
      by rewrite Swap_ne by lia.
    + intros k Hk Hkp H0. pose proof (par_lt (par j)).
      assert (kat h (par (par j)) ≤ kat h (par j)) by (apply H1; lia).
      rewrite (Swap_ne _ _ _ (par (par j))) by lia.
      destruct (decide (k = j)) as [->|Hkj]; [rewrite Swap_r by lia; lia|].
      assert (k <> par j) by (pose proof (par_lt k); lia).
      rewrite Swap_ne by lia. specialize (H1 k Hk Hkj). rewrite Hkp in H1. lia.
  - rewrite Swap_length in Hh. split; [done|]. rewrite Hp. apply Swap_Permutation; lia.
Qed.

Lemma heap_Push_spec h x :
  Heap (length h) h -> Heap (S (length h)) (heap_Push h x) /\ heap_Push h x ≡ₚ x :: h.
Proof.
  intros Hh. unfold heap_Push.
  destruct (up_spec (S (length h)) (h ++ [x]) (length h)) as [Hu Hp]; [lia|rewrite length_app; simpl; lia| |].
  - rewrite length_app. simpl. split; [|intros k Hk Hkp; pose proof (par_lt k); lia].
    intros k Hk Hkn. unfold kat. pose proof (par_lt k).
    rewrite !lookup_total_app_l by lia. apply Hh. lia.
  - rewrite length_app in Hu. simpl in Hu. rewrite Nat.add_1_r in Hu. split; [done|].
    rewrite Hp. by rewrite Permutation_app_comm.
Qed.

(** ** [down] *)

(** A heap on the first [n] elements but for [i], whose key may be too large. *)
Definition down_inv (n i : nat) (h : list A) : Prop :=
  (forall k, (0 < k < n)%nat -> par k <> i -> kat h (par k) ≤ kat h k) /\
  (forall k, (0 < k < n)%nat -> par k = i -> (0 < i)%nat -> kat h (par i) ≤ kat h k).

(** The smaller child, as [down] selects it. *)
Lemma down_child h i n :
  (2 * i + 1 < n)%nat ->
  exists j, (if bool_decide (2 * i + 1 + 1 < n)%nat && Less h (2 * i + 1 + 1) (2 * i + 1)
             then (2 * i + 1 + 1)%nat else (2 * i + 1)%nat) = j /\
    (i < j < n)%nat /\ par j = i /\ forall k, (0 < k < n)%nat -> par k = i -> kat h j ≤ kat h k.
Proof.
  intros Hn. replace (2 * i + 1 + 1)%nat with (2 * i + 2)%nat by lia.
  eexists; split; [done|]. unfold Less. fold (kat h (2 * i + 2)) (kat h (2 * i + 1)).
  case_bool_decide as H2; cbn [andb]; [case_bool_decide as Hl|].
  - split; [lia|]. split; [apply par_right|]. intros k Hk Hp.
    destruct (par_children i k ltac:(lia) Hp) as [->| ->]; lia.
  - split; [lia|]. split; [apply par_left|]. intros k Hk Hp.
    destruct (par_children i k ltac:(lia) Hp) as [->| ->]; lia.
  - split; [lia|]. split; [apply par_left|]. intros k Hk Hp.
    destruct (par_children i k ltac:(lia) Hp) as [->| ->]; lia.
Qed.

Lemma down_spec fuel h i n :
  (n ≤ i + fuel)%nat -> (n ≤ length h)%nat -> (i < length h)%nat -> down_inv n i h ->
  Heap n (down fuel h i n) /\ down fuel h i n ≡ₚ h /\ drop n (down fuel h i n) = drop n h.
Proof.
  revert h i. induction fuel as [|fuel IH]; intros h i Hf Hn Hi [H1 H2]; cbn [down]; cbv zeta.
  { split; [|done]. intros k Hk. apply H1; [done|]. pose proof (par_lt k). lia. }
  case_bool_decide as Hleaf.
  { split; [|done]. intros k Hk. apply H1; [done|]. intros Hp.
    destruct (par_children i k ltac:(lia) Hp) as [->| ->]; lia. }
  destruct (down_child h i n) as (j & -> & Hj & Hpj & Hmin); [lia|].
  unfold Less. fold (kat h j) (kat h i). case_bool_decide as Hless; cbn [negb].
  2: { split; [|done]. intros k Hk. destruct (decide (par k = i)) as [Hp|]; [|by apply H1].
       specialize (Hmin k Hk Hp). rewrite Hp. lia. }
  destruct (IH (Swap h i j) j) as (Hh & Hp & Hd); [lia|rewrite Swap_length; lia..| |].
  - split.
    + intros k Hk Hkj. destruct (decide (k = i)) as [->|Hki].
      { pose proof (par_lt i). rewrite Swap_l, (Swap_ne _ _ _ (par i)) by lia.
        apply H2; [lia|done|lia]. }
      destruct (decide (k = j)) as [->|Hkj'].
      { rewrite Hpj, Swap_l, Swap_r by lia. lia. }
      rewrite (Swap_ne _ _ _ k) by lia.
      destruct (decide (par k = i)) as [Hpk|]; [rewrite Hpk, Swap_l by lia; by apply Hmin|].
      rewrite Swap_ne by lia. by apply H1.
    + intros k Hk Hkj Hj0. rewrite Hpj, Swap_l by lia. pose proof (par_lt k).
      rewrite Swap_ne by lia. specialize (H1 k Hk). rewrite Hkj in H1. apply H1. lia.
  - split; [done|]. split; [rewrite Hp; apply Swap_Permutation; lia|].
    rewrite Hd. unfold Swap. rewrite !drop_insert_lt by lia. done.
Qed.

(** The root has the smallest key. *)
Lemma Heap_min n h i : Heap n h -> (i < n)%nat -> kat h 0 ≤ kat h i.
Proof.
  intros Hh. induction (Nat.lt_wf_0 i) as [i _ IH]. intros Hi.
  destruct (decide (i = 0%nat)) as [->|]; [done|].
  pose proof (par_lt i). etrans; [apply (IH (par i)); lia|]. apply Hh. lia.
Qed.

(** [Pop] returns an element with the smallest key and leaves a heap. *)
Lemma heap_Pop_spec h x h' :
  h <> [] -> Heap (length h) h -> heap_Pop h = (x, h') ->
  h ≡ₚ x :: h' /\ Heap (length h') h' /\ length h = S (length h') /\
  forall y, y ∈ h' -> key x ≤ key y.
Proof.
  intros Hne Hh. unfold heap_Pop. set (n := (length h - 1)%nat).
  assert (length h = S n) as Hlen by (unfold n; destruct h; [done|simpl; lia]).
  destruct (down_spec n (Swap h 0 n) 0 n) as (Hd & Hp & Hdrop);
    [lia|rewrite Swap_length; lia..| |].
  { split; [|intros; lia]. intros k Hk Hpk. rewrite !Swap_ne by (pose proof (par_lt k); lia).
    apply Hh. lia. }
  set (d := down n (Swap h 0 n) 0 n) in *. intros [= <- <-].
  assert (length d = S n) as Hld by (by rewrite Hp, Swap_length).
  assert (d !!! n = h !!! 0%nat) as Hx.
  { rewrite <- (Nat.add_0_r n) at 1. rewrite <- lookup_total_drop, Hdrop, lookup_total_drop, Nat.add_0_r.
    unfold Swap. destruct (decide (n = 0%nat)) as [->|].
    - by rewrite list_lookup_total_insert_eq by (rewrite length_insert; lia).
    - rewrite list_lookup_total_insert_ne by done. by rewrite list_lookup_total_insert_eq by lia. }
  assert (d = take n d ++ [d !!! n]) as Hsplit.
  { rewrite <- (take_drop n d) at 1. f_equal.
    destruct (lookup_lt_is_Some_2 d n) as [y Hy]; [lia|].
    rewrite (drop_S _ _ _ Hy), (list_lookup_total_correct _ _ _ Hy).
    by rewrite drop_ge by lia. }
  assert (h ≡ₚ d !!! n :: take n d) as Hperm.
  { rewrite <- (Swap_Permutation h 0 n), <- Hp by lia. rewrite Hsplit at 1.
    by rewrite Permutation_app_comm. }
  assert (length (take n d) = n) as Hlt by (rewrite length_take; lia).
  split; [done|]. rewrite Hlt. split; [|split; [done|]].
  - intros k Hk. unfold kat. pose proof (par_lt k). rewrite !lookup_total_take_lt by lia. by apply Hd.
  - intros y Hy. rewrite Hx.
    assert (y ∈ h) as Hyh by (rewrite Hperm; by right).
    apply list_elem_of_lookup in Hyh as [i Hi]. pose proof (lookup_lt_Some _ _ _ Hi).
    rewrite <- (list_lookup_total_correct _ _ _ Hi). apply (Heap_min (length h)); done.
Qed.
End heap.
