(* ===== verification/KubeApi.v ===== *)
(** * The Kubernetes API as the backup controller uses it

    The API server and the client library are not part of the repository: they
    appear here as the class [KubeClient] of operations on an abstract world
    [W], and the class [KubeLaws] of what the operator relies on.  [kc_view]
    names the objects the server stores.  The laws say that a refused request
    changes no object and that an accepted one has its documented effect.
    [Mem] is a small in-memory server that satisfies them. *)

From S2P Require Import Prelude GoStrings ApiTypes.

(** ** Objects *)

Inductive JobConditionType :=
| JobSuspended | JobComplete | JobFailed | JobOther (s : string).

#[export] Instance JobConditionType_eq_dec : EqDecision JobConditionType.
Proof. solve_decision. Defined.

(** [batchv1.JobCondition]; [jc_True] is [Status == ConditionTrue]. *)
Record JobCondition := mkJobCondition {
  jc_Type : JobConditionType;
  jc_True : bool;
  jc_LastTransitionTime : Z }.

(** [batchv1.Job]; of the pod template only the literal environment of the
    first container is kept. *)
Record Job := mkJob {
  job_Meta : ObjectMeta;
  job_Suspend : option bool;
  job_Env : list (string * string);
  job_Conditions : list JobCondition;
  job_Ready : option Z;
  job_Failed : Z;
  job_CompletionTime : option Z }.

(** [coordv1.Lease] *)
Record Lease := mkLease {
  lease_HolderIdentity : option string;
  lease_AcquireTime : option Z }.

Record PVC := mkPVC {
  pvcobj_Meta : ObjectMeta;
  pvcobj_Spec : PVCSpec }.

(** [corev1.Pod]: labels and phase. *)
Record JobPod := mkJobPod {
  jp_Namespace : string;
  jp_Labels : gmap string string;
  jp_Phase : string }.

(** What the API server stores. *)
Record Server := mkServer {
  srv_backups : gmap NamespacedName PerconaXtraDBClusterBackup;
  srv_clusters : gmap NamespacedName PerconaXtraDBCluster;
  srv_jobs : gmap NamespacedName Job;
  srv_leases : gmap NamespacedName Lease;
  srv_pvcs : gmap NamespacedName PVC;
  srv_secrets : gset NamespacedName;
  srv_pods : list JobPod }.

Definition bcp_key (b : PerconaXtraDBClusterBackup) : NamespacedName := meta_key (bcp_Meta b).
Definition job_key (j : Job) : NamespacedName := meta_key (job_Meta j).

Definition set_finalizers (fs : list string) (b : PerconaXtraDBClusterBackup) :
    PerconaXtraDBClusterBackup :=
  b <| bcp_Meta -> meta_Finalizers := fs |>.

(** An object being deleted goes away when its last finalizer does. *)
Definition settle_backup (b : PerconaXtraDBClusterBackup) : option PerconaXtraDBClusterBackup :=
  match meta_DeletionTimestamp (bcp_Meta b), meta_Finalizers (bcp_Meta b) with
  | Some _, [] => None
  | _, _ => Some b
  end.

Definition settle_job (j : Job) : option Job :=
  match meta_DeletionTimestamp (job_Meta j), meta_Finalizers (job_Meta j) with
  | Some _, [] => None
  | _, _ => Some j
  end.

(** Deleting an object that has finalizers only marks it. *)
Definition mark_deleted (now : Z) (j : Job) : option Job :=
  match meta_Finalizers (job_Meta j) with
  | [] => None
  | _ => Some (j <| job_Meta -> meta_DeletionTimestamp := Some now |>)
  end.

(** ** The client *)

Class KubeClient (W : Type) := {
  kc_view : W -> Server;
  kc_now : W -> Z;
  kc_getBackup : NamespacedName -> M W PerconaXtraDBClusterBackup;
  kc_getCluster : NamespacedName -> M W PerconaXtraDBCluster;
  kc_getJob : NamespacedName -> M W Job;
  kc_getLease : NamespacedName -> M W Lease;
  kc_getPVC : NamespacedName -> M W PVC;
  kc_getSecret : NamespacedName -> M W unit;
  kc_listPods : string -> gmap string string -> M W (list JobPod);
  kc_createJob : Job -> M W unit;
  kc_updateJob : Job -> M W unit;
  kc_deleteJob : NamespacedName -> M W unit;
  kc_createLease : NamespacedName -> Lease -> M W unit;
  kc_deleteLease : NamespacedName -> M W unit;
  kc_createPVC : PVC -> M W unit;
  kc_deletePVC : NamespacedName -> M W unit;
  kc_deleteSecret : NamespacedName -> M W unit;
  kc_patchFinalizers : NamespacedName -> list string -> M W unit;
  kc_updateBackup : PerconaXtraDBClusterBackup -> M W unit;
  kc_statusUpdate : PerconaXtraDBClusterBackup -> M W unit }.

(** ** What the operator relies on *)

Section laws.
Context {W : Type} `{KubeClient W}.

(** A read changes nothing and returns what is stored; "not found" means
    that nothing is. *)
Definition reads_from {O} (sel : Server -> gmap NamespacedName O)
    (get : NamespacedName -> M W O) : Prop :=
  forall n w w' r, get n w = (w', r) ->
    kc_view w' = kc_view w /\
    match r with
    | Ok o => sel (kc_view w) !! n = Some o
    | Err e => IsNotFound e = true -> sel (kc_view w) !! n = None
    | Panic => False
    end.

(** A write that succeeds turns the stored objects [s] into [s'] with
    [eff s s']; one that fails changes nothing. *)
Definition writes (op : M W unit) (eff : Server -> Server -> Prop) : Prop :=
  forall w w' r, op w = (w', r) ->
    match r with
    | Ok _ => eff (kc_view w) (kc_view w')
    | Err _ => kc_view w' = kc_view w
    | Panic => False
    end.

Definition quiet {A} (op : M W A) : Prop :=
  forall w w' r, op w = (w', r) -> kc_view w' = kc_view w.
End laws.

Section quiet_rules.
Context {W : Type} `{KubeClient W}.

(** [quiet] is preservation of every fixed view. *)
Lemma quiet_of_keeps {A} (m : M W A) :
  (forall s0, keeps (fun w => kc_view w = s0) m) -> quiet m.
Proof. intros Hm w w' r E. specialize (Hm _ w eq_refl). by rewrite E in Hm. Qed.

Lemma keeps_quiet {A} s0 (m : M W A) : quiet m -> keeps (fun w => kc_view w = s0) m.
Proof. intros Hm w Hw. rewrite <- Hw. apply (Hm w _ (m w).2). by destruct (m w). Qed.

Lemma reads_quiet {O} (sel : Server -> gmap NamespacedName O) get n :
  reads_from sel get -> quiet (get n).
Proof. intros Hg w w' r E. by apply Hg in E as [? _]. Qed.
End quiet_rules.

Class KubeLaws (W : Type) `{KubeClient W} := {
  kl_getBackup : reads_from srv_backups kc_getBackup;
  kl_getCluster : reads_from srv_clusters kc_getCluster;
  kl_getJob : reads_from srv_jobs kc_getJob;
  kl_getLease : reads_from srv_leases kc_getLease;
  kl_getPVC : reads_from srv_pvcs kc_getPVC;
  kl_getSecret n : quiet (W := W) (kc_getSecret n);
  kl_listPods ns ls : quiet (W := W) (kc_listPods ns ls);
  kl_getBackup_key n w w' b :
    kc_getBackup n w = (w', Ok b) -> bcp_key b = n;
  kl_getJob_key n w w' j :
    kc_getJob n w = (w', Ok j) -> job_key j = n;
  kl_getCluster_key n w w' c :
    kc_getCluster n w = (w', Ok c) -> meta_key (cluster_Meta c) = n;
  kl_createJob j : writes (kc_createJob j) (fun s s' =>
    srv_jobs s !! job_key j = None /\ s' = s <| srv_jobs := <[job_key j := j]> (srv_jobs s) |>);
  kl_updateJob j : writes (kc_updateJob j) (fun s s' =>
    is_Some (srv_jobs s !! job_key j) /\
    s' = s <| srv_jobs := partial_alter (fun _ => settle_job j) (job_key j) (srv_jobs s) |>);
  kl_deleteJob n : writes (kc_deleteJob n) (fun s s' =>
    exists j now, srv_jobs s !! n = Some j /\
    s' = s <| srv_jobs := partial_alter (fun _ => mark_deleted now j) n (srv_jobs s) |>);
  kl_createLease n l : writes (kc_createLease n l) (fun s s' =>
    srv_leases s !! n = None /\ s' = s <| srv_leases := <[n := l]> (srv_leases s) |>);
  kl_deleteLease n : writes (kc_deleteLease n) (fun s s' =>
    s' = s <| srv_leases := delete n (srv_leases s) |>);
  kl_createPVC p : writes (kc_createPVC p) (fun s s' =>
    exists pvcs, s' = s <| srv_pvcs := pvcs |>);
  kl_deletePVC n : writes (kc_deletePVC n) (fun s s' =>
    s' = s <| srv_pvcs := delete n (srv_pvcs s) |>);
  kl_deleteSecret n : writes (kc_deleteSecret n) (fun s s' =>
    s' = s <| srv_secrets := srv_secrets s ∖ {[n]} |>);
  kl_patchFinalizers n fs : writes (kc_patchFinalizers n fs) (fun s s' =>
    exists b, srv_backups s !! n = Some b /\
    s' = s <| srv_backups :=
                partial_alter (fun _ => settle_backup (set_finalizers fs b)) n (srv_backups s) |>);
  kl_updateBackup b : writes (kc_updateBackup b) (fun s s' =>
    exists b0, srv_backups s !! bcp_key b = Some b0 /\
    s' = s <| srv_backups :=
                partial_alter (fun _ => settle_backup
                    (set_finalizers (meta_Finalizers (bcp_Meta b)) b0))
                  (bcp_key b) (srv_backups s) |>);
  kl_statusUpdate b : writes (kc_statusUpdate b) (fun s s' =>
    exists b0, srv_backups s !! bcp_key b = Some b0 /\
    s' = s <| srv_backups :=
                <[bcp_key b := b0 <| bcp_Status := bcp_Status b |>]> (srv_backups s) |>) }.

Section quiet_reads.
Context {W : Type} `{KubeLaws W}.

Lemma quiet_getBackup n : quiet (W := W) (kc_getBackup n).
Proof. eapply reads_quiet, kl_getBackup. Qed.
Lemma quiet_getCluster n : quiet (W := W) (kc_getCluster n).
Proof. eapply reads_quiet, kl_getCluster. Qed.
Lemma quiet_getJob n : quiet (W := W) (kc_getJob n).
Proof. eapply reads_quiet, kl_getJob. Qed.
Lemma quiet_getPVC n : quiet (W := W) (kc_getPVC n).
Proof. eapply reads_quiet, kl_getPVC. Qed.
End quiet_reads.
#[export] Hint Resolve keeps_quiet quiet_getBackup quiet_getCluster quiet_getJob quiet_getPVC
  kl_getSecret kl_listPods : go.

(** Retry helpers of [k8s.io/client-go/util/retry], for any state a retried
    function closes over. *)
Class RetryLib := {
  retry_on_conflict : forall {S A}, M S A -> M S A;
  retry_on_error : forall {S A}, M S A -> M S A;
  retry_on_conflict_runs : forall S A (fn : M S A) s s' r,
    retry_on_conflict fn s = (s', r) -> retries IsConflict fn s s' r;
  retry_on_error_runs : forall S A (fn : M S A) s s' r,
    retry_on_error fn s = (s', r) -> retries (fun _ => true) fn s s' r }.

Section retry_triples.
Context `{RetryLib} {S A : Type}.

Lemma triple_retry_conflict (P : S -> Prop) (fn : M S A) R E :
  triple P fn R E -> (forall w, E w -> P w) -> triple P (retry_on_conflict fn) R E.
Proof.
  intros Hfn HE. apply triple_of_run. intros w w' r Hw Hr.
  by eapply triple_retries; [..|apply retry_on_conflict_runs|].
Qed.

Lemma keeps_retry_conflict (I : S -> Prop) (fn : M S A) : keeps I fn -> keeps I (retry_on_conflict fn).
Proof.
  intros Hfn w Hw. destruct (retry_on_conflict fn w) as [w' r] eqn:E. simpl.
  apply retry_on_conflict_runs in E.
  by apply (hoare_retries I _ _ _ _ _ _ Hfn (fun _ _ _ x => x) E).
Qed.
End retry_triples.
#[export] Hint Resolve keeps_retry_conflict : go.

(** A retry loop that runs a function at most [S n] times. *)
Fixpoint retry_loop {S A} (retriable : error -> bool) (n : nat) (fn : M S A) : M S A := fun s =>
  match fn s with
  | (s', Err e) =>
      match n with
      | O => (s', Err e)
      | Datatypes.S n' => if retriable e then retry_loop retriable n' fn s' else (s', Err e)
      end
  | out => out
  end.

Lemma retry_loop_runs {S A} f n (fn : M S A) s s' r :
  retry_loop f n fn s = (s', r) -> retries f fn s s' r.
Proof.
  revert s. induction n as [|n IH]; intros s; simpl; destruct (fn s) as [s1 [a|e|]] eqn:E;
    try (intros [= <- <-]; by apply retries_one).
  destruct (f e) eqn:Ef; [|intros [= <- <-]; by apply retries_one].
  intros Hr. eapply retries_again; eauto.
Qed.

Definition loop_retry (n : nat) : RetryLib := {|
  retry_on_conflict S A := retry_loop IsConflict n;
  retry_on_error S A := retry_loop (fun _ => true) n;
  retry_on_conflict_runs S A fn s s' r := @retry_loop_runs S A IsConflict n fn s s' r;
  retry_on_error_runs S A fn s s' r := @retry_loop_runs S A (fun _ => true) n fn s s' r |}.
