(* ===== verification/KubeMem.v ===== *)
(** * An in-memory API server

    An instance of [KubeClient] that satisfies [KubeLaws]: the objects live in
    finite maps, the clock is a field ([mem_objs] is an object storage, which
    the API does not see), and [deny] lists the operations the server refuses.  It evaluates, so theorems proved from the laws can be run
    on concrete worlds. *)

From S2P Require Import Prelude GoStrings ApiTypes KubeApi.

Record Mem := mkMem {
  mem_srv : Server;
  mem_time : Z;
  mem_objs : gset string }.

Definition not_found : error := ErrStatus ReasonNotFound "not found".
Definition already_exists : error := ErrStatus ReasonAlreadyExists "already exists".
Definition forbidden : error := ErrStatus ReasonUnknown "forbidden".

Section mem.
Variable deny : list string.

(** An operation under its name, refused when the name is in [deny]. *)
Definition guarded {A} (name : string) (op : Server -> Z -> Server * res A) : M Mem A := fun w =>
if bool_decide (name ∈ deny) then (w, Err forbidden)
else let '(s', r) := op (mem_srv w) (mem_time w) in (w <| mem_srv := s' |>, r).

Definition mem_read {O} (name : string) (sel : Server -> gmap NamespacedName O)
  (n : NamespacedName) : M Mem O :=
guarded name (fun s _ =>
  match sel s !! n with Some o => (s, Ok o) | None => (s, Err not_found) end).

Definition mem_create {O} (name : string) (sel : Server -> gmap NamespacedName O)
  (n : NamespacedName) (eff : Server -> Server) : M Mem unit :=
guarded name (fun s _ =>
  match sel s !! n with Some _ => (s, Err already_exists) | None => (eff s, Ok tt) end).

Definition mem_change {O} (name : string) (sel : Server -> gmap NamespacedName O)
  (n : NamespacedName) (eff : O -> Z -> Server -> Server) : M Mem unit :=
guarded name (fun s t =>
  match sel s !! n with Some o => (eff o t s, Ok tt) | None => (s, Err not_found) end).

(** Objects are filed under their own key: a read checks it. *)
Definition mem_keyed {O} (key : O -> NamespacedName) (n : NamespacedName) (m : M Mem O) : M Mem O :=
fun w => match m w with
         | (w', Ok o) => if bool_decide (key o = n) then (w', Ok o) else (w', Err forbidden)
         | out => out
         end.

Definition Mem_client : KubeClient Mem := {|
kc_view := mem_srv;
kc_now := mem_time;
kc_getBackup n := mem_keyed bcp_key n (mem_read "getBackup" srv_backups n);
kc_getCluster n := mem_keyed (meta_key ∘ cluster_Meta) n (mem_read "getCluster" srv_clusters n);
kc_getJob n := mem_keyed job_key n (mem_read "getJob" srv_jobs n);
kc_getLease := mem_read "getLease" srv_leases;
kc_getPVC := mem_read "getPVC" srv_pvcs;
kc_getSecret n := guarded "getSecret" (fun s _ =>
  if bool_decide (n ∈ srv_secrets s) then (s, Ok tt) else (s, Err not_found));
kc_listPods ns ls := guarded "listPods" (fun s _ =>
  (s, Ok (filter (fun p => jp_Namespace p = ns /\ ls ⊆ jp_Labels p) (srv_pods s))));
kc_createJob j := mem_create "createJob" srv_jobs (job_key j)
  (fun s => s <| srv_jobs := <[job_key j := j]> (srv_jobs s) |>);
kc_updateJob j := mem_change "updateJob" srv_jobs (job_key j) (fun _ _ s =>
  s <| srv_jobs := partial_alter (fun _ => settle_job j) (job_key j) (srv_jobs s) |>);
kc_deleteJob n := mem_change "deleteJob" srv_jobs n (fun j t s =>
  s <| srv_jobs := partial_alter (fun _ => mark_deleted t j) n (srv_jobs s) |>);
kc_createLease n l := mem_create "createLease" srv_leases n
  (fun s => s <| srv_leases := <[n := l]> (srv_leases s) |>);
kc_deleteLease n := mem_change "deleteLease" srv_leases n (fun _ _ s =>
  s <| srv_leases := delete n (srv_leases s) |>);
kc_createPVC p := mem_create "createPVC" srv_pvcs (meta_key (pvcobj_Meta p))
  (fun s => s <| srv_pvcs := <[meta_key (pvcobj_Meta p) := p]> (srv_pvcs s) |>);
kc_deletePVC n := mem_change "deletePVC" srv_pvcs n (fun _ _ s =>
  s <| srv_pvcs := delete n (srv_pvcs s) |>);
kc_deleteSecret n := guarded "deleteSecret" (fun s _ =>
  if bool_decide (n ∈ srv_secrets s)
  then (s <| srv_secrets := srv_secrets s ∖ {[n]} |>, Ok tt) else (s, Err not_found));
kc_patchFinalizers n fs := mem_change "patchFinalizers" srv_backups n (fun b _ s =>
  s <| srv_backups :=
    partial_alter (fun _ => settle_backup (set_finalizers fs b)) n (srv_backups s) |>);
kc_updateBackup b := mem_change "updateBackup" srv_backups (bcp_key b) (fun b0 _ s =>
  s <| srv_backups :=
    partial_alter (fun _ => settle_backup (set_finalizers (meta_Finalizers (bcp_Meta b)) b0))
      (bcp_key b) (srv_backups s) |>);
kc_statusUpdate b := mem_change "statusUpdate" srv_backups (bcp_key b) (fun b0 _ s =>
  s <| srv_backups :=
    <[bcp_key b := b0 <| bcp_Status := bcp_Status b |>]> (srv_backups s) |>) |}.

Section mem_laws.
#[local] Existing Instance Mem_client.

Lemma mem_read_reads {O} name (sel : Server -> gmap NamespacedName O) :
reads_from sel (mem_read name sel).
Proof.
intros n w w' r. unfold mem_read, guarded. case_bool_decide; [by intros [= <- <-]|].
destruct (sel _ !! n) eqn:E; intros [= <- <-]; by destruct w.
Qed.

Lemma mem_keyed_reads {O} key name (sel : Server -> gmap NamespacedName O) :
reads_from sel (fun n => mem_keyed key n (mem_read name sel n)).
Proof.
intros n w w' r. unfold mem_keyed.
destruct (mem_read name sel n w) as [w1 r1] eqn:E.
apply mem_read_reads in E. destruct r1 as [o|e|]; [|by intros [= <- <-]..].
case_bool_decide; intros [= <- <-]; naive_solver.
Qed.

Lemma mem_keyed_key {O} (key : O -> NamespacedName) n m w w' o :
mem_keyed key n m w = (w', Ok o) -> key o = n.
Proof.
unfold mem_keyed. destruct (m w) as [? [o'|?|]]; try done. case_bool_decide; naive_solver.
Qed.

Lemma mem_create_writes {O} name (sel : Server -> gmap NamespacedName O) n f
  (eff : Server -> Server -> Prop) :
(forall s, sel s !! n = None -> eff s (f s)) -> writes (mem_create name sel n f) eff.
Proof.
intros Hf w w' r. unfold mem_create, guarded. case_bool_decide; [by intros [= <- <-]|].
destruct (sel _ !! n) eqn:E; intros [= <- <-]; destruct w; simpl in *; [done|by apply Hf].
Qed.

Lemma mem_change_writes {O} name (sel : Server -> gmap NamespacedName O) n f
  (eff : Server -> Server -> Prop) :
(forall o t s, sel s !! n = Some o -> eff s (f o t s)) ->
writes (mem_change name sel n f) eff.
Proof.
intros Hf w w' r. unfold mem_change, guarded. case_bool_decide; [by intros [= <- <-]|].
destruct (sel _ !! n) eqn:E; intros [= <- <-]; destruct w; simpl in *; [by apply Hf|done].
Qed.

Lemma Mem_laws : KubeLaws Mem.
Proof.
split; simpl; intros.
- apply mem_keyed_reads.
- apply mem_keyed_reads.
- apply mem_keyed_reads.
- apply mem_read_reads.
- apply mem_read_reads.
- intros w w' r. unfold guarded. repeat case_bool_decide; intros [= <- <-]; by destruct w.
- intros w w' r. unfold guarded. case_bool_decide; intros [= <- <-]; by destruct w.
- by eapply mem_keyed_key.
- by eapply mem_keyed_key.
- by eapply mem_keyed_key in H.
- by apply mem_create_writes.
- by apply mem_change_writes; eauto.
- apply mem_change_writes; eauto.
- by apply mem_create_writes.
- by apply mem_change_writes.
- apply mem_create_writes; eauto.
- by apply mem_change_writes.
- intros w w' r. unfold guarded. repeat case_bool_decide; intros [= <- <-]; by destruct w.
- apply mem_change_writes; eauto.
- apply mem_change_writes; eauto.
- apply mem_change_writes; eauto.
Qed.
End mem_laws.
End mem.
