(* ===== verification/Lease.v ===== *)
(** * The backup lock: [pkg/k8s/lease.go]

    A lease object per cluster serialises backups.  [AcquireLease] creates it
    or returns the one that is there; [ReleaseLease] deletes it, unless it names
    another holder. *)

From S2P Require Import Prelude GoStrings ApiTypes KubeApi KubeMem.

Definition ErrNotTheHolder : error := ErrVar "ErrNotTheHolder" "not the holder".

Section lease.
Context {W : Type} `{KubeClient W}.

Definition AcquireLease (name : NamespacedName) (holder : string) : M W Lease :=
  r ← try (kc_getLease name);
  match r with
  | inr lease => mret lease
  | inl e =>
      if negb (IsNotFound e) then fail (ErrWrap "get lease" e)
      else
        now ← gets kc_now;
        let lease := mkLease (Some holder) (Some now) in
        _ ← wrap "create lease" (kc_createLease name lease);
        mret lease
  end.

Definition ReleaseLease (name : NamespacedName) (holder : string) : M W unit :=
  lease ← wrap "get lease" (kc_getLease name);
  if match lease_HolderIdentity lease with
     | Some h => negb (bool_decide (h = holder))
     | None => false
     end
  then fail ErrNotTheHolder
  else wrap "delete lease" (kc_deleteLease name).

(** The server's lease under a name. *)
Definition lease_at (w : W) (n : NamespacedName) : option Lease := srv_leases (kc_view w) !! n.

Definition held_by (w : W) (n : NamespacedName) (holder : string) : Prop :=
  exists l, lease_at w n = Some l /\ lease_HolderIdentity l = Some holder.

Context `{!KubeLaws W}.

(** Only the lease [n] may differ between two servers. *)
Definition same_but_lease (n : NamespacedName) (s s' : Server) : Prop :=
  exists ls, s' = s <| srv_leases := ls |> /\ forall m, m <> n -> ls !! m = srv_leases s !! m.

Lemma same_but_lease_refl n s : same_but_lease n s s.
Proof. exists (srv_leases s). split; [by destruct s|done]. Qed.

(** [AcquireLease] never overwrites a lease: it returns the stored lease, and
    touches nothing but a missing lease of that name. *)
Lemma AcquireLease_spec n holder w w' r :
  AcquireLease n holder w = (w', r) ->
  same_but_lease n (kc_view w) (kc_view w') /\
  (forall l, lease_at w n = Some l -> lease_at w' n = Some l) /\
  match r with
  | Ok l => lease_at w' n = Some l /\ (lease_at w n = None -> lease_HolderIdentity l = Some holder)
  | Err _ => kc_view w' = kc_view w
  | Panic => False
  end.
Proof.
  unfold AcquireLease, lease_at. unfold mbind, M_bind, try.
  destruct (kc_getLease n w) as [w1 r1] eqn:E1.
  destruct (kl_getLease _ _ _ _ E1) as [V1 R1].
  destruct r1 as [l|e|]; [|destruct (IsNotFound e) eqn:En; simpl|done].
  - intros [= <- <-]. rewrite V1. split; [apply same_but_lease_refl|naive_solver].
  - unfold wrap. destruct (kc_createLease n _ w1) as [w3 r3] eqn:E3.
    apply kl_createLease in E3. rewrite <- V1 in *.
    destruct r3 as [[]|e3|]; simpl; intros [= <- <-].
    + destruct E3 as [Hn E3]. rewrite E3. record.simp. rewrite lookup_insert_eq. split; [|naive_solver].
      eexists; split; [done|]. intros m Hm. by rewrite lookup_insert_ne.
    + rewrite E3. split; [apply same_but_lease_refl|done].
    + done.
  - intros [= <- <-]. rewrite V1. split; [apply same_but_lease_refl|done].
Qed.

(** [ReleaseLease] deletes nothing but its own lease (or one without a
    holder); on any error the server is unchanged. *)
Lemma ReleaseLease_spec n holder w w' r :
  ReleaseLease n holder w = (w', r) ->
  match r with
  | Ok _ => (exists l, lease_at w n = Some l /\ (lease_HolderIdentity l = Some holder \/
                                                lease_HolderIdentity l = None)) /\
            kc_view w' = (kc_view w) <| srv_leases := delete n (srv_leases (kc_view w)) |>
  | Err _ => kc_view w' = kc_view w
  | Panic => False
  end.
Proof.
  unfold ReleaseLease, lease_at, wrap. unfold mbind, M_bind.
  destruct (kc_getLease n w) as [w1 r1] eqn:E1.
  destruct (kl_getLease _ _ _ _ E1) as [V1 R1]. rewrite <- V1 in *.
  destruct r1 as [l|e|]; simpl; [|by intros [= <- <-]|done].
  destruct (lease_HolderIdentity l) as [h|] eqn:Eh; simpl; [case_bool_decide; simpl|];
    try (by intros [= <- <-]); destruct (kc_deleteLease n w1) as [w2 r2] eqn:E2;
    apply kl_deleteLease in E2; destruct r2 as [[]|e2|]; simpl; try done;
    intros [= <- <-]; naive_solver.
Qed.

(** A lease held by somebody else survives a release. *)
Lemma ReleaseLease_other n m holder h w :
  (m = n -> h <> holder) -> held_by w m h -> held_by (ReleaseLease n holder w).1 m h.
Proof.
  intros Hne (l & Hl & Hh). destruct (ReleaseLease n holder w) as [w' r] eqn:E. simpl.
  apply ReleaseLease_spec in E. exists l. split; [|done]. unfold lease_at in *.
  destruct r as [u|e|]; [|by rewrite E|done]. destruct E as [(l' & Hl' & Hh') E]. rewrite E. record.simp.
  destruct (decide (m = n)) as [->|Hm]; [|by rewrite lookup_delete_ne].
  rewrite Hl in Hl'. injection Hl' as <-. rewrite Hh in Hh'. naive_solver.
Qed.
End lease.
