(* ===== verification/Naming.v ===== *)
(** * Names and labels: [pkg/naming]

    Names of the objects the operator creates for backups, the labels it puts
    on them, and what those names guarantee. *)

From S2P Require Import Prelude GoStrings ApiTypes.

(** ** Finalizers ([pkg/naming/naming.go]) *)

Definition FinalizerDeleteSSL : string := "percona.com/delete-ssl".
Definition FinalizerDeletePxcPodsInOrder : string := "percona.com/delete-pxc-pods-in-order".
Definition FinalizerDeleteProxysqlPvc : string := "percona.com/delete-proxysql-pvc".
Definition FinalizerDeletePxcPvc : string := "percona.com/delete-pxc-pvc".
Definition FinalizerDeleteBackup : string := "percona.com/delete-backup".
Definition FinalizerReleaseLock : string := "internal.percona.com/release-lock".
Definition FinalizerKeepJob : string := "internal.percona.com/keep-job".

(** The binlog collector: its deployment, and what removing the gap file returns
    when there is none. *)
Definition GapDetected : string := "/tmp/gap-detected".
Definition BinlogCollectorDeploymentName (cr : PerconaXtraDBCluster) : string := cluster_Name cr +:+ "-pitr".
Definition GapFileNotFound : error := ErrVar "GapFileNotFound" "gap file not found".

(** ** Backup names ([pkg/naming/backup.go]) *)

Definition BackupLeaseName (clusterName : string) : string :=
  "pxc-" +:+ clusterName +:+ "-backup-lock".

Definition BackupHolderId (cr : PerconaXtraDBClusterBackup) : string :=
  meta_Name (bcp_Meta cr) +:+ "-" +:+ meta_UID (bcp_Meta cr).

Definition alnum (c : Ascii.ascii) : bool :=
  let n := Ascii.nat_of_ascii c in
  bool_decide (97 ≤ n ≤ 122)%nat || bool_decide (48 ≤ n ≤ 57)%nat.

(** [s[:n]] for [n] at most the length. *)
Fixpoint str_take (n : nat) (s : string) : string :=
  match n, s with
  | S n', String c s' => String c (str_take n' s')
  | _, _ => ""
  end.

Fixpoint trimLeft (s : string) : string :=
  match s with
  | EmptyString => ""
  | String c s' => if alnum c then s else trimLeft s'
  end.

(** Cuts after the last alphanumeric character. *)
Fixpoint trimRight (s : string) : string :=
  match s with
  | EmptyString => ""
  | String c s' =>
      match trimRight s' with
      | EmptyString => if alnum c then String c "" else ""
      | t => String c t
      end
  end.

Definition DNS1035LabelMaxLength : nat := 63.

Definition trimJobName (name : string) : string :=
  let name := trimRight (trimLeft name) in
  if bool_decide (DNS1035LabelMaxLength < String.length name)%nat
  then trimRight (str_take DNS1035LabelMaxLength name)
  else name.

Definition BackupJobName (crName : string) : string := trimJobName ("xb-" +:+ crName).

(** *** [ScheduledBackupName] *)

(** [hash/crc32] with the IEEE polynomial, bit by bit. *)
Fixpoint crc32_bits (n : nat) (crc : N) : N :=
  match n with
  | O => crc
  | S n' => crc32_bits n'
      (if N.testbit crc 0 then N.lxor (N.div2 crc) 3988292384 else N.div2 crc)
  end.

Fixpoint crc32_update (s : string) (crc : N) : N :=
  match s with
  | EmptyString => crc
  | String c s' => crc32_update s' (crc32_bits 8 (N.lxor crc (Ascii.N_of_ascii c)))
  end.

Definition ChecksumIEEE (s : string) : N :=
  N.lxor (crc32_update s 4294967295) 4294967295.

(** [strconv.FormatUint(n, 32)]; 13 digits hold any 64-bit number. *)
Definition digit32 (d : N) : Ascii.ascii :=
  Ascii.ascii_of_N (if bool_decide (d < 10)%N then 48 + d else 87 + d).

Fixpoint digits32 (fuel : nat) (n : N) (acc : string) : string :=
  match fuel with
  | O => acc
  | S fuel' =>
      let acc' := String (digit32 (n mod 32)) acc in
      if bool_decide (n / 32 = 0)%N then acc' else digits32 fuel' (n / 32)%N acc'
  end.

Definition FormatUint32 (n : N) : string := digits32 13 n "".

(** [s[:n]]: slicing beyond the end panics. *)
Definition slice_to (n : nat) (s : string) : res string :=
  if bool_decide (n ≤ String.length s)%nat then Ok (str_take n s) else Panic.

(** The fields of [time.Now()] the name uses. *)
Record clock := mkClock {
  clk_Year : Z; clk_Month : Z; clk_Day : Z; clk_Hour : Z; clk_Minute : Z; clk_Second : Z }.

Definition clock_stamp (t : clock) : string :=
  pretty (clk_Year t) +:+ pretty (clk_Month t) +:+ pretty (clk_Day t) +:+
  pretty (clk_Hour t) +:+ pretty (clk_Minute t) +:+ pretty (clk_Second t).

Definition ScheduledBackupName (tnow : clock) (crName storageName schedule : string) : res string :=
  let cut s := if bool_decide (16 < String.length s)%nat then str_take 16 s else s in
  suffix ← slice_to 5 (FormatUint32 (ChecksumIEEE schedule));
  mret ("cron-" +:+ cut crName +:+ "-" +:+ cut storageName +:+ "-" +:+ clock_stamp tnow
        +:+ "-" +:+ suffix).

(** ** Labels ([pkg/naming/labels.go]) *)

Definition LabelPerconaClusterName : string := "percona.com/cluster".
Definition LabelPerconaBackupType : string := "percona.com/backup-type".
Definition LabelPerconaBackupName : string := "percona.com/backup-name".
Definition LabelPerconaBackupJobName : string := "percona.com/backup-job-name".
Definition LabelPerconaBackupAncestorName : string := "percona.com/backup-ancestor".

(** [util.MergeMaps]: later maps win. *)
Definition MergeMaps (ms : list (gmap string string)) : gmap string string :=
  foldl (fun acc m => m ∪ acc) ∅ ms.

Definition LabelsCluster (cr : PerconaXtraDBCluster) : gmap string string :=
  {[ "app.kubernetes.io/name" := "percona-xtradb-cluster";
     "app.kubernetes.io/part-of" := "percona-xtradb-cluster";
     "app.kubernetes.io/instance" := cluster_Name cr;
     "app.kubernetes.io/managed-by" := "percona-xtradb-cluster-operator" ]}.

Definition componentLabels (cr : PerconaXtraDBCluster) (component : string) : gmap string string :=
  <["app.kubernetes.io/component" := component]> (LabelsCluster cr).

Section labels.
Context `{VersionLib}.

(** The branch on [CompareVersionWith("1.16.0") < 0]. *)
Definition before_1_16 (cr : PerconaXtraDBCluster) : res bool :=
  c ← CompareVersionWith cr "1.16.0"; mret (bool_decide (c < 0)).

Definition LabelsScheduledBackup (cluster : PerconaXtraDBCluster) (ancestor : string) :
    res (gmap string string) :=
  old ← before_1_16 cluster;
  mret (if old : bool then
          {[ "ancestor" := ancestor; "cluster" := cluster_Name cluster; "type" := "cron" ]}
        else MergeMaps [LabelsCluster cluster;
          {[ LabelPerconaBackupType := "cron";
             LabelPerconaClusterName := cluster_Name cluster;
             LabelPerconaBackupAncestorName := ancestor ]}]).

Definition LabelsBackup (cluster : PerconaXtraDBCluster) : res (gmap string string) :=
  old ← before_1_16 cluster;
  mret (if old : bool then {[ "type" := "xtrabackup"; "cluster" := cluster_Name cluster ]}
        else {[ LabelPerconaBackupType := "xtrabackup";
                LabelPerconaClusterName := cluster_Name cluster ]}).

Definition LabelsBackupJob (cr : PerconaXtraDBClusterBackup) (cluster : PerconaXtraDBCluster)
    (jobName : string) : res (gmap string string) :=
  b ← deref (spec_Backup (cluster_Spec cluster));
  st ← deref (bs_Storages b !! bsp_StorageName (bcp_Spec cr));
  old ← before_1_16 cluster;
  lb ← LabelsBackup cluster;
  mret (if old : bool then
          MergeMaps [st_Labels st; lb;
            {[ "backup-name" := meta_Name (bcp_Meta cr); "job-name" := jobName ]}]
        else
          MergeMaps [st_Labels st; LabelsCluster cluster; lb;
            {[ LabelPerconaBackupName := meta_Name (bcp_Meta cr);
               LabelPerconaBackupJobName := jobName ]}]).
End labels.

(** ** Properties *)

#[local] Arguments String.append : simpl nomatch.

(** A holder identity determines the backup when the UIDs have one length, as
    the API server's UUIDs do. *)
Lemma str_app_inj_r s1 s2 t1 t2 :
  String.length t1 = String.length t2 -> s1 +:+ t1 = s2 +:+ t2 -> s1 = s2 /\ t1 = t2.
Proof.
  revert s2. induction s1 as [|c s1 IH]; intros [|d s2] Hl; simpl.
  - done.
  - intros ->. simpl in Hl. rewrite str_app_length in Hl. lia.
  - intros <-. simpl in Hl. rewrite str_app_length in Hl. lia.
  - intros [= -> Ht]. by destruct (IH s2 Hl Ht) as [-> ->].
Qed.

Lemma BackupHolderId_inj b1 b2 :
  String.length (meta_UID (bcp_Meta b1)) = String.length (meta_UID (bcp_Meta b2)) ->
  BackupHolderId b1 = BackupHolderId b2 ->
  meta_Name (bcp_Meta b1) = meta_Name (bcp_Meta b2) /\
  meta_UID (bcp_Meta b1) = meta_UID (bcp_Meta b2).
Proof.
  unfold BackupHolderId. intros Hl Heq. apply str_app_inj_r in Heq as [-> Hu].
  - split; [done|]. by injection Hu.
  - rewrite !str_app_length. simpl. lia.
Qed.

Lemma BackupLeaseName_inj c1 c2 : BackupLeaseName c1 = BackupLeaseName c2 -> c1 = c2.
Proof.
  unfold BackupLeaseName. intros H. apply (inj (String.append "pxc-")) in H.
  by apply str_app_inj_r in H as [-> _].
Qed.

(** First and last characters. *)
Definition first_alnum (s : string) : Prop :=
  match s with EmptyString => True | String c _ => alnum c = true end.

Fixpoint last_alnum (s : string) : Prop :=
  match s with
  | EmptyString => True
  | String c EmptyString => alnum c = true
  | String _ s' => last_alnum s'
  end.

Lemma trimLeft_first s : first_alnum (trimLeft s).
Proof. induction s as [|c s IH]; simpl; [done|]. by destruct (alnum c) eqn:E. Qed.

Lemma trimRight_last s : last_alnum (trimRight s).
Proof.
  induction s as [|c s IH]; simpl; [done|].
  destruct (trimRight s) as [|d t]; [by destruct (alnum c) eqn:E|done].
Qed.

Lemma trimRight_first s : first_alnum s -> first_alnum (trimRight s).
Proof.
  destruct s as [|c s]; simpl; [done|]. intros Hc.
  destruct (trimRight s); [by rewrite Hc|done].
Qed.

Lemma trimRight_length s : (String.length (trimRight s) ≤ String.length s)%nat.
Proof.
  induction s as [|c s IH]; simpl; [done|].
  destruct (trimRight s) as [|d t]; [destruct (alnum c); simpl; lia|]. simpl in *. lia.
Qed.

Lemma str_take_length n s : (String.length (str_take n s) ≤ n)%nat.
Proof. revert s. induction n as [|n IH]; intros [|c s]; simpl; try lia. specialize (IH s). lia. Qed.

Lemma str_take_first n s : first_alnum s -> first_alnum (str_take n s).
Proof. by destruct n, s. Qed.

(** The trimmed name is unchanged when it is already a short label. *)
Lemma trimRight_id s : last_alnum s -> trimRight s = s.
Proof.
  induction s as [|c s IH]; simpl; [done|]. destruct s as [|d s]; simpl in *.
  - intros ->. done.
  - intros Hl. rewrite (IH Hl). done.
Qed.

Lemma trimJobName_id s :
  first_alnum s -> last_alnum s -> (String.length s ≤ 63)%nat -> trimJobName s = s.
Proof.
  intros Hf Hl Hn. unfold trimJobName.
  assert (trimLeft s = s) as -> by (destruct s; simpl in *; [done|by rewrite Hf]).
  rewrite trimRight_id by done. rewrite bool_decide_eq_false_2; [done|].
  unfold DNS1035LabelMaxLength. lia.
Qed.

(** Whatever the backup is called, its job name fits the 63 characters of a
    label value and neither starts nor ends with a separator. *)
Theorem BackupJobName_label (crName : string) :
  (String.length (BackupJobName crName) ≤ 63)%nat /\
  first_alnum (BackupJobName crName) /\ last_alnum (BackupJobName crName).
Proof.
  unfold BackupJobName, trimJobName. generalize ("xb-" +:+ crName) as s. intros s.
  pose proof (trimLeft_first s) as Hf. case_bool_decide as Hl.
  - split; [|split].
    + etrans; [apply trimRight_length|]. apply str_take_length.
    + by apply trimRight_first, str_take_first, trimRight_first.
    + apply trimRight_last.
  - split; [|split]; [unfold DNS1035LabelMaxLength in Hl; lia| |apply trimRight_last].
    by apply trimRight_first.
Qed.

(** ** When job names identify a backup *)

(** A short backup name that ends with a letter or a digit. *)
Definition short_name (n : string) : Prop :=
  n <> "" /\ last_alnum n /\ (String.length n ≤ 60)%nat.

Lemma last_alnum_app s n : n <> "" -> last_alnum n -> last_alnum (s +:+ n).
Proof.
  intros Hne Hn. induction s as [|c s IH]; [done|]. simpl.
  destruct (s +:+ n) as [|d t] eqn:E; [|done]. by apply str_app_nil in E as [_ ->].
Qed.

Lemma BackupJobName_short n : short_name n -> BackupJobName n = "xb-" +:+ n.
Proof.
  intros (Hne & Hl & Hn). unfold BackupJobName. apply trimJobName_id; [done| |].
  - by apply last_alnum_app.
  - rewrite str_app_length. simpl. lia.
Qed.

Lemma str_take_app s t : str_take (String.length s) (s +:+ t) = s.
Proof. induction s as [|c s IH]; simpl; [by destruct t|]. by rewrite IH. Qed.

(** C38: job names.  The job name fits the 63 characters of a label and neither
    starts nor ends with a separator; backups with names of up to 60 characters
    have different job names; but two longer names that agree on their first
    60 characters share one, so the second backup would adopt the first one's
    job. *)
Theorem BackupJobName_spec :
  (forall n, (String.length (BackupJobName n) ≤ 63)%nat /\
             first_alnum (BackupJobName n) /\ last_alnum (BackupJobName n)) /\
  (forall n1 n2, short_name n1 -> short_name n2 -> BackupJobName n1 = BackupJobName n2 -> n1 = n2) /\
  (forall p s1 s2, String.length p = 60%nat -> s1 <> "" -> s2 <> "" -> last_alnum s1 -> last_alnum s2 ->
     BackupJobName (p +:+ s1) = BackupJobName (p +:+ s2)).
Proof.
  split; [apply BackupJobName_label|]. split.
  - intros n1 n2 H1 H2. rewrite !BackupJobName_short by done. intros E.
    by apply (inj (String.append "xb-")) in E.
  - assert (forall p s, String.length p = 60%nat -> s <> "" -> last_alnum s ->
      BackupJobName (p +:+ s) = trimRight ("xb-" +:+ p)) as Hcut.
    { intros p s Hp Hs Hl. unfold BackupJobName, trimJobName. 
      change (trimLeft ("xb-" +:+ (p +:+ s))) with ("xb-" +:+ (p +:+ s)).
      rewrite trimRight_id by (rewrite str_app_assoc; by apply (last_alnum_app ("xb-" +:+ p))).
      assert (0 < String.length s)%nat by (destruct s; simpl; [done|lia]).
      rewrite bool_decide_eq_true_2.
      - f_equal. rewrite (str_app_assoc "xb-" p s). unfold DNS1035LabelMaxLength.
        replace 63%nat with (String.length ("xb-" +:+ p)) by (simpl; lia). apply str_take_app.
      - simpl. rewrite str_app_length. unfold DNS1035LabelMaxLength. lia. }
    intros p s1 s2 Hp H1 H2 L1 L2. by rewrite !Hcut.
Qed.

(** ** When a scheduled backup has no name *)

Lemma digits32_length fuel n acc :
  (String.length acc ≤ String.length (digits32 fuel n acc))%nat.
Proof.
  revert n acc. induction fuel as [|fuel IH]; intros n acc; simpl; [done|].
  case_bool_decide; simpl; [lia|]. etrans; [|apply IH]. simpl. lia.
Qed.

Lemma digits32_step fuel n acc :
  (n / 32 <> 0)%N -> digits32 (S fuel) n acc = digits32 fuel (n / 32) (String (digit32 (n mod 32)) acc).
Proof. intros Hn. simpl. by rewrite bool_decide_eq_false_2. Qed.
Lemma digits32_last fuel n acc :
  (n / 32 = 0)%N -> digits32 (S fuel) n acc = String (digit32 (n mod 32)) acc.
Proof. intros Hn. simpl. by rewrite bool_decide_eq_true_2. Qed.

(** Five or more base-32 digits are printed for 32^4 and above. *)
Lemma FormatUint32_length n : (5 ≤ String.length (FormatUint32 n))%nat <-> (1048576 ≤ n)%N.
Proof.
  assert (n / 32 / 32 / 32 / 32 = n / 1048576)%N as Hdiv by by rewrite !N.Div0.div_div.
  assert (n / 32 / 32 / 32 / 32 = 0 -> ~ 1048576 ≤ n)%N as Hsmall.
  { rewrite Hdiv. intros E Hn. apply (N.Div0.div_le_mono _ _ 1048576) in Hn. by rewrite E in Hn. }
  unfold FormatUint32.
  destruct (decide (n / 32 = 0)%N) as [E1|E1]; [rewrite digits32_last by done|rewrite digits32_step by done].
  { rewrite E1 in Hsmall. simpl in *. split; [lia|]. intros Hn. by destruct (Hsmall eq_refl). }
  destruct (decide (n / 32 / 32 = 0)%N) as [E2|E2]; [rewrite digits32_last by done|rewrite digits32_step by done].
  { rewrite E2 in Hsmall. simpl in *. split; [lia|]. intros Hn. by destruct (Hsmall eq_refl). }
  destruct (decide (n / 32 / 32 / 32 = 0)%N) as [E3|E3]; [rewrite digits32_last by done|rewrite digits32_step by done].
  { rewrite E3 in Hsmall. simpl in *. split; [lia|]. intros Hn. by destruct (Hsmall eq_refl). }
  destruct (decide (n / 32 / 32 / 32 / 32 = 0)%N) as [E4|E4]; [rewrite digits32_last by done|rewrite digits32_step by done].
  { rewrite E4 in Hsmall. simpl in *. split; [lia|]. intros Hn. by destruct (Hsmall eq_refl). }
  split.
  - intros _. rewrite Hdiv in E4. destruct (decide (1048576 ≤ n)%N); [done|].
    exfalso. apply E4. apply N.div_small. lia.
  - intros _. destruct (decide (n / 32 / 32 / 32 / 32 / 32 = 0)%N);
      [rewrite digits32_last by done; simpl; lia|rewrite digits32_step by done].
    etrans; [|apply digits32_length]. simpl. lia.
Qed.

(** Naming a scheduled backup panics exactly for the schedules whose CRC-32
    is below 32^4 (one in 4096): the checksum then has fewer than the five
    base-32 digits the code slices off. *)
Theorem ScheduledBackupName_panics tnow crName storageName schedule :
  ScheduledBackupName tnow crName storageName schedule = Panic <->
  (ChecksumIEEE schedule < 1048576)%N.
Proof.
  unfold ScheduledBackupName, slice_to.
  pose proof (FormatUint32_length (ChecksumIEEE schedule)) as Hl.
  destruct (decide (5 ≤ String.length (FormatUint32 (ChecksumIEEE schedule)))%nat) as [Hc|Hc].
  - rewrite (bool_decide_eq_true_2 (5 ≤ _)%nat) by done. apply Hl in Hc. split; [done|]. intros. lia.
  - rewrite (bool_decide_eq_false_2 (5 ≤ _)%nat) by done. split; [|done]. intros _.
    destruct (decide (1048576 ≤ ChecksumIEEE schedule)%N) as [Hn|]; [by apply Hl in Hn|lia].
Qed.

(** Such a schedule, and two times whose names collide. *)
Example ScheduledBackupName_panic_example :
  ScheduledBackupName (mkClock 2024 1 11 0 0 0) "c1" "s3" "54 9 * * 5" = Panic.
Proof. vm_compute. reflexivity. Qed.

(** The time stamp in a scheduled backup's name has no separators and no
    padding, so two different times can give one name (11 January and 1
    November of a year). *)
Theorem ScheduledBackupName_collision y h m s crName storageName schedule :
  ScheduledBackupName (mkClock y 1 11 h m s) crName storageName schedule =
  ScheduledBackupName (mkClock y 11 1 h m s) crName storageName schedule.
Proof. unfold ScheduledBackupName, clock_stamp. simpl. by rewrite !str_app_assoc. Qed.

Lemma BackupJobName_spec_witness :
  BackupJobName "c1-full" = "xb-c1-full" /\
  exists n1 n2, n1 <> n2 /\ BackupJobName n1 = BackupJobName n2.
Proof.
  split; [reflexivity|].
  exists "aaaaaaaaaaaaaaaaaaaaaaaaaaaaaaaaaaaaaaaaaaaaaaaaaaaaaaaaaaaa1",
         "aaaaaaaaaaaaaaaaaaaaaaaaaaaaaaaaaaaaaaaaaaaaaaaaaaaaaaaaaaaa2".
  split; [discriminate|]. destruct BackupJobName_spec as (_ & _ & Hc).
  apply (Hc "aaaaaaaaaaaaaaaaaaaaaaaaaaaaaaaaaaaaaaaaaaaaaaaaaaaaaaaaaaaa" "1" "2");
    [reflexivity|discriminate|discriminate|reflexivity|reflexivity].
Defined.
