(* ===== verification/Secrets.v ===== *)
(** * Secrets and generated passwords: [pkg/controller/pxc/secrets.go]

    The secret with the passwords of the system users, which the operator creates
    and completes, and the generator of passwords.  A nil map of data is [None]:
    it reads as empty, and an assignment to it panics. *)

From S2P Require Import Prelude GoStrings ApiTypes Naming.

(** [corev1.Secret] *)
Record Secret := mkSecret {
  sec_Meta : ObjectMeta;
  sec_Data : option (gmap string string) }.

Definition sec_key (s : Secret) : NamespacedName := meta_key (sec_Meta s).
Definition data_of (s : Secret) : gmap string string := default ∅ (sec_Data s).

(** [secret.Data[k]]: a missing entry is a nil slice, which has length zero. *)
Definition data_get (s : Secret) (k : string) : string := default "" (data_of s !! k).
Definition has_key (s : Secret) (k : string) : bool := bool_decide (is_Some (data_of s !! k)).

(** [secret.Data[k] = v] *)
Definition data_set (k v : string) (s : Secret) : res Secret :=
  m ← deref (sec_Data s);
  Ok (s <| sec_Data := Some (<[k := v]> m) |>).

(** [if secret.Data == nil { secret.Data = make(...) }] *)
Definition make_data (s : Secret) : Secret := s <| sec_Data := Some (data_of s) |>.

Definition annotate (k v : string) (s : Secret) : Secret :=
  s <| sec_Meta -> meta_Annotations ::= <[k := v]> |>.

(** ** The API server's secrets

    A write answers with the object the server stored. *)
Class SecretClient (W : Type) := {
  sc_get : NamespacedName -> M W Secret;
  sc_create : Secret -> M W Secret;
  sc_update : Secret -> M W Secret;
  sc_patch : Secret -> Secret -> M W Secret;
  sc_delete : NamespacedName -> M W unit }.

(** The answer to a write carries what was sent; the server fills in the rest. *)
Definition same_content (s s' : Secret) : Prop :=
  data_of s' = data_of s /\ meta_Annotations (sec_Meta s') = meta_Annotations (sec_Meta s) /\
  sec_key s' = sec_key s.

Class SecretAnswers (W : Type) `{SecretClient W} := {
  sa_create s w w' s' : sc_create s w = (w', Ok s') -> same_content s s';
  sa_update s w w' s' : sc_update s w = (w', Ok s') -> same_content s s' }.

(** What [client.MergeFrom(orig)] changes in the stored data: the entries in which
    the new object differs from the original one. *)
Definition merge_data (orig new stored : gmap string string) : gmap string string :=
  filter (fun kv => orig !! kv.1 <> Some kv.2) new ∪ (stored ∖ (orig ∖ new)).

(** The generators of random numbers: [math/rand] and [crypto/rand]. *)
Class RandEnv (W : Type) := {
  rand_Intn : Z -> M W Z;
  rand_Int : Z -> M W Z }.

(** Both panic on an empty range and stay inside any other. *)
Class RandLaws (W : Type) `{RandEnv W} := {
  rand_Intn_spec n w w' r : rand_Intn n w = (w', r) ->
    match r with Ok x => 0 <= x < n | Err _ => False | Panic => n <= 0 end;
  rand_Int_spec n w w' r : rand_Int n w = (w', r) ->
    match r with Ok x => 0 <= x < n | Err _ => True | Panic => n <= 0 end }.

(** ** Names of the system users ([pkg/pxc/users]) *)

Definition Root : string := "root".
Definition Operator : string := "operator".
Definition Monitor : string := "monitor".
Definition Xtrabackup : string := "xtrabackup".
Definition Replication : string := "replication".
Definition ProxyAdmin : string := "proxyadmin".
Definition PMMServer : string := "pmmserver".
Definition PMMServerKey : string := "pmmserverkey".
Definition PMMServerToken : string := "pmmservertoken".

Definition UserNames : list string :=
  [Root; Operator; Monitor; Xtrabackup; Replication; ProxyAdmin; PMMServer; PMMServerKey; PMMServerToken].

(** ** Passwords *)

Definition passBaseSymbols : string :=
  "ABCDEFGHIJKLMNOPQRSTUVWXYZ" +:+ "abcdefghijklmnopqrstuvwxyz" +:+ "0123456789".

Definition passSymbols (o : PasswordGenerationOptions) : string := passBaseSymbols +:+ pw_Symbols o.

Definition colon : Ascii.ascii := Ascii.Ascii false true false true true true false false.
Definition semicolon : Ascii.ascii := Ascii.Ascii true true false true true true false false.
Definition star : Ascii.ascii := Ascii.Ascii false true false true false true false false.

(** [strings.NewReplacer(c1, "", c2, "", ...).Replace(s)] for single bytes. *)
Fixpoint remove_chars (bad : list Ascii.ascii) (s : string) : string :=
  match s with
  | EmptyString => EmptyString
  | String c s => if decide (c ∈ bad) then remove_chars bad s else String c (remove_chars bad s)
  end.

(** [s[i]]: out of range panics. *)
Definition char_at (s : string) (i : Z) : res Ascii.ascii :=
  if bool_decide (i < 0) then Panic else deref (String.get (Z.to_nat i) s).

Definition set_at (l : list Ascii.ascii) (i : Z) (c : Ascii.ascii) : res (list Ascii.ascii) :=
  if bool_decide (0 <= i < Z.of_nat (length l)) then Ok (<[Z.to_nat i := c]> l) else Panic.

Definition str_len (s : string) : Z := Z.of_nat (String.length s).

Section generate.
Context {W : Type} `{RandEnv W}.

Definition pick (symbols : string) : M W Ascii.ascii :=
  i ← wrap "get rand int" (rand_Int (str_len symbols));
  lift (char_at symbols i).

(** The loop over the bytes of the password, from index [i] on. *)
Fixpoint gen_loop (firstSymbols otherSymbols : string) (i n : nat) : M W (list Ascii.ascii) :=
  match n with
  | O => mret []
  | S n =>
      c ← pick (if bool_decide (i = O) then firstSymbols else otherSymbols);
      b ← gen_loop firstSymbols otherSymbols (S i) n;
      mret (c :: b)
  end.

Definition other_symbols (username : string) (o : PasswordGenerationOptions) : string :=
  if bool_decide (username = ProxyAdmin) then remove_chars [colon; semicolon] (passSymbols o) else passSymbols o.

Definition first_symbols (username : string) (o : PasswordGenerationOptions) : string :=
  if bool_decide (username = ProxyAdmin) then ReplaceAll (other_symbols username o) "*" "" else passSymbols o.

Definition allowed_symbols (username : string) (o : PasswordGenerationOptions) : string :=
  if bool_decide (username = ProxyAdmin) then remove_chars [colon; semicolon; star] (pw_Symbols o) else pw_Symbols o.

(** One special symbol is put somewhere, but not at the start for the admin of
    the proxy. *)
Definition put_symbol (username : string) (o : PasswordGenerationOptions) (ln : Z) (b : list Ascii.ascii) :
    M W (list Ascii.ascii) :=
  if bool_decide (str_len (pw_Symbols o) <= 0) then mret b else
  let allowed := allowed_symbols username o in
  if bool_decide (str_len allowed <= 0) then mret b else
  let startPos := if bool_decide (username = ProxyAdmin /\ 1 < ln) then 1 else 0 in
  posInt ← wrap "get rand position for symbol" (rand_Int (ln - startPos));
  symbolInt ← wrap "get rand symbol" (rand_Int (str_len allowed));
  c ← lift (char_at allowed symbolInt);
  lift (set_at b (posInt + startPos) c).

Definition generatePass (username : string) (opts : option PasswordGenerationOptions) : M W string :=
  o ← lift (deref opts);
  extra ← (if bool_decide (0 < pw_MaxLength o - pw_MinLength o)
           then rand_Intn (pw_MaxLength o - pw_MinLength o) else mret 0);
  let ln := pw_MinLength o + extra in
  if bool_decide (ln < 0) then panic else
  b ← gen_loop (first_symbols username o) (other_symbols username o) 0 (Z.to_nat ln);
  b ← put_symbol username o ln b;
  mret (String.string_of_list_ascii b).

(** ** The users secret *)

Definition ContainsAny (s : string) (cs : list Ascii.ascii) : bool :=
  existsb (fun c => bool_decide (c ∈ cs)) (String.list_ascii_of_string s).

Definition check_password (user pass : string) : res unit :=
  if bool_decide (user = ProxyAdmin) then
    if ContainsAny pass [semicolon; colon] then Err (ErrNew "invalid proxyadmin password, don't use ';' or ':'")
    else if HasPrefix pass "*" then Err (ErrNew "invalid proxyadmin password, first character must not be '*'")
    else Ok tt
  else Ok tt.

Definition validatePasswords (s : Secret) : res unit :=
  foldr (fun kv rest => _ ← check_password kv.1 kv.2; rest) (Ok tt) (map_to_list (data_of s)).

Definition secret_users : list string := [Root; Xtrabackup; Monitor; ProxyAdmin; Operator; Replication].

Fixpoint set_defaults (users : list string) (opts : option PasswordGenerationOptions) (s : Secret) (isChanged : bool) :
    M W (Secret * bool) :=
  match users with
  | [] => mret (s, isChanged)
  | u :: users =>
      if negb (bool_decide (data_get s u = "")) then set_defaults users opts s isChanged else
      pass ← wrap ("create " +:+ u +:+ " users password") (generatePass u opts);
      s ← lift (data_set u pass s);
      set_defaults users opts s true
  end.

Definition setUserSecretDefaults (s : Secret) (opts : option PasswordGenerationOptions) : M W (Secret * bool) :=
  set_defaults secret_users opts (make_data s) false.

Context `{SecretClient W}.

Definition reconcileUsersSecret (cr : PerconaXtraDBCluster) : M W Secret :=
  let opts := spec_PasswordGenerationOptions (cluster_Spec cr) in
  let name := mkNN (cluster_Namespace cr) (spec_SecretsName (cluster_Spec cr)) in
  got ← try (sc_get name);
  match got with
  | inr secretObj =>
      _ ← wrap "validate passwords" (lift (validatePasswords secretObj));
      out ← wrap "set user secret defaults" (setUserSecretDefaults secretObj opts);
      let '(secretObj, isChanged) := out : Secret * bool in
      if isChanged : bool then sc_update secretObj else mret secretObj
  | inl e =>
      if negb (IsNotFound e) then fail (ErrWrap "get secret" e) else
      let secretObj := mkSecret (mkMeta (spec_SecretsName (cluster_Spec cr)) (cluster_Namespace cr) ""
                                   (LabelsCluster cr) ∅ [] 0 0 None) None in
      out ← wrap "set user secret defaults" (setUserSecretDefaults secretObj opts);
      r ← try (sc_create (fst (out : Secret * bool)));
      match r with
      | inl e => fail (ErrNew ("create Users secret: " +:+ Error e))
      | inr s => mret s
      end
  end.
End generate.
