(* ===== verification/SecretsSpec.v ===== *)
(** * Generated passwords and the users secret: proofs *)

From S2P Require Import Prelude GoStrings ApiTypes Naming Secrets.

(** ** Bytes of strings *)

Definition char_in (c : Ascii.ascii) (s : string) : Prop := c ∈ String.list_ascii_of_string s.

Lemma char_in_cons c d s : char_in c (String d s) <-> c = d \/ char_in c s.
Proof. unfold char_in. simpl. by rewrite elem_of_cons. Qed.

Lemma char_in_app c s1 s2 : char_in c (s1 +:+ s2) <-> char_in c s1 \/ char_in c s2.
Proof.
  induction s1 as [|d s1 IH].
  - split; [by right|intros [Hc|Hc]; [by apply elem_of_nil in Hc|done]].
  - change (String d s1 +:+ s2) with (String d (s1 +:+ s2)). rewrite !char_in_cons, IH. tauto.
Qed.

Lemma char_in_list c l : char_in c (String.string_of_list_ascii l) <-> c ∈ l.
Proof. unfold char_in. by rewrite String.list_ascii_of_string_of_list_ascii. Qed.

Lemma str_len_list l : str_len (String.string_of_list_ascii l) = Z.of_nat (length l).
Proof. unfold str_len. f_equal. induction l as [|c l IH]; simpl; [done|by rewrite IH]. Qed.

Lemma char_in_remove c bad s : char_in c (remove_chars bad s) <-> char_in c s /\ c ∉ bad.
Proof.
  induction s as [|d s IH]; simpl.
  - unfold char_in. simpl. set_solver.
  - destruct (decide (d ∈ bad)) as [Hd|Hd]; rewrite ?char_in_cons, IH; naive_solver.
Qed.

Lemma ReplaceAll_remove d s : ReplaceAll s (String d "") "" = remove_chars [d] s.
Proof.
  unfold ReplaceAll. induction s as [|e s IH]; [done|].
  rewrite Split_cons. simpl. destruct (decide (e ∈ [d])) as [He|He].
  - apply list_elem_of_singleton in He as ->. rewrite bool_decide_eq_true_2 by done.
    pose proof (Split_not_nil d s). rewrite <- IH. by destruct (Split s (String d "")).
  - rewrite bool_decide_eq_false_2 by set_solver. rewrite <- IH.
    pose proof (Split_not_nil d s). by destruct (Split s (String d "")) as [|x [|y l]].
Qed.

Lemma char_at_Ok s i c : char_at s i = Ok c -> char_in c s.
Proof.
  unfold char_at. case_bool_decide; [done|]. unfold deref.
  destruct (String.get (Z.to_nat i) s) as [d|] eqn:E; [|done]. intros [= <-].
  revert E. generalize (Z.to_nat i). induction s as [|e s IH]; intros n Hn; [by destruct n|].
  rewrite char_in_cons. destruct n as [|n]; simpl in Hn; [left; congruence|right; eauto].
Qed.

Lemma char_at_in_range s i : 0 <= i < str_len s -> exists c, char_at s i = Ok c.
Proof.
  intros Hi. unfold char_at, str_len in *. rewrite bool_decide_eq_false_2 by lia.
  assert (exists c, String.get (Z.to_nat i) s = Some c) as [c Hc]; [|by exists c; rewrite Hc].
  assert (Z.to_nat i < String.length s)%nat as Hn by lia. clear Hi. revert Hn. generalize (Z.to_nat i).
  induction s as [|e s IH]; intros n Hn; simpl in *; [lia|].
  destruct n as [|n]; [by eexists|]. apply IH. lia.
Qed.

(** ** The generator *)

Section generator.
Context {W : Type} `{RandLaws W}.

Lemma pick_Ok s w w' c : pick s w = (w', Ok c) -> char_in c s.
Proof. intros Hp. unfold pick in Hp. go_inv. by eapply char_at_Ok. Qed.

Lemma pick_no_panic s w w' : 0 < str_len s -> pick s w <> (w', Panic).
Proof.
  intros Hs. unfold pick, mbind, M_bind, wrap.
  destruct (rand_Int (str_len s) w) as [w1 [i|e|]] eqn:E; simpl; apply rand_Int_spec in E; [|done|lia].
  destruct (char_at_in_range s i E) as [c Hc]. unfold lift. by rewrite Hc.
Qed.

Lemma gen_loop_Ok f o n : forall i w w' b,
  gen_loop f o i n w = (w', Ok b) ->
  length b = n /\
  forall k c, b !! k = Some c -> char_in c (if bool_decide (i + k = 0)%nat then f else o).
Proof.
  induction n as [|n IH]; intros i w w' b Hg; simpl in Hg; go_inv; [by split|].
  match goal with Hp : pick _ _ = _ |- _ => apply pick_Ok in Hp as Hc end.
  match goal with Hr : gen_loop _ _ _ _ _ = _ |- _ => apply IH in Hr as [Hlen Hcs] end.
  split; [simpl; congruence|]. intros [|k] c Hk; simpl in Hk.
  - simplify_eq. rewrite Nat.add_0_r. by case_bool_decide.
  - apply Hcs in Hk. by rewrite Nat.add_succ_r, <- Nat.add_succ_l.
Qed.

Lemma gen_loop_no_panic f o n : forall i w w',
  0 < str_len f -> 0 < str_len o -> gen_loop f o i n w <> (w', Panic).
Proof.
  induction n as [|n IH]; intros i w w' Hf Ho; simpl; [done|].
  set (s := if bool_decide (i = O) then f else o).
  assert (0 < str_len s) as Hs by (subst s; by case_bool_decide).
  pose proof (pick_no_panic s w) as Hp.
  unfold mbind, M_bind. destruct (pick s w) as [w1 [c|e|]]; [|done|by destruct (Hp w1)].
  specialize (IH (S i) w1). destruct (gen_loop f o (S i) n w1) as [w2 [b|e|]]; [done|done|by destruct (IH w2)].
Qed.

Definition letter_A : Ascii.ascii := Ascii.Ascii true false false false false false true false.

(** The base symbols are in every alphabet. *)
Lemma base_symbol_in u o : char_in letter_A (other_symbols u o) /\ char_in letter_A (first_symbols u o).
Proof.
  assert (char_in letter_A (passSymbols o)) as HA
    by (unfold passSymbols, passBaseSymbols; apply char_in_app; left; by left).
  unfold first_symbols, other_symbols. case_bool_decide; [|done].
  change "*" with (String star ""). rewrite ReplaceAll_remove, !char_in_remove.
  split_and!; try done; intros Hin; repeat (apply elem_of_cons in Hin as [Hin|Hin]; [done|]);
    by apply elem_of_nil in Hin.
Qed.

Lemma char_in_len c s : char_in c s -> 0 < str_len s.
Proof. destruct s; [by intros Hc%elem_of_nil|]. intros _. unfold str_len. simpl. lia. Qed.

Lemma other_in c u o :
  char_in c (other_symbols u o) -> char_in c (passSymbols o) /\ (u = ProxyAdmin -> c <> colon /\ c <> semicolon).
Proof. unfold other_symbols. case_bool_decide as Hu; [|done]. rewrite char_in_remove. set_solver. Qed.

Lemma first_in c u o :
  char_in c (first_symbols u o) -> char_in c (other_symbols u o) /\ (u = ProxyAdmin -> c <> star).
Proof.
  unfold first_symbols, other_symbols. case_bool_decide as Hu; [|done].
  change "*" with (String star ""). rewrite ReplaceAll_remove, !char_in_remove. set_solver.
Qed.

Lemma allowed_in c u o :
  char_in c (allowed_symbols u o) -> char_in c (other_symbols u o) /\ (u = ProxyAdmin -> c <> star).
Proof.
  unfold allowed_symbols, other_symbols, passSymbols. case_bool_decide as Hu.
  - rewrite !char_in_remove, !char_in_app. set_solver.
  - rewrite !char_in_app. naive_solver.
Qed.

(** A password that is accepted: no separator, and no star at the start. *)
Lemma check_password_ok u (b : list Ascii.ascii) :
  (u = ProxyAdmin -> (forall c, c ∈ b -> c <> colon /\ c <> semicolon) /\ head b <> Some star) ->
  check_password u (String.string_of_list_ascii b) = Ok tt.
Proof.
  intros Hb. unfold check_password. case_bool_decide as Hu; [|done].
  destruct (Hb Hu) as [Hc Hs].
  assert (ContainsAny (String.string_of_list_ascii b) [semicolon; colon] = false) as ->.
  { unfold ContainsAny. rewrite String.list_ascii_of_string_of_list_ascii.
    apply not_true_is_false. rewrite existsb_exists. intros (c & Hin & Hd).
    apply bool_decide_eq_true in Hd. apply list_elem_of_In, Hc in Hin. set_solver. }
  destruct b as [|c b]; [done|]. change "*" with (String star ""). simpl String.string_of_list_ascii.
  rewrite HasPrefix_char, bool_decide_eq_false_2; [done|]. simpl in Hs. congruence.
Qed.

Lemma put_symbol_Ok u o ln b w w' b' :
  ln = Z.of_nat (length b) -> put_symbol u o ln b w = (w', Ok b') ->
  b' = b /\ allowed_symbols u o = "" \/
  exists k c, (k < length b)%nat /\ char_in c (allowed_symbols u o) /\ b' = <[k := c]> b.
Proof.
  intros Hln. unfold put_symbol. case_bool_decide as Hsym.
  { intros Hp. go_inv. left. split; [done|]. unfold allowed_symbols.
    destruct (pw_Symbols o); [by case_bool_decide|]. unfold str_len in Hsym. simpl in Hsym. lia. }
  case_bool_decide as Hal.
  { intros Hp. go_inv. left. split; [done|].
    destruct (allowed_symbols u o); [done|]. unfold str_len in Hal. simpl in Hal. lia. }
  intros Hp. go_inv. right.
  match goal with Hs : set_at _ _ _ = Ok _ |- _ => unfold set_at in Hs; case_bool_decide; [|done] end.
  simplify_eq. eexists _, _. split; [|split; [by eapply char_at_Ok|done]]. lia.
Qed.

Lemma put_symbol_no_panic u o ln b w w' :
  ln = Z.of_nat (length b) -> 0 < ln -> put_symbol u o ln b w <> (w', Panic).
Proof.
  intros Hln Hpos. unfold put_symbol. case_bool_decide as Hsym; [done|].
  case_bool_decide as Hal; [done|].
  set (sp := if bool_decide (u = ProxyAdmin /\ 1 < ln) then 1 else 0).
  assert (0 <= sp < ln) as Hsp by (subst sp; case_bool_decide; lia).
  unfold mbind, M_bind, wrap. destruct (rand_Int (ln - sp) w) as [w1 [p|e|]] eqn:E1; simpl;
    apply rand_Int_spec in E1; [|done|lia].
  destruct (rand_Int (str_len _) w1) as [w2 [i|e|]] eqn:E2; simpl; apply rand_Int_spec in E2; [|done|lia].
  destruct (char_at_in_range _ _ E2) as [c Hc]. unfold lift. rewrite Hc.
  unfold set_at. by rewrite bool_decide_eq_true_2 by lia.
Qed.

Lemma generatePass_run u o w w' p :
  generatePass u (Some o) w = (w', Ok p) ->
  exists b b' wa wb, p = String.string_of_list_ascii b' /\
    gen_loop (first_symbols u o) (other_symbols u o) 0 (length b) wa = (wb, Ok b) /\
    put_symbol u o (Z.of_nat (length b)) b wb = (w', Ok b') /\
    pw_MinLength o <= Z.of_nat (length b) /\
    (Z.of_nat (length b) < pw_MaxLength o \/ Z.of_nat (length b) = pw_MinLength o).
Proof.
  intros Hg. unfold generatePass in Hg. rewrite (bind_Ok _ _ w w o) in Hg by done.
  go_inv. case_bool_decide as Hln; [done|]. go_inv.
  match goal with Hl : gen_loop _ _ _ _ _ = _, Hp : put_symbol _ _ _ _ _ = _ |- _ =>
    pose proof (gen_loop_Ok _ _ _ _ _ _ _ Hl) as [Hlen _]; rename Hl into Hloop; rename Hp into Hput end.
  match goal with Hx : (if bool_decide (0 < _) then _ else _) _ = (_, Ok ?x) |- _ => rename Hx into Hext; rename x into extra end.
  assert (0 <= extra /\ (extra = 0 \/ extra < pw_MaxLength o - pw_MinLength o)) as [Hlo Hhi].
  { case_bool_decide; [apply rand_Intn_spec in Hext; lia|]. go_inv. lia. }
  eexists _, _, _, _. split; [done|]. rewrite Hlen. split; [done|].
  rewrite Z2Nat.id by lia. split; [done|]. lia.
Qed.

Lemma generatePass_props u o w w' r :
  0 < pw_MinLength o -> generatePass u (Some o) w = (w', r) ->
  match r with
  | Ok p =>
      pw_MinLength o <= str_len p /\
      (str_len p < pw_MaxLength o \/ str_len p = pw_MinLength o) /\
      (forall c, char_in c p -> char_in c (passSymbols o)) /\
      (allowed_symbols u o <> "" -> exists c, char_in c p /\ char_in c (allowed_symbols u o)) /\
      check_password u p = Ok tt
  | Err _ => True
  | Panic => False
  end.
Proof.
  intros Hmin Hg. destruct r as [p|e|]; [|done|].
  - apply generatePass_run in Hg as (b & b' & wa & wb & -> & Hl & Hp & Hlo & Hhi).
    apply gen_loop_Ok in Hl as [_ Hl]. apply put_symbol_Ok in Hp as Hb; [|done].
    assert (length b' = length b) as Hlen by (destruct Hb as [[-> _]|(k & c & _ & _ & ->)]; [done|apply length_insert]).
    assert (forall k c, b' !! k = Some c -> char_in c (other_symbols u o) /\
              (k = O -> u = ProxyAdmin -> c <> star)) as Hall.
    { intros k c Hk. destruct Hb as [[-> _]|(k' & c' & Hk' & Hc' & ->)].
      - apply Hl in Hk. simpl in Hk. case_bool_decide; [|naive_solver].
        apply first_in in Hk as [? ?]. naive_solver.
      - destruct (decide (k = k')) as [->|Hne].
        + rewrite list_lookup_insert_eq in Hk by done. simplify_eq. apply allowed_in in Hc' as [? ?]. naive_solver.
        + rewrite list_lookup_insert_ne in Hk by done. apply Hl in Hk. simpl in Hk. case_bool_decide; [|naive_solver].
          apply first_in in Hk as [? ?]. naive_solver. }
    rewrite str_len_list, Hlen. split_and!; [done|done| | |].
    + intros c Hc. apply (proj1 (char_in_list c b')), list_elem_of_lookup in Hc as [k Hk]. apply Hall in Hk as [Hk _]. by apply other_in in Hk as [? _].
    + intros Ha. destruct Hb as [[-> Hb]|(k & c & Hk & Hc & ->)]; [done|].
      exists c. split; [|done]. apply (proj2 (char_in_list _ _)), list_elem_of_lookup. exists k. by apply list_lookup_insert_eq.
    + apply check_password_ok. intros Hu. split.
      * intros c [k Hk]%list_elem_of_lookup. apply Hall in Hk as [Hk _]. apply other_in in Hk as [_ Hk]. by apply Hk.
      * intros Hs. rewrite head_lookup in Hs. by destruct (proj2 (Hall _ _ Hs) eq_refl Hu).
  - unfold generatePass in Hg. revert Hg. unfold mbind, M_bind, lift. simpl.
    destruct ((if bool_decide (0 < pw_MaxLength o - pw_MinLength o)
              then rand_Intn (pw_MaxLength o - pw_MinLength o) else mret 0) w) as [w1 [x|e|]] eqn:E; [|done|].
    + assert (0 <= x) as Hx by (case_bool_decide; [apply rand_Intn_spec in E; lia|go_inv; lia]).
      rewrite bool_decide_eq_false_2 by lia.
      destruct (base_symbol_in u o) as [Ho%char_in_len Hf%char_in_len].
      destruct (gen_loop _ _ 0 _ w1) as [w2 [b|e|]] eqn:E2; [|done|by apply gen_loop_no_panic in E2].
      apply gen_loop_Ok in E2 as [Hlen _].
      destruct (put_symbol _ _ _ _ w2) as [w3 [b'|e|]] eqn:E3; [done|done|].
      apply put_symbol_no_panic in E3; [done|lia|lia].
    + intros _. case_bool_decide; [apply rand_Intn_spec in E; lia|]. done.
Qed.

(** C37: A generated password has at least [minLength] bytes, and fewer than
    [maxLength] when that is larger; its bytes are letters, digits and configured
    symbols; it has a configured symbol whenever the user may have one; and the
    validation of passwords accepts it (the password of the proxy admin has no
    separator and no star at the start).  With a positive [minLength] the generator
    never panics. *)
Theorem generatePass_spec u o w w' r :
  0 < pw_MinLength o -> generatePass u (Some o) w = (w', r) ->
  match r with
  | Ok p =>
      pw_MinLength o <= str_len p /\
      (str_len p < pw_MaxLength o \/ str_len p = pw_MinLength o) /\
      (forall c, char_in c p -> char_in c (passSymbols o)) /\
      (allowed_symbols u o <> "" -> exists c, char_in c p /\ char_in c (allowed_symbols u o)) /\
      check_password u p = Ok tt
  | Err _ => True
  | Panic => False
  end.
Proof. apply generatePass_props. Qed.
End generator.

(** ** The users secret *)

Lemma validatePasswords_iff s :
  validatePasswords s = Ok tt <->
  forall p, data_of s !! ProxyAdmin = Some p -> check_password ProxyAdmin p = Ok tt.
Proof.
  unfold validatePasswords.
  assert (forall l, foldr (fun kv rest => _ ← check_password kv.1 kv.2; rest) (Ok tt) l = Ok tt <->
            forall k p, (k, p) ∈ l -> check_password k p = Ok tt) as Hl.
  { induction l as [|[k p] l IH]; simpl; [split; [intros _ ? ? Hx; by apply elem_of_nil in Hx|done]|].
    split.
    - destruct (check_password k p) as [[]|e|] eqn:E; try done. simpl. rewrite IH. intros Hl k' p' Hin.
      apply elem_of_cons in Hin as [[= -> ->]|Hin]; [done|by apply Hl].
    - intros Hl. rewrite (Hl k p) by left. simpl. apply IH. intros. apply Hl. by right. }
  rewrite Hl. split.
  - intros Hx p Hp. apply Hx. by apply elem_of_map_to_list.
  - intros Hx k p Hp%elem_of_map_to_list. destruct (decide (k = ProxyAdmin)) as [->|Hk]; [by apply Hx|].
    unfold check_password. by rewrite bool_decide_eq_false_2.
Qed.

Lemma data_set_Ok k v s s' :
  data_set k v s = Ok s' -> data_of s' = <[k := v]> (data_of s) /\ sec_Meta s' = sec_Meta s.
Proof. unfold data_set, data_of. destruct s as [m [d|]]; simpl; [|done]. intros [= <-]. done. Qed.

Lemma data_of_make s : data_of (make_data s) = data_of s.
Proof. by destruct s. Qed.

(** All six users have a password, and the passwords are valid. *)
Definition users_complete (s : Secret) : Prop :=
  (forall u, u ∈ secret_users -> data_get s u <> "") /\ validatePasswords s = Ok tt.

(** [s'] is [s] with passwords put where there were none. *)
Record completes (us : list string) (s s' : Secret) : Prop := {
  comp_full u : u ∈ us -> data_get s' u <> "";
  comp_kept k : data_get s k <> "" -> data_of s' !! k = data_of s !! k;
  comp_others k : k ∉ us -> data_of s' !! k = data_of s !! k;
  comp_valid k p : data_of s' !! k = Some p -> data_of s !! k = Some p \/ check_password k p = Ok tt;
  comp_meta : sec_Meta s' = sec_Meta s }.

Section secret.
Context {W : Type} `{RandLaws W} `{!SecretClient W} (o : PasswordGenerationOptions) (Hmin : 0 < pw_MinLength o).

Lemma set_defaults_completes us : forall s ch w w' s' ch',
  set_defaults us (Some o) s ch w = (w', Ok (s', ch')) -> completes us s s' /\ (ch' = false -> s' = s).
Proof.
  induction us as [|u us IH]; intros s ch w w' s' ch' Hs; simpl in Hs; go_inv.
  { split; [|done]. split; try done; [by intros u Hu%elem_of_nil|by left]. }
  case_bool_decide as Hu; simpl in Hs.
  - go_inv. match goal with Hg : generatePass _ _ _ = (_, Ok ?p) |- _ => rename p into pass;
      apply (generatePass_props u o _ _ (Ok pass) Hmin) in Hg as (Hlen & _ & _ & _ & Hcheck) end.
    match goal with Hx : data_set _ _ _ = Ok ?x |- _ => rename x into s1; apply data_set_Ok in Hx as [Hd Hm] end.
    match goal with Hr : set_defaults _ _ _ _ _ = _ |- _ => pose proof (IH _ _ _ _ _ _ Hr) as [[Hf Hk Ho Hv Hme] _]; rename Hr into Hrest end.
    assert (pass <> "") as Hne by (intros ->; unfold str_len in Hlen; simpl in Hlen; lia).
    assert (data_get s1 u = pass) as Hget by (unfold data_get; rewrite Hd, lookup_insert_eq; done).
    split; [split|].
    + intros x Hx. destruct (decide (x = u)) as [->|Hxu].
      * unfold data_get in *. rewrite (Hk u), Hd, lookup_insert_eq; [done|]. by rewrite Hget.
      * apply Hf. set_solver.
    + intros k Hg. destruct (decide (k = u)) as [->|Hku]; [done|].
      rewrite Hk; [by rewrite Hd, lookup_insert_ne|]. unfold data_get in *. by rewrite Hd, lookup_insert_ne.
    + intros k Hnk. rewrite Ho by set_solver. rewrite Hd, lookup_insert_ne; [done|set_solver].
    + intros k p Hkp. apply Hv in Hkp as [Hkp|?]; [|by right]. rewrite Hd in Hkp.
      apply lookup_insert_Some in Hkp as [[<- <-]|[? ?]]; [by right|by left].
    + by rewrite Hme.
    + intros ->. exfalso. clear -Hrest. revert Hrest. intros Hrest. match type of Hrest with set_defaults _ _ _ _ ?wr = _ => revert Hrest; generalize wr s1; clear end.
      induction us as [|v us IH']; intros w1 s1 Hr; simpl in Hr; go_inv.
      case_bool_decide; simpl in Hr; [go_inv; by eapply IH'|by eapply IH'].
  - apply IH in Hs as [[Hf Hk Ho Hv Hme] Hch]. split; [split|done]; try done.
    + intros x Hx. destruct (decide (x = u)) as [->|Hxu]; [|apply Hf; set_solver].
      unfold data_get in *. by rewrite Hk.
    + intros k Hnk. apply Ho. set_solver.
Qed.

Lemma set_defaults_complete us opts s ch w :
  (forall u, u ∈ us -> data_get s u <> "") -> set_defaults us opts s ch w = (w, Ok (s, ch)).
Proof.
  induction us as [|u us IH]; intros Hf; simpl; [done|].
  rewrite bool_decide_eq_false_2 by (apply Hf; by left). simpl. apply IH. intros v Hv. apply Hf. by right.
Qed.

Lemma setUserSecretDefaults_completes s w w' s' ch :
  setUserSecretDefaults s (Some o) w = (w', Ok (s', ch)) ->
  completes secret_users s s' /\ (validatePasswords s = Ok tt -> users_complete s').
Proof.
  intros Hs. apply set_defaults_completes in Hs as [[Hf Hk Ho Hv Hm] _].
  unfold data_get in Hk. rewrite data_of_make in Hk. setoid_rewrite data_of_make in Ho. setoid_rewrite data_of_make in Hv.
  assert (completes secret_users s s') as Hc by (split; try done; rewrite Hm; by destruct s).
  split; [done|]. intros Hval. split; [done|]. apply validatePasswords_iff. intros p Hp.
  apply Hv in Hp as [Hp|?]; [|done]. by apply (proj1 (validatePasswords_iff s) Hval).
Qed.

Lemma complete_content s s' : users_complete s -> data_of s' = data_of s -> users_complete s'.
Proof.
  intros [Hf Hv] Hd. split; [intros u Hu; unfold data_get; rewrite Hd; by apply Hf|].
  apply validatePasswords_iff. rewrite Hd. by apply validatePasswords_iff.
Qed.

(** C36: The users secret a pass works with is complete: each of the six system
    users has a password and the passwords are valid, whether the secret was there
    or had to be created; a password that was set is never replaced, and other
    entries stay as they are.  A complete secret is left alone: the pass only reads
    it. *)
Theorem reconcileUsersSecret_spec `{!SecretAnswers W} cr w w' s :
  spec_PasswordGenerationOptions (cluster_Spec cr) = Some o ->
  let name := mkNN (cluster_Namespace cr) (spec_SecretsName (cluster_Spec cr)) in
  reconcileUsersSecret cr w = (w', Ok s) ->
  users_complete s /\
  (forall w1 s0, sc_get name w = (w1, Ok s0) ->
     (forall k, data_get s0 k <> "" -> data_of s !! k = data_of s0 !! k) /\
     (forall k, k ∉ secret_users -> data_of s !! k = data_of s0 !! k) /\
     (users_complete s0 -> w' = w1 /\ data_of s = data_of s0)).
Proof.
  intros Hopt name Hr. unfold reconcileUsersSecret in Hr. fold name in Hr. rewrite Hopt in Hr.
  apply bind_inv_Ok in Hr as (w1 & got & Hget & Hr). apply try_inv_Ok in Hget as [(s0 & -> & Hget)|(e & -> & Hget)].
  - apply bind_inv_Ok in Hr as (w2 & [] & Hval & Hr). apply wrap_inv_Ok in Hval.
    unfold lift in Hval. injection Hval as <- Hval.
    apply bind_inv_Ok in Hr as (w3 & [s1 ch] & Hdef & Hr). apply wrap_inv_Ok in Hdef.
    pose proof (setUserSecretDefaults_completes _ _ _ _ _ Hdef) as [[Hf Hk Ho _ _] Hcomp].
    assert (data_of s = data_of s1) as Hd
      by (destruct ch; [by apply sa_update in Hr as (? & _)|by go_inv]).
    split; [by eapply complete_content; [apply Hcomp|]|].
    intros wx sx Hget'. rewrite Hget in Hget'. injection Hget' as <- <-. rewrite Hd.
    split; [done|split; [done|]]. intros [Hfull _]. unfold setUserSecretDefaults in Hdef.
    rewrite set_defaults_complete in Hdef
      by (intros u Hu; unfold data_get; rewrite data_of_make; by apply Hfull).
    injection Hdef as <- <- <-. go_inv. split; [done|]. apply data_of_make.
  - destruct (IsNotFound e); [|done]. cbn [negb] in Hr. cbv zeta in Hr.
    apply bind_inv_Ok in Hr as (w3 & [s1 ch] & Hdef & Hr). apply wrap_inv_Ok in Hdef.
    pose proof (setUserSecretDefaults_completes _ _ _ _ _ Hdef) as [_ Hcomp].
    apply bind_inv_Ok in Hr as (w4 & [e'|s2] & Hc & Hr); [done|]. go_inv.
    apply try_inv_Ok in Hc as [(s3 & [= <-] & Hc)|(? & [=] & _)]. apply sa_create in Hc as (Hd & _).
    split; [by eapply complete_content; [apply Hcomp|]|].
    intros wx sx Hget'. rewrite Hget in Hget'. discriminate.
Qed.
End secret.
