(* ===== verification/MysqlUsers.v ===== *)
(** * Database users: [pkg/pxc/users/users.go]

    The statements the operator sends to manage accounts.  The database server is
    not part of the repository: [MysqlEnv] has the calls of [database/sql], and
    [MysqlLaws] what the documentation of MySQL says about the statements used
    here: an account has a password and may keep its previous one ("dual
    passwords"), [ALTER USER] commits at once, and a statement that reports an
    error may have been carried out or not. *)

From S2P Require Import Prelude GoStrings ApiTypes Secrets.

(** [*sql.DB], as opened: the user and address of the connections. *)
Record DB := mkDB {
  db_User : string;
  db_Passwd : string;
  db_Addr : string;
  db_Timeout : Z }.

#[export] Instance DB_eq_dec : EqDecision DB.
Proof. solve_decision. Defined.

(** An account: its password and the one it had before, as long as that is kept. *)
Record Account := mkAccount {
  acc_Pass : string;
  acc_Old : option string }.

Abbreviation Accounts := (gmap (string * string) Account).

Record SysUser := mkSysUser {
  su_Name : string;
  su_Pass : string;
  su_Hosts : list string }.

(** [users.User]: an account as found in the database. *)
Record DbUser := mkDbUser {
  du_Name : string;
  du_Hosts : gset string;
  du_DBs : gset string;
  du_Grants : gmap string (list string) }.

Definition ErrNoRows : error := ErrVar "sql.ErrNoRows" "sql: no rows in result set".

(** A row of a result; a NULL is [None]. *)
Definition Row : Type := list (option string).

Class MysqlEnv (W : Type) := {
  my_Open : DB -> res unit;
  my_Close : DB -> M W unit;
  my_Exec : DB -> string -> list string -> M W unit;
  my_Begin : DB -> M W unit;
  my_TxExec : DB -> string -> list string -> M W unit;
  my_Rollback : DB -> M W unit;
  my_Commit : DB -> M W unit;
  my_QueryRow : DB -> string -> list string -> M W Row;
  my_Query : DB -> string -> list string -> M W (list Row) }.

(** ** Statements *)

Definition sql_retain : string := "ALTER USER ?@? IDENTIFIED BY ? RETAIN CURRENT PASSWORD".
Definition sql_discard : string := "ALTER USER ?@? DISCARD OLD PASSWORD".
Definition sql_identified : string := "ALTER USER ?@? IDENTIFIED BY ?".
Definition sql_expire_never : string := "ALTER USER ?@? PASSWORD EXPIRE NEVER".
Definition sql_attributes : string := "SELECT User_attributes FROM mysql.user WHERE user=?".
Definition sql_create_user (u : string) : string := "CREATE USER IF NOT EXISTS '" +:+ u +:+ "'@'%' IDENTIFIED BY ?".
Definition sql_admin_credentials : string :=
  "UPDATE global_variables SET variable_value=? WHERE variable_name='admin-admin_credentials'".
Definition sql_cluster_password : string :=
  "UPDATE global_variables SET variable_value=? WHERE variable_name='admin-cluster_password'".
Definition sql_monitor_password : string :=
  "UPDATE global_variables SET variable_value=? WHERE variable_name='mysql-monitor_password'".

Section manager.
Context {W : Type} `{MysqlEnv W}.

Definition NewManager (addr user pass : string) (timeout : Z) : res DB :=
  let db := mkDB user pass addr timeout in
  _ ← wrap_res "cannot connect to any host" (my_Open db);
  Ok db.

Definition Close (db : DB) : M W unit := my_Close db.

Definition CreateOperatorUser (db : DB) (pass : string) : M W unit :=
  _ ← wrap "create operator user" (my_Exec db (sql_create_user "operator") [pass]);
  wrap "grant operator user" (my_Exec db "GRANT ALL ON *.* TO 'operator'@'%' WITH GRANT OPTION" []).

(** [UpdateUserPassWithoutDP] *)
Definition UpdateUserPassWithoutDP (db : DB) (user : option SysUser) : M W unit :=
  match user with
  | None => mret tt
  | Some user =>
      for_each (fun host => wrap "update password" (my_Exec db sql_identified [su_Name user; host; su_Pass user]))
        (su_Hosts user)
  end.

(** The loop of a transaction over the hosts of a user: the first error rolls back. *)
Fixpoint tx_alter (db : DB) (query : string) (args : string -> list string) (hosts : list string) : M W unit :=
  match hosts with
  | [] => mret tt
  | host :: hosts =>
      r ← try (my_TxExec db query (args host));
      match r with
      | inr _ => tx_alter db query args hosts
      | inl e =>
          let e := ErrWrap "alter user" e in
          rb ← try (my_Rollback db);
          match rb with
          | inl eT => fail (ErrWrap (Error e) (ErrWrap "rollback" eT))
          | inr _ => fail e
          end
      end
  end.

Definition UpdateUserPass (db : DB) (user : option SysUser) : M W unit :=
  match user with
  | None => mret tt
  | Some user =>
      _ ← wrap "begin transaction" (my_Begin db);
      _ ← tx_alter db sql_retain (fun host => [su_Name user; host; su_Pass user]) (su_Hosts user);
      wrap "commit transaction" (my_Commit db)
  end.

Definition DiscardOldPassword (db : DB) (user : option SysUser) : M W unit :=
  match user with
  | None => mret tt
  | Some user =>
      _ ← wrap "begin transaction" (my_Begin db);
      _ ← tx_alter db sql_discard (fun host => [su_Name user; host]) (su_Hosts user);
      wrap "commit transaction" (my_Commit db)
  end.

(** An account with any attribute counts as one with an old password; the first row
    of the user decides. *)
Definition IsOldPassDiscarded (db : DB) (user : SysUser) : M W bool :=
  r ← try (my_QueryRow db sql_attributes [su_Name user]);
  match r with
  | inl e => if bool_decide (e = ErrNoRows) then mret true else fail (ErrWrap "select User_attributes field" e)
  | inr (Some _ :: _) => mret false
  | inr _ => mret true
  end.

Definition UpdateProxyUser (db : DB) (user : SysUser) : M W unit :=
  if bool_decide (su_Name user = ProxyAdmin) then
    _ ← wrap "update proxy admin password" (my_Exec db sql_admin_credentials ["proxyadmin:" +:+ su_Pass user]);
    _ ← wrap "update proxy admin password" (my_Exec db sql_cluster_password [su_Pass user]);
    _ ← wrap "load to runtime" (my_Exec db "LOAD ADMIN VARIABLES TO RUNTIME" []);
    wrap "save to disk" (my_Exec db "SAVE ADMIN VARIABLES TO DISK" [])
  else if bool_decide (su_Name user = Monitor) then
    _ ← wrap "update proxy monitor password" (my_Exec db sql_monitor_password [su_Pass user]);
    _ ← wrap "load to runtime" (my_Exec db "LOAD MYSQL VARIABLES TO RUNTIME" []);
    wrap "save to disk" (my_Exec db "SAVE MYSQL VARIABLES TO DISK" [])
  else mret tt.

Definition Update160MonitorUserGrant (db : DB) (pass : string) : M W unit :=
  _ ← wrap "create operator user" (my_Exec db (sql_create_user "monitor") [pass]);
  _ ← wrap "grant service_connection to user monitor"
        (my_Exec db "/*!80015 GRANT SERVICE_CONNECTION_ADMIN ON *.* TO 'monitor'@'%' */" []);
  wrap "set max connections to user monitor"
    (my_Exec db "ALTER USER 'monitor'@'%' WITH MAX_USER_CONNECTIONS 100" []).

Definition Update1150XtrabackupUser (db : DB) (pass : string) : M W unit :=
  _ ← wrap "create operator user" (my_Exec db (sql_create_user "xtrabackup") [pass]);
  wrap "grant privileges to user xtrabackup"
    (my_Exec db "GRANT ALL ON *.* TO 'xtrabackup'@'%' WITH GRANT OPTION" []).

Definition Update1100MonitorUserPrivilege (db : DB) : M W unit :=
  wrap "monitor user" (my_Exec db "GRANT SYSTEM_USER ON *.* TO 'monitor'@'%'" []).

Definition CreateReplicationUser (db : DB) (password : string) : M W unit :=
  _ ← wrap "create replication user" (my_Exec db (sql_create_user "replication") [password]);
  wrap "grant replication user" (my_Exec db "GRANT REPLICATION SLAVE ON *.* to 'replication'@'%'" []).

Definition UpdatePassExpirationPolicy (db : DB) (user : option SysUser) : M W unit :=
  match user with
  | None => mret tt
  | Some user => for_each (fun host => my_Exec db sql_expire_never [su_Name user; host]) (su_Hosts user)
  end.

Definition UpsertUser (db : DB) (query : list string) (pass : string) : M W unit :=
  for_each (fun q => wrap "exec" (if Contains q "?" then my_Exec db q [pass] else my_Exec db q [])) query.

(** [rows.Scan] into strings and a [sql.NullString]. *)
Definition scan_error : error := ErrNew "sql: Scan error".
Definition scan_host_db (r : Row) : res (string * option string) :=
  match r with [Some host; db] => Ok (host, db) | _ => Err scan_error end.
Definition scan_string (r : Row) : res string :=
  match r with [Some x] => Ok x | _ => Err scan_error end.

Fixpoint scan_users (rows : list Row) (u : DbUser) : res DbUser :=
  match rows with
  | [] => Ok u
  | r :: rows =>
      hd ← scan_host_db r;
      let u := match hd.2 with Some db => u <| du_DBs ::= fun s => s ∪ {[db]} |> | None => u end in
      scan_users rows (u <| du_Hosts ::= fun s => s ∪ {[hd.1]} |>)
  end.

Fixpoint scan_strings (rows : list Row) : res (list string) :=
  match rows with
  | [] => Ok []
  | r :: rows => x ← scan_string r; l ← scan_strings rows; Ok (x :: l)
  end.

Fixpoint get_grants (db : DB) (user : string) (hosts : list string) (u : DbUser) : M W DbUser :=
  match hosts with
  | [] => mret u
  | host :: hosts =>
      rows ← my_Query db "SHOW GRANTS FOR ?@?" [user; host];
      grants ← lift (scan_strings rows);
      get_grants db user hosts (u <| du_Grants ::= <[host := grants]> |>)
  end.

(** [GetUser]: [None] when there is no such user. *)
Definition GetUser (db : DB) (user : string) : M W (option DbUser) :=
  rows ← my_Query db
    "SELECT DISTINCT u.Host, d.Db FROM mysql.user u LEFT JOIN mysql.db d ON u.User = d.User WHERE u.User = ?" [user];
  u ← lift (scan_users rows (mkDbUser user ∅ ∅ ∅));
  if bool_decide (du_Hosts u = ∅) then mret None else
  u ← get_grants db user (elements (du_Hosts u)) u;
  mret (Some u).
End manager.
