(* ===== verification/Users.v ===== *)
(** * System users: [pkg/controller/pxc/users.go], [users_without_dp.go]

    The user edits the secret of the cluster; the operator keeps a second, internal
    secret with the passwords that are in force, which the pods mount.  A pass
    compares the two and carries a changed password over: to the database, where
    the old one stays valid for a while, to the init file of the database, to the
    proxies, to the internal secret, and then it discards the old one. *)

From S2P Require Import Prelude GoStrings ApiTypes Secrets MysqlUsers.

(** ** Environment *)

(** [gopkg.in/ini.v1]: the keys of the sections of a configuration. *)
Class IniLib := { ini_Load : string -> res (gmap string (list string)) }.

(** [encoding/json] of a map of bytes and [crypto/sha256], in hexadecimal. *)
Class HashLib := {
  sha256Hash : string -> string;
  json_Data : gmap string string -> string }.

(** Pods, commands in them (with what they print), the helper
    [controllerutil.CreateOrUpdate], and the order in which two parallel checks
    end. *)
Class UserEnv (W : Type) := {
  ue_getPod : NamespacedName -> M W unit;
  ue_Exec : NamespacedName -> string -> list string -> M W (string * string);
  ue_CreateOrUpdate : Secret -> (Secret -> res Secret) -> M W unit;
  ue_reversed : W -> bool }.

(** What the version component promises: the version of the database that runs. *)
Class MysqlVersion (W : Type) := mysql_version : PerconaXtraDBCluster -> M W string.

Definition versionNotReadyErr : error := ErrVar "versionNotReadyErr" "not ready to fetch version".
Definition PassNotPropagatedError : error := ErrVar "PassNotPropagatedError" "password not yet propagated".
Definition internalSecretsPrefix : string := "internal-".

Record userUpdateActions := mkActions {
  restartPXC : bool;
  restartProxySQL : bool;
  restartHAProxy : bool;
  updateReplicationPass : bool }.

Definition no_actions : userUpdateActions := mkActions false false false false.

Record ReconcileUsersResult := mkUsersResult {
  pxcAnnotations : gmap string string;
  proxysqlAnnotations : gmap string string;
  haproxyAnnotations : gmap string string;
  updateReplicationPassword : bool }.

(** The world, the two secrets a pass has in memory, and the actions it collects. *)
Record UW (W : Type) := mkUW {
  uw_w : W;
  uw_sys : Secret;
  uw_int : Secret;
  uw_act : userUpdateActions }.
Arguments mkUW {W}.
Arguments uw_w {W}.
Arguments uw_sys {W}.
Arguments uw_int {W}.
Arguments uw_act {W}.

Section state.
Context {W : Type}.

Definition onU {A} (m : M W A) : M (UW W) A := fun s =>
  let '(w', r) := m (uw_w s) in (mkUW w' (uw_sys s) (uw_int s) (uw_act s), r).
Definition getSys : M (UW W) Secret := gets uw_sys.
Definition getInt : M (UW W) Secret := gets uw_int.
Definition setSys (x : Secret) : M (UW W) unit := modify (fun s => mkUW (uw_w s) x (uw_int s) (uw_act s)).
Definition setInt (x : Secret) : M (UW W) unit := modify (fun s => mkUW (uw_w s) (uw_sys s) x (uw_act s)).
Definition act (f : userUpdateActions -> userUpdateActions) : M (UW W) unit :=
  modify (fun s => mkUW (uw_w s) (uw_sys s) (uw_int s) (f (uw_act s))).
End state.

Definition set_restartPXC (a : userUpdateActions) : userUpdateActions := a <| restartPXC := true |>.
Definition set_restartProxySQL (a : userUpdateActions) : userUpdateActions := a <| restartProxySQL := true |>.
Definition set_restartHAProxy (a : userUpdateActions) : userUpdateActions := a <| restartHAProxy := true |>.
Definition set_updateReplicationPass (a : userUpdateActions) : userUpdateActions := a <| updateReplicationPass := true |>.

(** ** The specification of the cluster *)

Definition ConfigHasKey `{IniLib} (cr : PerconaXtraDBCluster) (section key : string) : res bool :=
  pxc ← deref (spec_PXC (cluster_Spec cr));
  file ← wrap_res "load configuration" (ini_Load (pod_Configuration (pxc_PodSpec pxc)));
  Ok (match file !! section with Some keys => bool_decide (key ∈ keys) | None => false end).

Definition pmm_HasSecret (s : Secret) : bool := has_key s PMMServer || has_key s PMMServerKey.
Definition pmm_IsEnabled (p : PMMSpec) (s : Secret) : bool := pmm_Enabled p && pmm_HasSecret s.
Definition pmm_UseAPI (s : Secret) : bool := negb (negb (has_key s PMMServerKey) && has_key s PMMServer).

(** [HasSidecarInternalSecret] *)
Definition HasSidecarInternalSecret (spec : PodSpec) (secret : Secret) : bool :=
  let is_it n := bool_decide (n = Some (meta_Name (sec_Meta secret))) in
  existsb (fun c => existsb (fun e => match en_Source e with EnvSecret name _ _ => is_it (Some name) | _ => false end) (ctr_Env c))
    (default [] (pod_Sidecars spec)) ||
  existsb (fun v => match pv_Source v with
                    | VolSecret name _ => is_it (Some name)
                    | VolProjected sources => existsb is_it sources
                    | _ => false
                    end) (pod_SidecarVolumes spec).

Definition invalidPasswordApplied (st : PerconaXtraDBClusterStatus) : bool :=
  match cs_Messages st with
  | [] => false
  | m :: _ => Contains m "password does not satisfy the current policy"
  end.

(** [cr.Status.Status != AppStateReady && !invalidPasswordApplied]: too early. *)
Definition too_early (cr : PerconaXtraDBCluster) : bool :=
  negb (bool_decide (cs_Status (cluster_Status cr) = AppStateReady)) && negb (invalidPasswordApplied (cluster_Status cr)).

Section users.
Context {W : Type} `{SecretClient W} `{MysqlEnv W} `{RandEnv W} `{UserEnv W} `{MysqlVersion W}
  `{IniLib} `{HashLib} `{VersionLib}.

Definition at_least (cr : PerconaXtraDBCluster) (v : string) : res bool :=
  c ← CompareVersionWith cr v; Ok (bool_decide (0 <= c)).

(** ** Connections *)

Definition probe_timeout (cr : PerconaXtraDBCluster) : res Z :=
  pxc ← deref (spec_PXC (cluster_Spec cr));
  Ok (pr_TimeoutSeconds (pod_ReadinessProbes (pxc_PodSpec pxc))).

Definition getUserManager (cr : PerconaXtraDBCluster) (secrets : Secret) : res DB :=
  let pxcUser := if has_key secrets Operator then Operator else Root in
  let pxcPass := data_get secrets pxcUser in
  let host := cluster_Name cr +:+ "-pxc-unready." +:+ cluster_Namespace cr in
  hasKey ← wrap_res "check if congfig has proxy_protocol_networks key" (ConfigHasKey cr "mysqld" "proxy_protocol_networks");
  timeout ← probe_timeout cr;
  wrap_res "new users manager"
    (NewManager (host +:+ if hasKey : bool then ":33062" else ":3306") pxcUser pxcPass timeout).

(** A call with a manager that is closed when the function returns. *)
Definition with_manager {A} (cr : PerconaXtraDBCluster) (k : DB -> M W A) : M (UW W) A :=
  int ← getInt;
  um ← lift (getUserManager cr int);
  onU (with_defer (k um) (Close um)).

Definition updateUserPassWithRetention (cr : PerconaXtraDBCluster) (user : SysUser) : M (UW W) unit :=
  with_manager cr (fun um => wrap "update user pass" (UpdateUserPass um (Some user))).

Definition discardOldPassword (cr : PerconaXtraDBCluster) (user : SysUser) : M (UW W) unit :=
  with_manager cr (fun um => wrap ("discard old user " +:+ su_Name user +:+ " pass") (DiscardOldPassword um (Some user))).

Definition isOldPasswordDiscarded (cr : PerconaXtraDBCluster) (user : SysUser) : M (UW W) bool :=
  with_manager cr (fun um => wrap "is old password discarded" (IsOldPassDiscarded um user)).

Definition updateUserPassWithoutDP (cr : PerconaXtraDBCluster) (user : SysUser) : M (UW W) unit :=
  with_manager cr (fun um => wrap "update user pass" (UpdateUserPassWithoutDP um (Some user))).

(** ** The internal secret *)

(** [internalSecrets.Annotations[name] = "done"] and the update. *)
Definition annotate_internal (name : string) : M (UW W) unit :=
  int ← getInt;
  let int := annotate name "done" int in
  _ ← setInt int;
  s ← wrap "update internal sys users secret annotation" (onU (sc_update int));
  setInt s.

Definition annotation_done (name : string) (s : Secret) : bool :=
  bool_decide (meta_Annotations (sec_Meta s) !! name = Some "done").

(** [internalSecrets.Data[name] = secrets.Data[name]] and the patch against the
    object as it was. *)
Definition patch_internal (name : string) : M (UW W) unit :=
  orig ← getInt;
  sys ← getSys;
  int ← lift (data_set name (data_get sys name) orig);
  _ ← setInt int;
  s ← onU (sc_patch orig int);
  setInt s.

Definition update_internal : M (UW W) unit := int ← getInt; s ← onU (sc_update int); setInt s.
Definition update_sys : M (UW W) unit := sys ← getSys; s ← onU (sc_update sys); setSys s.

(** [bytes.Equal(secrets.Data[name], internalSecrets.Data[name])] *)
Definition same_pass (name : string) : M (UW W) bool :=
  sys ← getSys;
  int ← getInt;
  mret (bool_decide (data_get sys name = data_get int name)).

Definition updateUserPassExpirationPolicy (cr : PerconaXtraDBCluster) (user : SysUser) : M (UW W) unit :=
  let annotationName := "pass-expire-policy-for-1.13.0-user-" +:+ su_Name user in
  int ← getInt;
  if annotation_done annotationName int then mret tt else
  b ← lift (at_least cr "1.13.0");
  if negb b then mret tt else
  um ← lift (getUserManager cr int);
  _ ← wrap ("update " +:+ su_Name user +:+ " user password expiration policy")
        (onU (UpdatePassExpirationPolicy um (Some user)));
  annotate_internal annotationName.

(** ** The init file of the database *)

Definition init_header : string := "SET SESSION wsrep_on=OFF;" +:+ nl +:+ "SET SESSION sql_log_bin=0;" +:+ nl.

Definition init_statement (user : SysUser) (host : string) : string :=
  "ALTER USER '" +:+ su_Name user +:+ "'@'" +:+ host +:+ "' IDENTIFIED BY '" +:+ su_Pass user +:+ "';" +:+ nl.

Definition init_statements (user : SysUser) : string := Join (map (init_statement user) (su_Hosts user)) "".

(** The function given to [CreateOrUpdate]. *)
Definition append_init (data : option (gmap string string)) (user : SysUser) (secret : Secret) : res Secret :=
  d ← deref data;
  Ok (secret <| sec_Data := Some (<["init.sql" := default "" (d !! "init.sql") +:+ init_statements user]> d) |>).

Definition init_name (cr : PerconaXtraDBCluster) : NamespacedName :=
  mkNN (cluster_Namespace cr) (cluster_Name cr +:+ "-mysql-init").

Definition updateMySQLInitFile (cr : PerconaXtraDBCluster) (user : SysUser) : M W unit :=
  let secret := mkSecret (mkMeta (cluster_Name cr +:+ "-mysql-init") (cluster_Namespace cr) "" ∅ ∅ [] 0 0 None) None in
  got ← try (sc_get (init_name cr));
  let data := match got with inr s => sec_Data s | inl _ => Some {[ "init.sql" := init_header ]} end in
  let secret := match got with inr s => s | inl _ => secret end in
  ue_CreateOrUpdate secret (append_init data user).

(** ** Proxies *)

Definition pod_name (cr : PerconaXtraDBCluster) (comp : string) (i : Z) : string :=
  cluster_Name cr +:+ "-" +:+ comp +:+ "-" +:+ pretty i.

Definition SchedulerConfigPath : string := "/tmp/scheduler-config.toml".

Definition sync_command (ps : ProxySQLSpec) : list string :=
  if sch_Enabled (ps_Scheduler ps)
  then ["percona-scheduler-admin"; "--config-file=" +:+ SchedulerConfigPath; "--syncusers"; "--add-query-rule"]
  else ["proxysql-admin"; "--syncusers"; "--add-query-rule"].

Definition get_pod (comp : string) (n : NamespacedName) : M W unit :=
  r ← try (ue_getPod n);
  match r with
  | inr _ => mret tt
  | inl e => if IsNotFound e then fail e else fail (ErrWrap ("get " +:+ comp +:+ " pod") e)
  end.

Definition syncPXCUsersWithProxySQL (cr : PerconaXtraDBCluster) : M W unit :=
  let st := cluster_Status cr in
  if negb (ProxySQLEnabled cr) || bool_decide (app_Ready (cs_PXC st) < 1) then mret tt else
  if negb (bool_decide (cs_Status st = AppStateReady)) || negb (bool_decide (app_Status (cs_ProxySQL st) = AppStateReady))
  then mret tt else
  ps ← lift (deref (spec_ProxySQL (cluster_Spec cr)));
  for_each (fun i =>
    let n := mkNN (cluster_Namespace cr) (pod_name cr "proxysql" i) in
    _ ← get_pod "proxysql" n;
    r ← try (ue_Exec n "proxysql" (sync_command ps));
    match r with
    | inl e => fail (ErrNew ("exec syncusers: " +:+ Error e))
    | inr (_, errb) => if bool_decide (errb = "") then mret tt else fail (ErrNew ("syncusers: " +:+ errb))
    end) (seqZ 0 (pod_Size (ps_PodSpec ps))).

(** The managers stay open until the loop over the proxies is done. *)
Fixpoint update_proxies (cr : PerconaXtraDBCluster) (pass : string) (user : SysUser) (idx : list Z) : M W unit :=
  match idx with
  | [] => mret tt
  | i :: idx =>
      timeout ← lift (probe_timeout cr);
      um ← lift (wrap_res "new users manager"
             (NewManager (pod_name cr "proxysql" i +:+ "." +:+ cluster_Name cr +:+ "-proxysql-unready." +:+
                cluster_Namespace cr +:+ ":6032") ProxyAdmin pass timeout));
      with_defer (_ ← wrap "update proxy users" (UpdateProxyUser um user);
                  update_proxies cr pass user idx) (Close um)
  end.

Definition updateProxyUser (cr : PerconaXtraDBCluster) (user : SysUser) : M (UW W) unit :=
  int ← getInt;
  ps ← lift (deref (spec_ProxySQL (cluster_Spec cr)));
  onU (update_proxies cr (data_get int ProxyAdmin) user (seqZ 0 (pod_Size (ps_PodSpec ps)))).

(** One component of [isPassPropagated]: all its pods have the password mounted. *)
Definition check_mounted (cr : PerconaXtraDBCluster) (user : SysUser) (comp : string) (size : Z) : M W unit :=
  for_each (fun i =>
    let n := mkNN (cluster_Namespace cr) (pod_name cr comp i) in
    _ ← get_pod comp n;
    r ← try (ue_Exec n comp ["cat"; "/etc/mysql/mysql-users-secret/" +:+ su_Name user]);
    match r with
    | inl e => fail (ErrNew ("exec cat on " +:+ comp +:+ "-" +:+ pretty i +:+ ": " +:+ Error e))
    | inr (outb, errb) =>
        if negb (bool_decide (errb = "")) then fail (ErrNew ("cat on " +:+ comp +:+ "-" +:+ pretty i +:+ ": " +:+ errb)) else
        if bool_decide (outb = su_Pass user) then mret tt else fail PassNotPropagatedError
    end) (seqZ 0 size).

(** The components are checked at the same time; the error that comes first is the
    one that counts. *)
Fixpoint run_checks (ms : list (M W unit)) : M W (option error) :=
  match ms with
  | [] => mret None
  | m :: ms =>
      r ← try m;
      rest ← run_checks ms;
      mret (match r with inl e => Some e | inr _ => rest end)
  end.

Definition isPassPropagated (cr : PerconaXtraDBCluster) (user : SysUser) : M W bool :=
  pxc ← lift (deref (spec_PXC (cluster_Spec cr)));
  let checks := check_mounted cr user "pxc" (pod_Size (pxc_PodSpec pxc)) ::
    match spec_HAProxy (cluster_Spec cr) with
    | Some h => if HAProxyEnabled cr then [check_mounted cr user "haproxy" (pod_Size (ha_PodSpec h))] else []
    | None => []
    end in
  rev ← gets ue_reversed;
  err ← run_checks (if rev : bool then reverse checks else checks);
  match err with
  | None => mret true
  | Some e => if bool_decide (e = PassNotPropagatedError) then mret false else fail e
  end.
End users.
