(* ===== verification/UserHandlers.v ===== *)
(** * The handlers of the system users: [users.go] and [users_without_dp.go]

    One handler for each user, the loop over the users, and the entry point
    [reconcileUsers].  Databases before 8.0 have no dual passwords: their handlers
    change the password at once. *)

From S2P Require Import Prelude GoStrings ApiTypes Secrets MysqlUsers Users.

Definition mysql80 : string := "8.0.0".
Definition privSystemUserAddedIn : string := "8.0.16".

(** [version.NewVersion]: a string that is no version is an error. *)
Definition NewVersion `{VersionLib} (v : string) : res string :=
  if ver_valid v then Ok v else Err (ErrNew ("Malformed version: " +:+ v)).

Section handlers.
Context {W : Type} `{SecretClient W} `{MysqlEnv W} `{RandEnv W} `{UserEnv W} `{MysqlVersion W}
  `{IniLib} `{HashLib} `{VersionLib}.

(** ** Users that may have to be created *)

(** The connection that creates the operator user: as root, with the password of
    the user's secret. *)
Definition root_manager (cr : PerconaXtraDBCluster) (sys : Secret) : res DB :=
  b ← at_least cr "1.6.0";
  timeout ← probe_timeout cr;
  let addr := if b : bool then cluster_Name cr +:+ "-pxc-unready." +:+ cluster_Namespace cr +:+ ":33062"
              else cluster_Name cr +:+ "-pxc." +:+ cluster_Namespace cr in
  wrap_res "new users manager" (NewManager addr Root (data_get sys Root) timeout).

(** [secrets.Data[name] = pass; internalSecrets.Data[name] = pass], and both updates. *)
Definition store_both (name pass : string) : M (UW W) unit :=
  sys ← getSys;
  sys ← lift (data_set name pass sys);
  _ ← setSys sys;
  int ← getInt;
  int ← lift (data_set name pass int);
  _ ← setInt int;
  _ ← wrap "update sys users secret" update_sys;
  wrap "update internal users secret" update_internal.

(** A user the internal secret does not know yet is taken over in memory. *)
Definition adopt_user (name : string) (missing : M (UW W) unit) : M (UW W) unit :=
  sys ← getSys;
  int ← getInt;
  match data_of sys !! name with
  | Some pass =>
      if has_key int name then mret tt
      else int ← lift (data_set name pass (make_data int)); setInt int
  | None => missing
  end.

Definition manageOperatorAdminUser (cr : PerconaXtraDBCluster) : M (UW W) unit :=
  adopt_user Operator (
    pass ← wrap "generate password" (onU (generatePass Operator (spec_PasswordGenerationOptions (cluster_Spec cr))));
    sys ← getSys;
    um ← lift (root_manager cr sys);
    with_defer (
      _ ← wrap "create operator user" (onU (CreateOperatorUser um pass));
      store_both Operator pass) (onU (Close um))).

Definition manageReplicationUser (cr : PerconaXtraDBCluster) : M (UW W) unit :=
  adopt_user Replication (
    int ← getInt;
    um ← lift (getUserManager cr int);
    with_defer (
      pass ← wrap "generate password" (onU (generatePass Replication (spec_PasswordGenerationOptions (cluster_Spec cr))));
      _ ← wrap "create replication user" (onU (CreateReplicationUser um pass));
      store_both Replication pass) (onU (Close um))).

(** ** Grants *)

Definition updateMonitorUserGrant (um : DB) : M (UW W) unit :=
  int ← getInt;
  if annotation_done "grant-for-1.6.0-monitor-user" int then mret tt else
  _ ← wrap "update monitor grant" (onU (Update160MonitorUserGrant um (data_get int Monitor)));
  annotate_internal "grant-for-1.6.0-monitor-user".

Definition grantMonitorUserPrivilege (um : DB) : M (UW W) unit :=
  int ← getInt;
  if annotation_done "grant-for-1.10.0-system-privilege" int then mret tt else
  _ ← wrap "grant system user privilege" (onU (Update1100MonitorUserPrivilege um));
  annotate_internal "grant-for-1.10.0-system-privilege".

Definition updateXtrabackupUserGrant (cr : PerconaXtraDBCluster) : M (UW W) unit :=
  int ← getInt;
  if annotation_done "grant-for-1.15.0-xtrabackup-user" int then mret tt else
  um ← lift (getUserManager cr int);
  with_defer (
    _ ← wrap "update xtrabackup grant" (onU (Update1150XtrabackupUser um (data_get int Xtrabackup)));
    annotate_internal "grant-for-1.15.0-xtrabackup-user") (onU (Close um)).

(** ** Handlers with dual passwords *)

(** The comparison every handler makes: [same] when the secrets agree. *)
Definition pass_state (cr : PerconaXtraDBCluster) (user : SysUser) : M (UW W) (bool * bool) :=
  passDiscarded ← isOldPasswordDiscarded cr user;
  same ← same_pass (su_Name user);
  mret (same, passDiscarded).

Definition sys_user (name : string) (hosts : list string) : M (UW W) SysUser :=
  sys ← getSys;
  mret (mkSysUser name (data_get sys name) hosts).

Definition handleRootUser (cr : PerconaXtraDBCluster) : M (UW W) unit :=
  user ← sys_user Root ["localhost"; "%"];
  if too_early cr then mret tt else
  _ ← updateUserPassExpirationPolicy cr user;
  st ← pass_state cr user;
  match st with
  | (true, true) => mret tt
  | (true, false) => wrap "discard old pass" (discardOldPassword cr user)
  | (false, _) =>
      _ ← wrap "update root users pass" (updateUserPassWithRetention cr user);
      _ ← wrap "update mysql init file" (onU (updateMySQLInitFile cr user));
      _ ← wrap "sync users" (onU (syncPXCUsersWithProxySQL cr));
      _ ← wrap "update internal secrets root user password" (patch_internal Root);
      wrap "discard old password" (discardOldPassword cr user)
  end.

Definition handleOperatorUser (cr : PerconaXtraDBCluster) : M (UW W) unit :=
  user ← sys_user Operator ["%"];
  _ ← when (bool_decide (0 < app_Ready (cs_PXC (cluster_Status cr)))) do (
        _ ← wrap "manage operator admin user" (manageOperatorAdminUser cr);
        updateUserPassExpirationPolicy cr user);
  if too_early cr then mret tt else
  st ← pass_state cr user;
  match st with
  | (true, true) => mret tt
  | (true, false) => wrap "discard old pass" (discardOldPassword cr user)
  | (false, _) =>
      _ ← wrap "update operator users pass" (updateUserPassWithRetention cr user);
      _ ← wrap "update mysql init file" (onU (updateMySQLInitFile cr user));
      _ ← wrap "update internal users secrets operator user password" (patch_internal Operator);
      _ ← act set_restartProxySQL;
      wrap "discard operator old password" (discardOldPassword cr user)
  end.

(** What the monitor handlers do first when a database pod is ready; the manager is
    closed when the handler returns. *)
Definition monitor_grants (cr : PerconaXtraDBCluster) (um : DB) : M (UW W) bool :=
  b ← lift (at_least cr "1.6.0");
  _ ← when (b : bool) do wrap "update monitor user grant" (updateMonitorUserGrant um);
  b ← lift (at_least cr "1.10.0");
  if negb (b : bool) then mret true else
  r ← (let v := app_Version (cs_PXC (cluster_Status cr)) in
       if negb (bool_decide (v = "")) then mret (inr v) else try (onU (mysql_version cr)));
  match r with
  | inl e => if errors_Is e versionNotReadyErr then mret false else fail (ErrWrap "retrieving pxc version" e)
  | inr mysqlVersion =>
      if bool_decide (mysqlVersion = "") then mret true else
      ver ← lift (wrap_res "invalid pxc version" (NewVersion mysqlVersion));
      _ ← when (negb (bool_decide (ver_compare ver privSystemUserAddedIn < 0)))
          do wrap "monitor user grant system privilege" (grantMonitorUserPrivilege um);
      mret true
  end.

Definition monitor_prepare (cr : PerconaXtraDBCluster) (user : SysUser) (rest : M (UW W) unit) : M (UW W) unit :=
  if negb (bool_decide (0 < app_Ready (cs_PXC (cluster_Status cr)))) then rest else
  _ ← updateUserPassExpirationPolicy cr user;
  int ← getInt;
  um ← lift (getUserManager cr int);
  with_defer (go ← monitor_grants cr um; if go : bool then rest else mret tt) (onU (Close um)).

Definition restart_for_pmm (cr : PerconaXtraDBCluster) : M (UW W) unit :=
  int ← getInt;
  when (match spec_PMM (cluster_Spec cr) with Some p => pmm_IsEnabled p int | None => false end) do act set_restartPXC.

Definition restart_for_sidecars (cr : PerconaXtraDBCluster) : M (UW W) unit :=
  int ← getInt;
  pxc ← lift (deref (spec_PXC (cluster_Spec cr)));
  when (bool_decide (is_Some (pod_Sidecars (pxc_PodSpec pxc))) && HasSidecarInternalSecret (pxc_PodSpec pxc) int)
  do act set_restartPXC.

(** The old password of the monitor stays until every pod has the new one. *)
Definition need_propagated (cr : PerconaXtraDBCluster) (user : SysUser) : M (UW W) unit :=
  p ← wrap "is password propagated" (onU (isPassPropagated cr user));
  if p : bool then mret tt else fail PassNotPropagatedError.

Definition monitor_rotate (cr : PerconaXtraDBCluster) (user : SysUser) : M (UW W) unit :=
  if too_early cr then mret tt else
  st ← pass_state cr user;
  match st with
  | (true, true) => mret tt
  | (true, false) =>
      _ ← need_propagated cr user;
      _ ← act set_restartProxySQL;
      _ ← restart_for_pmm cr;
      _ ← restart_for_sidecars cr;
      wrap "discard old pass" (discardOldPassword cr user)
  | (false, _) =>
      _ ← wrap "update monitor users pass" (updateUserPassWithRetention cr user);
      _ ← wrap "update mysql init file" (onU (updateMySQLInitFile cr user));
      _ ← when (ProxySQLEnabled cr) do wrap "update monitor users pass" (updateProxyUser cr user);
      _ ← act set_restartProxySQL;
      _ ← restart_for_pmm cr;
      _ ← wrap "update internal users secrets monitor user password" (patch_internal Monitor);
      _ ← need_propagated cr user;
      wrap "discard monitor old password" (discardOldPassword cr user)
  end.

Definition handleMonitorUser (cr : PerconaXtraDBCluster) : M (UW W) unit :=
  user ← sys_user Monitor ["%"];
  monitor_prepare cr user (monitor_rotate cr user).

Definition handleXtrabackupUser (cr : PerconaXtraDBCluster) : M (UW W) unit :=
  user ← sys_user Xtrabackup ["%"];
  _ ← when (bool_decide (0 < app_Ready (cs_PXC (cluster_Status cr)))) do (
        _ ← updateUserPassExpirationPolicy cr user;
        b ← lift (at_least cr "1.15.0");
        when (b : bool) do wrap "update xtrabackup user grant" (updateXtrabackupUserGrant cr));
  if too_early cr then mret tt else
  st ← pass_state cr user;
  match st with
  | (true, true) => mret tt
  | (true, false) => wrap "discard old pass" (discardOldPassword cr user)
  | (false, _) =>
      _ ← wrap "update xtrabackup users pass" (updateUserPassWithRetention cr user);
      _ ← wrap "update mysql init file" (onU (updateMySQLInitFile cr user));
      _ ← wrap "update internal users secrets xtrabackup user password" (patch_internal Xtrabackup);
      _ ← wrap "discard xtrabackup old pass" (discardOldPassword cr user);
      act set_restartPXC
  end.

Definition handleReplicationUser (cr : PerconaXtraDBCluster) : M (UW W) unit :=
  b ← lift (at_least cr "1.9.0");
  if negb (b : bool) then mret tt else
  user ← sys_user Replication ["%"];
  _ ← when (bool_decide (0 < app_Ready (cs_PXC (cluster_Status cr)))) do (
        _ ← wrap "manage replication user" (manageReplicationUser cr);
        updateUserPassExpirationPolicy cr user);
  if too_early cr then mret tt else
  st ← pass_state cr user;
  match st with
  | (true, true) => mret tt
  | (true, false) => wrap "discard old pass" (discardOldPassword cr user)
  | (false, _) =>
      _ ← wrap "update replication users pass" (updateUserPassWithRetention cr user);
      _ ← wrap "update mysql init file" (onU (updateMySQLInitFile cr user));
      _ ← wrap "update internal users secrets replication user password" (patch_internal Replication);
      _ ← wrap "discard replicaiton old pass" (discardOldPassword cr user);
      act set_updateReplicationPass
  end.

(** ** Users outside the database *)

Definition handleProxyadminUser (cr : PerconaXtraDBCluster) : M (UW W) unit :=
  if negb (ProxySQLEnabled cr) then mret tt else
  user ← sys_user ProxyAdmin [];
  same ← same_pass ProxyAdmin;
  if (same : bool) || too_early cr then mret tt else
  _ ← updateUserPassExpirationPolicy cr user;
  _ ← wrap "update Proxy users" (updateProxyUser cr user);
  _ ← wrap "update internal users secrets proxyadmin user password" (patch_internal ProxyAdmin);
  act set_restartProxySQL.

(** A key that the internal secret does not have yet is added without a restart. *)
Definition add_key (name msg : string) (rest : M (UW W) unit) : M (UW W) unit :=
  sys ← getSys;
  int ← getInt;
  if has_key sys name && negb (has_key int name) then
    int ← lift (data_set name (data_get sys name) int);
    _ ← setInt int;
    wrap msg update_internal
  else rest.

Definition restart_all : M (UW W) unit :=
  _ ← act set_restartPXC;
  _ ← act set_restartProxySQL;
  act set_restartHAProxy.

Definition handlePMMUser (cr : PerconaXtraDBCluster) : M (UW W) unit :=
  sys ← getSys;
  if negb (match spec_PMM (cluster_Spec cr) with Some p => pmm_IsEnabled p sys | None => false end) then mret tt else
  add_key PMMServerKey "update internal users secrets pmm user password" (
    let name := if pmm_UseAPI sys then PMMServerKey else PMMServer in
    same ← same_pass name;
    if (same : bool) || too_early cr then mret tt else
    _ ← wrap "update internal users secrets pmm user password" (patch_internal name);
    restart_all).

Definition handlePMM3User (cr : PerconaXtraDBCluster) : M (UW W) unit :=
  if negb (match spec_PMM (cluster_Spec cr) with Some p => pmm_Enabled p | None => false end) then mret tt else
  add_key PMMServerToken "update internal users secrets pmm user token" (
    same ← same_pass PMMServerToken;
    if (same : bool) || too_early cr then mret tt else
    _ ← wrap "update internal users secrets pmm user token" (patch_internal PMMServerToken);
    restart_all).

(** ** The loop over the users *)

(** One round: a password of the monitor that the pods do not have yet ends it
    quietly. *)
Definition handle_user (cr : PerconaXtraDBCluster) (u : string) : M (UW W) unit :=
  if bool_decide (u = Root) then handleRootUser cr
  else if bool_decide (u = Operator) then handleOperatorUser cr
  else if bool_decide (u = Monitor) then
    r ← try (handleMonitorUser cr);
    match r with
    | inr _ => mret tt
    | inl e => if errors_Is e PassNotPropagatedError then mret tt else fail e
    end
  else if bool_decide (u = Xtrabackup) then handleXtrabackupUser cr
  else if bool_decide (u = Replication) then handleReplicationUser cr
  else if bool_decide (u = ProxyAdmin) then handleProxyadminUser cr
  else if bool_decide (u = PMMServer \/ u = PMMServerKey) then handlePMMUser cr
  else if bool_decide (u = PMMServerToken) then handlePMM3User cr
  else mret tt.

Definition for_known (handle : string -> M (UW W) unit) (u : string) : M (UW W) unit :=
  sys ← getSys;
  if has_key sys u then handle u else mret tt.

Definition updateUsers (cr : PerconaXtraDBCluster) : M (UW W) unit := for_each (for_known (handle_user cr)) UserNames.

(** ** Handlers without dual passwords *)

Definition handleRootUserWithoutDP (cr : PerconaXtraDBCluster) : M (UW W) unit :=
  if too_early cr then mret tt else
  user ← sys_user Root ["localhost"; "%"];
  _ ← updateUserPassExpirationPolicy cr user;
  same ← same_pass Root;
  if same : bool then mret tt else
  _ ← wrap "update root users pass" (updateUserPassWithoutDP cr user);
  _ ← wrap "update mysql init file" (onU (updateMySQLInitFile cr user));
  _ ← wrap "sync users" (onU (syncPXCUsersWithProxySQL cr));
  wrap "update internal secrets root user password" (patch_internal Root).

Definition handleOperatorUserWithoutDP (cr : PerconaXtraDBCluster) : M (UW W) unit :=
  user ← sys_user Operator ["%"];
  _ ← when (bool_decide (0 < app_Ready (cs_PXC (cluster_Status cr)))) do (
        _ ← wrap "manage operator admin user" (manageOperatorAdminUser cr);
        updateUserPassExpirationPolicy cr user);
  same ← same_pass Operator;
  if too_early cr || (same : bool) then mret tt else
  _ ← wrap "update operator users pass" (updateUserPassWithoutDP cr user);
  _ ← wrap "update mysql init file" (onU (updateMySQLInitFile cr user));
  _ ← wrap "update internal users secrets operator user password" (patch_internal Operator);
  act set_restartProxySQL.

Definition monitor_rotate_without_dp (cr : PerconaXtraDBCluster) (user : SysUser) : M (UW W) unit :=
  same ← same_pass Monitor;
  if too_early cr || (same : bool) then mret tt else
  _ ← wrap "update monitor users pass" (updateUserPassWithoutDP cr user);
  _ ← wrap "update mysql init file" (onU (updateMySQLInitFile cr user));
  _ ← when (ProxySQLEnabled cr) do wrap "update monitor users pass" (updateProxyUser cr user);
  _ ← act set_restartHAProxy;
  _ ← act set_restartProxySQL;
  _ ← restart_for_pmm cr;
  _ ← restart_for_sidecars cr;
  wrap "update internal users secrets monitor user password" (patch_internal Monitor).

Definition handleMonitorUserWithoutDP (cr : PerconaXtraDBCluster) : M (UW W) unit :=
  user ← sys_user Monitor ["%"];
  monitor_prepare cr user (monitor_rotate_without_dp cr user).

Definition handleXtrabackupUserWithoutDP (cr : PerconaXtraDBCluster) : M (UW W) unit :=
  user ← sys_user Xtrabackup ["%"];
  _ ← when (bool_decide (0 < app_Ready (cs_PXC (cluster_Status cr)))) do (
        _ ← updateUserPassExpirationPolicy cr user;
        b ← lift (at_least cr "1.15.0");
        when (b : bool) do wrap "update xtrabackup user grant" (updateXtrabackupUserGrant cr));
  same ← same_pass Xtrabackup;
  if too_early cr || (same : bool) then mret tt else
  _ ← wrap "update xtrabackup users pass" (updateUserPassWithoutDP cr user);
  _ ← wrap "update mysql init file" (onU (updateMySQLInitFile cr user));
  _ ← wrap "update internal users secrets xtrabackup user password" (patch_internal Xtrabackup);
  act set_restartPXC.

Definition handleReplicationUserWithoutDP (cr : PerconaXtraDBCluster) : M (UW W) unit :=
  b ← lift (at_least cr "1.9.0");
  if negb (b : bool) || too_early cr then mret tt else
  user ← sys_user Replication ["%"];
  _ ← when (bool_decide (0 < app_Ready (cs_PXC (cluster_Status cr)))) do (
        _ ← wrap "manage replication user" (manageReplicationUser cr);
        updateUserPassExpirationPolicy cr user);
  same ← same_pass Replication;
  if same : bool then mret tt else
  _ ← wrap "update replication users pass" (updateUserPassWithoutDP cr user);
  _ ← wrap "update mysql init file" (onU (updateMySQLInitFile cr user));
  _ ← wrap "update internal users secrets replication user password" (patch_internal Replication);
  act set_updateReplicationPass.

Definition handleProxyadminUserWithoutDP (cr : PerconaXtraDBCluster) : M (UW W) unit := handleProxyadminUser cr.

Definition handle_user_without_dp (cr : PerconaXtraDBCluster) (u : string) : M (UW W) unit :=
  if bool_decide (u = Root) then handleRootUserWithoutDP cr
  else if bool_decide (u = Operator) then handleOperatorUserWithoutDP cr
  else if bool_decide (u = Monitor) then handleMonitorUserWithoutDP cr
  else if bool_decide (u = Xtrabackup) then handleXtrabackupUserWithoutDP cr
  else if bool_decide (u = Replication) then handleReplicationUserWithoutDP cr
  else if bool_decide (u = ProxyAdmin) then handleProxyadminUserWithoutDP cr
  else if bool_decide (u = PMMServer \/ u = PMMServerKey) then handlePMMUser cr
  else if bool_decide (u = PMMServerToken) then handlePMM3User cr
  else mret tt.

Definition updateUsersWithoutDP (cr : PerconaXtraDBCluster) : M (UW W) unit :=
  for_each (for_known (handle_user_without_dp cr)) UserNames.

(** ** The entry point *)

Definition last_applied (hash : string) : gmap string string := {[ "last-applied-secret" := hash ]}.

Definition users_result (cr : PerconaXtraDBCluster) (sys : Secret) (a : userUpdateActions) : ReconcileUsersResult :=
  let newSecretDataHash := sha256Hash (json_Data (data_of sys)) in
  mkUsersResult
    (if restartPXC a then last_applied newSecretDataHash else ∅)
    (if restartProxySQL a && ProxySQLEnabled cr then last_applied newSecretDataHash else ∅)
    (if restartHAProxy a && HAProxyEnabled cr then last_applied newSecretDataHash else ∅)
    (updateReplicationPass a).

(** The handlers of the version, on the secrets in memory; on an error what they
    collected is lost. *)
Definition run_handlers (m : M (UW W) unit) (sys int : Secret) : M W (Secret * userUpdateActions) := fun w =>
  let '(s, r) := m (mkUW w sys int no_actions) in
  (uw_w s, match r with Ok _ => Ok (uw_sys s, uw_act s) | Err e => Err e | Panic => Panic end).

Definition reconcileUsers (cr : PerconaXtraDBCluster) (secrets : Secret) : M W (option ReconcileUsersResult) :=
  let internalSecretName := internalSecretsPrefix +:+ cluster_Name cr in
  got ← try (sc_get (mkNN (cluster_Namespace cr) internalSecretName));
  match got with
  | inl e =>
      if negb (IsNotFound e) then fail (ErrWrap "get internal sys users secret" e) else
      _ ← wrap "create internal sys users secret" (sc_create (mkSecret
             (mkMeta internalSecretName (cluster_Namespace cr) "" ∅ ∅ [] 0 0 None) (sec_Data secrets)));
      mret None
  | inr internalSecrets =>
      r ← (let v := app_Version (cs_PXC (cluster_Status cr)) in
           if negb (bool_decide (v = "")) then mret (inr v) else try (mysql_version cr));
      match r with
      | inl e => if errors_Is e versionNotReadyErr then mret None else fail (ErrWrap "retrieving pxc version" e)
      | inr mysqlVersion =>
          ver ← lift (wrap_res "invalid pxc version" (NewVersion mysqlVersion));
          out ← wrap "manage sys users" (run_handlers
                  (if bool_decide (0 <= ver_compare ver mysql80) then updateUsers cr else updateUsersWithoutDP cr)
                  secrets internalSecrets);
          mret (Some (users_result cr (fst out) (snd out)))
      end
  end.
End handlers.
