(* ===== verification/CustomUsers.v ===== *)
(** * Users of the custom resource: [pkg/controller/pxc/users_custom.go]

    The users the custom resource lists are created in the database and kept up to
    date.  The passwords come from secrets; an annotation of the secret has the
    hash of the password that was set last.  A problem with one user is logged and
    the next user is looked at. *)

From S2P Require Import Prelude GoStrings ApiTypes Secrets MysqlUsers Users.

(** [strings.ToUpper] on ASCII letters. *)
Definition upper (c : Ascii.ascii) : Ascii.ascii :=
  let n := Ascii.nat_of_ascii c in
  if bool_decide (97 <= n <= 122)%nat then Ascii.ascii_of_nat (n - 32) else c.
Fixpoint ToUpper (s : string) : string :=
  match s with EmptyString => EmptyString | String c s => String (upper c) (ToUpper s) end.

Definition sysUserNames : gset string := list_to_set UserNames.

(** ** Statements *)

Definition escapeIdentifier (identifier : string) : string := ReplaceAll identifier "'" "''".

(** ['%s'@'%s'] of the escaped name and host *)
Definition account_literal (name host : string) : string :=
  "'" +:+ escapeIdentifier name +:+ "'@'" +:+ escapeIdentifier host +:+ "'".

Definition alterUserQuery (user : User) : list string :=
  match user_Hosts user with
  | [] => ["ALTER USER '" +:+ escapeIdentifier (user_Name user) +:+ "'@'%' IDENTIFIED BY ?"]
  | hosts => map (fun host => "ALTER USER " +:+ account_literal (user_Name user) host +:+ " IDENTIFIED BY ?") hosts
  end.

Definition grant_queries (user : User) (host : string) : list string :=
  let withGrantOption := if user_WithGrantOption user then "WITH GRANT OPTION" else "" in
  let to := " TO " +:+ account_literal (user_Name user) host +:+ " " +:+ withGrantOption in
  match user_Grants user with
  | [] => []
  | grants =>
      match user_DBs user with
      | [] => ["GRANT " +:+ Join grants "," +:+ " ON *.*" +:+ to]
      | dbs => map (fun db => "GRANT " +:+ Join grants "," +:+ " ON " +:+ db +:+ ".*" +:+ to) dbs
      end
  end.

Definition upsertUserQuery (user : User) : list string :=
  map (fun db => "CREATE DATABASE IF NOT EXISTS " +:+ db) (user_DBs user) ++
  flat_map (fun host =>
    ("CREATE USER IF NOT EXISTS " +:+ account_literal (user_Name user) host +:+ " IDENTIFIED BY ?")
    :: grant_queries user host) (user_Hosts user).

(** ** Has anything changed? *)

Definition usage_grant (name host : string) : string := "GRANT USAGE ON *.* TO `" +:+ name +:+ "`@`" +:+ host +:+ "`".

Definition host_grants (current : DbUser) (host : string) : list string := default [] (du_Grants current !! host).

(** One line of the current grants against one desired grant. *)
Definition grant_differs (desired : User) (host grant currGrant : string) : bool :=
  if bool_decide (currGrant = usage_grant (user_Name desired) host) then false
  else if negb (Contains currGrant (ToUpper grant)) then true
  else user_WithGrantOption desired && negb (Contains currGrant "WITH GRANT OPTION").

Definition host_changed (current : DbUser) (desired : User) (host : string) : bool :=
  (negb (bool_decide (is_Some (du_Grants current !! host))) && bool_decide (0 < length (user_Grants desired))%nat) ||
  existsb (fun grant => existsb (grant_differs desired host grant) (host_grants current host)) (user_Grants desired) ||
  existsb (fun db => negb (existsb (fun g => Contains g ("ON `" +:+ db +:+ "`.*")) (host_grants current host))) (user_DBs desired).

Definition userChanged (current : option DbUser) (desired : User) : bool :=
  match current with
  | None => true
  | Some current =>
      existsb (fun h => negb (bool_decide (h ∈ du_Hosts current))) (user_Hosts desired) ||
      existsb (fun db => negb (bool_decide (db ∈ du_DBs current))) (user_DBs desired) ||
      existsb (host_changed current desired) (user_Hosts desired)
  end.

Section hash.
Context `{HashLib}.

Definition userPasswordChanged (secret : Secret) (dbUser : option DbUser) (key passKey : string) : bool :=
  match meta_Annotations (sec_Meta secret) !! key with
  | None => bool_decide (is_Some dbUser)
  | Some hash => negb (bool_decide (hash = sha256Hash (data_get secret passKey)))
  end.
End hash.

(** ** The pass

    The key of a reference to a secret is filled in through the pointer, so it
    shows in the cluster object. *)

Record CUW (W : Type) := mkCUW { cu_w : W; cu_cr : PerconaXtraDBCluster }.
Arguments mkCUW {W}.
Arguments cu_w {W}.
Arguments cu_cr {W}.

Section custom.
Context {W : Type} `{SecretClient W} `{MysqlEnv W} `{RandEnv W} `{IniLib} `{HashLib}.

Definition onCU {A} (m : M W A) : M (CUW W) A := fun s =>
  let '(w', r) := m (cu_w s) in (mkCUW w' (cu_cr s), r).

(** [k8s.AnnotateObject] on a secret.  The caller's copy gets the annotations too, but
    is not read afterwards. *)
Definition annotate_secret (obj : Secret) (k v : string) : M W unit :=
  o ← sc_get (sec_key obj);
  _ ← sc_patch o (annotate k v o);
  mret tt.

Definition generateUserPass (cr : PerconaXtraDBCluster) (secret : Secret) (name passKey : string) : M W Secret :=
  pass ← wrap "generate custom user password" (generatePass name (spec_PasswordGenerationOptions (cluster_Spec cr)));
  secret ← lift (data_set passKey pass (make_data secret));
  r ← try (sc_create secret);
  match r with
  | inr s => mret s
  | inl e => fail (ErrNew ("create custom users secret: " +:+ Error e))
  end.

Definition getUserSecret (cr : PerconaXtraDBCluster) (name defaultName passKey : string) : M W Secret :=
  got ← try (sc_get (mkNN (cluster_Namespace cr) name));
  match got with
  | inl e =>
      if negb (bool_decide (name = defaultName)) then fail (ErrWrap "failed to get user secret" e) else
      if negb (IsNotFound e) then fail (ErrWrap "failed to get default user secret" e) else
      wrap "failed to generate user password secrets"
        (generateUserPass cr (mkSecret (mkMeta name (cluster_Namespace cr) "" ∅ ∅ [] 0 0 None) None) name passKey)
  | inr secret =>
      if has_key secret passKey then mret secret else
      if negb (bool_decide (name = defaultName)) then fail (ErrNew "password key not found in secret") else
      pass ← wrap "generate custom user password" (generatePass name (spec_PasswordGenerationOptions (cluster_Spec cr)));
      secret ← lift (data_set passKey pass (make_data secret));
      wrap "failed to update user secret" (sc_update secret)
  end.

(** The statements for a user and the hash of the password that was set; a failing
    statement is logged ([false]). *)
Definition apply_user (um : DB) (query : list string) (secret : Secret) (annotationKey passKey : string) : M W bool :=
  r ← try (UpsertUser um query (data_get secret passKey));
  match r with
  | inl _ => mret false
  | inr _ =>
      _ ← wrap "update user secret" (annotate_secret secret annotationKey (sha256Hash (data_get secret passKey)));
      mret true
  end.

(** The user as the loop goes on with it, when its fields are in order. *)
Definition admit_user (user : User) : option User :=
  if bool_decide (user_Name user = "") then None else
  if bool_decide (user_Name user ∈ sysUserNames) then None else
  if bool_decide (user_Grants user = []) && user_WithGrantOption user then None else
  if bool_decide (sks_Name <$> user_PasswordSecretRef user = Some "") then None else
  let user := match user_PasswordSecretRef user with
              | Some (mkSecretKey n "") => user <| user_PasswordSecretRef := Some (mkSecretKey n "password") |>
              | _ => user
              end in
  Some (match user_Hosts user with [] => user <| user_Hosts := ["%"] |> | _ => user end).

Definition custom_secret_name (cr : PerconaXtraDBCluster) : string := cluster_Name cr +:+ "-custom-user-secret".

Definition secret_ref (cr : PerconaXtraDBCluster) (user : User) : string * string :=
  match user_PasswordSecretRef user with
  | Some r => (sks_Name r, sks_Key r)
  | None => (custom_secret_name cr, user_Name user)
  end.

(** The rest of a round, for a user that was admitted. *)
Definition sync_user (cr : PerconaXtraDBCluster) (um : DB) (user : User) : M W unit :=
  let '(secretName, passKey) := secret_ref cr user in
  got ← try (getUserSecret cr secretName (custom_secret_name cr) passKey);
  match got with
  | inl _ => mret tt
  | inr userSecret =>
      let annotationKey := "percona.com/" +:+ cluster_Name cr +:+ "-" +:+ user_Name user +:+ "-hash" in
      got ← try (GetUser um (user_Name user));
      match got with
      | inl _ => mret tt
      | inr u =>
          go ← (if userPasswordChanged userSecret u annotationKey passKey
                then apply_user um (alterUserQuery user) userSecret annotationKey passKey
                else mret true);
          if negb (go : bool) then mret tt else
          if userChanged u user
          then _ ← apply_user um (upsertUserQuery user) userSecret annotationKey passKey; mret tt
          else mret tt
      end
  end.

(** The reference of the [i]-th user is shared with the cluster object. *)
Definition share_ref (i : nat) (user : User) (cr : PerconaXtraDBCluster) : PerconaXtraDBCluster :=
  cr <| cluster_Spec -> spec_Users ::= alter (fun u => u <| user_PasswordSecretRef := user_PasswordSecretRef user |>) i |>.

Fixpoint custom_loop (cr : PerconaXtraDBCluster) (um : DB) (i : nat) (us : list User) : M (CUW W) unit :=
  match us with
  | [] => mret tt
  | user :: us =>
      _ ← match admit_user user with
          | None => mret tt
          | Some user =>
              _ ← modify (fun s => mkCUW (cu_w s) (share_ref i user (cu_cr s)));
              onCU (sync_user cr um user)
          end;
      custom_loop cr um (S i) us
  end.

(** A missing internal secret reads as an empty one; a list of users that is empty
    is taken to be nil, as it is when the field is left out. *)
Definition reconcileCustomUsers : M (CUW W) unit :=
  cr ← gets cu_cr;
  if bool_decide (spec_Users (cluster_Spec cr) = []) then mret tt else
  if negb (bool_decide (cs_Status (cluster_Status cr) = AppStateReady)) then mret tt else
  got ← try (onCU (sc_get (mkNN (cluster_Namespace cr) (internalSecretsPrefix +:+ cluster_Name cr))));
  internal ← match got with
             | inr s => mret s
             | inl e => if IsNotFound e then mret (mkSecret (mkMeta "" "" "" ∅ ∅ [] 0 0 None) None)
                        else fail (ErrWrap "get internal sys users secret" e)
             end;
  um ← lift (getUserManager cr internal);
  with_defer (custom_loop cr um 0 (spec_Users (cluster_Spec cr))) (onCU (Close um)).
End custom.
