(* ===== verification/UsersSpec.v ===== *)
(** * What the handlers of the system users rely on

    [UView] is what can be observed: the stored secrets, the accounts of the
    database, the passwords mounted in the pods and the statements sent.  A call
    that reports an error may have had its effect or not ([attempts]). *)

From S2P Require Import Prelude GoStrings ApiTypes Secrets MysqlUsers Users UserHandlers.

Record UView := mkUView {
  v_secrets : gmap NamespacedName Secret;
  v_accounts : Accounts;
  v_mounted : gmap (string * string) string;
  v_sent : list (DB * string * list string) }.

Class UsersView (W : Type) := users_view : W -> UView.

(** ** The effect of statements on accounts *)

Definition neutral_statements : list string :=
  [sql_expire_never; sql_admin_credentials; sql_cluster_password; sql_monitor_password;
   "LOAD ADMIN VARIABLES TO RUNTIME"; "SAVE ADMIN VARIABLES TO DISK";
   "LOAD MYSQL VARIABLES TO RUNTIME"; "SAVE MYSQL VARIABLES TO DISK";
   "GRANT ALL ON *.* TO 'operator'@'%' WITH GRANT OPTION";
   "GRANT ALL ON *.* TO 'xtrabackup'@'%' WITH GRANT OPTION";
   "GRANT SYSTEM_USER ON *.* TO 'monitor'@'%'";
   "GRANT REPLICATION SLAVE ON *.* to 'replication'@'%'";
   "/*!80015 GRANT SERVICE_CONNECTION_ADMIN ON *.* TO 'monitor'@'%' */";
   "ALTER USER 'monitor'@'%' WITH MAX_USER_CONNECTIONS 100"].

Definition creatable : list string := ["operator"; "monitor"; "xtrabackup"; "replication"].

(** A new password that is empty clears the old one, and an empty password cannot
    be retained.  Nothing is said about statements that are not listed. *)
Definition stmt_effect (q : string) (args : list string) (a a' : Accounts) : Prop :=
  if bool_decide (q = sql_retain) then
    exists u h p acc, args = [u; h; p] /\ a !! (u, h) = Some acc /\ acc_Pass acc <> "" /\
      a' = <[(u, h) := mkAccount p (if bool_decide (p = "") then None else Some (acc_Pass acc))]> a
  else if bool_decide (q = sql_discard) then
    exists u h acc, args = [u; h] /\ a !! (u, h) = Some acc /\ a' = <[(u, h) := mkAccount (acc_Pass acc) None]> a
  else if bool_decide (q = sql_identified) then
    exists u h p acc, args = [u; h; p] /\ a !! (u, h) = Some acc /\ a' = <[(u, h) := mkAccount p (acc_Old acc)]> a
  else if bool_decide (q ∈ map sql_create_user creatable) then
    exists u p, q = sql_create_user u /\ args = [p] /\
      a' = match a !! (u, "%") with Some _ => a | None => <[(u, "%") := mkAccount p None]> a end
  else if bool_decide (q ∈ neutral_statements) then a' = a
  else True.

(** The database lets a user in with the password of an account, or with the one
    it keeps. *)
Definition accepts (acc : Account) (p : string) : Prop := acc_Pass acc = p \/ acc_Old acc = Some p.
Definition can_login (v : UView) (db : DB) : Prop :=
  exists h acc, v_accounts v !! (db_User db, h) = Some acc /\ accepts acc (db_Passwd db).

Section laws.
Context {W : Type} `{UsersView W}.

Definition silent {A} (op : M W A) : Prop :=
  forall w w' r, op w = (w', r) -> users_view w' = users_view w.

Definition attempts {A} (op : M W A) (eff : A -> UView -> UView -> Prop) : Prop :=
  forall w w' r, op w = (w', r) ->
    match r with
    | Ok a => eff a (users_view w) (users_view w')
    | Err _ => users_view w' = users_view w \/ exists a, eff a (users_view w) (users_view w')
    | Panic => False
    end.

(** The effect of a statement: on the accounts, and it is on record. *)
Definition sends (db : DB) (q : string) (args : list string) (_ : unit) (v v' : UView) : Prop :=
  v_secrets v' = v_secrets v /\ v_mounted v' = v_mounted v /\
  v_sent v' = v_sent v ++ [(db, q, args)] /\ stmt_effect q args (v_accounts v) (v_accounts v').

(** A secret [s'] stored under its key. *)
Definition stores (s' : Secret) (v v' : UView) : Prop :=
  v_secrets v' = <[sec_key s' := s']> (v_secrets v) /\ v_accounts v' = v_accounts v /\
  v_mounted v' = v_mounted v /\ v_sent v' = v_sent v.
End laws.

Class UsersLaws (W : Type) `{UsersView W} `{SecretClient W} `{MysqlEnv W} `{RandEnv W} `{UserEnv W} `{MysqlVersion W} := {
  ul_get_silent n : silent (sc_get n);
  ul_get n w w' s : sc_get n w = (w', Ok s) -> v_secrets (users_view w) !! n = Some s /\ sec_key s = n;
  ul_get_missing n w w' e : sc_get n w = (w', Err e) -> IsNotFound e = true -> v_secrets (users_view w) !! n = None;
  ul_create s : attempts (sc_create s) (fun s' v v' =>
    v_secrets v !! sec_key s = None /\ same_content s s' /\ stores s' v v');
  ul_update s : attempts (sc_update s) (fun s' v v' =>
    is_Some (v_secrets v !! sec_key s) /\ same_content s s' /\ stores s' v v');
  ul_patch orig s : attempts (sc_patch orig s) (fun s' v v' =>
    exists s0, v_secrets v !! sec_key s = Some s0 /\ sec_key s' = sec_key s /\
      data_of s' = merge_data (data_of orig) (data_of s) (data_of s0) /\ stores s' v v');
  ul_CreateOrUpdate s f w w' r : ue_CreateOrUpdate s f w = (w', r) ->
    users_view w' = users_view w \/
    exists s0 s1 s', f s0 = Ok s1 /\ same_content s1 s' /\
      (v_secrets (users_view w) !! sec_key s = Some s0 \/ v_secrets (users_view w) !! sec_key s = None /\ s0 = s) /\
      sec_key s' = sec_key s /\ stores s' (users_view w) (users_view w');
  ul_Exec db q args : attempts (my_Exec db q args) (sends db q args);
  ul_TxExec db q args : attempts (my_TxExec db q args) (sends db q args);
  ul_Close db : silent (my_Close db);
  ul_Begin db : silent (my_Begin db);
  ul_Commit db : silent (my_Commit db);
  ul_Rollback db : silent (my_Rollback db);
  ul_QueryRow db q args : silent (my_QueryRow db q args);
  ul_Query db q args : silent (my_Query db q args);
  ul_login db w w' row args : my_QueryRow db sql_attributes args w = (w', Ok row) -> can_login (users_view w) db;
  ul_login_rows db w w' args : my_QueryRow db sql_attributes args w = (w', Err ErrNoRows) -> can_login (users_view w) db;
  ul_Intn n : silent (rand_Intn n);
  ul_Int n : silent (rand_Int n);
  ul_getPod n : silent (ue_getPod n);
  ul_podExec n c cmd : silent (ue_Exec n c cmd);
  ul_cat n c u w w' out :
    ue_Exec n c ["cat"; "/etc/mysql/mysql-users-secret/" +:+ u] w = (w', Ok (out, "")) ->
    v_mounted (users_view w) !! (nn_name n, u) = Some out;
  ul_version cr : silent (mysql_version cr) }.

(** ** Predicates on the state of a pass *)

(** A predicate on what is observed and on the two secrets in memory. *)
Definition vpred : Type := UView -> Secret -> Secret -> Prop.
Definition holds {W} `{UsersView W} (P : vpred) (s : UW W) : Prop := P (users_view (uw_w s)) (uw_sys s) (uw_int s).

Section rules.
Context {W : Type} `{UsersLaws W}.
Implicit Types (P Q : vpred).

Lemma keeps_onU {A} P (m : M W A) : silent m -> keeps (holds P) (onU m).
Proof.
  intros Hm s Hs. unfold onU. destruct (m (uw_w s)) as [w' r] eqn:E. apply Hm in E.
  unfold holds in *. simpl. by rewrite E.
Qed.

Lemma keeps_act P f : keeps (holds (W := W) P) (act f).
Proof. by intros s Hs. Qed.

(** A call whose effects, if any, keep the predicate. *)
Lemma keeps_attempts {A} P (m : M W A) eff :
  attempts m eff -> (forall a v v' sys int, P v sys int -> eff a v v' -> P v' sys int) -> keeps (holds P) (onU m).
Proof.
  intros Hm HP s Hs. unfold onU. destruct (m (uw_w s)) as [w' r] eqn:E. apply Hm in E.
  unfold holds in *. simpl. destruct r as [a|e|]; [by eapply HP| |done].
  destruct E as [->|[a Ha]]; [done|]. by eapply HP.
Qed.

(** A silent call of the base monad keeps every predicate on the view. *)
Lemma silent_keeps {A} (m : M W A) : (forall v, keeps (fun w => users_view w = v) m) -> silent m.
Proof. intros Hm w w' r E. specialize (Hm _ w eq_refl). by rewrite E in Hm. Qed.
Lemma keeps_silent {A} v (m : M W A) : silent m -> keeps (fun w => users_view w = v) m.
Proof. intros Hm w Hw. rewrite <- Hw. apply (Hm w _ (m w).2). by destruct (m w). Qed.
End rules.

#[export] Hint Resolve keeps_onU keeps_act keeps_silent ul_get_silent ul_Close ul_Begin ul_Commit ul_Rollback
  ul_QueryRow ul_Query ul_Intn ul_Int ul_getPod ul_podExec ul_version : go.

(** ** Rotating the passwords of the system users: proofs

    The invariant of a rotation: the database accepts the password that the
    internal secret holds.  A user is [settled] when that password is the current
    one of each of its accounts, and [served] when it is the current or the kept
    one.  Between the two lies the rotation: the new password is set and the old
    one kept ([between]), and after an error the copy of the secret in memory may
    differ from the stored one ([loose]). *)

Definition internal_key (cr : PerconaXtraDBCluster) : NamespacedName :=
  mkNN (cluster_Namespace cr) (internalSecretsPrefix +:+ cluster_Name cr).

Definition every_host (a : Accounts) (u : string) (hosts : list string) (P : Account -> Prop) : Prop :=
  forall h, h ∈ hosts -> exists acc, a !! (u, h) = Some acc /\ P acc.

Definition stored_pass (v : UView) (k : NamespacedName) (u p : string) : Prop :=
  exists S, v_secrets v !! k = Some S /\ data_of S !! u = Some p.

(** A phase of a rotation: how the accounts relate to the password [p] that is
    stored and to the password [p'] of the copy in memory. *)
Definition phase (R : string -> string -> Account -> Prop) (cr : PerconaXtraDBCluster) (u : string)
    (hosts : list string) (sys0 : Secret) : vpred := fun v sys int =>
  sys = sys0 /\ sec_key int = internal_key cr /\
  exists p p', stored_pass v (internal_key cr) u p /\ data_of int !! u = Some p' /\
    every_host (v_accounts v) u hosts (R p p').

Definition is_current (p p' : string) (acc : Account) : Prop := p = p' /\ acc_Pass acc = p.
Definition is_kept (q p p' : string) (acc : Account) : Prop := p = p' /\ acc_Pass acc = q /\ acc_Old acc = Some p.
Definition is_new (q p p' : string) (acc : Account) : Prop := p = q /\ p' = q /\ acc_Pass acc = q.
Definition is_stale (q p p' : string) (acc : Account) : Prop := is_current p p' acc /\ p <> q.
Definition is_done (q p p' : string) (acc : Account) : Prop := p = q /\ p' = q /\ acc = mkAccount q None.
Definition is_loose (p p' : string) (acc : Account) : Prop := accepts acc p /\ accepts acc p'.

Definition settled : PerconaXtraDBCluster -> string -> list string -> Secret -> vpred := phase is_current.
Definition between (q : string) : PerconaXtraDBCluster -> string -> list string -> Secret -> vpred := phase (is_kept q).
Definition loose : PerconaXtraDBCluster -> string -> list string -> Secret -> vpred := phase is_loose.

(** What is promised without the secrets in memory: the stored password is the
    current one of every account, or one it accepts. *)
Definition in_force (cr : PerconaXtraDBCluster) (u : string) (hosts : list string) (v : UView) : Prop :=
  exists p, stored_pass v (internal_key cr) u p /\ every_host (v_accounts v) u hosts (fun acc => acc_Pass acc = p).
Definition served (cr : PerconaXtraDBCluster) (u : string) (hosts : list string) (v : UView) : Prop :=
  exists p, stored_pass v (internal_key cr) u p /\ every_host (v_accounts v) u hosts (fun acc => accepts acc p).

(** The copy in memory may be stored, and the stored secret read. *)
Class Exchanges (R : string -> string -> Account -> Prop) : Prop :=
  exchange p p' acc : R p p' acc -> R p p acc /\ R p' p' acc.

#[export] Instance is_current_exchanges : Exchanges is_current.
Proof. intros p p' acc [-> ?]. by repeat split. Qed.
#[export] Instance is_kept_exchanges q : Exchanges (is_kept q).
Proof. intros p p' acc (-> & ? & ?). by repeat split. Qed.
#[export] Instance is_new_exchanges q : Exchanges (is_new q).
Proof. intros p p' acc (-> & -> & ?). by repeat split. Qed.
#[export] Instance is_stale_exchanges q : Exchanges (is_stale q).
Proof. intros p p' acc [[-> ?] ?]. by repeat split. Qed.
#[export] Instance is_done_exchanges q : Exchanges (is_done q).
Proof. intros p p' acc (-> & -> & ->). by repeat split. Qed.
#[export] Instance is_loose_exchanges : Exchanges is_loose.
Proof. intros p p' acc [? ?]. by repeat split. Qed.

Lemma every_host_mono a u hosts (P Q : Account -> Prop) :
  every_host a u hosts P -> (forall acc, P acc -> Q acc) -> every_host a u hosts Q.
Proof. intros Ha HPQ h Hh. destruct (Ha h Hh) as (acc & ? & ?). eauto. Qed.

Lemma phase_mono (R R' : string -> string -> Account -> Prop) cr u hosts sys0 v sys int :
  (forall p p' acc, R p p' acc -> R' p p' acc) -> phase R cr u hosts sys0 v sys int -> phase R' cr u hosts sys0 v sys int.
Proof.
  intros HR (? & ? & p & p' & ? & ? & Ha). split_and!; [done..|]. exists p, p'. split_and!; [done..|].
  eapply every_host_mono; [done|]. apply HR.
Qed.

Lemma settled_loose cr u hosts sys0 v sys int : settled cr u hosts sys0 v sys int -> loose cr u hosts sys0 v sys int.
Proof. apply phase_mono. intros p p' acc [<- ?]. split; by left. Qed.
Lemma between_loose q cr u hosts sys0 v sys int : between q cr u hosts sys0 v sys int -> loose cr u hosts sys0 v sys int.
Proof. apply phase_mono. intros p p' acc (<- & _ & ?). split; by right. Qed.
Lemma settled_in_force cr u hosts sys0 v sys int : settled cr u hosts sys0 v sys int -> in_force cr u hosts v.
Proof. intros (_ & _ & p & p' & ? & _ & Ha). exists p. split; [done|]. eapply every_host_mono; [done|]. by intros acc [_ ?]. Qed.
Lemma in_force_served cr u hosts v : in_force cr u hosts v -> served cr u hosts v.
Proof. intros (p & ? & Ha). exists p. split; [done|]. eapply every_host_mono; [done|]. intros acc. by left. Qed.
Lemma loose_served cr u hosts sys0 v sys int : loose cr u hosts sys0 v sys int -> served cr u hosts v.
Proof. intros (_ & _ & p & p' & ? & _ & Ha). exists p. split; [done|]. eapply every_host_mono; [done|]. by intros acc [? _]. Qed.

(** ** What statements do to the accounts of a user *)

Definition frozen (u : string) (a a' : Accounts) : Prop :=
  forall h acc, a !! (u, h) = Some acc -> a' !! (u, h) = Some acc.

(** Statements that are not about the passwords of [u]. *)
Definition plain_statements : list string := map sql_create_user creatable ++ neutral_statements.
Definition foreign (u q : string) (args : list string) : Prop :=
  q ∈ plain_statements \/ q ∈ [sql_retain; sql_discard; sql_identified] /\ head args <> Some u.

Lemma setting_not_plain q : q ∈ [sql_retain; sql_discard; sql_identified] -> q ∉ plain_statements.
Proof.
  revert q. apply (proj1 (Forall_forall (fun q => q ∉ plain_statements) _)).
  apply (bool_decide_unpack _). vm_compute. exact I.
Qed.

Lemma frozen_insert u u' h acc a : u' <> u -> frozen u a (<[(u', h) := acc]> a).
Proof. intros Hu h' x Ha. rewrite lookup_insert_ne; [done|congruence]. Qed.

Lemma stmt_frozen u q args a a' : foreign u q args -> stmt_effect q args a a' -> frozen u a a'.
Proof.
  intros Hf. unfold stmt_effect.
  assert (q ∈ [sql_retain; sql_discard; sql_identified] -> head args <> Some u) as Hhead.
  { intros Hq. destruct Hf as [Hf|[_ ?]]; [|done]. by apply setting_not_plain in Hq. }
  case_bool_decide as H1.
  { intros (u' & h & p & acc & -> & _ & _ & ->). apply frozen_insert. intros ->. apply Hhead; [set_solver|done]. }
  case_bool_decide as H2.
  { intros (u' & h & acc & -> & _ & ->). apply frozen_insert. intros ->. apply Hhead; [set_solver|done]. }
  case_bool_decide as H3.
  { intros (u' & h & p & acc & -> & _ & ->). apply frozen_insert. intros ->. apply Hhead; [set_solver|done]. }
  case_bool_decide as H4.
  { intros (u' & p & _ & _ & ->) h acc Ha. destruct (a !! (u', "%")) eqn:E; [done|].
    rewrite lookup_insert_ne; [done|]. intros Heq. congruence. }
  case_bool_decide as H5; [by intros -> h acc|].
  exfalso. destruct Hf as [Hf|[Hf _]]; [apply elem_of_app in Hf as [?|?]; done|set_solver].
Qed.

(** ** Rules for the state of a pass *)

Section rules.
Context {W : Type} `{UsersLaws W}.

(** [wkeeps P m]: a call of the base monad that keeps [P], with the secrets in
    memory as they are. *)
Definition wkeeps {A} (P : vpred) (m : M W A) : Prop :=
  forall sys int, keeps (fun w => P (users_view w) sys int) m.

Lemma keeps_wkeeps {A} P (m : M W A) : wkeeps P m -> keeps (holds P) (onU m).
Proof.
  intros Hm s Hs. specialize (Hm (uw_sys s) (uw_int s) (uw_w s) Hs). unfold onU.
  by destruct (m (uw_w s)).
Qed.

Lemma wkeeps_silent {A} P (m : M W A) : silent m -> wkeeps P m.
Proof.
  intros Hm sys int w Hw. destruct (m w) as [w' r] eqn:E. apply Hm in E. simpl. by rewrite E.
Qed.

Lemma wkeeps_attempts {A} P (m : M W A) eff :
  attempts m eff -> (forall a v v' sys int, P v sys int -> eff a v v' -> P v' sys int) -> wkeeps P m.
Proof.
  intros Hm HP sys int w Hw. destruct (m w) as [w' r] eqn:E. apply Hm in E. simpl.
  destruct r as [a|e|]; [by eapply HP| |done]. destruct E as [->|[a Ha]]; [done|]. by eapply HP.
Qed.

Lemma wkeeps_bind {A B} P (m : M W A) (f : A -> M W B) :
  wkeeps P m -> (forall a, wkeeps P (f a)) -> wkeeps P (m ≫= f).
Proof. intros Hm Hf sys int. apply keeps_bind; [apply Hm|intros a; apply Hf]. Qed.
Lemma wkeeps_wrap {A} P msg (m : M W A) : wkeeps P m -> wkeeps P (wrap msg m).
Proof. intros Hm sys int. apply keeps_wrap, Hm. Qed.
Lemma wkeeps_try {A} P (m : M W A) : wkeeps P m -> wkeeps P (try m).
Proof. intros Hm sys int. apply keeps_try, Hm. Qed.
Lemma wkeeps_ret {A} P (a : A) : wkeeps P (mret a).
Proof. by intros sys int w. Qed.
Lemma wkeeps_fail {A} P e : wkeeps P (fail e : M W A).
Proof. by intros sys int w. Qed.
Lemma wkeeps_lift {A} P (r : res A) : wkeeps P (lift r).
Proof. by intros sys int w. Qed.
Lemma wkeeps_for_each {A} P (body : A -> M W unit) l : (forall x, x ∈ l -> wkeeps P (body x)) -> wkeeps P (for_each body l).
Proof.
  induction l as [|x l IH]; intros Hb; simpl; [apply wkeeps_ret|].
  apply wkeeps_bind; [apply Hb; by left|]. intros _. apply IH. intros y Hy. apply Hb. by right.
Qed.
Lemma wkeeps_defer {A} P (m : M W A) d : wkeeps P m -> wkeeps P d -> wkeeps P (with_defer m d).
Proof. intros Hm Hd sys int. apply keeps_defer; [apply Hm|apply Hd]. Qed.
End rules.

(** Decomposes a [wkeeps] goal. *)
Ltac wkeeps_step :=
  lazymatch goal with
  | |- wkeeps _ (match ?x with _ => _ end) => destruct x
  | |- wkeeps _ (if ?b then _ else _) => destruct b
  | |- wkeeps _ (mret _) => apply wkeeps_ret
  | |- wkeeps _ (fail _) => apply wkeeps_fail
  | |- wkeeps _ (lift _) => apply wkeeps_lift
  | |- wkeeps _ (_ ≫= _) => apply wkeeps_bind; [|intros ?]
  | |- wkeeps _ (wrap _ _) => apply wkeeps_wrap
  | |- wkeeps _ (try _) => apply wkeeps_try
  | |- wkeeps _ (for_each _ _) => apply wkeeps_for_each; intros ? _
  | |- wkeeps _ (with_defer _ _) => apply wkeeps_defer
  end.

(** ** What the parts of a pass keep *)

Lemma merge_data_same (orig new stored : gmap string string) k :
  orig !! k = new !! k -> merge_data orig new stored !! k = stored !! k.
Proof.
  intros Hk. unfold merge_data. rewrite lookup_union_r.
  - destruct (stored !! k) as [x|] eqn:E.
    + apply lookup_difference_Some. split; [done|]. apply lookup_difference_None. destruct (new !! k); [right; by eexists|by left].
    + apply lookup_difference_None. by left.
  - apply map_lookup_filter_None. right. simpl. intros x Hx. rewrite Hk, Hx. naive_solver.
Qed.

Lemma merge_data_set (orig stored : gmap string string) k x :
  orig !! k <> Some x -> merge_data orig (<[k := x]> orig) stored !! k = Some x.
Proof.
  intros Hk. unfold merge_data. apply lookup_union_Some_l. apply map_lookup_filter_Some.
  split; [apply lookup_insert_eq|done].
Qed.


Lemma init_not_internal cr : init_name cr <> internal_key cr.
Proof.
  unfold init_name, internal_key. intros [= E]. apply (f_equal String.length) in E.
  unfold internalSecretsPrefix in E. rewrite str_app_length in E. change (String.length "-mysql-init") with 11%nat in E.
  change ("internal-" +:+ cluster_Name cr) with (String.append "internal-" (cluster_Name cr)) in E.
  rewrite (str_app_length "internal-" (cluster_Name cr)) in E. change (String.length "internal-") with 9%nat in E. lia.
Qed.

Section parts.
Context {W : Type} `{UsersLaws W} `{IniLib} `{HashLib} `{VersionLib}.
Variables (cr : PerconaXtraDBCluster) (u : string) (hosts : list string) (sys0 : Secret).

Section any_phase.
Context (R : string -> string -> Account -> Prop) `{!Exchanges R}.
Abbreviation ph := (phase R cr u hosts sys0).

Lemma phase_key v sys int : ph v sys int -> sec_key int = internal_key cr.
Proof. by intros (_ & Hk & _). Qed.

Lemma phase_sends db q args x v v' sys int :
  foreign u q args -> ph v sys int -> sends db q args x v v' -> ph v' sys int.
Proof.
  intros Hl (Hsys & Hk & p & p' & (S & HS & HSp) & Hi & Ha) (Hsec & _ & _ & Heff).
  apply (stmt_frozen u) in Heff; [|done]. split_and!; [done..|]. exists p, p'. split_and!; [|done|].
  - exists S. by rewrite Hsec.
  - intros h Hh. destruct (Ha h Hh) as (acc & Hacc & Hp). eauto.
Qed.

Lemma wkeeps_Exec db q args : foreign u q args -> wkeeps ph (my_Exec db q args).
Proof. intros Hl. eapply wkeeps_attempts; [apply ul_Exec|]. intros. by eapply phase_sends. Qed.
Lemma wkeeps_plain db q args : bool_decide (q ∈ plain_statements) = true -> wkeeps ph (my_Exec db q args).
Proof. intros Hq%bool_decide_eq_true. apply wkeeps_Exec. by left. Qed.

Lemma wkeeps_tx_alter db q args hs : (forall h, foreign u q (args h)) -> wkeeps ph (tx_alter db q args hs).
Proof.
  intros Hl. induction hs as [|h hs IH]; simpl; [apply wkeeps_ret|].
  apply wkeeps_bind.
  - apply wkeeps_try. eapply wkeeps_attempts; [apply ul_TxExec|]. intros. by eapply phase_sends.
  - intros [e|_]; [|done]. repeat wkeeps_step. apply wkeeps_silent, ul_Rollback.
Qed.

(** The secret [s'] is stored: for [u] it is like the copy in memory or like what
    was stored, and so is the next copy. *)
Lemma phase_stores v v' sys int int' s' x :
  ph v sys int -> stores s' v v' -> sec_key s' = internal_key cr -> sec_key int' = internal_key cr ->
  data_of s' !! u = Some x -> data_of int' !! u = Some x ->
  (data_of int !! u = Some x \/ stored_pass v (internal_key cr) u x) ->
  ph v' sys int'.
Proof.
  intros (Hsys & Hk & p & p' & (S & HS & HSp) & Hi & Ha) (Hv & Hacc & _) Hks Hki Hs Hi' Hx.
  split_and!; [done..|]. exists x, x. split_and!; [|done|].
  - exists s'. by rewrite Hv, Hks, lookup_insert_eq.
  - rewrite Hacc. eapply every_host_mono; [done|]. intros acc Hr%exchange.
    destruct Hx as [Hx|(S' & ? & ?)]; [|assert (S' = S) as -> by congruence]; naive_solver.
Qed.

(** Secrets stored under other names do not matter. *)
Lemma phase_stores_other v v' sys int s' :
  ph v sys int -> stores s' v v' -> sec_key s' <> internal_key cr -> ph v' sys int.
Proof.
  intros (Hsys & Hk & p & p' & (S & HS & HSp) & Hi & Ha) (Hv & Hacc & _) Hks.
  split_and!; [done..|]. exists p, p'. rewrite Hacc. split_and!; [|done..]. exists S. by rewrite Hv, lookup_insert_ne.
Qed.

Lemma phase_mem v sys int int' :
  ph v sys int -> sec_key int' = sec_key int -> data_of int' !! u = data_of int !! u -> ph v sys int'.
Proof.
  intros (Hsys & Hk & p & p' & Hst & Hi & Ha) Hk' Hd. split_and!; [done|congruence|].
  exists p, p'. split_and!; [done|congruence|done].
Qed.

(** The update of a secret that is like the one in memory for [u]. *)
Lemma update_run v sys int int' w w' r :
  users_view w = v -> ph v sys int -> sec_key int' = sec_key int -> data_of int' !! u = data_of int !! u ->
  sc_update int' w = (w', r) ->
  match r with Ok s' => ph (users_view w') sys s' | Err _ => ph (users_view w') sys int' | Panic => False end.
Proof.
  intros <- Hs Hk' Hd' E. apply ul_update in E. pose proof Hs as (_ & Hk & p & p' & _ & Hi & _).
  assert (forall s' v', same_content int' s' /\ stores s' (users_view w) v' -> forall i, sec_key i = internal_key cr ->
            data_of i !! u = Some p' -> ph v' sys i) as Hst.
  { intros s' v' ((Hd & _ & Hks) & Hst) i Hki Hdi.
    eapply phase_stores; [exact Hs|exact Hst|congruence|done| |exact Hdi|by left]. rewrite Hd. congruence. }
  destruct r as [s'|e|]; [| |done].
  - destruct E as (_ & Hc). eapply Hst; [exact Hc|destruct Hc as [(Hd & _ & Hks) _]; congruence|].
    destruct Hc as [(Hd & _ & Hks) _]. rewrite Hd. congruence.
  - destruct E as [->|(s' & _ & Hc)]; [by eapply phase_mem|]. eapply Hst; [exact Hc|congruence|congruence].
Qed.

Lemma keeps_update_internal : keeps (holds ph) (update_internal (W := W)).
Proof.
  intros s Hs. unfold update_internal, getInt, gets, setInt, modify, mbind, M_bind, onU. simpl.
  destruct (sc_update (uw_int s) (uw_w s)) as [w' r] eqn:E.
  eapply update_run in E; [|done|exact Hs|done|done]. by destruct r.
Qed.

Lemma keeps_annotate_internal name : keeps (holds ph) (annotate_internal (W := W) name).
Proof.
  intros s Hs. unfold annotate_internal, getInt, gets, setInt, modify, mbind, M_bind, wrap, onU. simpl.
  destruct (sc_update (annotate name "done" (uw_int s)) (uw_w s)) as [w' r] eqn:E.
  eapply update_run in E; [|done|exact Hs|by destruct (uw_int s) as [[] ?]..]. by destruct r.
Qed.

(** A new value for another key, put into the secret in memory. *)
Lemma data_set_other k x int int' :
  data_set k x int = Ok int' -> k <> u -> sec_key int' = sec_key int /\ data_of int' !! u = data_of int !! u.
Proof.
  unfold data_set, data_of. destruct int as [m [d|]]; simpl; [|done]. intros [= <-] Hk. simpl.
  split; [done|]. exact (lookup_insert_ne d k u x Hk).
Qed.

Lemma keeps_add_key name msg rest :
  name <> u -> keeps (holds ph) rest -> keeps (holds ph) (add_key (W := W) name msg rest).
Proof.
  intros Hn Hr s Hs. unfold add_key, getSys, getInt, gets. unfold mbind at 1 2, M_bind at 1 2.
  destruct (_ && _); [|by apply Hr].
  unfold lift, setInt, modify. unfold mbind at 1 2, M_bind at 1 2.
  destruct (data_set name _ (uw_int s)) as [int'|e|] eqn:E; [|done|done].
  apply data_set_other in E as [Hk Hd]; [|done]. apply (keeps_wrap _ _ _ keeps_update_internal). unfold holds. simpl.
  by eapply phase_mem.
Qed.

(** The patch of another key. *)
Lemma keeps_patch_other name : name <> u -> keeps (holds ph) (patch_internal (W := W) name).
Proof.
  intros Hn s Hs. unfold patch_internal, getInt, getSys, gets, setInt, modify, lift, mbind, M_bind, onU. simpl.
  destruct (data_set name _ (uw_int s)) as [int'|e|] eqn:E; [|done|done]. simpl.
  apply data_set_other in E as [Hk Hd]; [|done].
  destruct (sc_patch (uw_int s) int' (uw_w s)) as [w' r] eqn:Ep. apply ul_patch in Ep.
  unfold holds in *. pose proof Hs as (_ & Hkey & p & p' & (S & HS & HSp) & Hi & _).
  assert (forall s' v', (exists s0, v_secrets (users_view (uw_w s)) !! sec_key int' = Some s0 /\
      sec_key s' = sec_key int' /\ data_of s' = merge_data (data_of (uw_int s)) (data_of int') (data_of s0) /\
      stores s' (users_view (uw_w s)) v') -> sec_key s' = internal_key cr /\ data_of s' !! u = Some p /\
      stores s' (users_view (uw_w s)) v') as Hmerge.
  { intros s' v' (s0 & Hs0 & Hks & -> & Hst). rewrite merge_data_same by done. split_and!; congruence. }
  destruct r as [s'|e|]; simpl; [| |done].
  - apply Hmerge in Ep as (Hks & Hds & Hst). eapply phase_stores; [exact Hs|exact Hst|done..|]. right. by exists S.
  - destruct Ep as [->|[s' Ep]]; [by eapply phase_mem|]. apply Hmerge in Ep as (Hks & Hds & Hv & Hacc & Hmt).
    assert (ph (users_view w') (uw_sys s) (uw_int s)) as Hold; [|by eapply phase_mem].
    destruct Hs as (Hsys & _ & q & q' & (S' & HS' & HSq) & Hi' & Ha). split_and!; [done..|].
    exists q, q'. rewrite Hacc. split_and!; [|done..]. exists s'. rewrite Hv, Hks, lookup_insert_eq.
    split; [done|]. congruence.
Qed.

(** The init file is another secret. *)
Lemma wkeeps_init_file user : wkeeps ph (updateMySQLInitFile (W := W) cr user).
Proof.
  intros sys int w Hw. unfold updateMySQLInitFile, mbind, M_bind, try.
  destruct (sc_get (init_name cr) w) as [w1 r1] eqn:E1. pose proof (ul_get_silent _ _ _ _ E1) as Hv.
  rewrite <- Hv in Hw.
  assert (forall s f, sec_key s = init_name cr -> ph (users_view (ue_CreateOrUpdate s f w1).1) sys int) as Hcu.
  { intros s f Hk. destruct (ue_CreateOrUpdate s f w1) as [w' r] eqn:E. apply ul_CreateOrUpdate in E. simpl.
    destruct E as [->|(s0 & s1 & s' & _ & _ & _ & Hks & Hst)]; [done|].
    eapply phase_stores_other; [done|done|]. rewrite Hks, Hk. apply init_not_internal. }
  destruct r1 as [s|e|]; [apply ul_get in E1 as [_ ?]; by apply Hcu|by apply Hcu|done].
Qed.

(** ** The parts of the handlers *)

Lemma keeps_with_manager {A} P (k : DB -> M W A) :
  (forall um, wkeeps P (k um)) -> keeps (holds P) (with_manager cr k).
Proof.
  intros Hk. unfold with_manager, getInt. apply keeps_bind; [apply keeps_gets|intros int].
  apply keeps_bind; [apply keeps_lift|intros um]. apply keeps_wkeeps, wkeeps_defer; [apply Hk|].
  apply wkeeps_silent, ul_Close.
Qed.

Lemma keeps_isOldPasswordDiscarded P user : keeps (holds P) (isOldPasswordDiscarded (W := W) cr user).
Proof.
  apply keeps_with_manager. intros um. apply wkeeps_wrap. unfold IsOldPassDiscarded.
  apply wkeeps_bind; [apply wkeeps_try, wkeeps_silent, ul_QueryRow|]. intros [e|[|[x|] row]]; repeat wkeeps_step.
Qed.

Lemma keeps_discard_other user : su_Name user <> u -> keeps (holds ph) (discardOldPassword (W := W) cr user).
Proof.
  intros Hu. apply keeps_with_manager. intros um. apply wkeeps_wrap. unfold DiscardOldPassword.
  apply wkeeps_bind; [apply wkeeps_wrap, wkeeps_silent, ul_Begin|]. intros _.
  apply wkeeps_bind; [|intros _; apply wkeeps_wrap, wkeeps_silent, ul_Commit].
  apply wkeeps_tx_alter. intros h. right. split; [set_solver|]. simpl. congruence.
Qed.

Lemma keeps_retention_other user : su_Name user <> u -> keeps (holds ph) (updateUserPassWithRetention (W := W) cr user).
Proof.
  intros Hu. apply keeps_with_manager. intros um. apply wkeeps_wrap. unfold UpdateUserPass.
  apply wkeeps_bind; [apply wkeeps_wrap, wkeeps_silent, ul_Begin|]. intros _.
  apply wkeeps_bind; [|intros _; apply wkeeps_wrap, wkeeps_silent, ul_Commit].
  apply wkeeps_tx_alter. intros h. right. split; [set_solver|]. simpl. congruence.
Qed.

Lemma keeps_expiration_policy user : keeps (holds ph) (updateUserPassExpirationPolicy (W := W) cr user).
Proof.
  unfold updateUserPassExpirationPolicy, getInt. apply keeps_bind; [apply keeps_gets|intros int].
  destruct (annotation_done _ _); [apply keeps_ret|]. apply keeps_bind; [apply keeps_lift|intros b].
  destruct (negb b); [apply keeps_ret|]. apply keeps_bind; [apply keeps_lift|intros um].
  apply keeps_bind; [|intros _; apply keeps_annotate_internal].
  apply keeps_wrap, keeps_wkeeps, wkeeps_for_each. intros h _. by apply wkeeps_plain.
Qed.

Lemma wkeeps_UpdateProxyUser db user : wkeeps ph (UpdateProxyUser (W := W) db user).
Proof. unfold UpdateProxyUser. repeat wkeeps_step; by apply wkeeps_plain. Qed.

Lemma keeps_updateProxyUser user : keeps (holds ph) (updateProxyUser (W := W) cr user).
Proof.
  unfold updateProxyUser, getInt. apply keeps_bind; [apply keeps_gets|intros int].
  apply keeps_bind; [apply keeps_lift|intros ps]. apply keeps_wkeeps.
  induction (seqZ 0 _) as [|i l IH]; simpl; [apply wkeeps_ret|].
  do 2 (apply wkeeps_bind; [apply wkeeps_lift|intros ?]).
  apply wkeeps_defer; [|apply wkeeps_silent, ul_Close].
  apply wkeeps_bind; [apply wkeeps_wrap, wkeeps_UpdateProxyUser|done].
Qed.
End any_phase.

(** A discarded password is never the current one. *)
Lemma keeps_discard user : keeps (holds (settled cr u hosts sys0)) (discardOldPassword (W := W) cr user).
Proof.
  apply keeps_with_manager. intros um. apply wkeeps_wrap. unfold DiscardOldPassword.
  apply wkeeps_bind; [apply wkeeps_wrap, wkeeps_silent, ul_Begin|]. intros _.
  apply wkeeps_bind; [|intros _; apply wkeeps_wrap, wkeeps_silent, ul_Commit].
  induction (su_Hosts user) as [|h hs IH]; simpl; [apply wkeeps_ret|].
  apply wkeeps_bind; [|intros [e|_]; [|done]; repeat wkeeps_step; apply wkeeps_silent, ul_Rollback].
  apply wkeeps_try. eapply wkeeps_attempts; [apply ul_TxExec|].
  intros a v v' sys int (Hsys & Hk & p & p' & (S & HS & HSp) & Hi & Ha) (Hsec & _ & _ & Heff).
  split_and!; [done..|]. exists p, p'. split_and!; [exists S; by rewrite Hsec|done|].
  unfold stmt_effect in Heff. rewrite bool_decide_eq_false_2, bool_decide_eq_true_2 in Heff by done.
  destruct Heff as (u' & h' & acc & [= <- <-] & Hacc & ->). intros k Hk'.
  destruct (Ha k Hk') as (acc' & Hacc' & Hp). destruct (decide ((su_Name user, h) = (u, k))) as [[= E1 E2]|Hne].
  - subst h. rewrite E1 in *. rewrite lookup_insert_eq. eexists. split; [done|].
    destruct Hp as [-> <-]. split; [done|]. simpl. congruence.
  - rewrite lookup_insert_ne by done. eauto.
Qed.

Lemma wkeeps_get_pod P comp n : wkeeps P (get_pod (W := W) comp n).
Proof.
  unfold get_pod. apply wkeeps_bind; [apply wkeeps_try, wkeeps_silent, ul_getPod|]. intros r. repeat wkeeps_step.
Qed.

Ltac wkeeps_pod :=
  lazymatch goal with
  | |- wkeeps _ (get_pod _ _) => apply wkeeps_get_pod
  | |- wkeeps _ (ue_Exec _ _ _) => apply wkeeps_silent, ul_podExec
  end.

Lemma wkeeps_sync P : wkeeps P (syncPXCUsersWithProxySQL (W := W) cr).
Proof.
  unfold syncPXCUsersWithProxySQL. repeat first [wkeeps_step|wkeeps_pod].
Qed.

Lemma wkeeps_propagated P user : wkeeps P (isPassPropagated (W := W) cr user).
Proof.
  assert (forall comp size, wkeeps P (check_mounted cr user comp size)) as Hc.
  { intros. unfold check_mounted. repeat first [wkeeps_step|wkeeps_pod]. }
  unfold isPassPropagated. apply wkeeps_bind; [apply wkeeps_lift|intros pxc].
  apply wkeeps_bind; [by intros sys int w Hw|intros rev]. apply wkeeps_bind.
  - set (l := if rev then _ else _). assert (Forall (wkeeps (A := unit) P) l) as Hl.
    { subst l. assert (forall l0, Forall (wkeeps (A := unit) P) l0 -> Forall (wkeeps P) (reverse l0)) as Hrev
        by (intros l0; rewrite reverse_Permutation; done).
      destruct rev; [apply Hrev|]; (constructor; [apply Hc|]); destruct (spec_HAProxy _); try constructor;
        destruct (HAProxyEnabled cr); repeat constructor; apply Hc. }
    clearbody l. induction Hl as [|m l Hm Hl IH]; simpl; [apply wkeeps_ret|].
    apply wkeeps_bind; [by apply wkeeps_try|intros r]. apply wkeeps_bind; [done|intros ?; apply wkeeps_ret].
  - intros err. repeat wkeeps_step.
Qed.
End parts.

(** ** The rotation of one user *)

Section triples.
Context {W : Type} `{UsersLaws W}.

(** Triples over the view. *)
Definition vtriple {A} (P : UView -> Prop) (m : M W A) (R : A -> UView -> Prop) (E : UView -> Prop) : Prop :=
  triple (fun w => P (users_view w)) m (fun a w => R a (users_view w)) (fun w => E (users_view w)).

Lemma triple_onU {A} (P : vpred) (m : M W A) (R : A -> vpred) (E : vpred) :
  (forall sys int, vtriple (fun v => P v sys int) m (fun a v => R a v sys int) (fun v => E v sys int)) ->
  triple (holds P) (onU m) (fun a => holds (R a)) (holds E).
Proof.
  intros Hm s Hs. specialize (Hm (uw_sys s) (uw_int s) (uw_w s) Hs). unfold onU.
  by destruct (m (uw_w s)) as [w' r].
Qed.

Lemma vtriple_defer {A} P (m : M W A) R E d : silent d -> vtriple P m R E -> vtriple P (with_defer m d) R E.
Proof.
  intros Hd Hm w Hw. specialize (Hm w Hw). unfold with_defer. destruct (m w) as [w' r]. simpl in *.
  destruct (d w') as [w'' r'] eqn:E'. apply Hd in E'. simpl. by rewrite E'.
Qed.

Lemma vtriple_silent {A} (P : UView -> Prop) (m : M W A) : silent m -> vtriple P m (fun _ => P) P.
Proof.
  intros Hm w Hw. destruct (m w) as [w' r] eqn:E. apply Hm in E. simpl. rewrite E. by destruct r.
Qed.

(** A step that keeps [P], in a triple whose errors end in [E]. *)
Lemma triple_step {S A B} (P E : S -> Prop) (m : M S A) (f : A -> M S B) R :
  keeps P m -> (forall s, P s -> E s) -> (forall a, triple P (f a) R E) -> triple P (m ≫= f) R E.
Proof.
  intros Hm HE Hf. eapply triple_bind; [|exact Hf]. eapply triple_post; [apply triple_keeps, Hm|done|done].
Qed.

Lemma triple_of_keeps {S A} (P E : S -> Prop) (m : M S A) :
  keeps P m -> (forall s, P s -> E s) -> triple P m (fun _ => P) E.
Proof. intros Hm HE. eapply triple_post; [apply triple_keeps, Hm|done|done]. Qed.
End triples.

Section own.
Context {W : Type} `{UsersLaws W} `{IniLib} `{HashLib} `{VersionLib}.
Variables (cr : PerconaXtraDBCluster) (user : SysUser) (sys0 : Secret).
Hypothesis (Hpass : su_Pass user <> "") (Hhosts : NoDup (su_Hosts user)) (Hsome : su_Hosts user <> []).
Abbreviation u := (su_Name user).
Abbreviation hosts := (su_Hosts user).
Abbreviation q := (su_Pass user).

(** In the middle of the loop over the hosts. *)
Definition rotating (p : string) (dn rest : list string) (v : UView) : Prop :=
  stored_pass v (internal_key cr) u p /\
  every_host (v_accounts v) u dn (is_kept q p p) /\ every_host (v_accounts v) u rest (is_current p p).

Definition rotating_failed (p : string) (v : UView) : Prop :=
  stored_pass v (internal_key cr) u p /\ every_host (v_accounts v) u hosts (is_loose p p).

Lemma rotating_fails p dn rest v : dn ++ rest = hosts -> rotating p dn rest v -> rotating_failed p v.
Proof.
  intros Hh (Hs & Hd & Hr). split; [done|]. rewrite <- Hh. intros h [Hin|Hin]%elem_of_app.
  - destruct (Hd h Hin) as (acc & ? & _ & _ & ?). exists acc. split; [done|]. split; by right.
  - destruct (Hr h Hin) as (acc & ? & _ & ?). exists acc. split; [done|]. split; by left.
Qed.

Lemma rotating_step p dn h rest db x v v' :
  NoDup (dn ++ h :: rest) -> rotating p dn (h :: rest) v -> sends db sql_retain [u; h; q] x v v' ->
  rotating p (dn ++ [h]) rest v'.
Proof.
  intros Hnd (Hs & Hd & Hr) (Hsec & _ & _ & Heff). unfold stmt_effect in Heff. rewrite bool_decide_eq_true_2 in Heff by done.
  destruct Heff as (u' & h' & p' & acc & [= <- <- <-] & Ha & _ & Hacc). rewrite bool_decide_eq_false_2 in Hacc by done.
  destruct (Hr h ltac:(by left)) as (acc' & Ha' & _ & Hp). simplify_eq.
  apply NoDup_app in Hnd as (_ & Hdis & Hnd). apply NoDup_cons in Hnd as [Hh _].
  split; [|split].
  - destruct Hs as (S & ? & ?). exists S. by rewrite Hsec.
  - intros k [Hk|Hk%list_elem_of_singleton]%elem_of_app.
    + destruct (Hd k Hk) as (a & Hka & Hkept). exists a. rewrite Hacc, lookup_insert_ne; [done|].
      intros [= ->]. apply (Hdis k Hk). by left.
    + subst k. rewrite Hacc, lookup_insert_eq. by eexists.
  - intros k Hk. destruct (Hr k ltac:(by right)) as (a & Hka & Hcur). exists a.
    rewrite Hacc, lookup_insert_ne; [done|]. intros [= ->]. done.
Qed.

Lemma tx_retain db p hs : forall dn,
  dn ++ hs = hosts ->
  vtriple (rotating p dn hs) (tx_alter (W := W) db sql_retain (fun h => [u; h; q]) hs)
    (fun _ => rotating p hosts []) (rotating_failed p).
Proof.
  induction hs as [|h hs IH]; intros dn Hdn; simpl.
  { rewrite app_nil_r in Hdn. subst dn. by apply triple_ret. }
  apply triple_of_run. intros w w' r Hw. unfold mbind, M_bind, try.
  destruct (my_TxExec _ _ _ w) as [w1 r1] eqn:E1. apply ul_TxExec in E1.
  destruct r1 as [[]|e|]; [| |done].
  - intros Hrun. eapply (triple_run _ _ _ _ _ _ _ (IH (dn ++ [h]) _)); [|exact Hrun].
    eapply rotating_step; [by rewrite Hdn|exact Hw|exact E1]. Unshelve. by rewrite <- app_assoc.
  - assert (rotating_failed p (users_view w1)) as Hfailed.
    { destruct E1 as [->|[x E1]]; [by eapply rotating_fails|]. eapply (rotating_fails p (dn ++ [h]) hs).
      - by rewrite <- app_assoc.
      - eapply rotating_step; [by rewrite Hdn|exact Hw|exact E1]. }
    destruct (my_Rollback db w1) as [w2 r2] eqn:E2. apply ul_Rollback in E2.
    destruct r2 as [[]|e2|]; unfold fail; intros [= <- <-]; by rewrite E2.
Qed.

Lemma retention_own :
  triple (holds (settled cr u hosts sys0)) (updateUserPassWithRetention (W := W) cr user)
    (fun _ => holds (between q cr u hosts sys0)) (holds (loose cr u hosts sys0)).
Proof.
  unfold updateUserPassWithRetention, with_manager, getInt.
  apply triple_step; [apply keeps_gets|intros s; apply settled_loose|intros int].
  apply triple_step; [apply keeps_lift|intros s; apply settled_loose|intros um].
  apply triple_onU. intros sys int'. apply vtriple_defer; [apply ul_Close|]. apply triple_wrap.
  apply triple_of_run. intros w w' r (-> & Hk & p & p' & Hst & Hi & Ha) Hrun.
  assert (vtriple (rotating p [] hosts) (UpdateUserPass um (Some user)) (fun _ => rotating p hosts []) (rotating_failed p)) as Ht.
  { unfold UpdateUserPass. eapply triple_bind.
    - apply triple_wrap. eapply triple_post; [apply vtriple_silent, ul_Begin|by intros; eassumption|].
      intros w0 Hw0. by eapply (rotating_fails p []).
    - intros []. eapply triple_bind; [by apply (tx_retain um p hosts [])|]. intros [].
      apply triple_wrap. eapply triple_post; [apply vtriple_silent, ul_Commit|by intros; eassumption|].
      intros w0 Hw0. eapply (rotating_fails p hosts []); [by rewrite app_nil_r|done]. }
  assert (p' = p) as ->.
  { destruct hosts as [|h hs]; [done|]. destruct (Ha h ltac:(by left)) as (? & _ & -> & _). done. }
  assert (rotating p [] hosts (users_view w)) as Hw by (split_and!; [done|intros h Hh; by apply elem_of_nil in Hh|done]).
  pose proof (triple_run _ _ _ _ w w' r Ht Hw Hrun) as Hr. simpl in Hr.
  destruct r as [[]|e|]; destruct Hr as (Hst' & Hr); split_and!; try done; exists p, p; split_and!; try done; apply Hr.
Qed.

Lemma new_settled v sys int : phase (is_new q) cr u hosts sys0 v sys int -> settled cr u hosts sys0 v sys int.
Proof. apply phase_mono. by intros p p' acc (-> & -> & ?). Qed.

(** The patch of the user's own key ends the rotation. *)
Lemma patch_own_new : data_get sys0 u = q ->
  triple (holds (between q cr u hosts sys0)) (patch_internal (W := W) u)
    (fun _ => holds (phase (is_new q) cr u hosts sys0)) (holds (loose cr u hosts sys0)).
Proof.
  intros Hq. apply triple_of_run. intros s s' r Hs. pose proof (between_loose _ _ _ _ _ _ _ _ Hs) as Hloose.
  unfold patch_internal, getInt, getSys, gets, setInt, modify, lift, mbind, M_bind, onU. simpl.
  destruct Hs as (Hsys & Hk & p & p' & (S & HS & HSp) & Hi & Ha). rewrite Hsys, Hq.
  destruct (data_set u q (uw_int s)) as [int'|e|] eqn:E; [|by intros [= <- <-]..]. simpl.
  assert (sec_key int' = internal_key cr /\ data_of int' = <[u := q]> (data_of (uw_int s))) as [Hk' Hd'].
  { revert E. unfold data_set, data_of. destruct (uw_int s) as [m [d|]]; simpl in *; [|done]. by intros [= <-]. }
  assert (p' = p) as ->.
  { destruct hosts as [|h hs]; [done|]. destruct (Ha h ltac:(by left)) as (? & _ & -> & _). done. }
  destruct (sc_patch (uw_int s) int' (uw_w s)) as [w' r'] eqn:Ep. apply ul_patch in Ep.
  assert (forall sx v' i, (exists s0, v_secrets (users_view (uw_w s)) !! sec_key int' = Some s0 /\
      sec_key sx = sec_key int' /\ data_of sx = merge_data (data_of (uw_int s)) (data_of int') (data_of s0) /\
      stores sx (users_view (uw_w s)) v') -> (i = sx \/ i = int') ->
      phase (is_new q) cr u hosts sys0 v' sys0 i) as Hset.
  { intros sx v' i (s0 & Hs0 & Hks & Hdx & Hv & Hacc & _) Hi'. assert (s0 = S) as -> by congruence.
    assert (data_of sx !! u = Some q) as Hux.
    { rewrite Hdx, Hd'. destruct (decide (p = q)) as [->|Hpq].
      - rewrite merge_data_same; [done|]. by rewrite lookup_insert_eq.
      - apply merge_data_set. congruence. }
    split_and!; [done|destruct Hi' as [->| ->]; congruence|]. exists q, q. split_and!.
    - exists sx. rewrite Hv, Hks, Hk', lookup_insert_eq. by split.
    - destruct Hi' as [->| ->]; [done|]. by rewrite Hd', lookup_insert_eq.
    - intros h Hh. destruct (Ha h Hh) as (acc & ? & _ & ? & _). exists acc. rewrite Hacc. by repeat split. }
  unfold holds in *. destruct r' as [sx|e|]; [| |done]; intros [= <- <-]; simpl.
  - eapply Hset; [exact Ep|by left].
  - destruct Ep as [->|[sx Ep]]; [|eapply settled_loose, new_settled, Hset; [exact Ep|by right]].
    split_and!; [done|done|]. exists p, q. split_and!; [by exists S|by rewrite Hd', lookup_insert_eq|].
    intros h Hh. destruct (Ha h Hh) as (acc & ? & _ & ? & ?). exists acc. split; [done|]. split; [by right|by left].
Qed.

Lemma patch_own : data_get sys0 u = q ->
  triple (holds (between q cr u hosts sys0)) (patch_internal (W := W) u)
    (fun _ => holds (settled cr u hosts sys0)) (holds (loose cr u hosts sys0)).
Proof. intros Hq. eapply triple_post; [by apply patch_own_new|intros ? s; apply new_settled|done]. Qed.

(** The old passwords go, account by account. *)
Definition discarding (dn rest : list string) : vpred := fun v sys int =>
  phase (is_new q) cr u rest sys0 v sys int /\ phase (is_done q) cr u dn sys0 v sys int.

Lemma discard_step dn h rest db x v v' sys int :
  h ∉ dn -> discarding dn (h :: rest) v sys int -> sends db sql_discard [u; h] x v v' ->
  discarding (dn ++ [h]) rest v' sys int.
Proof.
  intros Hh [(Hsys & Hk & p & p' & Hst & Hi & Ha) (_ & _ & d & d' & Hdst & Hdi & Hd)] (Hsec & _ & _ & Heff).
  unfold stmt_effect in Heff. rewrite bool_decide_eq_false_2, bool_decide_eq_true_2 in Heff by done.
  destruct Heff as (u' & h' & acc & [= <- <-] & Hacc & Hv').
  destruct (Ha h ltac:(by left)) as (acc' & Hacc' & -> & -> & Hq). simplify_eq.
  assert (forall k, stored_pass v k u q -> stored_pass v' k u q) as Hs' by (intros k (S & ? & ?); exists S; by rewrite Hsec).
  assert (d = q) as -> by (destruct Hst as (S & HS & HSq), Hdst as (S' & HS' & HSq'); congruence).
  split; (split_and!; [done..|]); exists q, q; (split_and!; [by apply Hs'|done|]).
  - intros k Hk'. destruct (Ha k ltac:(by right)) as (a & Hka & _ & _ & Hcur). rewrite Hv'.
    destruct (decide (h = k)) as [->|Hne]; [rewrite lookup_insert_eq; by eexists|].
    rewrite lookup_insert_ne by congruence. by exists a.
  - intros k [Hk'|Hk'%list_elem_of_singleton]%elem_of_app.
    + destruct (Hd k Hk') as (a & Hka & Hkd). exists a. rewrite Hv', lookup_insert_ne; [done|]. intros [= ->]. done.
    + subst k. rewrite Hv', lookup_insert_eq. eexists. split; [done|]. split_and!; [done..|]. by rewrite Hq.
Qed.

Lemma discard_own :
  triple (holds (phase (is_new q) cr u hosts sys0)) (discardOldPassword (W := W) cr user)
    (fun _ => holds (phase (is_done q) cr u hosts sys0)) (fun _ => True).
Proof.
  unfold discardOldPassword, with_manager, getInt.
  apply triple_step; [apply keeps_gets|done|intros int]. apply triple_step; [apply keeps_lift|done|intros um].
  apply (triple_onU _ _ (fun _ => phase (is_done q) cr u hosts sys0) (fun _ _ _ => True)). intros sys int'.
  apply vtriple_defer; [apply ul_Close|]. apply triple_wrap. unfold DiscardOldPassword.
  eapply (triple_seq _ _ _ _ (fun w => phase (is_new q) cr u hosts sys0 (users_view w) sys int')).
  { apply triple_wrap. eapply triple_post.
    - apply (vtriple_silent (fun v => phase (is_new q) cr u hosts sys0 v sys int')), ul_Begin.
    - by intros.
    - done. }
  intros [].
  eapply (triple_bind _ _ _ _ (fun _ w => phase (is_done q) cr u hosts sys0 (users_view w) sys int')).
  - assert (forall hs dn, dn ++ hs = hosts -> triple (fun w => discarding dn hs (users_view w) sys int')
      (tx_alter (W := W) um sql_discard (fun h => [u; h]) hs)
      (fun _ w => phase (is_done q) cr u hosts sys0 (users_view w) sys int') (fun _ => True)) as Hloop.
    { induction hs as [|h hs IH]; intros dn Hdn; simpl.
      { rewrite app_nil_r in Hdn. subst dn. apply triple_ret. by intros w [_ ?]. }
      apply triple_of_run. intros w w' r Hw. unfold mbind, M_bind, try.
      destruct (my_TxExec _ _ _ w) as [w1 r1] eqn:E1. apply ul_TxExec in E1. destruct r1 as [[]|e|]; [|by destruct (my_Rollback um w1) as [? []]; intros [= <- <-]|done].
      intros Hrun. eapply (triple_run _ _ _ _ _ _ _ (IH (dn ++ [h]) _)); [|exact Hrun].
      eapply discard_step; [|exact Hw|exact E1]. rewrite <- Hdn in Hhosts. apply NoDup_app in Hhosts as (_ & Hdis & _).
      intros Hin. apply (Hdis h Hin). by left. Unshelve. by rewrite <- app_assoc. }
    eapply triple_pre; [by apply (Hloop hosts [])|]. intros w Hw. split; [done|].
    destruct Hw as (? & ? & p & p' & ? & ? & Ha). split_and!; [done..|]. exists p, p'. split_and!; [done..|].
    intros h Hh. by apply elem_of_nil in Hh.
  - intros []. apply triple_wrap. eapply triple_post.
    + apply (vtriple_silent (fun v => phase (is_done q) cr u hosts sys0 v sys int')), ul_Commit.
    + by intros.
    + done.
Qed.
End own.
