(* ===== verification/CustomUsersSpec.v ===== *)
(** * Custom users: proofs

    How MySQL reads the statements that are built from names and hosts, what a pass
    may send, and when a user counts as changed. *)

From S2P Require Import Prelude GoStrings ApiTypes Secrets MysqlUsers Users UserHandlers CustomUsers UsersSpec.

(** ** Reading a quoted name *)

Definition quote : Ascii.ascii := Ascii.Ascii true true true false false true false false.
Definition backslash : Ascii.ascii := Ascii.Ascii false false true true true false true false.

(** A string literal of MySQL, after the opening quote: two quotes are one, and a
    backslash takes the next character as it is (the escapes for control
    characters are left out: they make no difference to where the literal ends). *)
Fixpoint read_quoted (s : string) : option (string * string) :=
  match s with
  | EmptyString => None
  | String c s =>
      if bool_decide (c = quote) then
        match s with
        | String d s' => if bool_decide (d = quote) then prod_map (String quote) id <$> read_quoted s' else Some ("", s)
        | EmptyString => Some ("", "")
        end
      else if bool_decide (c = backslash) then
        match s with
        | String d s' => prod_map (String d) id <$> read_quoted s'
        | EmptyString => None
        end
      else prod_map (String c) id <$> read_quoted s
  end.

(** ['name'@'host'] and what follows *)
Definition read_account (s : string) : option (string * string * string) :=
  s1 ← strip_prefix "'" s;
  '(name, s2) ← read_quoted s1;
  s3 ← strip_prefix "@'" s2;
  '(host, rest) ← read_quoted s3;
  Some (name, host, rest).

Definition plain (s : string) : Prop := backslash ∉ String.list_ascii_of_string s.
Definition no_quote_first (s : string) : Prop := match s with String c _ => c <> quote | EmptyString => True end.

Lemma escape_cons c s :
  escapeIdentifier (String c s) = (if bool_decide (c = quote) then "''" else String c "") +:+ escapeIdentifier s.
Proof.
  assert (exists x l, split_go "'" s 0 = x :: l) as (x & l & Hs).
  { destruct s as [|d s]; simpl; [by eexists _, _|]. destruct (HasPrefix _ _); [by eexists _, _|].
    destruct (split_go "'" s 0); by eexists _, _. }
  assert (HasPrefix (String c s) "'" = bool_decide (c = quote)) as Hc.
  { unfold HasPrefix. apply bool_decide_ext. simpl. fold quote. case_bool_decide as E; split; intros Hx.
    - done.
    - by eexists.
    - by destruct Hx.
    - by subst c. }
  unfold escapeIdentifier, ReplaceAll, Split. simpl split_go. rewrite Hc.
  case_bool_decide; rewrite Hs; [done|]. simpl. by destruct l.
Qed.

Lemma read_escaped s rest : plain s -> no_quote_first rest ->
  read_quoted (escapeIdentifier s +:+ String quote rest) = Some (s, rest).
Proof.
  intros Hp Hr. induction s as [|c s IH].
  - change (escapeIdentifier "" +:+ String quote rest) with (String quote rest). cbn [read_quoted].
    rewrite bool_decide_eq_true_2 by done. destruct rest as [|d rest]; [done|]. by rewrite bool_decide_eq_false_2.
  - rewrite escape_cons. unfold plain in *. simpl in Hp. apply not_elem_of_cons in Hp as [Hc Hp]. specialize (IH Hp).
    case_bool_decide as E.
    + subst c. change ((("''" +:+ escapeIdentifier s) +:+ String quote rest)) with (String quote (String quote (escapeIdentifier s +:+ String quote rest))).
      cbn [read_quoted]. rewrite bool_decide_eq_true_2 by done. by rewrite IH.
    + change ((String c "" +:+ escapeIdentifier s) +:+ String quote rest) with (String c (escapeIdentifier s +:+ String quote rest)).
      cbn [read_quoted]. rewrite !bool_decide_eq_false_2 by done. by rewrite IH.
Qed.

Lemma read_account_literal name host rest :
  plain name -> plain host -> no_quote_first rest ->
  read_account (account_literal name host +:+ rest) = Some (name, host, rest).
Proof.
  intros Hn Hh Hr. unfold read_account.
  assert (account_literal name host +:+ rest = "'" +:+ (escapeIdentifier name +:+ String quote
    ("@'" +:+ (escapeIdentifier host +:+ String quote rest)))) as ->.
  { unfold account_literal. rewrite <- !str_app_assoc. done. }
  rewrite strip_prefix_app. cbn [mbind option_bind]. rewrite read_escaped by done. cbn [mbind option_bind].
  rewrite strip_prefix_app. cbn [mbind option_bind]. by rewrite read_escaped.
Qed.

(** Names are quoted so that they are read back.  MySQL reads the account that
    is written from a name and a host as just that name and host, quotes and all,
    as long as neither has a backslash. *)
Theorem account_literal_roundtrip name host rest :
  plain name -> plain host -> no_quote_first rest ->
  read_account (account_literal name host +:+ rest) = Some (name, host, rest).
Proof. apply read_account_literal. Qed.

(** With a backslash the name swallows the closing quote, and the rest of the
    statement comes from the host: here the account that is changed is root's. *)
Example backslash_breaks_out :
  let stmt := "ALTER USER " +:+ account_literal "a\" "@localhost, root@localhost IDENTIFIED BY ? -- " +:+ " IDENTIFIED BY ?" in
  (s ← strip_prefix "ALTER USER '" stmt; read_quoted s) = Some ("a'@", "@localhost, root@localhost IDENTIFIED BY ? -- ' IDENTIFIED BY ?").
Proof. vm_compute. reflexivity. Qed.

(** ** What a pass sends *)

(** A statement for one of the listed users, whose name is not reserved, and in
    which MySQL reads that name. *)
Definition names_user (user : User) (stmt : string) : Prop :=
  (exists db, db ∈ user_DBs user /\ stmt = "CREATE DATABASE IF NOT EXISTS " +:+ db) \/
  exists verb text host rest, stmt = verb +:+ text /\ read_account text = Some (user_Name user, host, rest) /\
    (verb = "ALTER USER " \/ verb = "CREATE USER IF NOT EXISTS " \/ HasPrefix verb "GRANT " = true).

Definition custom_statement (us : list User) (x : DB * string * list string) : Prop :=
  exists user, user ∈ us /\ user_Name user <> "" /\ (user_Name user ∉ UserNames) /\ names_user user x.1.2.

Definition plain_user (user : User) : Prop := plain (user_Name user) /\ Forall plain (user_Hosts user).

Lemma admit_user_spec user user' : admit_user user = Some user' ->
  user_Name user <> "" /\ (user_Name user ∉ UserNames) /\ user_Name user' = user_Name user /\ user_DBs user' = user_DBs user /\
  (plain_user user -> plain_user user').
Proof.
  unfold admit_user. do 2 (case_bool_decide; [done|]). destruct (_ && _); [done|]. case_bool_decide; [done|].
  intros [= <-]. split_and!; [done|by rewrite <- (elem_of_list_to_set (C := gset string))|..].
  all: destruct user as [nm [[rn [|c rk]]|] dbs [|h hs] gs wg]; try done.
  all: intros [? _]; split; simpl; [done|]; constructor; [|constructor]; apply (bool_decide_unpack _); vm_compute; exact I.
Qed.

Lemma alter_names_user user stmt : plain_user user -> stmt ∈ alterUserQuery user -> names_user user stmt.
Proof.
  intros [Hn Hh] Hin.
  assert (exists h, plain h /\ stmt = "ALTER USER " +:+ account_literal (user_Name user) h +:+ " IDENTIFIED BY ?") as (h & Hp & ->).
  { unfold alterUserQuery in Hin. destruct (user_Hosts user) as [|h0 hs] eqn:E.
    - apply list_elem_of_singleton in Hin as ->. exists "%". split; [apply (bool_decide_unpack _); vm_compute; exact I|].
      unfold account_literal. rewrite <- !str_app_assoc. done.
    - apply list_elem_of_fmap in Hin as (h & -> & Hin). exists h. split; [by eapply Forall_forall in Hh|done]. }
  right. eexists _, _, h, _. split; [reflexivity|]. split; [by apply read_account_literal|by left].
Qed.

Lemma grant_names_user user h stmt : plain_user user -> plain h -> stmt ∈ grant_queries user h -> names_user user stmt.
Proof.
  intros [Hn _] Hh Hin. unfold grant_queries in Hin. set (opt := if user_WithGrantOption user then _ else _) in Hin.
  assert (exists verb, HasPrefix verb "GRANT " = true /\ stmt = verb +:+ (account_literal (user_Name user) h +:+ (" " +:+ opt))) as (verb & Hv & ->).
  { assert (forall on, exists verb, HasPrefix verb "GRANT " = true /\
      "GRANT " +:+ Join (user_Grants user) "," +:+ on +:+ (" TO " +:+ account_literal (user_Name user) h +:+ " " +:+ opt) =
      verb +:+ (account_literal (user_Name user) h +:+ (" " +:+ opt))) as Hv.
    { intros on. exists ("GRANT " +:+ Join (user_Grants user) "," +:+ on +:+ " TO "). split.
      - apply bool_decide_eq_true. rewrite strip_prefix_app. by eexists.
      - rewrite <- !str_app_assoc. done. }
    destruct (user_Grants user) as [|g gs] eqn:Eg; [by apply elem_of_nil in Hin|].
    destruct (user_DBs user) as [|d ds] eqn:Ed.
    - apply list_elem_of_singleton in Hin as ->. destruct (Hv " ON *.*") as (verb & ? & E). exists verb. split; [done|exact E].
    - apply list_elem_of_fmap in Hin as (db & -> & _). destruct (Hv (" ON " +:+ db +:+ ".*")) as (verb & ? & E). exists verb.
      split; [done|]. rewrite <- E. rewrite <- !str_app_assoc. done. }
  right. eexists verb, _, h, _. split; [reflexivity|]. split; [by apply read_account_literal|by right; right].
Qed.

Lemma upsert_names_user user stmt : plain_user user -> stmt ∈ upsertUserQuery user -> names_user user stmt.
Proof.
  intros [Hn Hh] [Hin|Hin]%elem_of_app.
  - apply list_elem_of_fmap in Hin as (db & -> & ?). left. by exists db.
  - apply list_elem_of_In, in_flat_map in Hin as (h & Hh1%list_elem_of_In & Hin%list_elem_of_In).
    assert (plain h) as Hp by by eapply Forall_forall in Hh.
    apply elem_of_cons in Hin as [->|Hin]; [|by apply (grant_names_user user h)].
    right. eexists "CREATE USER IF NOT EXISTS ", _, h, _. split; [reflexivity|].
    split; [by apply read_account_literal|by right; left].
Qed.

Section sent.
Context {W : Type} `{UsersLaws W} `{IniLib} `{HashLib}.
Variables (ok : DB * string * list string -> Prop) (sent0 : list (DB * string * list string)).

Definition sent_ok : vpred := fun v _ _ => exists new, v_sent v = sent0 ++ new /\ Forall ok new.

Lemma wkeeps_sent {A} (m : M W A) eff :
  attempts m eff -> (forall a v v', eff a v v' -> v_sent v' = v_sent v) -> wkeeps sent_ok m.
Proof.
  intros Hm He. eapply wkeeps_attempts; [done|]. intros a v v' sys int (new & Hn & Hok) Hv%He. exists new. by rewrite Hv.
Qed.

Lemma wkeeps_upsert db query pass :
  (forall q args, q ∈ query -> ok (db, q, args)) -> wkeeps sent_ok (UpsertUser (W := W) db query pass).
Proof.
  intros Hq. unfold UpsertUser. apply wkeeps_for_each. intros q Hin. apply wkeeps_wrap.
  assert (forall args, wkeeps sent_ok (my_Exec db q args)) as He; [|destruct (Contains _ _); apply He].
  intros args. eapply wkeeps_attempts; [apply ul_Exec|]. intros a v v' sys int (new & Hn & Hok) (_ & _ & Hs & _).
  exists (new ++ [(db, q, args)]). rewrite Hs, Hn, app_assoc. split; [done|]. apply Forall_app. split; [done|].
  constructor; [by apply Hq|constructor].
Qed.

Lemma wkeeps_generatePass P u o : wkeeps P (generatePass (W := W) u o).
Proof.
  assert (forall n, wkeeps P (rand_Int (W := W) n)) as Hi by (intros; apply wkeeps_silent, ul_Int).
  assert (forall s, wkeeps P (pick (W := W) s)) as Hp by (intros; unfold pick; repeat wkeeps_step; done).
  unfold generatePass. apply wkeeps_bind; [apply wkeeps_lift|intros opts].
  apply wkeeps_bind; [case_bool_decide; [apply wkeeps_silent, ul_Intn|apply wkeeps_ret]|intros extra].
  case_bool_decide; [by intros ? ? w|]. apply wkeeps_bind.
  - generalize (Z.to_nat (pw_MinLength opts + extra)), O. intros n. induction n as [|n IH]; intros i; simpl; [apply wkeeps_ret|].
    apply wkeeps_bind; [apply Hp|intros c]. apply wkeeps_bind; [apply IH|intros b; apply wkeeps_ret].
  - intros b. apply wkeeps_bind; [|intros b'; apply wkeeps_ret]. unfold put_symbol. repeat wkeeps_step; done.
Qed.

Lemma wkeeps_getUserSecret cr name def passKey : wkeeps sent_ok (getUserSecret (W := W) cr name def passKey).
Proof.
  assert (forall s, wkeeps sent_ok (sc_create (W := W) s)) as Hc
    by (intros s; eapply wkeeps_sent; [apply ul_create|]; by intros a v v' (_ & _ & _ & _ & _ & ?)).
  assert (forall s, wkeeps sent_ok (sc_update (W := W) s)) as Hu
    by (intros s; eapply wkeeps_sent; [apply ul_update|]; by intros a v v' (_ & _ & _ & _ & _ & ?)).
  unfold getUserSecret, generateUserPass. apply wkeeps_bind; [apply wkeeps_try, wkeeps_silent, ul_get_silent|intros got].
  repeat lazymatch goal with
  | |- wkeeps _ (generatePass _ _) => apply wkeeps_generatePass
  | |- wkeeps _ (sc_create _) => apply Hc
  | |- wkeeps _ (sc_update _) => apply Hu
  | |- _ => wkeeps_step
  end.
Qed.

Lemma wkeeps_GetUser P um name : wkeeps P (GetUser (W := W) um name).
Proof.
  assert (forall q a, wkeeps P (my_Query um q a)) as Hq by (intros; apply wkeeps_silent, ul_Query).
  unfold GetUser. apply wkeeps_bind; [apply Hq|intros rows]. apply wkeeps_bind; [apply wkeeps_lift|intros u].
  destruct (bool_decide _); [apply wkeeps_ret|]. apply wkeeps_bind; [|intros; apply wkeeps_ret].
  generalize (elements (du_Hosts u)). intros l. revert u. induction l as [|h l IH]; intros u; simpl; [apply wkeeps_ret|].
  apply wkeeps_bind; [apply Hq|intros rows']. apply wkeeps_bind; [apply wkeeps_lift|intros g]. apply IH.
Qed.

Lemma wkeeps_apply_user um query s k passKey :
  (forall q args, q ∈ query -> ok (um, q, args)) -> wkeeps sent_ok (apply_user (W := W) um query s k passKey).
Proof.
  intros Hq. unfold apply_user, annotate_secret. apply wkeeps_bind; [by apply wkeeps_try, wkeeps_upsert|]. intros [e|[]]; [apply wkeeps_ret|].
  repeat wkeeps_step; [apply wkeeps_silent, ul_get_silent|]. eapply wkeeps_sent; [apply ul_patch|].
  by intros ? v v' (s0 & _ & _ & _ & _ & _ & _ & ?).
Qed.

Lemma wkeeps_sync_user cr um user :
  (forall q args, q ∈ alterUserQuery user ++ upsertUserQuery user -> ok (um, q, args)) ->
  wkeeps sent_ok (sync_user (W := W) cr um user).
Proof.
  intros Hq. unfold sync_user. destruct (secret_ref cr user) as [sn pk].
  apply wkeeps_bind; [apply wkeeps_try, wkeeps_getUserSecret|]. intros [e|sec]; [apply wkeeps_ret|].
  apply wkeeps_bind; [apply wkeeps_try, wkeeps_GetUser|]. intros [e|u]; [apply wkeeps_ret|].
  apply wkeeps_bind.
  - destruct (userPasswordChanged _ _ _ _); [|apply wkeeps_ret]. apply wkeeps_apply_user. intros q args Hin. apply Hq, elem_of_app. by left.
  - intros [|]; simpl; [|apply wkeeps_ret]. destruct (userChanged u user); [|apply wkeeps_ret].
    apply wkeeps_bind; [|intros; apply wkeeps_ret]. apply wkeeps_apply_user. intros q args Hin. apply Hq, elem_of_app. by right.
Qed.
End sent.

Definition no_secret : Secret := mkSecret (mkMeta "" "" "" ∅ ∅ [] 0 0 None) None.

Section custom_safety.
Context {W : Type} `{UsersLaws W} `{IniLib} `{HashLib}.

(** The secrets in memory play no role. *)
Definition cu_sent ok sent0 (s : CUW W) : Prop := forall sys int, sent_ok ok sent0 (users_view (cu_w s)) sys int.

Lemma keeps_onCU {A} ok sent0 (m : M W A) : wkeeps (sent_ok ok sent0) m -> keeps (cu_sent ok sent0) (onCU m).
Proof. intros Hm s Hs sys int. unfold onCU. specialize (Hm sys int (cu_w s) (Hs sys int)). by destruct (m (cu_w s)). Qed.

Lemma keeps_custom_loop ok sent0 cr um us : forall i,
  (forall user user' q args, user ∈ us -> admit_user user = Some user' -> q ∈ alterUserQuery user' ++ upsertUserQuery user' ->
     ok (um, q, args)) ->
  keeps (cu_sent ok sent0) (custom_loop (W := W) cr um i us).
Proof.
  induction us as [|user us IH]; intros i Hok; simpl; [apply keeps_ret|].
  apply keeps_bind; [|intros _; apply IH; intros; eapply Hok; [by right|done..]].
  destruct (admit_user user) as [user'|] eqn:E; [|apply keeps_ret].
  apply keeps_bind; [by intros s Hs|intros _]. apply keeps_onCU, wkeeps_sync_user. intros q args Hq. eapply Hok; [by left|done..].
Qed.

End custom_safety.

(** ** Changes *)

Lemma existsb_false {A} (f : A -> bool) l : (forall x, x ∈ l -> f x = false) -> existsb f l = false.
Proof.
  intros Hf. apply not_true_iff_false. intros (x & Hx%list_elem_of_In & Hfx)%existsb_exists. by rewrite Hf in Hfx.
Qed.

(** A user that is up to date may be one without its grants.  When the database
    only has the line [GRANT USAGE] for each host of a user and the user lists no
    databases, then no change is seen, whatever grants it lists: a user whose
    grants could not be given, or were revoked, stays without them. *)
Theorem userChanged_misses_grants (current : DbUser) (desired : User) :
  (forall h, h ∈ user_Hosts desired -> h ∈ du_Hosts current) ->
  (forall h, h ∈ user_Hosts desired -> du_Grants current !! h = Some [usage_grant (user_Name desired) h]) ->
  user_DBs desired = [] ->
  userChanged (Some current) desired = false.
Proof.
  intros Hh Hg Hdb. unfold userChanged. rewrite Hdb. simpl. rewrite orb_false_r. apply orb_false_iff. split.
  - apply existsb_false. intros h Hin. by rewrite bool_decide_eq_true_2 by auto.
  - apply existsb_false. intros h Hin. unfold host_changed, host_grants. rewrite Hdb, (Hg h Hin).
    rewrite (bool_decide_eq_true_2 (is_Some _)) by by eexists. cbn [negb andb orb]. rewrite orb_false_r.
    apply existsb_false. intros g _. apply existsb_false. intros x Hx. apply list_elem_of_singleton in Hx as ->.
    unfold grant_differs. by rewrite bool_decide_eq_true_2.
Qed.

Lemma Contains_app a sub b : Contains (a +:+ sub +:+ b) sub = true.
Proof.
  apply bool_decide_eq_true. induction a as [|c a IH].
  - change ("" +:+ sub +:+ b) with (sub +:+ b). destruct sub as [|d sub]; [by destruct b; simpl; eexists|].
    change (is_Some (match strip_prefix (String d sub) (String d sub +:+ b) with Some r => Some ("", r) | None =>
      prod_map (String d) id <$> cut_at (String d sub) (sub +:+ b) end)). rewrite strip_prefix_app. by eexists.
  - change (is_Some (match strip_prefix sub (String c (a +:+ sub +:+ b)) with Some r => Some ("", r) | None =>
      prod_map (String c) id <$> cut_at sub (a +:+ sub +:+ b) end)).
    destruct (strip_prefix _ _); [by eexists|]. destruct IH as [[x y] ->]. by eexists.
Qed.

Lemma Contains_end s a : s = a +:+ "?" -> Contains s "?" = true.
Proof. intros ->. apply (Contains_app a "?" ""). Qed.

Section dropped.
Context {W : Type} `{UsersLaws W} `{IniLib} `{HashLib}.

(** A user that was dropped from the database and whose password has changed is
    not created again.  The password counts as changed although there is no user,
    so the round first alters the user, which fails, and ends there; it ends like
    that every time, since nothing has changed. *)
Theorem dropped_user_not_recreated cr um user passKey secretName secret hash e (w w1 w2 w3 : W) :
  secret_ref cr user = (secretName, passKey) ->
  getUserSecret cr secretName (custom_secret_name cr) passKey w = (w1, Ok secret) ->
  GetUser um (user_Name user) w1 = (w2, Ok None) ->
  meta_Annotations (sec_Meta secret) !! ("percona.com/" +:+ cluster_Name cr +:+ "-" +:+ user_Name user +:+ "-hash") = Some hash ->
  hash <> sha256Hash (data_get secret passKey) ->
  (forall q, head (alterUserQuery user) = Some q -> my_Exec um q [data_get secret passKey] w2 = (w3, Err e)) ->
  sync_user cr um user w = (w3, Ok tt).
Proof.
  intros Href Hsec Hget Hann Hhash Halter.
  assert (exists q0 qs, alterUserQuery user = q0 :: qs /\ Contains q0 "?" = true) as (q0 & qs & Hq & Hc).
  { unfold alterUserQuery. destruct (user_Hosts user) as [|h hs]; eexists _, _; (split; [reflexivity|]).
    - apply (Contains_end _ ("ALTER USER '" +:+ escapeIdentifier (user_Name user) +:+ "'@'%' IDENTIFIED BY ")).
      rewrite <- !str_app_assoc. done.
    - apply (Contains_end _ ("ALTER USER " +:+ account_literal (user_Name user) h +:+ " IDENTIFIED BY ")).
      rewrite <- !str_app_assoc. done. }
  specialize (Halter q0 ltac:(by rewrite Hq)). unfold sync_user. rewrite Href. unfold mbind, M_bind, try at 1.
  rewrite Hsec. unfold try at 1. rewrite Hget. unfold userPasswordChanged. rewrite Hann, bool_decide_eq_false_2 by done. simpl.
  unfold apply_user, UpsertUser. rewrite Hq. simpl. unfold mbind, M_bind, try, wrap. rewrite Hc, Halter. done.
Qed.
End dropped.
