(* ===== verification/UsersRotation.v ===== *)
(** * A pass over the system users never locks anybody out

    Every handler, for a user that is in the middle of nothing: the handlers of the
    other users leave its accounts and its password alone, and its own handler
    changes both in an order in which the database accepts the password of the
    internal secret at every point where the pass may end. *)

From S2P Require Import Prelude GoStrings ApiTypes Secrets MysqlUsers Users UserHandlers UsersSpec.

Section others.
Context {W : Type} `{UsersLaws W} `{IniLib} `{HashLib} `{VersionLib}.
Variables (cr : PerconaXtraDBCluster) (u : string) (hosts : list string) (sys0 : Secret).
Context (R : string -> string -> Account -> Prop) `{!Exchanges R}.
Abbreviation ph := (phase R cr u hosts sys0).

Lemma ph_sys (s : UW W) : holds ph s -> uw_sys s = sys0.
Proof. by intros [? _]. Qed.

Lemma keeps_sys_user {A} name hs (f : SysUser -> M (UW W) A) :
  keeps (holds ph) (f (mkSysUser name (data_get sys0 name) hs)) -> keeps (holds ph) (sys_user name hs ≫= f).
Proof.
  intros Hf s Hs. unfold sys_user, getSys, gets, mbind, M_bind, mret, M_ret. rewrite (ph_sys s Hs). by apply Hf.
Qed.

Lemma keeps_pass_state user : keeps (holds ph) (pass_state (W := W) cr user).
Proof.
  unfold pass_state. apply keeps_bind; [apply keeps_isOldPasswordDiscarded|intros d].
  unfold same_pass, getSys, getInt. keeps_solve.
Qed.

Lemma keeps_same_pass name : keeps (holds ph) (same_pass (W := W) name).
Proof. unfold same_pass, getSys, getInt. keeps_solve. Qed.

(** A user the secret knows is never created. *)
Lemma keeps_adopt name missing : is_Some (data_of sys0 !! name) -> keeps (holds ph) (adopt_user (W := W) name missing).
Proof.
  intros [pass Hp] s Hs. unfold adopt_user, getSys, getInt, gets. unfold mbind at 1 2, M_bind at 1 2.
  rewrite (ph_sys s Hs), Hp. destruct (has_key (uw_int s) name) eqn:Hk; [done|].
  unfold lift, mbind, M_bind. destruct (data_set name pass (make_data (uw_int s))) as [i|e|] eqn:E; [|done|done].
  unfold setInt, modify. simpl. unfold holds in *. simpl. eapply phase_mem; [exact Hs|..].
  all: assert (name <> u) as Hne by (intros ->; destruct Hs as (_ & _ & ? & p' & _ & Hi & _);
    unfold has_key in Hk; apply bool_decide_eq_false in Hk; rewrite Hi in Hk; by destruct Hk).
  all: apply (data_set_other u) in E as [E1 E2]; [|done].
  - rewrite E1. by destruct (uw_int s).
  - rewrite E2. by destruct (uw_int s).
Qed.

Lemma keeps_restart_for_pmm : keeps (holds ph) (restart_for_pmm (W := W) cr).
Proof. unfold restart_for_pmm, getInt. keeps_solve. Qed.
Lemma keeps_restart_for_sidecars : keeps (holds ph) (restart_for_sidecars (W := W) cr).
Proof. unfold restart_for_sidecars, getInt. keeps_solve. Qed.
Lemma keeps_need_propagated user : keeps (holds ph) (need_propagated (W := W) cr user).
Proof.
  unfold need_propagated. apply keeps_bind; [apply keeps_wrap, keeps_wkeeps, wkeeps_propagated|]. intros [|]; keeps_solve.
Qed.

(** The grants: statements without passwords, and annotations. *)
Lemma keeps_monitor_grants um : keeps (holds ph) (monitor_grants (W := W) cr um).
Proof.
  assert (forall m : M W unit, wkeeps ph m -> keeps (holds ph) (onU m)) as Hw by (intros; by apply keeps_wkeeps).
  assert (keeps (holds ph) (updateMonitorUserGrant (W := W) um)) as Hg1.
  { unfold updateMonitorUserGrant, getInt. apply keeps_bind; [apply keeps_gets|intros int]. destruct (annotation_done _ _); [apply keeps_ret|].
    apply keeps_bind; [|intros _; by apply keeps_annotate_internal]. apply keeps_wrap, Hw.
    unfold Update160MonitorUserGrant. repeat wkeeps_step; by apply wkeeps_plain. }
  assert (keeps (holds ph) (grantMonitorUserPrivilege (W := W) um)) as Hg2.
  { unfold grantMonitorUserPrivilege, getInt. apply keeps_bind; [apply keeps_gets|intros int]. destruct (annotation_done _ _); [apply keeps_ret|].
    apply keeps_bind; [|intros _; by apply keeps_annotate_internal]. apply keeps_wrap, Hw.
    unfold Update1100MonitorUserPrivilege. apply wkeeps_wrap. by apply wkeeps_plain. }
  unfold monitor_grants. apply keeps_bind; [apply keeps_lift|intros b1].
  apply keeps_bind; [destruct b1; [by apply keeps_wrap|apply keeps_ret]|intros []].
  apply keeps_bind; [apply keeps_lift|intros b2]. destruct (negb b2); [apply keeps_ret|].
  apply keeps_bind; [destruct (negb _); [apply keeps_ret|apply keeps_try, keeps_onU, ul_version]|].
  intros [e|v]; [destruct (errors_Is _ _); keeps_solve|]. destruct (bool_decide _); [apply keeps_ret|].
  apply keeps_bind; [apply keeps_lift|intros ver].
  apply keeps_bind; [destruct (negb _); [by apply keeps_wrap|apply keeps_ret]|intros []; apply keeps_ret].
Qed.

Lemma keeps_xtrabackup_grant : keeps (holds ph) (updateXtrabackupUserGrant (W := W) cr).
Proof.
  unfold updateXtrabackupUserGrant, getInt. apply keeps_bind; [apply keeps_gets|intros int].
  destruct (annotation_done _ _); [apply keeps_ret|]. apply keeps_bind; [apply keeps_lift|intros um].
  apply keeps_defer; [|apply keeps_onU, ul_Close].
  apply keeps_bind; [|intros _; by apply keeps_annotate_internal]. apply keeps_wrap, keeps_wkeeps.
  unfold Update1150XtrabackupUser. repeat wkeeps_step; by apply wkeeps_plain.
Qed.
End others.

(** Decomposes a handler of another user. *)
Ltac other_step :=
  lazymatch goal with
  | |- keeps _ (sys_user _ _ ≫= _) => apply keeps_sys_user
  | |- keeps _ (updateUserPassExpirationPolicy _ _) => apply keeps_expiration_policy
  | |- keeps _ (pass_state _ _) => apply keeps_pass_state
  | |- keeps _ (same_pass _) => apply keeps_same_pass
  | |- keeps _ (discardOldPassword _ _) => apply keeps_discard_other
  | |- keeps _ (updateUserPassWithRetention _ _) => apply keeps_retention_other
  | |- keeps _ (onU (updateMySQLInitFile _ _)) => apply keeps_wkeeps, wkeeps_init_file
  | |- keeps _ (onU (syncPXCUsersWithProxySQL _)) => apply keeps_wkeeps, wkeeps_sync
  | |- keeps _ (onU (Close _)) => apply keeps_onU, ul_Close
  | |- keeps _ (patch_internal _) => apply keeps_patch_other
  | |- keeps _ (act _) => apply keeps_act
  | |- keeps _ (updateProxyUser _ _) => apply keeps_updateProxyUser
  | |- keeps _ (restart_for_pmm _) => apply keeps_restart_for_pmm
  | |- keeps _ (restart_for_sidecars _) => apply keeps_restart_for_sidecars
  | |- keeps _ (need_propagated _ _) => apply keeps_need_propagated
  | |- keeps _ (monitor_grants _ _) => apply keeps_monitor_grants
  | |- keeps _ (updateXtrabackupUserGrant _) => apply keeps_xtrabackup_grant
  | |- keeps _ (adopt_user _ _) => apply keeps_adopt
  | |- keeps _ (add_key _ _ _) => apply keeps_add_key
  | |- keeps _ getInt => apply keeps_gets
  | |- keeps _ getSys => apply keeps_gets
  | |- keeps _ _ => keeps_step
  end.

Section other_handlers.
Context {W : Type} `{UsersLaws W} `{IniLib} `{HashLib} `{VersionLib}.
Variables (cr : PerconaXtraDBCluster) (u : string) (hosts : list string) (sys0 : Secret).
Context (R : string -> string -> Account -> Prop) `{!Exchanges R}.
Abbreviation ph := (phase R cr u hosts sys0).

(** The handler of another user that the secret knows keeps the phase of [u]. *)
Lemma keeps_handle_other name :
  name <> u -> u <> PMMServer -> u <> PMMServerKey -> u <> PMMServerToken ->
  is_Some (data_of sys0 !! name) -> keeps (holds ph) (handle_user (W := W) cr name).
Proof.
  intros Hn Hu1 Hu2 Hu3 Hk. unfold handle_user.
  case_bool_decide as E; [unfold handleRootUser; rewrite E in Hn; repeat other_step; done|clear E].
  case_bool_decide as E; [unfold handleOperatorUser, manageOperatorAdminUser; rewrite E in Hn, Hk; repeat other_step; done|clear E].
  case_bool_decide as E; [unfold handleMonitorUser, monitor_prepare, monitor_rotate; rewrite E in Hn; repeat other_step; done|clear E].
  case_bool_decide as E; [unfold handleXtrabackupUser; rewrite E in Hn; repeat other_step; done|clear E].
  case_bool_decide as E; [unfold handleReplicationUser, manageReplicationUser; rewrite E in Hn, Hk; repeat other_step; done|clear E].
  case_bool_decide as E; [unfold handleProxyadminUser; rewrite E in Hn; repeat other_step; done|clear E].
  case_bool_decide as E; [unfold handlePMMUser, restart_all; repeat other_step; try done; try (destruct (pmm_UseAPI _)); congruence|clear E].
  case_bool_decide as E; [unfold handlePMM3User, restart_all; repeat other_step; try done; congruence|clear E].
  apply keeps_ret.
Qed.
End other_handlers.

(** ** The handler of the user itself *)

Lemma triple_defer_keeps {S A} (P : S -> Prop) (m : M S A) d (R : A -> S -> Prop) (E : S -> Prop) :
  triple P m R E -> (forall a, keeps (R a) d) -> keeps E d -> triple P (with_defer m d) R E.
Proof.
  intros Hm Hd He s Hs. specialize (Hm s Hs). unfold with_defer. destruct (m s) as [s' r]. simpl in *.
  destruct r as [a|e|]; [specialize (Hd a s' Hm)|specialize (He s' Hm)..]; by destruct (d s').
Qed.

(** One step of a handler of [u] itself: a call that keeps the phase, the statement
    that sets the new password, or the patch that stores it. *)
Ltac own_keeps :=
  lazymatch goal with
  | |- keeps _ (wrap _ (discardOldPassword _ _)) => apply keeps_wrap, keeps_discard
  | |- _ => repeat other_step; try done; try typeclasses eauto
  end.
Ltac own_step :=
  lazymatch goal with
  | |- triple _ (match ?x with _ => _ end) _ _ => destruct x
  | |- triple _ (if ?b then _ else _) _ _ => destruct b
  | |- triple _ (mret _) _ _ => apply triple_ret; intros ? ?; done
  | |- triple (holds (settled ?cr _ _ ?sys)) (wrap _ (updateUserPassWithRetention _ ?user) ≫= _) _ _ =>
      eapply triple_seq; [apply triple_wrap, (retention_own cr user sys); done|intros ?]
  | |- triple (holds (between ?q ?cr ?u ?hosts ?sys)) (wrap _ (patch_internal _) ≫= _) _ _ =>
      eapply triple_seq; [apply triple_wrap, (patch_own cr (mkSysUser u q hosts) sys); done|intros ?]
  | |- triple (holds (between ?q ?cr ?u ?hosts ?sys)) (wrap _ (patch_internal _)) _ _ =>
      apply triple_wrap, (patch_own cr (mkSysUser u q hosts) sys); done
  | |- triple _ (_ ≫= _) _ _ =>
      apply triple_step; [own_keeps|intros ?; by (apply settled_loose || apply between_loose)|intros ?]
  | |- triple (holds (settled _ _ _ _)) _ _ _ =>
      apply triple_of_keeps; [|intros ?; apply settled_loose]
  | |- keeps _ (wrap _ (discardOldPassword _ _)) => apply keeps_wrap, keeps_discard
  | |- keeps _ (discardOldPassword _ _) => apply keeps_discard
  | |- keeps _ (act _) => apply keeps_act
  end.

Section own_handler.
Context {W : Type} `{UsersLaws W} `{IniLib} `{HashLib} `{VersionLib}.
Variables (cr : PerconaXtraDBCluster) (sys0 : Secret).

(** The users of the database, with the hosts of their accounts. *)
Definition db_users : list (string * list string) :=
  [(Root, ["localhost"; "%"]); (Operator, ["%"]); (Monitor, ["%"]); (Xtrabackup, ["%"]); (Replication, ["%"])].

Lemma own_sys_user u hosts {A} name hs (f : SysUser -> M (UW W) A) R E :
  triple (holds (settled cr u hosts sys0)) (f (mkSysUser name (data_get sys0 name) hs)) R E ->
  triple (holds (settled cr u hosts sys0)) (sys_user name hs ≫= f) R E.
Proof.
  intros Hf s Hs. unfold sys_user, getSys, gets, mbind, M_bind, mret, M_ret. rewrite (ph_sys _ _ _ _ _ s Hs). by apply Hf.
Qed.

Abbreviation own u hosts m :=
  (data_get sys0 u <> "" ->
   triple (holds (settled cr u hosts sys0)) m (fun _ : unit => holds (settled cr u hosts sys0)) (holds (loose cr u hosts sys0))).

Lemma own_root : own Root ["localhost"; "%"] (handleRootUser (W := W) cr).
Proof.
  intros Hp. assert (NoDup ["localhost"; "%"]) as Hnd by (apply (bool_decide_unpack _); vm_compute; exact I).
  unfold handleRootUser. apply own_sys_user. repeat own_step.
Qed.

Lemma data_get_some s k : data_get s k <> "" -> is_Some (data_of s !! k).
Proof. unfold data_get. by destruct (data_of s !! k). Qed.

Lemma own_operator : own Operator ["%"] (handleOperatorUser (W := W) cr).
Proof.
  intros Hp. pose proof (NoDup_singleton "%") as Hnd. pose proof (data_get_some _ _ Hp) as Hk.
  unfold handleOperatorUser, manageOperatorAdminUser. apply own_sys_user. repeat own_step.
Qed.

Lemma own_xtrabackup : own Xtrabackup ["%"] (handleXtrabackupUser (W := W) cr).
Proof.
  intros Hp. pose proof (NoDup_singleton "%") as Hnd. unfold handleXtrabackupUser. apply own_sys_user. repeat own_step.
Qed.

Lemma own_replication : own Replication ["%"] (handleReplicationUser (W := W) cr).
Proof.
  intros Hp. pose proof (NoDup_singleton "%") as Hnd. pose proof (data_get_some _ _ Hp) as Hk.
  unfold handleReplicationUser, manageReplicationUser. apply triple_step; [apply keeps_lift|intros ?; apply settled_loose|intros b].
  own_step; [own_step|]. apply own_sys_user. repeat own_step.
Qed.

Lemma own_monitor : own Monitor ["%"] (handleMonitorUser (W := W) cr).
Proof.
  intros Hp. pose proof (NoDup_singleton "%") as Hnd. unfold handleMonitorUser, monitor_prepare. apply own_sys_user.
  set (user := mkSysUser _ _ _).
  assert (triple (holds (settled cr Monitor ["%"] sys0)) (monitor_rotate cr user)
    (fun _ : unit => holds (settled cr Monitor ["%"] sys0)) (holds (loose cr Monitor ["%"] sys0))) as Hrot.
  { unfold monitor_rotate. repeat own_step. }
  own_step; [done|]. do 3 own_step. apply triple_defer_keeps; [|intros ?; apply keeps_onU, ul_Close|apply keeps_onU, ul_Close].
  own_step. own_step; [done|own_step].
Qed.

(** The handler of [u], in the loop: the monitor's round ends quietly while a pod
    still has the old password. *)
Lemma own_handle u hosts : (u, hosts) ∈ db_users -> data_get sys0 u <> "" ->
  triple (holds (settled cr u hosts sys0)) (handle_user (W := W) cr u)
    (fun _ : unit => holds (if bool_decide (u = Monitor) then loose cr u hosts sys0 else settled cr u hosts sys0))
    (holds (loose cr u hosts sys0)).
Proof.
  unfold db_users. intros Hin Hp. rewrite !elem_of_cons in Hin.
  destruct Hin as [[= -> ->]|[[= -> ->]|[[= -> ->]|[[= -> ->]|[[= -> ->]|Hin]]]]].
  - by apply own_root.
  - by apply own_operator.
  - change (handle_user cr Monitor) with (try (handleMonitorUser (W := W) cr) ≫= fun r => match r with
      | inr _ => mret tt
      | inl e => if errors_Is e PassNotPropagatedError then mret tt else fail e end).
    eapply triple_bind; [by apply triple_try_any, own_monitor|]. intros [e|[]].
    + destruct (errors_Is _ _); [by apply triple_ret|by apply triple_fail].
    + apply triple_ret. intros s. apply settled_loose.
  - by apply own_xtrabackup.
  - by apply own_replication.
  - by apply elem_of_nil in Hin.
Qed.
End own_handler.

(** ** The pass *)

(** A loop in which one element changes [P] to [Q] and the others keep both. *)
Lemma triple_for_each_at {S A} (P Q E : S -> Prop) (body : A -> M S unit) l1 x l2 :
  (forall y, y ∈ l1 -> keeps P (body y)) -> (forall y, y ∈ l2 -> keeps Q (body y)) ->
  triple P (body x) (fun _ => Q) E -> (forall s, P s -> E s) -> (forall s, Q s -> E s) ->
  triple P (for_each body (l1 ++ x :: l2)) (fun _ => Q) E.
Proof.
  intros H1 H2 Hx HP HQ. induction l1 as [|y l1 IH]; simpl.
  - eapply triple_seq; [exact Hx|intros _]. apply triple_of_keeps; [|done].
    clear -H2. induction l2 as [|y l2 IH]; simpl; [apply keeps_ret|].
    apply keeps_bind; [apply H2; by left|intros _]. apply IH. intros z Hz. apply H2. by right.
  - apply triple_step; [apply H1; by left|done|intros _]. apply IH. intros z Hz. apply H1. by right.
Qed.

Lemma db_user_names :
  Forall (fun q => q.1 ∈ UserNames /\ q.1 <> PMMServer /\ q.1 <> PMMServerKey /\ q.1 <> PMMServerToken) db_users.
Proof. apply (bool_decide_unpack _). vm_compute. exact I. Qed.

(** The round of a user comes once. *)
Lemma user_split u hosts : (u, hosts) ∈ db_users -> exists l1 l2, UserNames = l1 ++ (u :: l2) /\ (u ∉ l1) /\ (u ∉ l2).
Proof.
  intros Hu. pose proof (proj1 (Forall_forall _ _) db_user_names _ Hu) as [Hin _]. simpl in Hin.
  assert (NoDup UserNames) as Hnd by (apply (bool_decide_unpack _); vm_compute; exact I).
  apply list_elem_of_split in Hin as (l1 & l2 & Hl). rewrite Hl in Hnd. exists l1, l2.
  apply NoDup_app in Hnd as (_ & Hd & Hnd). apply NoDup_cons in Hnd as [Hnu _]. split_and!; [done| |done].
  intros Hin. apply (Hd _ Hin). by left.
Qed.

Section pass.
Context {W : Type} `{UsersLaws W} `{IniLib} `{HashLib} `{VersionLib}.
Variables (cr : PerconaXtraDBCluster) (sys0 : Secret).

Definition after_pass (u : string) (hosts : list string) : vpred :=
  if bool_decide (u = Monitor) then loose cr u hosts sys0 else settled cr u hosts sys0.

Lemma after_pass_loose u hosts v sys int : after_pass u hosts v sys int -> loose cr u hosts sys0 v sys int.
Proof. unfold after_pass. case_bool_decide; [done|apply settled_loose]. Qed.

Lemma known_other R `{!Exchanges R} u hosts name : name <> u -> (u, hosts) ∈ db_users ->
  keeps (holds (phase R cr u hosts sys0)) (for_known (handle_user (W := W) cr) name).
Proof.
  intros Hn Hu s Hs. unfold for_known, getSys, gets, mbind, M_bind. rewrite (ph_sys _ _ _ _ _ s Hs).
  destruct (has_key sys0 name) eqn:Hk; [|done]. unfold has_key in Hk. apply bool_decide_eq_true in Hk.
  assert (u <> PMMServer /\ u <> PMMServerKey /\ u <> PMMServerToken) as (? & ? & ?).
  { by pose proof (proj1 (Forall_forall _ _) db_user_names _ Hu) as [_ ?]. }
  by apply keeps_handle_other.
Qed.

Lemma users_pass u hosts : (u, hosts) ∈ db_users -> data_get sys0 u <> "" ->
  triple (holds (settled cr u hosts sys0)) (updateUsers (W := W) cr)
    (fun _ => holds (after_pass u hosts)) (holds (loose cr u hosts sys0)).
Proof.
  intros Hu Hp.
  destruct (user_split u hosts Hu) as (l1 & l2 & Hl & Hl1 & Hl2). unfold updateUsers. rewrite Hl.
  apply triple_for_each_at.
  - intros y Hy. apply known_other; [apply _| |done]. by intros ->.
  - intros y Hy. assert (y <> u) by (by intros ->). unfold after_pass. case_bool_decide; by apply known_other; [apply _|..].
  - unfold for_known, getSys. intros s Hs. unfold gets, mbind, M_bind. rewrite (ph_sys _ _ _ _ _ s Hs).
    unfold has_key. rewrite bool_decide_eq_true_2 by by apply data_get_some. by apply (own_handle cr sys0 u hosts).
  - intros s. apply settled_loose.
  - intros s. apply after_pass_loose.
Qed.
End pass.

(** ** A changed password is carried over *)

Section carried.
Context {W : Type} `{UsersLaws W} `{IniLib} `{HashLib} `{VersionLib}.
Variables (cr : PerconaXtraDBCluster) (sys0 : Secret) (u : string) (hosts : list string).
Hypothesis (Hready : too_early cr = false) (Hpass : data_get sys0 u <> "").
Hypothesis (Hnd : NoDup hosts) (Hne : hosts <> []).
Abbreviation q := (data_get sys0 u).
Abbreviation user := (mkSysUser u q hosts).
Abbreviation stale := (phase (is_stale q) cr u hosts sys0).
Abbreviation carried m :=
  (triple (holds stale) m (fun _ : unit => holds (phase (is_done q) cr u hosts sys0)) (fun _ => True)).

Lemma stale_pass_state {A} (f : bool * bool -> M (UW W) A) R E :
  (forall d, triple (holds stale) (f (false, d)) R E) -> (forall s, E s) ->
  triple (holds stale) (pass_state cr user ≫= f) R E.
Proof.
  intros Hf HE. unfold pass_state. apply triple_of_run. intros s s' r Hs Hrun.
  pose proof (keeps_isOldPasswordDiscarded cr stale user s Hs) as Hk.
  unfold mbind at 1 2, M_bind at 1 2 in Hrun. destruct (isOldPasswordDiscarded cr user s) as [s1 r1] eqn:E1. simpl in Hk.
  destruct r1 as [d|e|]; [|injection Hrun as <- <-; apply HE..].
  unfold same_pass, getSys, getInt, gets, mbind, M_bind, mret, M_ret in Hrun.
  pose proof Hk as (Hsys & _ & p & p' & _ & Hi & Ha). rewrite Hsys in Hrun. rewrite bool_decide_eq_false_2 in Hrun.
  - eapply (triple_run _ _ _ _ s1); [apply (Hf d)|done|exact Hrun].
  - destruct hosts as [|h hs]; [done|]. destruct (Ha h ltac:(by left)) as (acc & _ & [<- _] & Hpq).
    simpl. change (data_get (uw_int s1) u) with (default "" (data_of (uw_int s1) !! u)). rewrite Hi. simpl. congruence.
Qed.

Lemma stale_settled v sys int : stale v sys int -> settled cr u hosts sys0 v sys int.
Proof. apply phase_mono. by intros p p' acc [? _]. Qed.

Lemma stale_retention msg :
  triple (holds stale) (wrap msg (updateUserPassWithRetention (W := W) cr user))
    (fun _ => holds (between q cr u hosts sys0)) (fun _ => True).
Proof.
  apply triple_wrap. eapply triple_conseq; [by apply (retention_own cr user sys0)|intros s; apply stale_settled|done|done].
Qed.

Lemma stale_patch msg :
  triple (holds (between q cr u hosts sys0)) (wrap msg (patch_internal (W := W) u))
    (fun _ => holds (phase (is_new q) cr u hosts sys0)) (fun _ => True).
Proof. apply triple_wrap. eapply triple_post; [by apply (patch_own_new cr user sys0)|done|done]. Qed.

Lemma stale_discard msg :
  triple (holds (phase (is_new q) cr u hosts sys0)) (wrap msg (discardOldPassword (W := W) cr user))
    (fun _ => holds (phase (is_done q) cr u hosts sys0)) (fun _ => True).
Proof. apply triple_wrap, (discard_own cr user sys0); done. Qed.

Lemma stale_sys_user {A} hs (f : SysUser -> M (UW W) A) R E :
  triple (holds stale) (f (mkSysUser u q hs)) R E -> triple (holds stale) (sys_user u hs ≫= f) R E.
Proof.
  intros Hf s Hs. unfold sys_user, getSys, gets, mbind, M_bind, mret, M_ret. rewrite (ph_sys _ _ _ _ _ s Hs). by apply Hf.
Qed.
End carried.

Ltac carry_step :=
  lazymatch goal with
  | |- triple _ (wrap _ (updateUserPassWithRetention _ _) ≫= _) _ _ => eapply triple_seq; [by apply stale_retention|intros ?]
  | |- triple _ (wrap _ (patch_internal _) ≫= _) _ _ => eapply triple_seq; [by apply stale_patch|intros ?]
  | |- triple _ (wrap _ (discardOldPassword _ _) ≫= _) _ _ => eapply triple_seq; [by apply stale_discard|intros ?]
  | |- triple _ (wrap _ (discardOldPassword _ _)) _ _ => by apply stale_discard
  | |- triple _ (pass_state _ _ ≫= _) _ _ => apply stale_pass_state; [done|done|intros ?|done]
  | |- triple _ (_ ≫= _) _ _ => apply triple_step; [own_keeps|done|intros ?]
  | |- triple _ (act _) _ _ => apply triple_of_keeps; [apply keeps_act|done]
  end.

Section carried_handlers.
Context {W : Type} `{UsersLaws W} `{IniLib} `{HashLib} `{VersionLib}.
Variables (cr : PerconaXtraDBCluster) (sys0 : Secret).

Definition rotated_users : list (string * list string) :=
  [(Root, ["localhost"; "%"]); (Operator, ["%"]); (Xtrabackup, ["%"]); (Replication, ["%"])].

Lemma carried_handle u hosts : (u, hosts) ∈ rotated_users ->
  too_early cr = false -> data_get sys0 u <> "" -> (u = Replication -> at_least cr "1.9.0" = Ok true) ->
  triple (holds (phase (is_stale (data_get sys0 u)) cr u hosts sys0)) (handle_user (W := W) cr u)
    (fun _ : unit => holds (phase (is_done (data_get sys0 u)) cr u hosts sys0)) (fun _ => True).
Proof.
  intros Hu Hr Hp H19. pose proof (data_get_some _ _ Hp) as Hk. unfold rotated_users in Hu. rewrite !elem_of_cons in Hu.
  assert (NoDup ["localhost"; "%"]) as Hnd2 by (apply (bool_decide_unpack _); vm_compute; exact I).
  pose proof (NoDup_singleton "%") as Hnd.
  destruct Hu as [[= -> ->]|[[= -> ->]|[[= -> ->]|[[= -> ->]|Hu]]]].
  - change (handle_user cr Root) with (handleRootUser (W := W) cr). unfold handleRootUser. rewrite Hr.
    apply stale_sys_user. repeat carry_step.
  - change (handle_user cr Operator) with (handleOperatorUser (W := W) cr). unfold handleOperatorUser, manageOperatorAdminUser. rewrite Hr.
    apply stale_sys_user. repeat carry_step.
  - change (handle_user cr Xtrabackup) with (handleXtrabackupUser (W := W) cr). unfold handleXtrabackupUser. rewrite Hr.
    apply stale_sys_user. repeat carry_step.
  - change (handle_user cr Replication) with (handleReplicationUser (W := W) cr). unfold handleReplicationUser, manageReplicationUser. rewrite Hr, H19 by done.
    apply (triple_pre _ (holds (phase (is_stale (data_get sys0 Replication)) cr Replication ["%"] sys0))); [|done].
    eapply (triple_bind _ _ _ _ (fun b s => b = true /\ holds (phase (is_stale (data_get sys0 Replication)) cr Replication ["%"] sys0) s)).
    { apply triple_lift; [|done]. by intros s b Hs [= <-]. }
    intros b. apply triple_pure. intros ->. simpl. apply stale_sys_user. repeat carry_step.
  - by apply elem_of_nil in Hu.
Qed.
End carried_handlers.

(** ** The pass for a changed password *)

Section carried_pass.
Context {W : Type} `{UsersLaws W} `{IniLib} `{HashLib} `{VersionLib}.

Lemma rotated_db u hosts : (u, hosts) ∈ rotated_users -> (u, hosts) ∈ db_users.
Proof. unfold rotated_users, db_users. set_solver. Qed.
Lemma rotated_hosts u hosts : (u, hosts) ∈ rotated_users -> hosts <> [].
Proof. unfold rotated_users. set_solver. Qed.

Lemma carried_pass cr sys0 u hosts : (u, hosts) ∈ rotated_users ->
  too_early cr = false -> data_get sys0 u <> "" -> (u = Replication -> at_least cr "1.9.0" = Ok true) ->
  triple (holds (phase (is_stale (data_get sys0 u)) cr u hosts sys0)) (updateUsers (W := W) cr)
    (fun _ : unit => holds (phase (is_done (data_get sys0 u)) cr u hosts sys0)) (fun _ => True).
Proof.
  intros Hu Hr Hp H19. pose proof (rotated_db _ _ Hu) as Hdb. destruct (user_split u hosts Hdb) as (l1 & l2 & Hl & Hl1 & Hl2).
  unfold updateUsers. rewrite Hl. apply triple_for_each_at; try done.
  - intros y Hy. apply known_other; [apply _| |done]. by intros ->.
  - intros y Hy. apply known_other; [apply _| |done]. by intros ->.
  - intros s Hs. unfold for_known, getSys, gets, mbind, M_bind. rewrite (ph_sys _ _ _ _ _ s Hs).
    unfold has_key. rewrite bool_decide_eq_true_2 by by apply data_get_some. by apply (carried_handle cr sys0 u hosts).
Qed.
End carried_pass.

Section reconcile.
Context {W : Type} `{UsersLaws W} `{IniLib} `{HashLib} `{VersionLib}.

(** A run with an internal secret and a database that has dual passwords. *)
Lemma reconcileUsers_run cr secrets (w w' : W) r S :
  let v := app_Version (cs_PXC (cluster_Status cr)) in
  v <> "" -> 0 <= ver_compare v mysql80 -> v_secrets (users_view w) !! internal_key cr = Some S ->
  reconcileUsers cr secrets w = (w', r) ->
  users_view w' = users_view w /\ (forall out, r <> Ok out) \/
  exists w1 s r2, users_view w1 = users_view w /\ sec_key S = internal_key cr /\
    updateUsers cr (mkUW w1 secrets S no_actions) = (s, r2) /\ w' = uw_w s /\
    (forall out, r = Ok out -> r2 = Ok tt /\ out = Some (users_result cr (uw_sys s) (uw_act s))).
Proof.
  intros v Hv Hv8 HS Hrun. subst v. unfold reconcileUsers, mbind, M_bind, try in Hrun.
  destruct (sc_get _ w) as [w1 r1] eqn:E1. pose proof (ul_get_silent _ _ _ _ E1) as Hsil. destruct r1 as [int|e|].
  2:{ destruct (IsNotFound e) eqn:En; simpl in Hrun; [|injection Hrun as <- <-; by left].
      eapply ul_get_missing in E1; [|done]. unfold internal_key in HS. congruence. }
  2:{ injection Hrun as <- <-. by left. }
  rewrite bool_decide_eq_false_2 in Hrun by done. simpl in Hrun.
  unfold NewVersion in Hrun. destruct (ver_valid _); simpl in Hrun; [|injection Hrun as <- <-; by left].
  unfold wrap, run_handlers in Hrun. rewrite bool_decide_eq_true_2 in Hrun by done.
  apply ul_get in E1 as [HS' Hkey]. assert (int = S) as -> by (unfold internal_key in HS; congruence).
  destruct (updateUsers cr _) as [s r2] eqn:E2. right. exists w1, s, r2.
  destruct r2 as [[]|e|]; simpl in Hrun; injection Hrun as <- <-; split_and!; try done. by intros out [= <-].
Qed.


End reconcile.
