(* ===== verification/CollectorPod.v ===== *)
(** * The pod of the binlog collector: [pkg/pxc/app/binlogcollector]

    The operator finds the collector's pod by its labels and removes the files
    the collector leaves there by running commands in it. *)

From S2P Require Import Prelude GoStrings ApiTypes Naming.

(** Listing the pods (name and phase) and running a command; what the last
    command wrote to its standard error can be read afterwards. *)
Class CollectorPodEnv (W : Type) := {
  cp_listPods : PerconaXtraDBCluster -> M W (list (string * string));
  cp_exec : string -> string -> M W string;
  cp_stderr : W -> string }.

Section pod.
Context {W : Type} `{CollectorPodEnv W}.

(** [binlogcollector.GetPod]: name and phase of the first pod. *)
Definition GetPod (cr : PerconaXtraDBCluster) : M W (string * string) :=
  pods ← wrap "get binlog collector pods" (cp_listPods cr);
  match pods with
  | [] => fail (ErrNew "no binlog collector pods")
  | p :: _ => mret p
  end.

Definition RemoveGapFile (pod : string) : M W unit :=
  r ← try (cp_exec pod ("rm " +:+ GapDetected));
  match r with
  | inr _ => mret tt
  | inl e =>
      stderr ← gets cp_stderr;
      if Contains stderr "No such file or directory" then fail GapFileNotFound
      else fail (ErrWrap ("delete gap file in collector pod " +:+ pod) e)
  end.

Definition RemoveTimelineFile (pod : string) : M W unit :=
  r ← try (cp_exec pod "rm /tmp/pitr-timeline");
  match r with
  | inr _ => mret tt
  | inl e =>
      stderr ← gets cp_stderr;
      if Contains stderr "No such file or directory" then mret tt
      else fail (ErrWrap ("delete timeline file in collector pod " +:+ pod) e)
  end.
End pod.
