(* ===== verification/RestoreTypes.v ===== *)
(** * Restores as objects: [pkg/apis/pxc/v1/pxc_prestore_types.go]

    The restore object with its states, the names of its jobs, and how the
    controller of clusters asks whether a restore is running. *)

From S2P Require Import Prelude GoStrings ApiTypes KubeApi.

Inductive RestoreState :=
| RestoreNew | RestoreStarting | RestoreStopCluster | RestoreRestore | RestoreStartCluster | RestorePITR
| RestorePrepareCluster | RestoreFailed | RestoreSucceeded | RestoreUnknown (s : string).

#[export] Instance RestoreState_eq_dec : EqDecision RestoreState.
Proof. solve_decision. Defined.

Definition RestoreState_string (s : RestoreState) : string :=
  match s with
  | RestoreNew => "" | RestoreStarting => "Starting" | RestoreStopCluster => "Stopping Cluster"
  | RestoreRestore => "Restoring" | RestoreStartCluster => "Starting Cluster"
  | RestorePITR => "Point-in-time recovering" | RestorePrepareCluster => "Preparing Cluster"
  | RestoreFailed => "Failed" | RestoreSucceeded => "Succeeded" | RestoreUnknown s => s
  end.

Definition BackupState_string (s : PXCBackupState) : string :=
  match s with
  | BackupNew => "" | BackupSuspended => "Suspended" | BackupStarting => "Starting"
  | BackupRunning => "Running" | BackupFailed => "Failed" | BackupSucceeded => "Succeeded"
  end.

Record PITR := mkRestorePITR {
  rp_BackupSource : option PXCBackupStatus;
  rp_Type : string;
  rp_Date : string;
  rp_GTID : string }.

Record RestoreSpec := mkRestoreSpec {
  rsp_PXCCluster : string;
  rsp_BackupName : string;
  rsp_BackupSource : option PXCBackupStatus;
  rsp_PITR : option PITR;
  rsp_Resources : ResourceRequirements;
  rsp_ContainerOptions : option BackupContainerOptions }.

Record RestoreStatus := mkRestoreStatus {
  rst_State : RestoreState;
  rst_Comments : string;
  rst_CompletedAt : option Z;
  rst_LastScheduled : option Z;
  rst_PXCSize : Z;
  rst_HAProxySize : Z;
  rst_ProxySQLSize : Z;
  rst_Unsafe : UnsafeFlags }.

Record Restore := mkRestore {
  re_Meta : ObjectMeta;
  re_Spec : RestoreSpec;
  re_Status : RestoreStatus }.

Definition re_key (cr : Restore) : NamespacedName := meta_key (re_Meta cr).

Definition AnnotationUnsafePITR : string := "percona.com/unsafe-pitr".

(** [CheckNsetDefaults] *)
Definition restore_CheckNsetDefaults (cr : Restore) : res unit :=
  let s := re_Spec cr in
  if bool_decide (rsp_PXCCluster s = "") then Err (ErrNew "pxcCluster can't be empty") else
  if match rsp_PITR s ≫= rp_BackupSource with
     | Some b => bool_decide (bst_StorageName b = "") && bool_decide (bst_S3 b = None) && bool_decide (bst_Azure b = None)
     | None => false
     end
  then Err (ErrNew "PITR.BackupSource.StorageName, PITR.BackupSource.S3 and PITR.BackupSource.Azure can't be empty simultaneously")
  else if bool_decide (rsp_BackupName s = "") && bool_decide (rsp_BackupSource s = None)
  then Err (ErrNew "backupName and BackupSource can't be empty simultaneously")
  else if negb (bool_decide (rsp_BackupName s = "")) && negb (bool_decide (rsp_BackupSource s = None))
  then Err (ErrNew "backupName and BackupSource can't be specified simultaneously")
  else Ok tt.

(** [pkg/naming/restore.go] *)
Definition PrepareJobName (cr : Restore) : string :=
  "prepare-job-" +:+ meta_Name (re_Meta cr) +:+ "-" +:+ rsp_PXCCluster (re_Spec cr).
Definition RestoreJobName (cr : Restore) (pitr : bool) : string :=
  (if pitr then "pitr-job-" else "restore-job-") +:+ meta_Name (re_Meta cr) +:+ "-" +:+ rsp_PXCCluster (re_Spec cr).

Definition unfinished (st : RestoreState) : bool :=
  negb (bool_decide (st = RestoreFailed)) && negb (bool_decide (st = RestoreSucceeded)).

(** ** Running restores ([pkg/controller/pxc/upgrade.go]) *)

(** The states that count as a running restore. *)
Definition restore_running (st : RestoreState) : bool :=
  match st with
  | RestoreStopCluster | RestoreRestore | RestoreStartCluster | RestorePITR => true
  | _ => false
  end.

Definition isRestoreRunning {W} (listRestores : string -> M W (list Restore)) (clusterName namespace : string) : M W bool :=
  l ← wrap "failed to get restore list" (listRestores namespace);
  mret (bool_decide (Exists (fun r => rsp_PXCCluster (re_Spec r) = clusterName /\
          restore_running (rst_State (re_Status r)) = true) l)).
