(* ===== verification/ClusterStatus.v ===== *)
(** * The cluster status: [pkg/controller/pxc/status.go]

    [updateStatus] computes the status of the cluster object from the pods and
    stateful sets of its applications, and keeps the list of conditions, a
    history of the states the cluster went through. *)

From S2P Require Import Prelude GoStrings ApiTypes KubeApi Naming.

(** ** The status object ([pkg/apis/pxc/v1/pxc_types.go]) *)

Definition maxStatusesQuantity : nat := 20.

Definition ClusterStatus (s : PerconaXtraDBClusterStatus) (inProgress deleted : bool) : AppState :=
  let pxc := app_Status (cs_PXC s) in
  let psql := app_Status (cs_ProxySQL s) in
  let ha := app_Status (cs_HAProxy s) in
  if deleted || bool_decide (pxc = AppStateStopping) || bool_decide (psql = AppStateStopping) ||
     bool_decide (ha = AppStateStopping) then AppStateStopping
  else if bool_decide (pxc = AppStatePaused) ||
          (negb inProgress && bool_decide (pxc = AppStateReady) && negb (bool_decide (cs_Host s = "")))
  then
    if negb (bool_decide (ha = AppStateUnset)) && negb (bool_decide (ha = pxc)) then ha
    else if negb (bool_decide (psql = AppStateUnset)) && negb (bool_decide (psql = pxc)) then psql
    else pxc
  else AppStateInit.

Definition add_condition (c : ClusterCondition) (conds : list ClusterCondition) :
    list ClusterCondition :=
  match last conds with
  | None => [c]
  | Some l =>
      let conds := if bool_decide (cond_Type l = cond_Type c) then conds else conds ++ [c] in
      if bool_decide (maxStatusesQuantity < length conds)%nat
      then drop (length conds - maxStatusesQuantity) conds else conds
  end.

Definition AddCondition (c : ClusterCondition) (s : PerconaXtraDBClusterStatus) :
    PerconaXtraDBClusterStatus := s <| cs_Conditions ::= add_condition c |>.

Definition FindCondition (t : AppState) (s : PerconaXtraDBClusterStatus) : option ClusterCondition :=
  snd <$> list_find (fun c => cond_Type c = t) (cs_Conditions s).

(** ** Pods and stateful sets *)

Inductive PodConditionType := ContainersReady | PodScheduled | PodConditionOther.
Record PodCondition := mkPodCondition {
  pc_Type : PodConditionType;
  pc_True : bool;
  pc_Reason : string;
  pc_Message : string;
  pc_LastTransitionTime : Z }.

(** [corev1.Pod]; of a container's state only the waiting message is kept. *)
Record Pod := mkPod {
  pd_Name : string;
  pd_Labels : gmap string string;
  pd_Containers : list (string * option string);
  pd_Conditions : list PodCondition }.

Record StatefulSetStatus := mkSts {
  sts_Replicas : Z; sts_UpdatedReplicas : Z; sts_UpdateRevision : string }.

(** [api.StatefulApp], as far as the status uses it. *)
Record StatefulApp := mkApp {
  sa_Name : string;
  sa_Labels : gmap string string;
  sa_Service : string }.

Definition new_app (cr : PerconaXtraDBCluster) (name service : string) : StatefulApp :=
  mkApp name (componentLabels cr name) (cluster_Name cr +:+ "-" +:+ service).
Definition NewNode (cr : PerconaXtraDBCluster) : StatefulApp := new_app cr "pxc" "pxc".
Definition NewHAProxy (cr : PerconaXtraDBCluster) : StatefulApp := new_app cr "haproxy" "haproxy".
Definition NewProxy (cr : PerconaXtraDBCluster) : StatefulApp := new_app cr "proxysql" "proxysql-unready".

Definition isPXC (app : StatefulApp) : bool :=
  bool_decide (sa_Labels app !! "app.kubernetes.io/component" = Some "pxc").

Definition PodReasonUnschedulable : string := "Unschedulable".
Definition minute : Z := 60 * 1000000000.
Definition ServiceTypeLoadBalancer : string := "LoadBalancer".

(** Reads of the API server and of pod logs, and the status write. *)
Class StatusEnv (W : Type) := {
  sx_listPods : string -> gmap string string -> M W (list Pod);
  sx_getSts : NamespacedName -> M W StatefulSetStatus;
  sx_podLogs : string -> string -> M W (list string);
  sx_ingress : NamespacedName -> M W (list (string * string));
  sx_getCluster : NamespacedName -> M W PerconaXtraDBCluster;
  sx_statusUpdate : PerconaXtraDBCluster -> M W unit;
  sx_selector : gmap string string -> string;
  sx_now : W -> Z }.

(** ** Waiting for crash recovery ([full_crash_recovery.go]) *)

Definition logPrefix : string := "#####################################################LAST_LINE".

Definition parseSequence (log : string) : res Z :=
  match Split log ":" with
  | [_; _; x; _] => wrap_res ("parse sequence " +:+ x) (ParseInt64 x)
  | _ => Err (ErrNew ("invalid log format. Log: " +:+ log))
  end.

(** The last log line with the prefix decides. *)
Definition last_marker (logLines : list string) : option string :=
  last (filter (fun l => HasPrefix l logPrefix = true) logLines).

Section status.
Context {W : Type} `{StatusEnv W} `{RetryLib} `{VersionLib}.

Definition isPodWaitingForRecovery (ns podName : string) : M W (bool * Z) :=
  logLines ← wrap ("get logs from " +:+ podName +:+ " pod") (sx_podLogs ns podName);
  match last_marker logLines with
  | None => mret (false, -1)
  | Some l => seq ← lift (parseSequence l); mret (true, seq)
  end.

(** ** [appStatus] *)

(** One condition of a pod: the ready count and the message so far. *)
Definition pod_condition (app : StatefulApp) (ns : string) (crLt170 : bool) (rev : string)
    (pod : Pod) (st : AppStatus) (c : PodCondition) : M W AppStatus :=
  match pc_Type c with
  | ContainersReady =>
      if negb (pc_True c) then mret st
      else if negb (isPXC app) || crLt170 then mret (st <| app_Ready ::= Z.add 1 |>)
      else
        waiting ← wrap ("parse " +:+ pd_Name pod +:+ " pod logs") (isPodWaitingForRecovery ns (pd_Name pod));
        mret (if negb waiting.1 &&
                 bool_decide (default "" (pd_Labels pod !! "controller-revision-hash") = rev)
              then st <| app_Ready ::= Z.add 1 |> else st)
  | PodScheduled =>
      now ← gets sx_now;
      mret (if bool_decide (pc_Reason c = PodReasonUnschedulable) &&
               bool_decide (pc_LastTransitionTime c < now - minute)
            then st <| app_Message := pc_Message c |> else st)
  | PodConditionOther => mret st
  end.

Fixpoint foldM {A S} (f : S -> A -> M W S) (s : S) (l : list A) : M W S :=
  match l with
  | [] => mret s
  | x :: l' => s' ← f s x; foldM f s' l'
  end.

Definition waiting_messages (pod : Pod) : string :=
  foldr String.append "" ((fun c => match c.2 with
    | Some m => if bool_decide (m = "") then "" else c.1 +:+ ": " +:+ m +:+ "; "
    | None => ""
    end) <$> pd_Containers pod).

Definition pod_status (app : StatefulApp) (ns : string) (crLt170 : bool) (rev : string)
    (st : AppStatus) (pod : Pod) : M W AppStatus :=
  foldM (pod_condition app ns crLt170 rev pod)
    (st <| app_Message ::= fun m => m +:+ waiting_messages pod |>) (pd_Conditions pod).

(** The final switch. *)
Definition app_state (paused : bool) (st : AppStatus) : AppState :=
  if paused && bool_decide (0 < app_Ready st) then AppStateStopping
  else if paused then AppStatePaused
  else if bool_decide (app_Size st = app_Ready st) then AppStateReady
  else app_Status st.

Definition appStatus (cr : PerconaXtraDBCluster) (app : StatefulApp) (podSpec : PodSpec)
    (crLt170 paused : bool) : M W AppStatus :=
  let ns := cluster_Namespace cr in
  pods ← wrap "get pod list" (sx_listPods ns (sa_Labels app));
  r ← try (sx_getSts (mkNN ns (cluster_Name cr +:+ "-" +:+ sa_Name app)));
  sts ← match r with
        | inr s => mret s
        | inl e => if IsNotFound e then mret (mkSts 0 0 "") else fail (ErrWrap "get statefulset" e)
        end;
  st ← foldM (pod_status app ns crLt170 (sts_UpdateRevision sts))
         (mkAppStatus AppStateInit "" "" "" (sx_selector (sa_Labels app)) (pod_Size podSpec) 0) pods;
  mret (st <| app_Status := app_state paused st |>).

Definition appHost (cr : PerconaXtraDBCluster) (app : StatefulApp) (expose : ServiceExpose) :
    M W string :=
  let svcName := if bool_decide (sa_Name app = "proxysql")
                 then cluster_Name cr +:+ "-proxysql" else sa_Service app in
  if negb (bool_decide (exp_Type expose = ServiceTypeLoadBalancer))
  then mret (svcName +:+ "." +:+ cluster_Namespace cr)
  else
    ingress ← wrap ("get " +:+ sa_Name app +:+ " service")
      (sx_ingress (mkNN (cluster_Namespace cr) svcName));
    mret (match last ingress with
          | Some (ip, hostname) => if bool_decide (hostname = "") then ip else hostname
          | None => ""
          end).

Definition upgradeInProgress (cr : PerconaXtraDBCluster) (appName : string) : M W bool :=
  r ← try (sx_getSts (mkNN (cluster_Namespace cr) (cluster_Name cr +:+ "-" +:+ appName)));
  match r with
  | inr s => mret (bool_decide (sts_UpdatedReplicas s < sts_Replicas s))
  | inl e => if IsNotFound e then mret false else fail e
  end.

(** ** [writeStatus] *)

Definition writeStatus (cr : PerconaXtraDBCluster) : M W unit :=
  let key := meta_key (cluster_Meta cr) in
  r ← try (retry_on_conflict (c ← sx_getCluster key;
                              sx_statusUpdate (c <| cluster_Status := cluster_Status cr |>)));
  _ ← retry_on_error (
        c ← sx_getCluster key;
        if bool_decide (cs_Conditions (cluster_Status c) = cs_Conditions (cluster_Status cr))
        then mret tt else fail (ErrNew "conditions are not equal"));
  match r with
  | inr _ => mret tt
  | inl e => if IsNotFound e then mret tt else fail (ErrWrap "write status" e)
  end.

(** ** [updateStatus] *)

(** An application with the field of the status it fills. *)
Record AppEntry := mkEntry {
  ae_app : StatefulApp;
  ae_get : PerconaXtraDBClusterStatus -> AppStatus;
  ae_set : AppStatus -> PerconaXtraDBClusterStatus -> PerconaXtraDBClusterStatus;
  ae_spec : PodSpec;
  ae_expose : ServiceExpose }.

Definition apps (cr : PerconaXtraDBCluster) (pxc : PXCSpec) : list AppEntry :=
  let s := cluster_Spec cr in
  mkEntry (NewNode cr) cs_PXC (fun a st => st <| cs_PXC := a |>) (pxc_PodSpec pxc) (pxc_Expose pxc) ::
  (match spec_HAProxy s with
   | Some h => if pod_Enabled (ha_PodSpec h)
               then [mkEntry (NewHAProxy cr) cs_HAProxy (fun a st => st <| cs_HAProxy := a |>)
                       (ha_PodSpec h) (ha_ExposePrimary h)] else []
   | None => []
   end) ++
  (match spec_ProxySQL s with
   | Some p => if pod_Enabled (ps_PodSpec p)
               then [mkEntry (NewProxy cr) cs_ProxySQL (fun a st => st <| cs_ProxySQL := a |>)
                       (ps_PodSpec p) (ps_Expose p)] else []
   | None => []
   end).

Definition empty_app (version : string) : AppStatus := mkAppStatus AppStateUnset "" version "" "" 0 0.

(** The version and the image are carried over; the ready count can be greater
    than the size during a downscale. *)
Definition fill_status (old status : AppStatus) : AppStatus :=
  let status := status <| app_Version := app_Version old |> <| app_Image := app_Image old |> in
  if bool_decide (app_Size status < app_Ready status)
  then status <| app_Ready := app_Size status |> else status.

(** The application's status, the host, the message and the totals. *)
Definition put_app (a : AppEntry) (status : AppStatus) (host : string)
    (st : PerconaXtraDBClusterStatus) : PerconaXtraDBClusterStatus :=
  let st := (ae_set a status st) <| cs_Host := host |> in
  let st := if bool_decide (app_Message status = "") then st
            else st <| cs_Messages ::= fun l => l ++ [sa_Name (ae_app a) +:+ ": " +:+ app_Message status] |> in
  st <| cs_Size ::= Z.add (app_Size status) |> <| cs_Ready ::= Z.add (app_Ready status) |>.

(** One turn of the loop over the applications. *)
Definition app_turn (cr : PerconaXtraDBCluster) (acc : PerconaXtraDBClusterStatus * bool)
    (a : AppEntry) : M W (PerconaXtraDBClusterStatus * bool) :=
  let '(st, inProgress) := acc in
  let name := sa_Name (ae_app a) in
  c ← lift (CompareVersionWith cr "1.7.0");
  status ← wrap ("get " +:+ name +:+ " status")
    (appStatus cr (ae_app a) (ae_spec a) (bool_decide (c = -1)) (spec_Pause (cluster_Spec cr)));
  host ← wrap ("get " +:+ name +:+ " host") (appHost cr (ae_app a) (ae_expose a));
  inProgress ← (if inProgress : bool then mret true
                else wrap ("check " +:+ name +:+ " upgrade progress") (upgradeInProgress cr name));
  mret (put_app a (fill_status (ae_get a st) status) host st, inProgress).

(** The status before the loop. *)
Definition reset_status (st : PerconaXtraDBClusterStatus) : PerconaXtraDBClusterStatus :=
  st <| cs_Messages := [] |>
     <| cs_HAProxy := empty_app (app_Version (cs_HAProxy st)) |>
     <| cs_ProxySQL := empty_app (app_Version (cs_ProxySQL st)) |>
     <| cs_Size := 0 |> <| cs_Ready := 0 |>.

Definition truncate_second (t : Z) : Z := t / 1000000000 * 1000000000.

(** The status of a cluster whose reconciliation failed. *)
Definition error_status (now : Z) (e : error) (st : PerconaXtraDBClusterStatus) :
    PerconaXtraDBClusterStatus :=
  if bool_decide (cs_Status st = AppStateError) then st
  else (AddCondition (mkCondition "True" AppStateError now "ErrorReconcile" (Error e)) st)
         <| cs_Messages ::= fun l => l ++ ["Error: " +:+ Error e] |>
         <| cs_Status := AppStateError |>.

(** [updateStatus]: the object it leaves in memory comes back with the result
    of the write. *)
Definition updateStatus (cr : PerconaXtraDBCluster) (inProgress : bool) (reconcileErr : option error) :
    M W PerconaXtraDBCluster :=
  now ← gets (truncate_second ∘ sx_now);
  match reconcileErr with
  | Some e =>
      let cr := cr <| cluster_Status ::= error_status now e |> in
      _ ← writeStatus cr; mret cr
  | None =>
      if PVCResizeInProgress cr then
        let cr := cr <| cluster_Status -> cs_Status := AppStateInit |> in
        _ ← writeStatus cr; mret cr
      else
        pxc ← lift (deref (spec_PXC (cluster_Spec cr)));
        acc ← foldM (app_turn cr) (reset_status (cluster_Status cr), inProgress) (apps cr pxc);
        let '(st, inProgress) := acc in
        let state := ClusterStatus st inProgress
                       (negb (bool_decide (meta_DeletionTimestamp (cluster_Meta cr) = None))) in
        let st := st <| cs_Status := state |> in
        let st := AddCondition (mkCondition "True" state now "" "") st in
        let cr := cr <| cluster_Status := st <| cs_ObservedGeneration := meta_Generation (cluster_Meta cr) |> |> in
        _ ← writeStatus cr; mret cr
  end.
End status.
