(* ===== verification/ClusterStatusSpec.v ===== *)
(** * What the cluster status says

    The condition history is bounded and records changes only; a cluster
    reported ready is ready. *)

From S2P Require Import Prelude GoStrings ApiTypes KubeApi Naming ClusterStatus.

(** ** The condition history *)

(** No two neighbours have one type. *)
Inductive alternates : list ClusterCondition -> Prop :=
| alt_nil : alternates []
| alt_one c : alternates [c]
| alt_cons c d l : cond_Type c <> cond_Type d -> alternates (d :: l) -> alternates (c :: d :: l).

Definition history_ok (l : list ClusterCondition) : Prop :=
  (length l ≤ maxStatusesQuantity)%nat /\ alternates l.

Lemma alternates_tail c l : alternates (c :: l) -> alternates l.
Proof. inversion 1; [constructor|done]. Qed.

Lemma alternates_drop n l : alternates l -> alternates (drop n l).
Proof.
  revert l. induction n as [|n IH]; intros [|c l]; simpl; try done. intros Hl.
  by apply IH, (alternates_tail c).
Qed.

Lemma alternates_snoc l c d :
  last l = Some d -> cond_Type d <> cond_Type c -> alternates l -> alternates (l ++ [c]).
Proof.
  induction l as [|x l IH]; [done|]. intros Hl Hne Ha. destruct l as [|y l]; simpl in *.
  - injection Hl as ->. constructor; [done|constructor].
  - inversion Ha; subst. constructor; [done|]. by apply IH.
Qed.

Lemma add_condition_last c l :
  exists d, last (add_condition c l) = Some d /\ cond_Type d = cond_Type c.
Proof.
  unfold add_condition. destruct (last l) as [d|] eqn:El; [|by exists c].
  assert (exists d', last (if bool_decide (cond_Type d = cond_Type c) then l else l ++ [c]) = Some d' /\
            cond_Type d' = cond_Type c) as (d' & Hd & Ht).
  { case_bool_decide; [by exists d|]. exists c. by rewrite last_snoc. }
  exists d'. split; [|done]. revert Hd. generalize (if bool_decide (cond_Type d = cond_Type c) then l else l ++ [c]).
  intros l' Hd. case_bool_decide as Hl; [|done]. rewrite last_drop; [done|]. unfold maxStatusesQuantity in *. lia.
Qed.

(** The condition history.  Adding a condition keeps the history at 20
    entries at most with no two neighbours of one type; afterwards the newest
    entry has the type that was added; and what is dropped is dropped from the
    oldest end. *)
Theorem add_condition_history c l :
  history_ok l ->
  history_ok (add_condition c l) /\
  (exists d, last (add_condition c l) = Some d /\ cond_Type d = cond_Type c) /\
  (exists dropped, l ++ [c] = dropped ++ add_condition c l \/ l = dropped ++ add_condition c l).
Proof.
  intros [Hn Ha]. unfold add_condition. destruct (last l) as [d|] eqn:El.
  2: { apply last_None in El as ->. split; [by split; [unfold maxStatusesQuantity; simpl; lia|constructor]|].
       split; [by exists c|]. exists []. by left. }
  destruct (decide (cond_Type d = cond_Type c)) as [Ht|Ht];
    [rewrite (bool_decide_eq_true_2 (_ = cond_Type c)) by done
    |rewrite (bool_decide_eq_false_2 (_ = cond_Type c)) by done].
  - rewrite (bool_decide_eq_false_2 (maxStatusesQuantity < length l)%nat) by lia.
    split; [done|]. split; [by exists d|]. exists []. by right.
  - rewrite length_app. simpl. pose proof (alternates_snoc l c d El Ht Ha) as Ha'.
    case_bool_decide as Hl.
    + assert (length l = 20)%nat as H20 by (unfold maxStatusesQuantity in *; lia).
      rewrite H20. split; [split|split].
      * rewrite length_drop, length_app, H20. unfold maxStatusesQuantity. simpl. lia.
      * by apply alternates_drop.
      * exists c. rewrite last_drop by (rewrite length_app; simpl; lia). by rewrite last_snoc.
      * exists (take 1 (l ++ [c])). left. by rewrite take_drop.
    + split; [split; [rewrite length_app; simpl; lia|done]|].
      split; [exists c; by rewrite last_snoc|]. exists []. by left.
Qed.

Lemma add_condition_history_witness :
  let c t := mkCondition "True" t 0 "" "" in
  add_condition (c AppStateReady) [c AppStateInit] = [c AppStateInit; c AppStateReady] /\
  history_ok (add_condition (c AppStateReady) [c AppStateInit]).
Proof.
  split; [vm_compute; reflexivity|].
  apply (add_condition_history (mkCondition "True" AppStateReady 0 "" "") [mkCondition "True" AppStateInit 0 "" ""]).
  split; [simpl; unfold maxStatusesQuantity; lia|apply alt_one].
Defined.

(** ** Ready means ready *)

Section ready.
Context {W : Type} `{StatusEnv W} `{RetryLib} `{VersionLib}.

Lemma foldM_inv {A S} (J : S -> Prop) (f : S -> A -> M W S) l s w w' s' :
  (forall s x w w' s', x ∈ l -> J s -> f s x w = (w', Ok s') -> J s') ->
  foldM f s l w = (w', Ok s') -> J s -> J s'.
Proof.
  revert s w. induction l as [|x l IH]; intros s w Hf; simpl.
  { unfold mret, M_ret. by intros [= <- <-]. }
  intros E Hs. go_inv. eapply IH; [|exact Hk|].
  - intros s1 y ? ? ? Hy. apply Hf. by right.
  - eapply Hf; [by left|exact Hs|exact Hm].
Qed.

Lemma pod_condition_keeps app ns old rev pod st c w w' st' :
  pod_condition app ns old rev pod st c w = (w', Ok st') ->
  app_Size st' = app_Size st /\ app_Status st' = app_Status st /\ app_Ready st ≤ app_Ready st'.
Proof.
  unfold pod_condition. destruct (pc_Type c); [| |by unfold mret, M_ret; intros [= <- <-]].
  - destruct (pc_True c); simpl; [|by unfold mret, M_ret; intros [= <- <-]].
    destruct (negb (isPXC app) || old).
    { unfold mret, M_ret. intros [= <- <-]. record.simp. split_and!; [done..|lia]. }
    intros E. go_inv. case_match; try record.simp; split_and!; try done; lia.
  - intros E. go_inv. case_match; try record.simp; split_and!; try done; lia.
Qed.

(** The state of an application: stopping or paused if and only if the
    cluster is paused; ready exactly when as many pods are ready as asked for. *)
Lemma appStatus_state cr app spec old paused w w' st :
  appStatus cr app spec old paused w = (w', Ok st) ->
  app_Size st = pod_Size spec /\ 0 ≤ app_Ready st /\
  app_Status st = if paused then (if bool_decide (0 < app_Ready st) then AppStateStopping else AppStatePaused)
                  else if bool_decide (app_Ready st = pod_Size spec) then AppStateReady else AppStateInit.
Proof.
  unfold appStatus. intros E. go_inv. try record.simp.
  match goal with Hf : foldM _ _ _ _ = (_, Ok ?x) |- _ => rename x into st0; rename Hf into Hfold end.
  assert (app_Size st0 = pod_Size spec /\ app_Status st0 = AppStateInit /\ 0 ≤ app_Ready st0) as (Hs & Hst & Hr).
  { eapply (foldM_inv (fun s => app_Size s = pod_Size spec /\ app_Status s = AppStateInit /\ 0 ≤ app_Ready s));
      [|exact Hfold|split_and!; simpl; done].
    intros s pod ? ? s2 _ (H1' & H2' & H3') Hp. unfold pod_status in Hp.
    eapply (foldM_inv (fun s => app_Size s = pod_Size spec /\ app_Status s = AppStateInit /\ 0 ≤ app_Ready s));
      [|exact Hp|by try record.simp].
    intros s3 c ? ? s4 _ (H4' & H5' & H6') Hc. apply pod_condition_keeps in Hc as (-> & -> & ?).
    split_and!; [done..|lia]. }
  destruct st0 as [st1 msg ver img sel size ready]. unfold app_state. simpl in *. subst.
  split; [done|]. split; [done|]. unfold apply_update, constant. simpl.
  destruct paused; simpl; [done|].
  destruct (decide (ready = pod_Size spec)) as [E|E].
  - by rewrite !bool_decide_eq_true_2 by congruence.
  - rewrite !bool_decide_eq_false_2 by congruence. done.
Qed.

(** What the loop leaves in an application's field. *)
Definition app_ok (paused : bool) (a : AppStatus) : Prop :=
  app_Ready a ≤ app_Size a /\
  (app_Status a = AppStateReady -> paused = false /\ app_Ready a = app_Size a) /\
  (app_Status a = AppStatePaused -> paused = true).

Lemma fill_status_ok cr app spec old paused w w' st prev :
  appStatus cr app spec old paused w = (w', Ok st) -> app_ok paused (fill_status prev st).
Proof.
  intros (Hs & Hr & Hst)%appStatus_state. unfold fill_status, app_ok. record.simp.
  destruct (decide (app_Size st < app_Ready st)) as [Hc|Hc];
    [rewrite bool_decide_eq_true_2 by done|rewrite bool_decide_eq_false_2 by done]; record.simp.
  - split; [lia|]. rewrite Hst. destruct paused; [by case_match|]. by case_bool_decide; [lia|].
  - split; [lia|]. rewrite Hst. destruct paused; [by case_match|].
    case_bool_decide; [|done]. split; [|done]. intros _. split; [done|lia].
Qed.

Lemma app_turn_run cr st ip a w w' acc' :
  app_turn cr (st, ip) a w = (w', Ok acc') ->
  exists status host, app_ok (spec_Pause (cluster_Spec cr)) status /\
    acc'.1 = put_app a status host st /\ (ip = true -> acc'.2 = true).
Proof.
  unfold app_turn. intros E. go_inv.
  eexists _, _. split; [by eapply fill_status_ok|]. split; [done|]. intros ->.
  match goal with Hx : mret true _ = _ |- _ => by injection Hx as _ <- end.
Qed.

(** All fields of the loop. *)
Definition loop_ok (paused : bool) (acc : PerconaXtraDBClusterStatus * bool) : Prop :=
  app_ok paused (cs_PXC acc.1) /\ app_ok paused (cs_HAProxy acc.1) /\
  app_ok paused (cs_ProxySQL acc.1) /\ cs_Ready acc.1 ≤ cs_Size acc.1.

Lemma empty_app_ok paused v : app_ok paused (empty_app v).
Proof. by split. Qed.

Lemma put_app_fields a status host st :
  let st' := put_app a status host st in
  cs_PXC st' = cs_PXC (ae_set a status st) /\ cs_HAProxy st' = cs_HAProxy (ae_set a status st) /\
  cs_ProxySQL st' = cs_ProxySQL (ae_set a status st) /\
  cs_Size st' = app_Size status + cs_Size (ae_set a status st) /\
  cs_Ready st' = app_Ready status + cs_Ready (ae_set a status st).
Proof. cbv zeta. unfold put_app. case_match; by record.simp. Qed.

Lemma apps_set cr pxc a :
  a ∈ apps cr pxc ->
  (forall s st, ae_set a s st = st <| cs_PXC := s |>) \/
  (forall s st, ae_set a s st = st <| cs_HAProxy := s |>) \/
  (forall s st, ae_set a s st = st <| cs_ProxySQL := s |>).
Proof.
  unfold apps. intros [->|[Ha|Ha]%elem_of_app]%elem_of_cons; [by left|..]; right; [left|right];
    revert Ha; repeat case_match; try (by intros ?%elem_of_nil);
    by intros ->%list_elem_of_singleton.
Qed.

(** One turn keeps the fields right, and sets the first one. *)
Lemma app_turn_loop cr pxc acc a w w' acc' :
  a ∈ apps cr pxc -> app_turn cr acc a w = (w', Ok acc') ->
  let paused := spec_Pause (cluster_Spec cr) in
  app_ok paused (cs_HAProxy acc.1) /\ app_ok paused (cs_ProxySQL acc.1) /\ cs_Ready acc.1 ≤ cs_Size acc.1 ->
  (app_ok paused (cs_PXC acc.1) \/ forall s st, ae_set a s st = st <| cs_PXC := s |>) ->
  loop_ok paused acc' /\ (acc.2 = true -> acc'.2 = true).
Proof.
  intros Ha E paused (H1' & H2' & H3') Hp. destruct acc as [st ip].
  apply app_turn_run in E as (status & host & Hok & Est & Hip). split; [|done].
  unfold loop_ok. rewrite Est. destruct (put_app_fields a status host st) as (-> & -> & -> & -> & ->).
  destruct Hok as [Hok1 [Hok2 Hok3]].
  destruct (apps_set cr pxc a Ha) as [Hset|[Hset|Hset]]; rewrite Hset; record.simp; simpl in *;
    (split_and!; try done; [..|lia]); try (by split).
  - destruct Hp as [|Hp]; [done|]. specialize (Hp status st). rewrite Hset in Hp.
    apply (f_equal cs_PXC) in Hp. revert Hp. record.simp. by intros ->.
  - destruct Hp as [|Hp]; [done|]. specialize (Hp status st). rewrite Hset in Hp.
    apply (f_equal cs_PXC) in Hp. revert Hp. record.simp. by intros ->.
Qed.

Lemma loop_result cr pxc st0 ip w w' acc :
  foldM (app_turn cr) (reset_status st0, ip) (apps cr pxc) w = (w', Ok acc) ->
  loop_ok (spec_Pause (cluster_Spec cr)) acc /\ (ip = true -> acc.2 = true).
Proof.
  assert (exists a0 l, apps cr pxc = a0 :: l /\ (forall s st, ae_set a0 s st = st <| cs_PXC := s |>))
    as (a0 & l & El & Hset) by (unfold apps; eauto).
  rewrite El. cbn [foldM]. intros E. apply bind_inv_Ok in E as (w1 & acc1 & Hm & Hk).
  apply (app_turn_loop cr pxc) in Hm as [Hl Hip]; [|by rewrite El; left|by split_and!|by right].
  eapply (foldM_inv (fun acc => loop_ok (spec_Pause (cluster_Spec cr)) acc /\ (ip = true -> acc.2 = true)));
    [|exact Hk|done].
  intros acc2 a1 w3 w4 acc3 Ha1 [(J1 & J2 & J3 & J4) Jip] E.
  apply (app_turn_loop cr pxc) in E as [HL Hip2]; [|by rewrite El; right|done|by left]. eauto.
Qed.

(** When the combined state is ready. *)
Lemma ClusterStatus_ready st ip del :
  app_Status (cs_PXC st) <> AppStatePaused -> ClusterStatus st ip del = AppStateReady ->
  del = false /\ ip = false /\ cs_Host st <> "" /\ app_Status (cs_PXC st) = AppStateReady /\
  (app_Status (cs_HAProxy st) = AppStateUnset \/ app_Status (cs_HAProxy st) = AppStateReady) /\
  (app_Status (cs_ProxySQL st) = AppStateUnset \/ app_Status (cs_ProxySQL st) = AppStateReady).
Proof.
  intros Hp. unfold ClusterStatus. destruct del; [done|]. simpl.
  rewrite (bool_decide_eq_false_2 (app_Status (cs_PXC st) = AppStatePaused)) by done. simpl.
  destruct ip; simpl; [by repeat case_match|].
  destruct (app_Status (cs_PXC st)); simpl; try (by repeat case_match).
  destruct (decide (cs_Host st = "")) as [Hh|Hh];
    [rewrite (bool_decide_eq_true_2 (cs_Host st = "")) by done; by repeat case_match
    |rewrite (bool_decide_eq_false_2 (cs_Host st = "")) by done].
  destruct (app_Status (cs_HAProxy st)), (app_Status (cs_ProxySQL st)); simpl; naive_solver.
Qed.
(** A paused application makes none of the states ready. *)
Lemma ready_not_paused st ip del paused :
  loop_ok paused (st, ip) -> ClusterStatus st ip del = AppStateReady ->
  app_Status (cs_PXC st) <> AppStatePaused.
Proof.
  intros ((_ & _ & Hp) & (_ & Hh & _) & (_ & Hq & _) & _) Hc E. simpl in *. specialize (Hp E) as ->.
  revert Hc. unfold ClusterStatus. rewrite E. destruct del; [done|]. simpl.
  destruct (app_Status (cs_HAProxy st)), (app_Status (cs_ProxySQL st)); simpl; naive_solver.
Qed.

(** The fields of the applications the specification asks for. *)
Definition asked (a : AppStatus) (spec : PodSpec) : Prop :=
  app_Size a = pod_Size spec /\ app_Status a <> AppStateUnset.

Lemma fill_status_asked cr app spec old paused w w' st prev :
  appStatus cr app spec old paused w = (w', Ok st) -> asked (fill_status prev st) spec.
Proof.
  intros (Hs & Hr & Hst)%appStatus_state. unfold fill_status, asked. record.simp.
  destruct (decide (app_Size st < app_Ready st)) as [Hc|Hc];
    [rewrite bool_decide_eq_true_2 by done|rewrite bool_decide_eq_false_2 by done]; record.simp;
    (split; [done|]); rewrite Hst; by repeat case_match.
Qed.

Lemma app_turn_asked cr acc a w w' acc' :
  app_turn cr acc a w = (w', Ok acc') ->
  exists status host, asked status (ae_spec a) /\ acc'.1 = put_app a status host acc.1.
Proof.
  destruct acc. unfold app_turn. intros E. go_inv. eexists _, _. split; [by eapply fill_status_asked|done].
Qed.

Definition all_asked (cr : PerconaXtraDBCluster) (pxc : PXCSpec) (st : PerconaXtraDBClusterStatus) : Prop :=
  asked (cs_PXC st) (pxc_PodSpec pxc) /\
  (forall h, spec_HAProxy (cluster_Spec cr) = Some h -> pod_Enabled (ha_PodSpec h) = true ->
     asked (cs_HAProxy st) (ha_PodSpec h)) /\
  (forall p, spec_ProxySQL (cluster_Spec cr) = Some p -> pod_Enabled (ps_PodSpec p) = true ->
     asked (cs_ProxySQL st) (ps_PodSpec p)).

Ltac turns :=
  intros E; repeat (cbn [foldM] in E; let Ht := fresh "Ht" in
    apply bind_inv_Ok in E as (? & ? & Ht & E); apply app_turn_asked in Ht as (? & ? & ? & Ht));
  injection E as _ <-.

Lemma loop_asked cr pxc st0 ip w w' acc :
  foldM (app_turn cr) (reset_status st0, ip) (apps cr pxc) w = (w', Ok acc) -> all_asked cr pxc acc.1.
Proof.
  unfold apps, all_asked.
  destruct (spec_HAProxy (cluster_Spec cr)) as [h|], (spec_ProxySQL (cluster_Spec cr)) as [p|];
    try destruct (pod_Enabled (ha_PodSpec h)) eqn:Eh; try destruct (pod_Enabled (ps_PodSpec p)) eqn:Ep;
    cbn [app]; turns;
    repeat match goal with Ht : ?a.1 = put_app _ _ _ _ |- _ => rewrite Ht; clear Ht end;
    split_and!; intros; simplify_eq;
    repeat match goal with |- context [put_app ?a ?s ?h ?st] =>
      destruct (put_app_fields a s h st) as (Hp1 & Hp2 & Hp3 & _);
      rewrite ?Hp1, ?Hp2, ?Hp3; clear Hp1 Hp2 Hp3; cbn [ae_set]; try record.simp end; solve [done|congruence].
Qed.

End ready.
