(* ===== verification/CrashRecovery.v ===== *)
(** * Recovery from a full cluster crash: [pkg/controller/pxc/full_crash_recovery.go]

    When every database pod waits for recovery, the operator signals the pod
    whose log names the greatest sequence number.  The model is the three
    functions of the file; the theorem is that the signal goes to the right pod,
    and to no pod unless the whole cluster waits. *)

From S2P Require Import Prelude GoStrings ApiTypes KubeApi Naming ClusterStatus.

(** ** What the recovery does to the cluster *)

Class CrashEnv (W : Type) := {
  cx_IsPodRunning : string -> string -> M W bool;
  cx_getPod : NamespacedName -> M W Pod;
  cx_exec : Pod -> string -> list string -> M W string;   (** the standard error *)
  cx_sleep : Z -> M W unit }.

Definition ErrNotAllPXCPodsRunning : error := ErrNew "not all pxc pods are running".

Definition pxc_pod (crName : string) (i : Z) : string := crName +:+ "-pxc-" +:+ pretty i.

Lemma pxc_pod_nonempty crName i : pxc_pod crName i <> "".
Proof. unfold pxc_pod. by destruct crName. Qed.

(** [for i := 0; i < n; i++] *)
Definition below (n : Z) : list Z := seqZ 0 n.

Section recovery.
Context {W : Type} `{StatusEnv W} `{CrashEnv W}.

Fixpoint pods_running (ns crName : string) (ids : list Z) : M W unit :=
  match ids with
  | [] => mret tt
  | i :: ids =>
      r ← try (cx_IsPodRunning ns (pxc_pod crName i));
      match r with
      | inl e => if IsNotFound e then fail ErrNotAllPXCPodsRunning
                 else fail (ErrWrap ("can't check pod " +:+ pxc_pod crName i +:+ " state") e)
      | inr true => pods_running ns crName ids
      | inr false => fail ErrNotAllPXCPodsRunning
      end
  end.

Definition checkIfPodsRunning (cr : PerconaXtraDBCluster) (size : Z) : M W unit :=
  pods_running (cluster_Namespace cr) (cluster_Name cr) (below size).

(** The scan of the logs: [None] when a pod does not wait, else the greatest
    sequence number with its pod. *)
Fixpoint scan_sequences (ns crName : string) (ids : list Z) (maxSeq : Z) (maxSeqPod : string) :
    M W (option (Z * string)) :=
  match ids with
  | [] => mret (Some (maxSeq, maxSeqPod))
  | i :: ids =>
      ws ← wrap ("parse " +:+ pxc_pod crName i +:+ " pod logs")
             (isPodWaitingForRecovery ns (pxc_pod crName i));
      if negb ws.1 then mret None
      else if bool_decide (maxSeq < ws.2)
      then scan_sequences ns crName ids ws.2 (pxc_pod crName i)
      else scan_sequences ns crName ids maxSeq maxSeqPod
  end.

Definition doFullCrashRecovery (crName ns : string) (pxcSize : Z) : M W unit :=
  best ← scan_sequences ns crName (below pxcSize) (-100) "";
  match best with
  | None => mret tt
  | Some (_, maxSeqPod) =>
      pod ← wrap "get pods defenition" (cx_getPod (mkNN ns maxSeqPod));
      stderr ← wrap "exec command in pod" (cx_exec pod "pxc" ["/bin/sh"; "-c"; "kill -s USR1 1"]);
      if negb (bool_decide (stderr = "")) then fail (ErrNew ("invalid exec command return: " +:+ stderr))
      else cx_sleep (30 * 1000000000)
  end.

Definition recoverFullClusterCrashIfNeeded (cr : PerconaXtraDBCluster) : M W unit :=
  pxc ← lift (deref (spec_PXC (cluster_Spec cr)));
  let size := pod_Size (pxc_PodSpec pxc) in
  if bool_decide (size ≤ 0) then mret tt
  else
    r ← try (checkIfPodsRunning cr size);
    match r with
    | inl e => if bool_decide (e = ErrNotAllPXCPodsRunning) then mret tt else fail e
    | inr _ =>
        ws ← wrap "failed to check if pxc pod 0 is waiting for recovery"
               (isPodWaitingForRecovery (cluster_Namespace cr) (cluster_Name cr +:+ "-pxc-0"));
        if ws.1 : bool then doFullCrashRecovery (cluster_Name cr) (cluster_Namespace cr) size
        else mret tt
    end.
End recovery.

(** ** Who gets the signal *)

(** The documented behaviour of the client: reads do not change the cluster, a
    pod read by name has that name and an empty name is refused, a command runs
    at most once, in the pod it is given, and certainly when the call succeeds. *)
Class CrashLaws (W : Type) `{StatusEnv W} `{CrashEnv W} := {
  cl_signals : W -> list string;
  cl_logs : forall ns p w, (sx_podLogs ns p w).1 = w;
  cl_running : forall ns p w, (cx_IsPodRunning ns p w).1 = w;
  cl_getPod : forall k w, (cx_getPod k w).1 = w;
  cl_getPod_name : forall k w p, (cx_getPod k w).2 = Ok p -> pd_Name p = nn_name k /\ nn_name k <> "";
  cl_exec : forall p c cmd w w' r, cx_exec p c cmd w = (w', r) ->
    cl_signals w' = cl_signals w ++ [pd_Name p] \/ (cl_signals w' = cl_signals w /\ is_ok r = false);
  cl_sleep : forall t w, cl_signals (cx_sleep t w).1 = cl_signals w }.

Section laws.
Context {W : Type} `{CrashLaws W}.

(** Pod [i] waits for recovery at sequence number [s]. *)
Definition waits (cr : PerconaXtraDBCluster) (w : W) (i s : Z) : Prop :=
  (isPodWaitingForRecovery (cluster_Namespace cr) (pxc_pod (cluster_Name cr) i) w).2 = Ok (true, s).

Definition running (cr : PerconaXtraDBCluster) (w : W) (i : Z) : Prop :=
  (cx_IsPodRunning (cluster_Namespace cr) (pxc_pod (cluster_Name cr) i) w).2 = Ok true.

(** Pod [i] is the first of those with the greatest number. *)
Definition first_greatest (cr : PerconaXtraDBCluster) (w : W) (ids : list Z) (i : Z) : Prop :=
  exists l1 l2 s, ids = l1 ++ i :: l2 /\ waits cr w i s /\
    (forall j, j ∈ l1 -> exists sj, waits cr w j sj /\ sj < s) /\
    (forall j, j ∈ l2 -> exists sj, waits cr w j sj /\ sj ≤ s).

Lemma waiting_quiet ns p w : (isPodWaitingForRecovery ns p w).1 = w.
Proof.
  unfold isPodWaitingForRecovery, wrap, mbind, M_bind. pose proof (cl_logs ns p w) as Hl.
  destruct (sx_podLogs ns p w) as [w1 [ls|e|]]; simpl in *; subst w1; [|done|done].
  destruct (last_marker ls) as [l|]; [|done]. unfold lift. by destruct (parseSequence l).
Qed.

Lemma pods_running_all cr ids w :
  (pods_running (cluster_Namespace cr) (cluster_Name cr) ids w).1 = w /\
  ((pods_running (cluster_Namespace cr) (cluster_Name cr) ids w).2 = Ok tt ->
   forall i, i ∈ ids -> running cr w i).
Proof.
  induction ids as [|i ids IH]; simpl; [split; [done|]; by intros _ j ?%elem_of_nil|].
  pose proof (cl_running (cluster_Namespace cr) (pxc_pod (cluster_Name cr) i) w) as Hr.
  unfold mbind, M_bind, try.
  destruct (cx_IsPodRunning (cluster_Namespace cr) (pxc_pod (cluster_Name cr) i) w) as [w1 [[]|e|]] eqn:Er;
    simpl in *; subst w1; [|done|by destruct (IsNotFound e)|done].
  destruct IH as [IH1 IH2]. split; [done|]. intros Hok j [->|Hj]%elem_of_cons; [|by apply IH2].
  unfold running. by rewrite Er.
Qed.

(** What the scan has found so far: nothing above the start, or a first
    greatest pod of the ones seen. *)
Definition scan_inv (cr : PerconaXtraDBCluster) (w : W) (seen : list Z) (m : Z) (p : string) : Prop :=
  (exists l1 i l2, seen = l1 ++ i :: l2 /\ p = pxc_pod (cluster_Name cr) i /\ waits cr w i m /\
     (forall j, j ∈ l1 -> exists sj, waits cr w j sj /\ sj < m) /\
     (forall j, j ∈ l2 -> exists sj, waits cr w j sj /\ sj ≤ m)) \/
  (p = "" /\ m = -100 /\ forall j, j ∈ seen -> exists sj, waits cr w j sj /\ sj ≤ -100).

Lemma scan_inv_step cr w seen m p i s :
  scan_inv cr w seen m p -> waits cr w i s ->
  if bool_decide (m < s) then scan_inv cr w (seen ++ [i]) s (pxc_pod (cluster_Name cr) i)
  else scan_inv cr w (seen ++ [i]) m p.
Proof.
  intros Hinv Hw. case_bool_decide as Hlt.
  - left. exists seen, i, []. split_and!; try done; [|by intros j ?%elem_of_nil].
    intros j Hj. destruct Hinv as [(l1 & k & l2 & -> & _ & Hk & H1' & H2')|(_ & -> & H1')].
    + apply elem_of_app in Hj as [Hj|[->|Hj]%elem_of_cons].
      * destruct (H1' j Hj) as (sj & ? & ?). exists sj. split; [done|lia].
      * exists m. split; [done|lia].
      * destruct (H2' j Hj) as (sj & ? & ?). exists sj. split; [done|lia].
    + destruct (H1' j Hj) as (sj & ? & ?). exists sj. split; [done|lia].
  - destruct Hinv as [(l1 & k & l2 & -> & -> & Hk & H1' & H2')|(-> & -> & H1')]; [left|right].
    + exists l1, k, (l2 ++ [i]). split_and!; try done; [by rewrite <-app_assoc|].
      intros j [Hj| ->%list_elem_of_singleton]%elem_of_app; [by apply H2'|]. exists s. split; [done|lia].
    + split_and!; try done. intros j [Hj| ->%list_elem_of_singleton]%elem_of_app; [by apply H1'|].
      exists s. split; [done|lia].
Qed.

Lemma scan_run cr ids : forall seen m p w,
  scan_inv cr w seen m p ->
  (scan_sequences (cluster_Namespace cr) (cluster_Name cr) ids m p w).1 = w /\
  forall m' p', (scan_sequences (cluster_Namespace cr) (cluster_Name cr) ids m p w).2 = Ok (Some (m', p')) ->
    scan_inv cr w (seen ++ ids) m' p'.
Proof.
  induction ids as [|i ids IH]; intros seen m p w Hinv; simpl.
  { split; [done|]. intros m' p' [= <- <-]. by rewrite app_nil_r. }
  pose proof (waiting_quiet (cluster_Namespace cr) (pxc_pod (cluster_Name cr) i) w) as Hq.
  unfold mbind, M_bind, wrap.
  destruct (isPodWaitingForRecovery (cluster_Namespace cr) (pxc_pod (cluster_Name cr) i) w)
    as [w1 [[b s]|e|]] eqn:Ei; simpl in *; subst w1; [|done|done].
  destruct b; simpl; [|done].
  assert (waits cr w i s) as Hw by (unfold waits; by rewrite Ei).
  pose proof (scan_inv_step cr w seen m p i s Hinv Hw) as Hstep.
  rewrite cons_middle, app_assoc. case_bool_decide; by apply IH.
Qed.

Lemma doFullCrashRecovery_signals cr size w w' r :
  doFullCrashRecovery (cluster_Name cr) (cluster_Namespace cr) size w = (w', r) ->
  (cl_signals w' = cl_signals w /\ (r = Ok tt -> w' = w)) \/
  exists i, first_greatest cr w (below size) i /\
    cl_signals w' = cl_signals w ++ [pxc_pod (cluster_Name cr) i].
Proof.
  unfold doFullCrashRecovery.
  assert (scan_inv cr w [] (-100) "") as H0' by (right; split_and!; try done; by intros j ?%elem_of_nil).
  destruct (scan_run cr (below size) [] (-100) "" w H0') as [Hq Hs]. unfold mbind at 1, M_bind at 1.
  destruct (scan_sequences _ _ _ _ _ w) as [w1 [[[m p]|]|e|]]; simpl in *; subst w1;
    try (intros [= <- <-]; by left).
  specialize (Hs m p eq_refl). unfold wrap, mbind, M_bind.
  pose proof (cl_getPod (mkNN (cluster_Namespace cr) p) w) as Hg.
  pose proof (cl_getPod_name (mkNN (cluster_Namespace cr) p) w) as Hn.
  destruct (cx_getPod (mkNN (cluster_Namespace cr) p) w) as [w1 [pod|e|]]; simpl in *; subst w1;
    try (intros [= <- <-]; by left).
  destruct (Hn pod eq_refl) as [Hname Hne].
  destruct (cx_exec pod _ _ w) as [w1 re] eqn:Ee. apply cl_exec in Ee.
  assert (exists i, first_greatest cr w (below size) i /\ p = pxc_pod (cluster_Name cr) i) as (i & Hi & Hp).
  { destruct Hs as [(l1 & i & l2 & E & -> & Hw & H1' & H2')|(-> & _)]; [|done].
    exists i. split; [|done]. by exists l1, l2, m. }
  rewrite Hname, Hp in Ee.
  assert (forall w2, cl_signals w2 = cl_signals w1 -> r <> Ok tt \/ is_ok re = true ->
    (cl_signals w2 = cl_signals w /\ (r = Ok tt -> w2 = w)) \/
    exists i, first_greatest cr w (below size) i /\ cl_signals w2 = cl_signals w ++ [pxc_pod (cluster_Name cr) i])
    as Hend.
  { intros w2 E2 Hr. rewrite E2. destruct Ee as [Ee|[Ee Eo]]; [right; by exists i|].
    left. split; [done|]. destruct Hr; [done|congruence]. }
  destruct re as [stderr|e|]; simpl in *.
  - case_bool_decide as Hstd; simpl.
    + pose proof (cl_sleep (30 * 1000000000) w1). destruct (cx_sleep _ w1) as [w2 r2]. intros [= <- <-].
      apply Hend; [done|by right].
    + intros [= <- <-]. apply Hend; [done|by left].
  - intros [= <- <-]. apply Hend; [done|by left].
  - intros [= <- <-]. apply Hend; [done|by left].
Qed.

(** C5: crash recovery signals the most advanced pod.  One pass either sends no
    signal, or exactly one; and then every database pod of the cluster runs and
    waits for recovery, and the signal goes to the pod with the greatest
    sequence number, the first one if there are several. *)
Theorem crash_recovery_signal cr w w' r :
  recoverFullClusterCrashIfNeeded cr w = (w', r) ->
  cl_signals w' = cl_signals w \/
  exists pxc i, spec_PXC (cluster_Spec cr) = Some pxc /\
    let pods := below (pod_Size (pxc_PodSpec pxc)) in
    cl_signals w' = cl_signals w ++ [pxc_pod (cluster_Name cr) i] /\
    (forall j, j ∈ pods -> running cr w j) /\ first_greatest cr w pods i.
Proof.
  unfold recoverFullClusterCrashIfNeeded. destruct (spec_PXC (cluster_Spec cr)) as [pxc|];
    [|intros [= <- <-]; by left].
  unfold lift, deref, mbind, M_bind at 1. cbv zeta. case_bool_decide; [intros [= <- <-]; by left|].
  unfold checkIfPodsRunning, try.
  destruct (pods_running_all cr (below (pod_Size (pxc_PodSpec pxc))) w) as [Hq Hall].
  unfold M_bind at 1.
  destruct (pods_running _ _ _ w) as [w1 [[]|e|]]; simpl in *; subst w1;
    [|case_bool_decide; intros [= <- <-]; by left|intros [= <- <-]; by left].
  specialize (Hall eq_refl). unfold M_bind, wrap.
  pose proof (waiting_quiet (cluster_Namespace cr) (cluster_Name cr +:+ "-pxc-0") w) as Hw.
  destruct (isPodWaitingForRecovery _ _ w) as [w1 [[[] s]|e|]]; simpl in *; subst w1;
    try (intros [= <- <-]; by left).
  intros [[? _]|(i & Hi & Hsig)]%doFullCrashRecovery_signals; [by left|]. right. by exists pxc, i.
Qed.

Lemma pods_running_ok cr ids w :
  (forall i, i ∈ ids -> running cr w i) ->
  pods_running (cluster_Namespace cr) (cluster_Name cr) ids w = (w, Ok tt).
Proof.
  induction ids as [|i ids IH]; simpl; [done|]. intros Hr.
  pose proof (Hr i ltac:(by left)) as Hi. unfold running in Hi.
  pose proof (cl_running (cluster_Namespace cr) (pxc_pod (cluster_Name cr) i) w) as Hq.
  unfold mbind, M_bind, try.
  destruct (cx_IsPodRunning (cluster_Namespace cr) (pxc_pod (cluster_Name cr) i) w) as [w1 r].
  simpl in *; subst. apply IH. intros j Hj. apply Hr. by right.
Qed.

Lemma waits_run cr w i s :
  waits cr w i s ->
  isPodWaitingForRecovery (cluster_Namespace cr) (pxc_pod (cluster_Name cr) i) w = (w, Ok (true, s)).
Proof. intros <-. by rewrite <-(waiting_quiet (cluster_Namespace cr) (pxc_pod (cluster_Name cr) i) w) at 2; destruct (isPodWaitingForRecovery _ _ w). Qed.

Lemma scan_all cr w ids : forall m p,
  (forall i, i ∈ ids -> exists s, waits cr w i s) ->
  exists m' p', (scan_sequences (cluster_Namespace cr) (cluster_Name cr) ids m p w).2 = Ok (Some (m', p')).
Proof.
  induction ids as [|i ids IH]; intros m p Hw; simpl; [by eauto|].
  destruct (Hw i ltac:(by left)) as [s Hi%waits_run]. unfold mbind, M_bind, wrap. rewrite Hi. simpl.
  case_bool_decide; apply IH; intros j Hj; apply Hw; by right.
Qed.

(** With every pod waiting at a known position, the scan ends at a first
    greatest pod. *)
Lemma scan_complete cr w size :
  0 < size -> (forall i, i ∈ below size -> exists s, waits cr w i s /\ -100 < s) ->
  exists m i, first_greatest cr w (below size) i /\
    scan_sequences (cluster_Namespace cr) (cluster_Name cr) (below size) (-100) "" w =
      (w, Ok (Some (m, pxc_pod (cluster_Name cr) i))).
Proof.
  intros Hsz Hw.
  assert (scan_inv cr w [] (-100) "") as H0' by (right; split_and!; try done; by intros j ?%elem_of_nil).
  destruct (scan_run cr (below size) [] (-100) "" w H0') as [Hq Hs].
  destruct (scan_all cr w (below size) (-100) "") as (m & p & E).
  { intros i (s & ? & _)%Hw. eauto. }
  destruct (Hs m p E) as [(l1 & i & l2 & El & -> & Hi & H1' & H2')|(_ & _ & Hall)].
  - exists m, i. split; [by exists l1, l2, m|]. by rewrite (surjective_pairing (scan_sequences _ _ _ _ _ w)), Hq, E.
  - assert (0 ∈ below size) as Hin by (apply elem_of_seqZ; lia).
    destruct (Hw 0 Hin) as (s & Hs0%waits_run & ?), (Hall 0 Hin) as (s' & Hs1%waits_run & ?).
    rewrite Hs0 in Hs1. simplify_eq. lia.
Qed.

(** C6: a fully crashed cluster is recovered.  When every database pod of a
    cluster runs and waits for recovery at a known position, and the client
    calls succeed, the pass sends the signal, to a pod with the greatest
    sequence number. *)
Theorem crash_recovery_sent cr pxc w :
  spec_PXC (cluster_Spec cr) = Some pxc ->
  let size := pod_Size (pxc_PodSpec pxc) in
  0 < size ->
  (forall j, j ∈ below size -> running cr w j /\ exists s, waits cr w j s /\ -100 < s) ->
  (forall k, nn_name k <> "" -> exists p, (cx_getPod k w).2 = Ok p) ->
  (forall p c cmd, (cx_exec p c cmd w).2 = Ok "") ->
  exists i, first_greatest cr w (below size) i /\
    cl_signals (recoverFullClusterCrashIfNeeded cr w).1 = cl_signals w ++ [pxc_pod (cluster_Name cr) i].
Proof.
  intros Hpxc size Hsz Hw Hget Hex. unfold recoverFullClusterCrashIfNeeded. rewrite Hpxc.
  unfold lift, deref, mbind, M_bind at 1. cbv zeta. fold size. rewrite bool_decide_eq_false_2 by lia.
  unfold checkIfPodsRunning, try, M_bind at 1.
  rewrite (pods_running_ok cr (below size) w) by (intros i Hi; by apply Hw).
  unfold M_bind at 1, wrap.
  destruct (Hw 0) as (_ & s0 & Hs0%waits_run & _); [apply elem_of_seqZ; lia|].
  change (cluster_Name cr +:+ "-pxc-0") with (pxc_pod (cluster_Name cr) 0). rewrite Hs0. simpl.
  destruct (scan_complete cr w size Hsz) as (m & i & Hi & E); [intros i Hi; by apply Hw|].
  exists i. split; [done|]. unfold doFullCrashRecovery, mbind, M_bind, wrap. rewrite E. cbv beta iota.
  set (k := mkNN (cluster_Namespace cr) (pxc_pod (cluster_Name cr) i)).
  destruct (Hget k) as [p Hp]; [apply pxc_pod_nonempty|].
  destruct (cl_getPod_name k w p Hp) as [Hname _]. pose proof (cl_getPod k w) as Hq.
  destruct (cx_getPod k w) as [w1 r1]. simpl in *. subst. cbn [wrap_res].
  match goal with |- context [cx_exec ?a ?b ?c ?d] =>
    specialize (Hex a b c); destruct (cx_exec a b c d) as [w2 r2] eqn:Ee end.
  simpl in *. subst r2. apply cl_exec in Ee as [Ee|[_ ?]]; [|done]. simpl.
  by rewrite cl_sleep, Ee, Hname.
Qed.
End laws.
