(* ===== verification/ApiDefaults.v ===== *)
(** * Validation and defaulting of a cluster object

    [Validate] and [CheckNSetDefaults] of [pkg/apis/pxc/v1/pxc_types.go].  Both
    work on the object in place, so they are programs of the state monad over
    [PerconaXtraDBCluster]: changes made before an error stay. *)

From S2P Require Import Prelude GoStrings ApiTypes.

(** Libraries the defaults call: version comparison, the [pongo2] template
    engine (template text and memory limit in bytes) and cert-manager's minimal
    certificate duration. *)
Class ApiLibs := {
  api_versions :: VersionLib;
  tmpl_execute : string -> Z -> res string;
  MinimumCertificateDuration : Z }.

Definition hours (n : Z) : Z := n * 3600 * 1000000000.
Definition DefaultCAValidity : Z := hours (24 * 365 * 3).
Definition DefaultCertValidity : Z := hours (24 * 90).
Definition DefaultRenewBefore : Z := hours 730.

Definition clusterNameMaxLen : Z := 22.
Definition maxSafePXCSize : Z := 5.
Definition minSafeProxySize : Z := 2.
Definition SmartUpdateStatefulSetStrategyType : string := "SmartUpdate".
Definition PullAlways : string := "Always".
Definition PlatformOpenshift : string := "openshift".
Definition PlatformKubernetes : string := "kubernetes".
Definition UpgradeStrategyDisabled : string := "disabled".
Definition DefaultVersionServiceEndpoint : string := "https://check.percona.com".

(** [if len(s) == 0 { s = d }] *)
Definition or_default (d s : string) : string := if bool_decide (s = "") then d else s.
(** [if z == 0 { z = d }] *)
Definition or_zero (d z : Z) : Z := if bool_decide (z = 0) then d else z.
(** [if p == nil { p = &d }] *)
Definition or_nil {A} (d : A) (p : option A) : option A :=
  match p with Some a => Some a | None => Some d end.

(** ** Volumes *)

Definition vol_unset (v : VolumeSpec) : bool :=
  match vol_EmptyDir v, vol_HostPath v, vol_PersistentVolumeClaim v with
  | None, None, None => true
  | _, _, _ => false
  end.

Definition vol_fill (v : VolumeSpec) : VolumeSpec :=
  if vol_unset v then v <| vol_PersistentVolumeClaim := Some (mkPVCSpec [] ∅) |> else v.

Definition reconcileOpts (v : VolumeSpec) : VolumeSpec :=
  let v := vol_fill v in
  match vol_PersistentVolumeClaim v with
  | Some p =>
      if bool_decide (pvc_AccessModes p = [])
      then v <| vol_PersistentVolumeClaim := Some (p <| pvc_AccessModes := ["ReadWriteOnce"] |>) |>
      else v
  | None => v
  end.

Definition volume_validate (v : VolumeSpec) : VolumeSpec * option error :=
  let v := vol_fill v in
  match vol_PersistentVolumeClaim v with
  | Some p =>
      match pvc_Requests p !! "storage" with
      | Some _ => (v, None)
      | None => (v, Some (ErrNew "volume.resources.storage can't be empty"))
      end
  | None => (v, None)
  end.

(** ** Extra PVCs: [validateExtraPVCs] *)

Fixpoint validateExtraPVCs_go (names claimNames mountPaths : gset string) (l : list ExtraPVC) :
    option error :=
  match l with
  | [] => None
  | e :: l' =>
      if bool_decide (ep_Name e ∈ names) then
        Some (ErrNew ("extraPVC: duplicate volume name " +:+ ep_Name e))
      else if bool_decide (ep_MountPath e ∈ mountPaths) then
        Some (ErrNew ("extraPVC " +:+ ep_Name e +:+ ": duplicate mount path " +:+ ep_MountPath e))
      else if bool_decide (ep_ClaimName e ∈ claimNames) then
        Some (ErrNew ("extraPVC " +:+ ep_Name e +:+ ": duplicate claim name " +:+ ep_ClaimName e))
      else validateExtraPVCs_go ({[ep_Name e]} ∪ names) ({[ep_ClaimName e]} ∪ claimNames)
             ({[ep_MountPath e]} ∪ mountPaths) l'
  end.

Definition validateExtraPVCs (l : list ExtraPVC) : option error :=
  validateExtraPVCs_go ∅ ∅ ∅ l.

(** ** Affinity *)

Definition DefaultAffinityTopologyKey : string := "kubernetes.io/hostname".
Definition affinityValidTopologyKeys : list string :=
  [ "none"; "kubernetes.io/hostname"; "failure-domain.beta.kubernetes.io/zone";
    "failure-domain.beta.kubernetes.io/region"; "topology.kubernetes.io/zone";
    "topology.kubernetes.io/region" ].

Definition reconcileAffinityOpts (a : option PodAffinity) : option PodAffinity :=
  match a with
  | None => Some (mkAffinity (Some DefaultAffinityTopologyKey) None)
  | Some a =>
      match aff_TopologyKey a, aff_Advanced a with
      | None, _ => Some (a <| aff_TopologyKey := Some DefaultAffinityTopologyKey |>)
      | Some _, Some _ => Some (a <| aff_TopologyKey := None |>)
      | Some k, None =>
          if bool_decide (k ∈ affinityValidTopologyKeys) then Some a
          else Some (a <| aff_TopologyKey := Some DefaultAffinityTopologyKey |>)
      end
  end.

Definition pod_reconcileAffinityOpts (p : PodSpec) : PodSpec :=
  p <| pod_Affinity ::= reconcileAffinityOpts |>.

(** ** Safe sizes *)

Definition safe_pxc_size (n : Z) : Z :=
  let n := if bool_decide (n < 3) then 3
           else if bool_decide (maxSafePXCSize < n) then maxSafePXCSize else n in
  if bool_decide (Z.rem n 2 = 0) then n + 1 else n.

Definition safe_proxy_size (n : Z) : Z :=
  if bool_decide (n < minSafeProxySize) then minSafeProxySize else n.

(** [setSafeDefaults] *)
Definition setSafeDefaults (s : PerconaXtraDBClusterSpec) : PerconaXtraDBClusterSpec :=
  if spec_AllowUnsafeConfig s then s else
  let s := s <| spec_PXC ::= fmap (fun p => p <| pxc_PodSpec -> pod_Size ::= safe_pxc_size |>) |> in
  let s := if spec_ProxySQLEnabled s
           then s <| spec_ProxySQL ::= fmap (fun p => p <| ps_PodSpec -> pod_Size ::= safe_proxy_size |>) |>
           else s in
  if spec_HAProxyEnabled s
  then s <| spec_HAProxy ::= fmap (fun p => p <| ha_PodSpec -> pod_Size ::= safe_proxy_size |>) |>
  else s.

(** [checkSafeDefaults]; [spec.tls] and [spec.pxc] are set when it is called. *)
Definition checkSafeDefaults (s : PerconaXtraDBClusterSpec) : res unit :=
  tls ← deref (spec_TLS s);
  en ← deref (tls_Enabled tls);
  pxc ← deref (spec_PXC s);
  let size := pod_Size (pxc_PodSpec pxc) in
  if negb (unsafe_TLS (spec_Unsafe s)) && negb en then
    Err (ErrNew "TLS must be enabled. Set spec.unsafeFlags.tls to true to disable this check")
  else if negb (unsafe_PXCSize (spec_Unsafe s)) && bool_decide (size < 3) then
    Err (ErrNew "PXC size must be at least 3. Set spec.unsafeFlags.pxcSize to true to disable this check")
  else if negb (unsafe_PXCSize (spec_Unsafe s)) && bool_decide (maxSafePXCSize < size) then
    Err (ErrNew "PXC size must be at most 5. Set spec.unsafeFlags.pxcSize to true to disable this check")
  else if negb (unsafe_PXCSize (spec_Unsafe s)) && bool_decide (Z.rem size 2 = 0) then
    Err (ErrNew "PXC size must be an odd number. Set spec.unsafeFlags.pxcSize to true to disable this check")
  else
    let small p := negb (unsafe_ProxySize (spec_Unsafe s)) && bool_decide (pod_Size p < minSafeProxySize) in
    if spec_ProxySQLEnabled s && default false ((small ∘ ps_PodSpec) <$> spec_ProxySQL s) then
      Err (ErrNew "ProxySQL size must be at least 2. Set spec.unsafeFlags.proxySize to true to disable this check")
    else if spec_HAProxyEnabled s && default false ((small ∘ ha_PodSpec) <$> spec_HAProxy s) then
      Err (ErrNew "HAProxy size must be at least 2. Set spec.unsafeFlags.proxySize to true to disable this check")
    else Ok tt.

(** ** Probes *)

Definition initial_delay (legacy : option Z) (d z : Z) : Z :=
  match legacy with Some n => n | None => or_zero d z end.

Definition pxc_probes (p : PodSpec) : PodSpec :=
  p <| pod_LivenessProbes -> pr_InitialDelaySeconds ::= initial_delay (pod_LivenessInitialDelaySeconds p) 300 |>
    <| pod_LivenessProbes -> pr_TimeoutSeconds ::= or_zero 5 |>
    <| pod_LivenessProbes -> pr_FailureThreshold ::= or_zero 3 |>
    <| pod_LivenessProbes -> pr_SuccessThreshold ::= or_zero 1 |>
    <| pod_ReadinessProbes -> pr_InitialDelaySeconds ::= initial_delay (pod_ReadinessInitialDelaySeconds p) 15 |>
    <| pod_ReadinessProbes -> pr_PeriodSeconds ::= or_zero 30 |>
    <| pod_ReadinessProbes -> pr_FailureThreshold ::= or_zero 5 |>
    <| pod_ReadinessProbes -> pr_SuccessThreshold ::= or_zero 1 |>
    <| pod_ReadinessProbes -> pr_TimeoutSeconds ::= or_zero 15 |>.

Definition haproxy_probes (p : PodSpec) : PodSpec :=
  p <| pod_ReadinessProbes -> pr_InitialDelaySeconds ::= initial_delay (pod_ReadinessInitialDelaySeconds p) 15 |>
    <| pod_ReadinessProbes -> pr_PeriodSeconds ::= or_zero 5 |>
    <| pod_ReadinessProbes -> pr_TimeoutSeconds ::= or_zero 1 |>
    <| pod_ReadinessProbes -> pr_SuccessThreshold ::= or_zero 1 |>
    <| pod_ReadinessProbes -> pr_FailureThreshold ::= or_zero 3 |>
    <| pod_LivenessProbes -> pr_InitialDelaySeconds ::= initial_delay (pod_LivenessInitialDelaySeconds p) 60 |>
    <| pod_LivenessProbes -> pr_TimeoutSeconds ::= or_zero 5 |>
    <| pod_LivenessProbes -> pr_FailureThreshold ::= or_zero 4 |>
    <| pod_LivenessProbes -> pr_PeriodSeconds ::= or_zero 30 |>
    <| pod_LivenessProbes -> pr_SuccessThreshold ::= or_zero 1 |>.

Definition setProbesDefaults (s : PerconaXtraDBClusterSpec) : PerconaXtraDBClusterSpec :=
  let s := s <| spec_PXC ::= fmap (fun p => p <| pxc_PodSpec ::= pxc_probes |>) |> in
  if spec_HAProxyEnabled s
  then s <| spec_HAProxy ::= fmap (fun p => p <| ha_PodSpec ::= haproxy_probes |>) |>
  else s.

(** ** Security context and passwords *)

Definition setPodSecurityContext (s : PerconaXtraDBClusterSpec) : PerconaXtraDBClusterSpec :=
  let fsgroup := if bool_decide (spec_Platform s = PlatformOpenshift) then None else Some 1001 in
  let sc := mkPodSC [1001] fsgroup in
  s <| spec_PXC ::= fmap (fun p => p <| pxc_PodSpec -> pod_PodSecurityContext ::= or_nil sc |>) |>
    <| spec_ProxySQL ::= fmap (fun p => p <| ps_PodSpec -> pod_PodSecurityContext ::= or_nil sc |>) |>
    <| spec_Backup ::= fmap (fun b =>
         b <| bs_Storages ::= fmap (fun st => st <| st_PodSecurityContext ::= or_nil sc |>) |>) |>.

Definition setPasswordGenerationOptionsDefaults (s : PerconaXtraDBClusterSpec) :
    PerconaXtraDBClusterSpec :=
  s <| spec_PasswordGenerationOptions ::=
         or_nil (mkPwGen "!#$%&()*+,-.<=>?@[]^_{}~" 20 16) |>.

(** [executeConfigurationTemplate] *)
Definition executeConfigurationTemplate `{ApiLibs} (p : PodSpec) : res PodSpec :=
  match rr_Limits (pod_Resources p) !! "memory" with
  | None =>
      if Contains (pod_Configuration p) "{{" then
        Err (ErrNew "resources.limits[memory] should be specified for template usage in configuration")
      else Ok p
  | Some mem =>
      c ← tmpl_execute (pod_Configuration p) mem;
      mret (p <| pod_Configuration := c |>)
  end.

(** ** [Validate] *)

Definition updSpec (f : PerconaXtraDBClusterSpec -> PerconaXtraDBClusterSpec) :
    M PerconaXtraDBCluster unit := modify (fun cr => cr <| cluster_Spec ::= f |>).
Definition getSpec : M PerconaXtraDBCluster PerconaXtraDBClusterSpec := gets cluster_Spec.

(** [if b { return errors.New(msg) }] *)
Definition fail_if {W} (b : bool) (msg : string) : M W unit :=
  if b then fail (ErrNew msg) else mret tt.

Definition invalid_channel_name (n : string) : bool :=
  bool_decide (64 < String.length n)%nat || bool_decide (n = "") ||
  bool_decide (n = "group_replication_applier") || bool_decide (n = "group_replication_recovery").

(** The loop over [pxc.replicationChannels]; [isSrc] is the kind of the first. *)
Fixpoint validate_channels (isSrc : bool) (l : list ReplicationChannel) : option error :=
  match l with
  | [] => None
  | ch :: l' =>
      if invalid_channel_name (ch_Name ch) then
        Some (ErrNew ("invalid replication channel name " +:+ ch_Name ch
                      +:+ ", please see channel naming conventions"))
      else if negb (Bool.eqb isSrc (ch_IsSource ch)) then
        Some (ErrNew "you can specify only one type of replication please specify equal values for isSource field")
      else if ch_IsSource ch then validate_channels isSrc l'
      else if bool_decide (ch_SourcesList ch = []) then
        Some (ErrNew ("sources list for replication channel " +:+ ch_Name ch
                      +:+ " should be empty, because it's replica"))
      else match ch_Config ch with
           | Some c =>
               if cc_SSL c && bool_decide (cc_CA c = "") then
                 Some (ErrNew ("if you set ssl for channel " +:+ ch_Name ch
                   +:+ ", you have to indicate a path to a CA file to verify the server certificate"))
               else validate_channels isSrc l'
           | None => validate_channels isSrc l'
           end
  end.

(** The loop over [backup.schedule]: every storage exists, and a filesystem
    storage has a valid volume (which [validate] may fill in). *)
Fixpoint validate_schedules (storages : gmap string BackupStorageSpec)
    (l : list PXCScheduledBackupSchedule) : gmap string BackupStorageSpec * option error :=
  match l with
  | [] => (storages, None)
  | sch :: l' =>
      match storages !! sch_StorageName sch with
      | None => (storages, Some (ErrNew ("storage " +:+ sch_StorageName sch +:+ " doesn't exist")))
      | Some st =>
          if bool_decide (st_Type st = BackupStorageFilesystem) then
            match st_Volume st with
            | None => (storages, Some (ErrNew ("backup storage " +:+ sch_StorageName sch
                                               +:+ ": volume should be specified")))
            | Some v =>
                let '(v', e) := volume_validate v in
                let storages' := <[sch_StorageName sch := st <| st_Volume := Some v' |>]> storages in
                match e with
                | Some e => (storages', Some (ErrWrap "Backup: validate volume spec" e))
                | None => validate_schedules storages' l'
                end
            end
          else validate_schedules storages l'
      end
  end.

(** The loop over [users]: names are unique. *)
Fixpoint validate_users (seen : gset string) (l : list User) : option error :=
  match l with
  | [] => None
  | u :: l' =>
      if bool_decide (user_Name u ∈ seen) then
        Some (ErrNew ("user " +:+ user_Name u +:+ " is duplicated"))
      else validate_users ({[user_Name u]} ∪ seen) l'
  end.

Definition raise {W} (e : option error) : M W unit :=
  match e with Some e => fail e | None => mret tt end.

(** [spec.pxc]: image, replication channels, PMM image and the data volume. *)
Definition validate_pxc (name : string) : M PerconaXtraDBCluster unit :=
  s ← getSpec;
  match spec_PXC s with
  | None => fail (ErrNew ("spec.pxc section is not specified. Please check " +:+ name +:+ " cluster settings"))
  | Some pxc =>
      _ ← updSpec (fun s => s <| spec_PXC ::= fmap (fun p => p <| pxc_AutoRecovery ::= or_nil true |>) |>);
      _ ← fail_if (bool_decide (pod_Image (pxc_PodSpec pxc) = "")) "pxc.Image can't be empty";
      _ ← raise (match pxc_ReplicationChannels pxc with
                 | [] => None
                 | ch :: _ => validate_channels (ch_IsSource ch) (pxc_ReplicationChannels pxc)
                 end);
      _ ← fail_if (match spec_PMM s with
                   | Some p => pmm_Enabled p && bool_decide (pmm_Image p = "")
                   | None => false end) "pmm.Image can't be empty";
      match pod_VolumeSpec (pxc_PodSpec pxc) with
      | None => fail (ErrNew "PXC: volumeSpec should be specified")
      | Some v =>
          let '(v', e) := volume_validate v in
          _ ← updSpec (fun s => s <| spec_PXC ::= fmap (fun p => p <| pxc_PodSpec -> pod_VolumeSpec := Some v' |>) |>);
          raise (ErrWrap "PXC: validate volume spec" <$> e)
      end
  end.

(** [spec.haproxy] and [spec.proxysql]: at most one, with its image and volume. *)
Definition validate_proxies : M PerconaXtraDBCluster unit :=
  s ← getSpec;
  _ ← fail_if (spec_HAProxyEnabled s && spec_ProxySQLEnabled s)
        "can't enable both HAProxy and ProxySQL please only select one of them";
  _ ← fail_if (spec_HAProxyEnabled s &&
               default false ((fun h => bool_decide (pod_Image (ha_PodSpec h) = "")) <$> spec_HAProxy s))
        "haproxy.Image can't be empty";
  match spec_ProxySQL s with
  | Some ps =>
      if pod_Enabled (ps_PodSpec ps) then
        _ ← fail_if (bool_decide (pod_Image (ps_PodSpec ps) = "")) "proxysql.Image can't be empty";
        match pod_VolumeSpec (ps_PodSpec ps) with
        | None => fail (ErrNew "ProxySQL: volumeSpec should be specified")
        | Some v =>
            let '(v', e) := volume_validate v in
            _ ← updSpec (fun s => s <| spec_ProxySQL ::= fmap (fun p => p <| ps_PodSpec -> pod_VolumeSpec := Some v' |>) |>);
            raise (ErrWrap "ProxySQL: validate volume spec" <$> e)
        end
      else mret tt
  | None => mret tt
  end.

(** [spec.backup]: image, the PITR storage and the schedules. *)
Definition validate_backup : M PerconaXtraDBCluster unit :=
  s ← getSpec;
  match spec_Backup s with
  | None => mret tt
  | Some b =>
      _ ← fail_if (bool_decide (bs_Image b = "")) "backup.Image can't be empty";
      let pn := pitr_StorageName (bs_PITR b) in
      _ ← fail_if (pitr_Enabled (bs_PITR b) && bool_decide (pn = ""))
            "backup.PITR.StorageName can't be empty";
      _ ← fail_if (pitr_Enabled (bs_PITR b) && bool_decide (bs_Storages b !! pn = None))
            ("pitr storage " +:+ pn +:+ " doesn't exist");
      let '(st', e) := validate_schedules (bs_Storages b) (bs_Schedule b) in
      _ ← updSpec (fun s => s <| spec_Backup ::= fmap (fun b => b <| bs_Storages := st' |>) |>);
      raise e
  end.

(** [Validate] *)
Definition Validate `{ApiLibs} : M PerconaXtraDBCluster unit :=
  cr ← gets id;
  let name := cluster_Name cr in
  let ver := spec_CRVersion (cluster_Spec cr) in
  _ ← fail_if (bool_decide (clusterNameMaxLen < Z.of_nat (String.length name)))
        ("cluster name (" +:+ name +:+ ") too long, must be no more than 22 characters");
  _ ← (if negb (bool_decide (ver = "")) && negb (ver_valid ver)
       then fail (ErrWrap "invalid cr version" (ErrNew ("Malformed version: " +:+ ver)))
       else mret tt);
  _ ← validate_pxc name;
  _ ← validate_proxies;
  _ ← validate_backup;
  s ← getSpec;
  _ ← fail_if (bool_decide (spec_UpdateStrategy s = SmartUpdateStatefulSetStrategyType)
               && negb (spec_ProxySQLEnabled s) && negb (spec_HAProxyEnabled s))
        "ProxySQL or HAProxy should be enabled if SmartUpdate set";
  _ ← raise (validate_users ∅ (spec_Users s));
  raise (ErrWrap "PXC: validate extraPVCs" <$>
         match spec_PXC s with
         | Some p => validateExtraPVCs (pod_ExtraPVCs (pxc_PodSpec p))
         | None => None
         end).

(** ** [CheckNSetDefaults] *)

Section defaults.
Context `{ApiLibs}.

Definition version_lt (ver : string) : M PerconaXtraDBCluster bool :=
  cr ← gets id;
  c ← lift (CompareVersionWith cr ver);
  mret (bool_decide (c < 0)).

Definition channel_defaults (ch : ReplicationChannel) : ReplicationChannel :=
  let ch := ch <| ch_SourcesList ::= fmap (fun s =>
                    s <| src_Weight ::= or_zero 100 |> <| src_Port ::= or_zero 3306 |>) |> in
  if negb (ch_IsSource ch)
  then ch <| ch_Config ::= or_nil (mkChannelConfig 3 60 false false "") |>
  else ch.

(** The TLS block and the unsafe flags. *)
Definition tls_defaults (s : PerconaXtraDBClusterSpec) : PerconaXtraDBClusterSpec :=
  let s := s <| spec_TLS ::= or_nil (mkTLS (Some true) [] None None None) |> in
  let s := if spec_AllowUnsafeConfig s
           then s <| spec_TLS ::= fmap (fun t => t <| tls_Enabled := Some false |>) |>
                  <| spec_Unsafe := mkUnsafe true true true true |>
           else s in
  s <| spec_TLS ::= fmap (fun t => t <| tls_Enabled ::= or_nil true |>) |>.

Definition upd_pxc (f : PodSpec -> PodSpec) (s : PerconaXtraDBClusterSpec) :
    PerconaXtraDBClusterSpec :=
  s <| spec_PXC ::= fmap (fun p => p <| pxc_PodSpec ::= f |>) |>.

Definition empty_resources (r : ResourceRequirements) : bool :=
  bool_decide (rr_Limits r = ∅) && bool_decide (rr_Requests r = ∅).

(** Volume, secret names, replication channels and the TLS block of [spec.pxc]. *)
Definition defaults_pxc_secrets (name : string) (s : PerconaXtraDBClusterSpec) :
    PerconaXtraDBClusterSpec :=
  let s := upd_pxc (fun p => p <| pod_VolumeSpec ::= fmap reconcileOpts |>
                               <| pod_ImagePullPolicy ::= or_default PullAlways |>
                               <| pod_VaultSecretName := or_default (name +:+ "-vault") (spec_VaultSecretName s) |>) s in
  let s := s <| spec_SecretsName ::= or_default (name +:+ "-secrets") |> in
  let s := upd_pxc (fun p => p <| pod_SSLSecretName := or_default (name +:+ "-ssl") (spec_SSLSecretName s) |>
                               <| pod_SSLInternalSecretName :=
                                    or_default (name +:+ "-ssl-internal") (spec_SSLInternalSecretName s) |>) s in
  let s := s <| spec_PXC ::= fmap (fun p => p <| pxc_ReplicationChannels ::= fmap channel_defaults |>) |> in
  tls_defaults s.

(** The block [if c.PXC != nil] *)
Definition defaults_pxc (workloadSA : string) : M PerconaXtraDBCluster unit :=
  cr ← gets id;
  let name := cluster_Name cr in
  _ ← updSpec (defaults_pxc_secrets name);
  s ← getSpec;
  _ ← (if bool_decide (meta_DeletionTimestamp (cluster_Meta cr) = None) && negb (spec_Pause s) then
         old ← version_lt "1.15.0";
         if old : bool then updSpec setSafeDefaults
         else wrap "check safe defaults" (lift (checkSafeDefaults s))
       else mret tt);
  _ ← updSpec (upd_pxc (fun p =>
        pod_reconcileAffinityOpts
          (p <| pod_PodDisruptionBudget ::= or_nil (mkPDB None (Some 1)) |>
             <| pod_TerminationGracePeriodSeconds ::= or_nil 600 |>
             <| pod_ServiceAccountName ::= or_default workloadSA |>
             <| pod_EnvVarsSecretName ::= or_default (name +:+ "-env-vars-pxc") |>)));
  _ ← (when spec_Pause s do updSpec (upd_pxc (fun p => p <| pod_Size := 0 |>)));
  s ← getSpec;
  pxc ← lift (deref (spec_PXC s));
  pod ← wrap "pxc config" (lift (executeConfigurationTemplate (pxc_PodSpec pxc)));
  _ ← updSpec (upd_pxc (fun _ => pod));
  old ← version_lt "1.10.0";
  let inherit r := if empty_resources r then pod_Resources pod else r in
  _ ← (when (old : bool) do updSpec (fun s =>
         s <| spec_PMM ::= fmap (fun p => p <| pmm_Resources ::= inherit |>) |>
           <| spec_LogCollector ::= fmap (fun p => p <| lc_Resources ::= inherit |>) |>));
  updSpec (fun s => s <| spec_LogCollectorSecretName ::= or_default (name +:+ "-log-collector") |>).

Definition defaults_sidecars (s : PerconaXtraDBClusterSpec) : PerconaXtraDBClusterSpec :=
  s <| spec_PMM ::= fmap (fun p => if pmm_Enabled p
         then p <| pmm_ImagePullPolicy ::= or_default PullAlways |> else p) |>
    <| spec_LogCollector ::= fmap (fun p => if lc_Enabled p
         then p <| lc_ImagePullPolicy ::= or_default PullAlways |> else p) |>.

(** The block [if c.HAProxyEnabled()] *)
Definition defaults_haproxy (workloadSA : string) : M PerconaXtraDBCluster unit :=
  cr ← gets id;
  let name := cluster_Name cr in
  let s := cluster_Spec cr in
  if negb (spec_HAProxyEnabled s) then mret tt else
  h ← lift (deref (spec_HAProxy s));
  old ← version_lt "1.14.0";
  let h := if old : bool then h <| ha_ReplicasServiceEnabled ::= or_nil true |>
           else h <| ha_ExposeReplicas ::= or_nil (mkExpose true "" None [] ∅ ∅ "" "" "") |> in
  let pod := pod_reconcileAffinityOpts
        ((ha_PodSpec h) <| pod_ImagePullPolicy ::= or_default PullAlways |>
           <| pod_PodDisruptionBudget ::= or_nil (mkPDB None (Some 1)) |>
           <| pod_TerminationGracePeriodSeconds ::= or_nil 30 |>
           <| pod_ServiceAccountName ::= or_default workloadSA |>
           <| pod_EnvVarsSecretName ::= or_default (name +:+ "-env-vars-haproxy") |>) in
  _ ← updSpec (fun s => s <| spec_HAProxy := Some (h <| ha_PodSpec := pod |>) |>);
  pod ← wrap "haproxy config" (lift (executeConfigurationTemplate pod));
  let pod := if spec_Pause s then pod <| pod_Size := 0 |> else pod in
  updSpec (fun s => s <| spec_HAProxy := Some (h <| ha_PodSpec := pod |>) |>).

(** The block [if c.ProxySQLEnabled()] *)
Definition defaults_proxysql (workloadSA : string) : M PerconaXtraDBCluster unit :=
  cr ← gets id;
  let name := cluster_Name cr in
  let s := cluster_Spec cr in
  if negb (spec_ProxySQLEnabled s) then mret tt else
  ps ← lift (deref (spec_ProxySQL s));
  let pod := pod_reconcileAffinityOpts
        ((ps_PodSpec ps) <| pod_ImagePullPolicy ::= or_default PullAlways |>
           <| pod_VolumeSpec ::= fmap reconcileOpts |>
           <| pod_SSLSecretName := or_default (name +:+ "-ssl") (spec_SSLSecretName s) |>
           <| pod_SSLInternalSecretName := or_default (name +:+ "-ssl-internal") (spec_SSLInternalSecretName s) |>
           <| pod_PodDisruptionBudget ::= or_nil (mkPDB None (Some 1)) |>
           <| pod_TerminationGracePeriodSeconds ::= or_nil 30 |>
           <| pod_EnvVarsSecretName ::= or_default (name +:+ "-env-vars-proxysql") |>
           <| pod_ServiceAccountName ::= or_default workloadSA |>) in
  _ ← updSpec (fun s => s <| spec_ProxySQL := Some (ps <| ps_PodSpec := pod |>) |>);
  pod ← wrap "proxySQL config" (lift (executeConfigurationTemplate pod));
  let pod := if spec_Pause s then pod <| pod_Size := 0 |> else pod in
  updSpec (fun s => s <| spec_ProxySQL := Some (ps <| ps_PodSpec := pod |>) |>).

(** The loop over the schedules: filesystem volumes get their access mode. *)
Definition schedule_volume (st : gmap string BackupStorageSpec) (sch : PXCScheduledBackupSchedule) :
    gmap string BackupStorageSpec :=
  alter (fun s => if bool_decide (st_Type s = BackupStorageFilesystem)
                  then s <| st_Volume ::= fmap reconcileOpts |> else s)
    (sch_StorageName sch) st.

(** The block [if c.Backup != nil] *)
Definition defaults_backup (s : PerconaXtraDBClusterSpec) : PerconaXtraDBClusterSpec :=
  s <| spec_Backup ::= fmap (fun b =>
    let b := b <| bs_ImagePullPolicy ::= or_default PullAlways |> in
    let b := if pitr_Enabled (bs_PITR b)
             then b <| bs_PITR -> pitr_TimeBetweenUploads ::= or_zero 60 |>
                    <| bs_PITR -> pitr_TimeoutSeconds ::= or_zero 3600 |>
             else b in
    b <| bs_Storages ::= fun st => foldl schedule_volume st (bs_Schedule b) |>) |>.

(** [serverVersion] is the platform the server reports, if it was asked. *)
Definition defaults_platform (serverVersion : option string) (s : PerconaXtraDBClusterSpec) :
    PerconaXtraDBClusterSpec :=
  s <| spec_Platform ::= or_default (or_default PlatformKubernetes (default "" serverVersion)) |>.

Definition defaults_upgrade (s : PerconaXtraDBClusterSpec) : PerconaXtraDBClusterSpec :=
  s <| spec_EnableCRValidationWebhook ::= or_nil false |>
    <| spec_UpgradeOptions -> up_Apply ::= or_default UpgradeStrategyDisabled |>
    <| spec_UpgradeOptions -> up_VersionServiceEndpoint ::= or_default DefaultVersionServiceEndpoint |>.

(** [TLSEnabled]; its pointers are set by [tls_defaults]. *)
Definition TLSEnabled (s : PerconaXtraDBClusterSpec) : res bool :=
  if negb (unsafe_TLS (spec_Unsafe s)) then Ok true else
  tls ← deref (spec_TLS s);
  en ← deref (tls_Enabled tls);
  mret (en : bool).

(** The certificate durations. *)
Definition defaults_durations : M PerconaXtraDBCluster unit :=
  s ← getSpec;
  en ← lift (TLSEnabled s);
  if negb en then mret tt else
  tls ← lift (deref (spec_TLS s));
  let dur := default DefaultCertValidity (tls_Duration tls) in
  let cadur := default DefaultCAValidity (tls_CADuration tls) in
  _ ← updSpec (fun s => s <| spec_TLS := Some (tls <| tls_Duration := Some dur |>
                                                   <| tls_CADuration := Some cadur |>) |>);
  _ ← fail_if (bool_decide (dur < MinimumCertificateDuration))
        (".spec.tls.certValidityDuration shouldn't be smaller than " +:+
         pretty (MinimumCertificateDuration / hours 1) +:+ " hours");
  _ ← fail_if (bool_decide (cadur < dur))
        ".spec.tls.caValidityDuration shouldn't be smaller than .spec.tls.certValidityDuration";
  fail_if (bool_decide (cadur ≤ DefaultRenewBefore))
    ".spec.tls.caValidityDuration should be greater than 730 hours".

(** [CheckNSetDefaults] *)
Definition CheckNSetDefaults (serverVersion : option string) : M PerconaXtraDBCluster unit :=
  _ ← wrap "validate cr" Validate;
  old ← version_lt "1.6.0";
  let workloadSA := if old : bool then "percona-xtradb-cluster-operator-workload" else "default" in
  _ ← defaults_pxc workloadSA;
  _ ← updSpec defaults_sidecars;
  _ ← defaults_haproxy workloadSA;
  _ ← defaults_proxysql workloadSA;
  _ ← updSpec defaults_backup;
  _ ← updSpec (defaults_platform serverVersion);
  _ ← updSpec setProbesDefaults;
  _ ← updSpec setPodSecurityContext;
  _ ← updSpec setPasswordGenerationOptionsDefaults;
  _ ← updSpec defaults_upgrade;
  old ← version_lt "1.14.0";
  _ ← (when (negb old) do updSpec (fun s =>
         s <| spec_InitContainerResources ::=
                or_nil (mkResources {[ "memory" := 50000000; "cpu" := 50 ]} ∅) |>));
  defaults_durations.
End defaults.
