(* ===== verification/ApiDefaultsSpec.v ===== *)
(** * What validation and defaulting guarantee

    Theorems on [Validate] and [CheckNSetDefaults] ([ApiDefaults]). *)

From S2P Require Import Prelude GoStrings ApiTypes ApiDefaults.

(** ** What defaulting does not touch *)

Definition parallel_setting (s : PerconaXtraDBClusterSpec) : option (option bool) :=
  bs_AllowParallel <$> spec_Backup s.

Section untouched.
Context `{ApiLibs} (m : ObjectMeta) (p : option (option bool)).

Definition same_identity (c : PerconaXtraDBCluster) : Prop :=
  cluster_Meta c = m /\ parallel_setting (cluster_Spec c) = p.

Lemma keeps_updSpec f :
  (forall s, parallel_setting (f s) = parallel_setting s) -> keeps same_identity (updSpec f).
Proof.
  intros Hf c [Hm Hp]. unfold updSpec, modify, same_identity. record.simp.
  by rewrite Hf.
Qed.

Lemma keeps_fail_if b msg : keeps same_identity (fail_if b msg).
Proof. unfold fail_if. keeps_solve. Qed.
Lemma keeps_raise e : keeps same_identity (raise e).
Proof. unfold raise. keeps_solve. Qed.
Lemma keeps_version_lt v : keeps same_identity (version_lt v).
Proof. unfold version_lt. keeps_solve. Qed.
Lemma keeps_getSpec : keeps same_identity getSpec.
Proof. apply keeps_gets. Qed.

Ltac upd_solve :=
  apply keeps_updSpec; intros ?;
  unfold parallel_setting, setSafeDefaults, upd_pxc, defaults_pxc_secrets, tls_defaults,
    defaults_sidecars, defaults_platform, defaults_upgrade, setProbesDefaults,
    setPasswordGenerationOptionsDefaults;
  repeat case_match; try record.simp; try done.
Ltac ds := repeat first
  [ keeps_step
  | apply keeps_fail_if | apply keeps_raise | apply keeps_version_lt | apply keeps_getSpec
  | solve [upd_solve] ].

Lemma keeps_Validate : keeps same_identity Validate.
Proof.
  unfold Validate, validate_pxc, validate_proxies, validate_backup. ds.
  apply keeps_updSpec. intros s. unfold parallel_setting. record.simp. by destruct (spec_Backup s).
Qed.

Lemma keeps_defaults_pxc sa : keeps same_identity (defaults_pxc sa).
Proof. unfold defaults_pxc. ds. Qed.

Lemma defaults_backup_parallel s : parallel_setting (defaults_backup s) = parallel_setting s.
Proof.
  unfold parallel_setting, defaults_backup. record.simp.
  destruct (spec_Backup s) as [b|]; [|done]. cbn [fmap option_fmap option_map].
  destruct (pitr_Enabled _); by record.simp.
Qed.

Lemma setPodSecurityContext_parallel s :
  parallel_setting (setPodSecurityContext s) = parallel_setting s.
Proof.
  unfold parallel_setting, setPodSecurityContext. record.simp.
  destruct (spec_Backup s) as [b|]; [|done]. cbn [fmap option_fmap option_map]. by record.simp.
Qed.

(** Whatever it returns, [CheckNSetDefaults] changes neither the object's
    metadata nor whether parallel backups are allowed. *)
Lemma CheckNSetDefaults_identity sv : keeps same_identity (CheckNSetDefaults sv).
Proof.
  unfold CheckNSetDefaults, defaults_haproxy, defaults_proxysql, defaults_durations.
  repeat first [ apply keeps_Validate | apply keeps_defaults_pxc
               | apply keeps_updSpec, defaults_backup_parallel
               | apply keeps_updSpec, setPodSecurityContext_parallel
               | progress ds ].
Qed.
End untouched.
