(* ===== verification/BackupTypes.v ===== *)
(** * Backup destinations and storage types: [pkg/apis/pxc/v1/pxc_backup_types.go]

    A destination is one string, [s3://bucket/prefix/name], [azure://...] or
    [pvc/name]; the operator takes it apart again to find and delete a backup. *)

From S2P Require Import Prelude GoStrings ApiTypes.

Definition AzureBlobStoragePrefix : string := "azure://".
Definition AwsBlobStoragePrefix : string := "s3://".
Definition PVCStoragePrefix : string := "pvc/".

Definition SetPVCDestination (backupName : string) : string := PVCStoragePrefix +:+ backupName.
Definition SetS3Destination (bucket backupName : string) : string :=
  AwsBlobStoragePrefix +:+ bucket +:+ "/" +:+ backupName.
Definition SetAzureDestination (container backupName : string) : string :=
  AzureBlobStoragePrefix +:+ container +:+ "/" +:+ backupName.

Definition StorageTypePrefix (dest : string) : string :=
  default "" (list_find (fun p => HasPrefix dest p = true)
    [AwsBlobStoragePrefix; AzureBlobStoragePrefix; PVCStoragePrefix] ≫= fun x => Some x.2).

Definition BucketAndPrefix (dest : string) : string * string :=
  let d := TrimPrefix dest (StorageTypePrefix dest) in
  let '(bucket, rest) := Cut d "/" in
  let spl := Split rest "/" in
  if bool_decide (1 < length spl)%nat
  then (bucket, TrimSuffix (path_Join (removelast spl)) "/" +:+ "/")
  else (bucket, "").

Definition BackupName (dest : string) : string :=
  if bool_decide (StorageTypePrefix dest = PVCStoragePrefix)
  then TrimPrefix dest (StorageTypePrefix dest)
  else
    let '(bucket, prefix) := BucketAndPrefix dest in
    TrimPrefix (TrimPrefix dest (StorageTypePrefix dest +:+ path_Join [bucket; prefix])) "/".

Definition PathWithoutBucket (dest : string) : string :=
  path_Join [(BucketAndPrefix dest).2; BackupName dest].

Definition GetStorageType (st : PXCBackupStatus) (cluster : option PerconaXtraDBCluster) :
    BackupStorageType :=
  if negb (bool_decide (bst_StorageType st = StorageOther "")) then bst_StorageType st
  else
    match (cl ← cluster; b ← spec_Backup (cluster_Spec cl); bs_Storages b !! bst_StorageName st) with
    | Some s => st_Type s
    | None =>
        match bst_S3 st, bst_Azure st, bst_PVC st with
        | Some _, _, _ => BackupStorageS3
        | None, Some _, _ => BackupStorageAzure
        | None, None, Some _ => BackupStorageFilesystem
        | None, None, None => StorageOther ""
        end
    end.

Definition SetFailedStatusWithError (e : error) (cr : PerconaXtraDBClusterBackup) :
    PerconaXtraDBClusterBackup :=
  cr <| bcp_Status -> bst_State := BackupFailed |> <| bcp_Status -> bst_Error := Error e |>.

(** [HasUnfinishedFinalizers] of a backup list. *)
Definition HasUnfinishedFinalizers (l : list PerconaXtraDBClusterBackup) : bool :=
  existsb (fun b => negb (bool_decide (meta_DeletionTimestamp (bcp_Meta b) = None)) &&
                    negb (bool_decide (meta_Finalizers (bcp_Meta b) = []))) l.

(** ** A destination can be taken apart again *)

#[local] Arguments String.append : simpl nomatch.

Lemma StorageTypePrefix_s3 x : StorageTypePrefix (AwsBlobStoragePrefix +:+ x) = AwsBlobStoragePrefix.
Proof. done. Qed.

Lemma StorageTypePrefix_azure x :
  StorageTypePrefix (AzureBlobStoragePrefix +:+ x) = AzureBlobStoragePrefix.
Proof. done. Qed.

Section destination.
(** [scheme], then the bucket, the prefix components and the backup name. *)
Context (scheme bucket name : string) (ps : list string).
Context (Hscheme : scheme = AwsBlobStoragePrefix \/ scheme = AzureBlobStoragePrefix).
Context (Hbucket : plain_seg bucket) (Hps : Forall plain_seg ps) (Hname : plain_seg name).

Definition full_dest : string := scheme +:+ Join (bucket :: ps) "/" +:+ "/" +:+ name.

Lemma full_dest_type : StorageTypePrefix full_dest = scheme.
Proof.
  unfold full_dest. destruct Hscheme as [-> | ->];
    [apply StorageTypePrefix_s3|apply StorageTypePrefix_azure].
Qed.

Lemma full_dest_join : full_dest = scheme +:+ bucket +:+ "/" +:+ Join (ps ++ [name]) "/".
Proof.
  unfold full_dest. destruct ps as [|p l]; [done|].
  rewrite Join_cons, Join_app by done. simpl Join at 3. by rewrite !str_app_assoc.
Qed.

Lemma no_final_slash : ps <> [] -> TrimSuffix (Join ps "/") "/" = Join ps "/".
Proof.
  intros Hn. unfold TrimSuffix. destruct (strip_suffix "/" (Join ps "/")) as [r|] eqn:E; [|done].
  exfalso. apply strip_suffix_Some in E.
  assert (Split (Join ps "/") "/" = ps) as Hs by (apply Split_Join; [done|by apply plain_no_char]).
  rewrite E in Hs.
  assert (Split (r +:+ "/") "/" = Split r "/" ++ [""]) as Hr.
  { rewrite <- (Join_Split slash r) at 1.
    transitivity (Split (Join (Split r "/" ++ [""]) "/") "/").
    - rewrite Join_app by (done || apply (Split_not_nil slash)). done.
    - apply Split_Join; [by destruct (Split r "/")|]. apply Forall_app.
      split; [apply (Split_parts_no_char slash)|by repeat constructor]. }
  rewrite Hr in Hs. rewrite <- Hs in Hps. apply Forall_app in Hps as [_ Hlast].
  inversion_clear Hlast as [|?? (Hx & _) _]. done.
Qed.

Lemma BucketAndPrefix_full :
  BucketAndPrefix full_dest =
  (bucket, if bool_decide (ps = []) then "" else Join ps "/" +:+ "/").
Proof.
  unfold BucketAndPrefix. rewrite full_dest_type, full_dest_join, TrimPrefix_app.
  unfold Cut. rewrite (cut_at_app slash) by apply Hbucket. simpl.
  rewrite (Split_Join slash); [|by destruct ps|apply plain_no_char, Forall_app; auto].
  rewrite length_app, removelast_last. simpl. destruct (decide (ps = [])) as [E|E].
  { rewrite E. done. }
  assert (length ps <> 0)%nat by (destruct ps; [done|simpl; lia]).
  rewrite bool_decide_eq_true_2 by lia. rewrite path_Join_plain by done.
  rewrite no_final_slash by done. by rewrite bool_decide_eq_false_2.
Qed.

(** The prefix [BucketAndPrefix] returns. *)
Definition prefix_str : string := if bool_decide (ps = []) then "" else Join ps "/" +:+ "/".

Lemma plain_or_empty l : Forall plain_seg l -> Forall (fun s => s = "" \/ plain_seg s) l.
Proof. intros Hl. eapply Forall_impl; [exact Hl|]. tauto. Qed.

Lemma path_Join_bucket : path_Join [bucket; prefix_str] = Join (bucket :: ps) "/".
Proof.
  unfold path_Join, prefix_str. rewrite filter_cons_True by apply Hbucket.
  destruct (decide (ps = [])) as [E|E];
    [rewrite (bool_decide_eq_true_2 (ps = [])) by done|rewrite (bool_decide_eq_false_2 (ps = [])) by done].
  - rewrite filter_cons_False by (by intros Hx). rewrite E. by apply (path_Clean_Join bucket []).
  - rewrite filter_cons_True by (destruct (Join ps "/"); by simpl). rewrite filter_nil.
    rewrite bool_decide_eq_false_2 by done.
    transitivity (path_Clean (Join (bucket :: ps ++ [""]) "/")).
    + f_equal. rewrite (Join_cons bucket (ps ++ _)) by (by destruct ps). by rewrite Join_app.
    + rewrite path_Clean_Join; [|done|apply Forall_app; split; [by apply plain_or_empty|by repeat constructor]].
      rewrite filter_app, filter_plain by done. simpl. by rewrite app_nil_r.
Qed.

Lemma BackupName_full : BackupName full_dest = name.
Proof.
  unfold BackupName. rewrite full_dest_type, bool_decide_eq_false_2.
  - rewrite BucketAndPrefix_full. fold prefix_str. rewrite path_Join_bucket. unfold full_dest.
    rewrite str_app_assoc, TrimPrefix_app. apply (TrimPrefix_app "/").
  - by destruct Hscheme as [-> | ->].
Qed.

Lemma PathWithoutBucket_full : PathWithoutBucket full_dest = Join (ps ++ [name]) "/".
Proof.
  unfold PathWithoutBucket. rewrite BackupName_full, BucketAndPrefix_full. simpl.
  unfold path_Join. destruct (decide (ps = [])) as [E|E];
    [rewrite (bool_decide_eq_true_2 (ps = [])) by done|rewrite (bool_decide_eq_false_2 (ps = [])) by done].
  - rewrite filter_cons_False by (by intros Hx). rewrite filter_cons_True by apply Hname.
    rewrite filter_nil, E. by apply (path_Clean_Join name []).
  - rewrite filter_cons_True by (destruct (Join ps "/"); by simpl).
    rewrite filter_cons_True by apply Hname. rewrite filter_nil, bool_decide_eq_false_2 by done.
    destruct ps as [|p l] eqn:El; [done|]. inversion Hps as [|?? Hp Hl]; subst.
    transitivity (path_Clean (Join (p :: l ++ [""; name]) "/")).
    + f_equal. change (p :: l ++ [""; name]) with ((p :: l) ++ [""; name]).
      rewrite Join_app by done. simpl Join at 1. simpl Join at 3. by rewrite !str_app_assoc.
    + rewrite path_Clean_Join; [|done|].
      * rewrite filter_app, filter_plain by done. rewrite filter_cons_False by tauto.
        by rewrite filter_cons_True by apply Hname.
      * apply Forall_app. split; [by apply plain_or_empty|].
        constructor; [by left|]. constructor; [by right|constructor].
Qed.
End destination.

(** The operator finds a backup again from its destination string.  For an
    S3 or Azure destination made of a bucket (or container), any number of
    prefix components and the backup's name, [BucketAndPrefix], [BackupName] and
    [PathWithoutBucket] return exactly those parts. *)
Theorem destination_roundtrip bucket ps name :
  plain_seg bucket -> Forall plain_seg ps -> plain_seg name ->
  forall dest, dest = SetS3Destination (Join (bucket :: ps) "/") name \/
               dest = SetAzureDestination (Join (bucket :: ps) "/") name ->
  BucketAndPrefix dest = (bucket, if bool_decide (ps = []) then "" else Join ps "/" +:+ "/") /\
  BackupName dest = name /\ PathWithoutBucket dest = Join (ps ++ [name]) "/".
Proof.
  intros Hb Hp Hn dest Hd.
  assert (exists scheme, (scheme = AwsBlobStoragePrefix \/ scheme = AzureBlobStoragePrefix) /\
            dest = full_dest scheme bucket name ps) as (scheme & Hs & ->).
  { destruct Hd as [-> | ->]; [exists AwsBlobStoragePrefix|exists AzureBlobStoragePrefix]; tauto. }
  split_and!; [by apply BucketAndPrefix_full|by apply BackupName_full|by apply PathWithoutBucket_full].
Qed.

Lemma destination_roundtrip_witness :
  BackupName "s3://bucket/a/b/c1-2024-01-01-00:00:00-full" = "c1-2024-01-01-00:00:00-full" /\
  BucketAndPrefix "s3://bucket/a/b/c1-2024-01-01-00:00:00-full" = ("bucket", "a/b/").
Proof.
  assert (plain_seg "bucket") as Hb by by split_and!.
  assert (Forall plain_seg ["a"; "b"]) as Hp by (apply Forall_cons_2; [by split_and!|apply Forall_cons_2; [by split_and!|apply Forall_nil_2]]).
  assert (plain_seg "c1-2024-01-01-00:00:00-full") as Hn by by split_and!.
  destruct (destination_roundtrip _ _ _ Hb Hp Hn _ (or_introl eq_refl)) as (H1 & H2 & _).
  split; [exact H2|exact H1].
Defined.
