(* ===== verification/ScheduledBackups.v ===== *)
(** * Scheduled backups: [pkg/controller/pxc/backup.go]

    The cluster controller keeps a registry of cron jobs, one per schedule of
    the cluster object, that create backup objects, and deletes scheduled
    backups beyond the retention.  The controller state is [SS]: the API world
    and the registry [CronRegistry] of [pkg/controller/pxc/controller.go]. *)

From S2P Require Import Prelude GoStrings ApiTypes Heap KubeApi Naming RestoreTypes BackupTypes.

(** ** The registry *)

(** [BackupScheduleJob] *)
Record BackupScheduleJob := mkSchedJob {
  sj_Schedule : PXCScheduledBackupSchedule;
  sj_JobID : Z }.

(** What a cron entry of a backup schedule runs: the closure of
    [createBackupJob] with the variables it captured.  Entries of other parts of
    the operator share the scheduler. *)
Inductive CronEntry :=
| BackupEntry (cr : PerconaXtraDBCluster) (backupJob : PXCScheduledBackupSchedule)
    (finalizers : list string)
| OtherEntry.

(** [CronRegistry]: the scheduler's entries, the next entry id and the map
    [backupJobs]. *)
Record CronRegistry := mkRegistry {
  cr_entries : gmap Z CronEntry;
  cr_next : Z;
  cr_backupJobs : gmap string BackupScheduleJob }.

Record SS (W : Type) := mkSS { ss_w : W; ss_crons : CronRegistry }.
Arguments mkSS {W}.
Arguments ss_w {W}.
Arguments ss_crons {W}.

Definition onSW {W A} (m : M W A) : M (SS W) A := fun s =>
  let '(w', r) := m (ss_w s) in (mkSS w' (ss_crons s), r).
Definition getCrons {W} : M (SS W) CronRegistry := gets ss_crons.
Definition modCrons {W} (f : CronRegistry -> CronRegistry) : M (SS W) unit :=
  modify (fun s => mkSS (ss_w s) (f (ss_crons s))).

(** What the schedules need from the API and the libraries: the state of
    restores, the binlog collector, listing and changing backups, which strings
    are cron schedules, the first five hex digits of SHA-1, the clock, and the
    order in which [sync.Map.Range] visits the entries. *)
Class SchedEnv (W : Type) := {
  se_listRestores : string -> M W (list Restore);
  se_reconcileBinlogCollector : PerconaXtraDBCluster -> M W unit;
  se_deleteDeployment : NamespacedName -> M W unit;
  se_deleteService : PerconaXtraDBCluster -> M W unit;
  se_listBackups : string -> gmap string string -> M W (list PerconaXtraDBClusterBackup);
  se_deleteBackup : PerconaXtraDBClusterBackup -> M W unit;
  se_createBackup : PerconaXtraDBClusterBackup -> M W unit;
  se_getCluster : NamespacedName -> M W PerconaXtraDBCluster;
  se_now : W -> clock;
  se_cron_valid : string -> bool;
  se_sha1_5 : string -> string;
  se_range : gmap string BackupScheduleJob -> list (string * BackupScheduleJob);
  se_range_all m : se_range m ≡ₚ map_to_list m }.

Definition zero_backup : PerconaXtraDBClusterBackup :=
  mkBcp (mkMeta "" "" "" ∅ ∅ [] 0 0 None) (mkBcpSpec "" "" None None None None None)
    (mkBcpStatus BackupNew "" None "" "" None None None (StorageOther "") "" "" "" "" None None [] None).
#[export] Instance backup_inhabited : Inhabited PerconaXtraDBClusterBackup := populate zero_backup.

(** [minHeap.Less] *)
Definition created (b : PerconaXtraDBClusterBackup) : Z := meta_CreationTimestamp (bcp_Meta b).

(** [for i := k; i > 0; i-- { ret = append(ret, heap.Pop(h)) }] *)
Fixpoint pop_many (k : nat) (h : list PerconaXtraDBClusterBackup) :
    list PerconaXtraDBClusterBackup * list PerconaXtraDBClusterBackup :=
  match k with
  | O => ([], h)
  | S k' => let '(x, h') := heap_Pop created h in
            let '(ret, rest) := pop_many k' h' in (x :: ret, rest)
  end.

(** The part of [oldScheduledBackups] after the list call. *)
Definition succeeded (b : PerconaXtraDBClusterBackup) : Prop :=
  bst_State (bcp_Status b) = BackupSucceeded.

Definition oldest_beyond (items : list PerconaXtraDBClusterBackup) (keep : Z) :
    list PerconaXtraDBClusterBackup :=
  if bool_decide (Z.of_nat (length items) ≤ keep) then [] else
  let h := foldl (heap_Push created) [] (filter succeeded items) in
  if bool_decide (Z.of_nat (length h) ≤ keep) then [] else
  (pop_many (length h - Z.to_nat keep) h).1.

Definition shouldRecreateBackupJob (expected : PXCScheduledBackupSchedule)
    (existing : BackupScheduleJob) : bool :=
  let old := sj_Schedule existing in
  if negb (bool_decide (sch_Schedule old = sch_Schedule expected)) ||
     negb (bool_decide (sch_StorageName old = sch_StorageName expected)) then true else
  match sch_Retention old, sch_Retention expected with
  | Some r1, Some r2 => negb (Bool.eqb (ret_DeleteFromStorage r1) (ret_DeleteFromStorage r2))
  | _, _ => false
  end.

Section sched.
Context {W : Type} `{SchedEnv W} `{VersionLib}.

Definition backupJobClusterPrefix (clusterName : string) : string := se_sha1_5 clusterName.

Definition deletePITR (cr : PerconaXtraDBCluster) : M W unit :=
  r ← try (se_deleteDeployment (mkNN (cluster_Namespace cr) (BinlogCollectorDeploymentName cr)));
  _ ← match r with
      | inl e => if IsNotFound e then mret tt else fail (ErrWrap "delete collector deployment" e)
      | inr _ => mret tt
      end;
  b ← lift (deref (spec_Backup (cluster_Spec cr)));
  if pitr_Enabled (bs_PITR b) then mret tt else
  r ← try (se_deleteService cr);
  match r with
  | inl e => if IsNotFound e then mret tt else fail (ErrWrap "delete collector service" e)
  | inr _ => mret tt
  end.

Definition retention_selector (cr : PerconaXtraDBCluster) (ancestor : string) : gmap string string :=
  {[ LabelPerconaClusterName := cluster_Name cr; LabelPerconaBackupAncestorName := ancestor ]}.

Definition oldScheduledBackups (cr : PerconaXtraDBCluster) (ancestor : string) (keep : Z) :
    M W (list PerconaXtraDBClusterBackup) :=
  items ← se_listBackups (cluster_Namespace cr) (retention_selector cr ancestor);
  mret (oldest_beyond items keep).

Definition backupFinalizers (cr : PerconaXtraDBCluster) (backupJob : PXCScheduledBackupSchedule)
    (storageType : BackupStorageType) : res (list string) :=
  match storageType with
  | StorageOther _ => Ok []
  | _ =>
      c ← CompareVersionWith cr "1.18.0";
      mret (if bool_decide (0 <= c) && negb (ret_DeleteFromStorage (GetRetention backupJob))
            then [] else [FinalizerDeleteBackup])
  end.

(** [deleteBackupJob] *)
Definition deleteBackupJob (name : string) (reg : CronRegistry) : CronRegistry :=
  match cr_backupJobs reg !! name with
  | None => reg
  | Some job => mkRegistry (delete (sj_JobID job) (cr_entries reg)) (cr_next reg)
                  (delete name (cr_backupJobs reg))
  end.

(** [AddFuncWithSeconds] *)
Definition AddFuncWithSeconds (spec : string) (e : CronEntry) : M (SS W) Z :=
  if negb (se_cron_valid spec) then fail (ErrNew "failed to parse cron schedule") else
  reg ← getCrons;
  _ ← modCrons (fun reg => mkRegistry (<[cr_next reg := e]> (cr_entries reg)) (cr_next reg + 1)
                             (cr_backupJobs reg));
  mret (cr_next reg).

(** What a cron entry does when it fires: the function [createBackupJob]
    returns. *)
Definition fireBackupJob (cr : PerconaXtraDBCluster) (backupJob : PXCScheduledBackupSchedule)
    (finalizers : list string) : M (SS W) unit :=
  r ← try (onSW (se_getCluster (mkNN (cluster_Namespace cr) (cluster_Name cr))));
  match r with
  | inl e =>
      if IsNotFound e then modCrons (deleteBackupJob (sch_Name backupJob))
      else (* the zero cluster object is not ready *) mret tt
  | inr localCr =>
      match CanBackup localCr with
      | Some _ => mret tt
      | None =>
          now ← onSW (gets se_now);
          name ← lift (ScheduledBackupName now (cluster_Name cr) (sch_StorageName backupJob)
                         (sch_Schedule backupJob));
          labels ← lift (LabelsScheduledBackup cr (sch_Name backupJob));
          b ← lift (deref (spec_Backup (cluster_Spec cr)));
          _ ← try (onSW (se_createBackup (mkBcp
                 (mkMeta name (cluster_Namespace cr) "" labels ∅ finalizers 0 0 None)
                 (mkBcpSpec (cluster_Name cr) (sch_StorageName backupJob)
                    (bs_StartingDeadlineSeconds b) None None None None)
                 (bcp_Status zero_backup))));
          mret tt
      end
  end.

(** One turn of the loop over the schedules, with the schedule renamed. *)
Definition reconcileSchedule (cr : PerconaXtraDBCluster) (storages : gmap string BackupStorageSpec)
    (bcp : PXCScheduledBackupSchedule) : M (SS W) unit :=
  match storages !! sch_StorageName bcp with
  | None => mret tt
  | Some strg =>
      reg ← getCrons;
      let sch := cr_backupJobs reg !! sch_Name bcp in
      if match sch with None => true | Some sch => shouldRecreateBackupJob bcp sch end then
        _ ← modCrons (deleteBackupJob (sch_Name bcp));
        fs ← lift (backupFinalizers cr bcp (st_Type strg));
        r ← try (AddFuncWithSeconds (sch_Schedule bcp) (BackupEntry cr bcp fs));
        match r with
        | inl _ => mret tt
        | inr jobID =>
            modCrons (fun reg => mkRegistry (cr_entries reg) (cr_next reg)
              (<[sch_Name bcp := mkSchedJob bcp jobID]> (cr_backupJobs reg)))
        end
      else mret tt
  end.

Definition rename_schedule (prefix : string) (bcp : PXCScheduledBackupSchedule) :
    PXCScheduledBackupSchedule := bcp <| sch_Name := prefix +:+ "-" +:+ sch_Name bcp |>.

(** The body of [Range]: retention, or removal of a job without a schedule. *)
Definition reconcileItem (cr : PerconaXtraDBCluster) (prefix : string)
    (backups : gmap string PXCScheduledBackupSchedule) (item : BackupScheduleJob) : M (SS W) unit :=
  let name := sch_Name (sj_Schedule item) in
  if negb (HasPrefix name prefix) then mret tt else
  match backups !! name with
  | Some spec =>
      if IsValidCountRetention (GetRetention spec) then
        r ← try (onSW (oldScheduledBackups cr name (ret_Count (GetRetention spec))));
        match r with
        | inl _ => mret tt
        | inr oldjobs => for_each (fun todel => _ ← try (onSW (se_deleteBackup todel)); mret tt) oldjobs
        end
      else mret tt
  | None => modCrons (deleteBackupJob name)
  end.

(** The binlog collector runs only on a ready cluster, not paused and not
    being restored. *)
Definition reconcilePITR (cr : PerconaXtraDBCluster) (b : BackupSpec) : M (SS W) unit :=
  restoreRunning ← wrap "failed to check if restore is running"
    (onSW (isRestoreRunning se_listRestores (cluster_Name cr) (cluster_Namespace cr)));
  let s := cluster_Spec cr in
  _ ← (when bool_decide (cs_Status (cluster_Status cr) = AppStateReady) &&
            pitr_Enabled (bs_PITR b) && negb (spec_Pause s) && negb (restoreRunning : bool) do
         wrap "reconcile binlog collector" (onSW (se_reconcileBinlogCollector cr)));
  when negb (pitr_Enabled (bs_PITR b)) || spec_Pause s || (restoreRunning : bool) do
    wrap "delete pitr" (onSW (deletePITR cr)).

Definition reconcileBackups (cr : PerconaXtraDBCluster) : M (SS W) unit :=
  let prefix := backupJobClusterPrefix (cluster_Namespace cr +:+ "-" +:+ cluster_Name cr) in
  backups ← match spec_Backup (cluster_Spec cr) with
    | None => mret (∅ : gmap string PXCScheduledBackupSchedule)
    | Some b =>
        _ ← reconcilePITR cr b;
        let scheds := rename_schedule prefix <$> bs_Schedule b in
        _ ← for_each (reconcileSchedule cr (bs_Storages b)) scheds;
        mret (foldl (fun m sch => <[sch_Name sch := sch]> m) ∅ scheds)
    end;
  reg ← getCrons;
  for_each (fun kv => reconcileItem cr prefix backups kv.2) (se_range (cr_backupJobs reg)).
End sched.
