(* ===== verification/Deletion.v ===== *)
(** * Deleting a cluster: [pkg/controller/pxc/controller.go]

    The objects of a cluster are removed one by one, each only if it is still the
    one that was read.  When the cluster itself is being deleted, a pass runs what
    its finalizers stand for and keeps the finalizers whose work is not done. *)

From S2P Require Import Prelude GoStrings ApiTypes KubeApi Naming ClusterStatus ScheduledBackups.

(** ** Objects *)

Inductive Kind := KStatefulSet | KPod | KClaim | KSecret | KIssuer | KCertificate.

#[export] Instance Kind_eq_dec : EqDecision Kind.
Proof. solve_decision. Defined.
#[export] Instance Kind_countable : Countable Kind.
Proof.
  refine (inj_countable'
    (fun k => match k with KStatefulSet => 0 | KPod => 1 | KClaim => 2 | KSecret => 3 | KIssuer => 4 | KCertificate => 5 end%nat)
    (fun n => match n with 0 => KStatefulSet | 1 => KPod | 2 => KClaim | 3 => KSecret | 4 => KIssuer | _ => KCertificate end%nat) _).
  by intros [].
Defined.

(** An object of any kind: [ob_Controller] is the UID of the owner that controls it,
    [ob_Replicas] is used by statefulsets. *)
Record Obj := mkObj {
  ob_Key : NamespacedName;
  ob_UID : string;
  ob_Labels : gmap string string;
  ob_Controller : option string;
  ob_Replicas : option Z }.

(** [metav1.IsControlledBy] *)
Definition IsControlledBy (o : Obj) (cr : PerconaXtraDBCluster) : bool :=
  bool_decide (ob_Controller o = Some (meta_UID (cluster_Meta cr))).

(** The API server.  A request to delete an object names the UID it is expected to
    have. *)
Class ObjEnv (W : Type) := {
  oe_get : Kind -> NamespacedName -> M W Obj;
  oe_list : Kind -> string -> gmap string string -> M W (list Obj);
  oe_delete : Kind -> Obj -> M W unit;
  oe_scale : Obj -> M W unit;
  oe_sleep : Z -> M W unit;
  oe_getCluster : NamespacedName -> M W PerconaXtraDBCluster;
  oe_updateCluster : PerconaXtraDBCluster -> M W unit }.

(** [sfs.StatefulSet().Name] *)
Definition sts_name (cr : PerconaXtraDBCluster) (app : StatefulApp) : string := cluster_Name cr +:+ "-" +:+ sa_Name app.

Section deletion.
Context {W : Type} `{ObjEnv W} `{SchedEnv W} `{RetryLib}.

Definition deletePVC (namespace : string) (lbls : gmap string string) : M W unit :=
  l ← wrap "get PVC list" (oe_list KClaim namespace lbls);
  for_each (fun pvc => wrap ("delete PVC " +:+ nn_name (ob_Key pvc)) (oe_delete KClaim pvc)) l.

Definition deleteSecrets (cr : PerconaXtraDBCluster) : M W unit :=
  for_each (fun secretName =>
    got ← try (oe_get KSecret (mkNN (cluster_Namespace cr) secretName));
    match got with
    | inl e => if IsNotFound e then mret tt else fail (ErrWrap "get secret" e)
    | inr secret => wrap ("delete secret " +:+ secretName) (oe_delete KSecret secret)
    end) [spec_SecretsName (cluster_Spec cr); "internal-" +:+ cluster_Name cr; cluster_Name cr +:+ "-mysql-init"].

Definition deleteStatefulSet (cr : PerconaXtraDBCluster) (sfs : StatefulApp) (delPVC delSecrets : bool) : M W unit :=
  let name := sts_name cr sfs in
  got ← try (oe_get KStatefulSet (mkNN (cluster_Namespace cr) name));
  match got with
  | inl e => if IsNotFound e then mret tt else fail (ErrWrap ("get statefulset: " +:+ name) e)
  | inr sfsWithOwner =>
      if negb (IsControlledBy sfsWithOwner cr) then mret tt else
      del ← try (oe_delete KStatefulSet sfsWithOwner);
      _ ← match del with
          | inl e => if IsNotFound e then mret tt else fail (ErrWrap ("delete statefulset: " +:+ name) e)
          | inr _ => mret tt
          end;
      _ ← (when delPVC do wrap ("delete pvc: " +:+ name) (deletePVC (cluster_Namespace cr) (sa_Labels sfs)));
      when delSecrets do wrap "delete secrets" (deleteSecrets cr)
  end.

Definition deleteStatefulSetPods (cr : PerconaXtraDBCluster) (sfs : StatefulApp) : M W unit :=
  pods ← wrap "get pod list" (oe_list KPod (cluster_Namespace cr) (sa_Labels sfs));
  if bool_decide (length pods ≤ 1)%nat then oe_sleep 3 else
  cSet ← wrap "get StatefulSet" (oe_get KStatefulSet (mkNN (cluster_Namespace cr) (sts_name cr sfs)));
  _ ← (when (negb (bool_decide (ob_Replicas cSet = Some 1))) do
         wrap "downscale StatefulSet" (oe_scale (cSet <| ob_Replicas := Some 1 |>)));
  fail (ErrNew "waiting for pods to be deleted").

Definition deletePXCPods (cr : PerconaXtraDBCluster) : M W unit :=
  _ ← wrap "delete statefulset pods" (deleteStatefulSetPods cr (NewNode cr));
  match spec_Backup (cluster_Spec cr) with
  | Some b => when (pitr_Enabled (bs_PITR b)) do wrap "delete pitr pod" (deletePITR cr)
  | None => mret tt
  end.

(** ** Certificates *)

(** The loops of [deleteCerts]: an object that cannot be read is passed over. *)
Definition delete_named (kind : Kind) (what : string) (cr : PerconaXtraDBCluster) (names : list string) : M W unit :=
  for_each (fun name =>
    got ← try (oe_get kind (mkNN (cluster_Namespace cr) name));
    match got with
    | inl _ => mret tt
    | inr o => wrap ("delete " +:+ what +:+ " " +:+ name) (oe_delete kind o)
    end) names.

Definition or_name (name other : string) : string := if bool_decide (name = "") then other else name.

Definition cert_issuers (cr : PerconaXtraDBCluster) : list string :=
  [cluster_Name cr +:+ "-pxc-ca-issuer"; cluster_Name cr +:+ "-pxc-issuer"].
Definition cert_names (cr : PerconaXtraDBCluster) : list string :=
  [cluster_Name cr +:+ "-ssl"; cluster_Name cr +:+ "-ssl-internal"; cluster_Name cr +:+ "-ca-cert"].
Definition cert_secrets (cr : PerconaXtraDBCluster) : list string :=
  [cluster_Name cr +:+ "-ca-cert"; or_name (spec_SSLSecretName (cluster_Spec cr)) (cluster_Name cr +:+ "-ssl");
   or_name (spec_SSLInternalSecretName (cluster_Spec cr)) (cluster_Name cr +:+ "-ssl-internal")].

Definition deleteCerts (cr : PerconaXtraDBCluster) : M W unit :=
  _ ← delete_named KIssuer "issuer" cr (cert_issuers cr);
  _ ← delete_named KCertificate "certificate" cr (cert_names cr);
  delete_named KSecret "secret" cr (cert_secrets cr).

(** ** Finalizers *)

(** The [switch] of a finalizer; a name it does not know assigns nothing to [err]. *)
Definition finalizer_work (cr : PerconaXtraDBCluster) (fnlz : string) : option (M W unit) :=
  if bool_decide (fnlz = FinalizerDeleteSSL) then Some (deleteCerts cr)
  else if bool_decide (fnlz = FinalizerDeleteProxysqlPvc) then Some (deleteStatefulSet cr (NewProxy cr) true false)
  else if bool_decide (fnlz = FinalizerDeletePxcPvc) then Some (deleteStatefulSet cr (NewNode cr) true true)
  else if bool_decide (fnlz = FinalizerDeletePxcPodsInOrder) then Some (deletePXCPods cr)
  else None.

(** The loop: [err] is the variable of the pass, and outlives a turn. *)
Fixpoint run_finalizers (cr : PerconaXtraDBCluster) (fs : list string) (err : option error) : M W (list string) :=
  match fs with
  | [] => mret []
  | fnlz :: fs =>
      err ← match finalizer_work cr fnlz with
            | Some work => r ← try work; mret (match r with inl e => Some e | inr _ => None end)
            | None => mret err
            end;
      rest ← run_finalizers cr fs err;
      mret (match err with Some _ => fnlz :: rest | None => rest end)
  end.

Definition update_finalizers (n : NamespacedName) (fs : list string) : M W unit :=
  retry_on_conflict (
    cr ← wrap "get cr" (oe_getCluster n);
    oe_updateCluster (cr <| cluster_Meta -> meta_Finalizers := fs |>)).

(** The branch of [Reconcile] for a cluster that is being deleted. *)
Definition finalize (n : NamespacedName) (cr : PerconaXtraDBCluster) : M W unit :=
  finalizers ← run_finalizers cr (meta_Finalizers (cluster_Meta cr)) None;
  wrap "failed to update cr finalizers" (update_finalizers n finalizers).
End deletion.
