(* ===== verification/DeletionSpec.v ===== *)
(** * Deleting a cluster: proofs

    What a successful deletion has removed, when a finalizer is given up, and the
    cases in which it is given up too early. *)

From S2P Require Import Prelude GoStrings ApiTypes KubeApi Naming ClusterStatus ScheduledBackups Deletion.

(** The objects that are there and not being deleted; pods, which come and go by
    themselves, are not in the view. *)
Class ObjView (W : Type) := live : W -> gmap (Kind * NamespacedName) Obj.

Definition gone {W} `{ObjView W} (k : Kind) (n : NamespacedName) (w : W) : Prop := live w !! (k, n) = None.

(** Reads return what is there; an accepted deletion, and one that finds nothing,
    leave the object gone; the collector's deployment and service are other objects. *)
Class ObjLaws (W : Type) `{ObjView W} `{ObjEnv W} `{SchedEnv W} := {
  ol_get k n w w' r : oe_get k n w = (w', r) -> live w' = live w /\
    match r with
    | Ok o => ob_Key o = n /\ (forall o', live w !! (k, n) = Some o' -> o' = o)
    | Err e => IsNotFound e = true -> gone k n w
    | Panic => False
    end;
  ol_list k ns ls w w' r : oe_list k ns ls w = (w', r) -> live w' = live w /\
    (forall l o, r = Ok l -> live w !! (k, ob_Key o) = Some o -> nn_namespace (ob_Key o) = ns -> ls ⊆ ob_Labels o -> o ∈ l);
  ol_delete k o w w' r : oe_delete k o w = (w', r) -> (live w' = live w \/ live w' = delete (k, ob_Key o) (live w)) /\
    (r = Ok tt -> gone k (ob_Key o) w') /\ (forall e, r = Err e -> IsNotFound e = true -> gone k (ob_Key o) w');
  ol_scale o w w' r : oe_scale o w = (w', r) ->
    live w' = live w \/ (is_Some (live w !! (KStatefulSet, ob_Key o)) /\ live w' = <[(KStatefulSet, ob_Key o) := o]> (live w));
  ol_sleep t L : keeps (fun w => live w = L) (oe_sleep t);
  ol_deployment n L : keeps (fun w => live w = L) (se_deleteDeployment n);
  ol_service cr L : keeps (fun w => live w = L) (se_deleteService cr) }.

Section deleted.
Context {W : Type} `{ObjLaws W} `{RetryLib}.

(** ** Objects stay gone *)

Lemma keeps_gone_of_live {A} (m : M W A) k n : (forall L, keeps (fun w => live w = L) m) -> keeps (gone k n) m.
Proof. intros Hm w Hw. pose proof (Hm (live w) w eq_refl) as Heq. simpl in Heq. unfold gone in *. by rewrite Heq. Qed.

Lemma gone_get k n k' n' : keeps (W := W) (gone k n) (oe_get k' n').
Proof. apply keeps_gone_of_live. intros L w <-. destruct (oe_get k' n' w) eqn:E. simpl. by apply ol_get in E as [-> _]. Qed.
Lemma gone_list k n k' ns ls : keeps (W := W) (gone k n) (oe_list k' ns ls).
Proof. apply keeps_gone_of_live. intros L w <-. destruct (oe_list k' ns ls w) eqn:E. simpl. by apply ol_list in E as [-> _]. Qed.
Lemma gone_sleep k n t : keeps (W := W) (gone k n) (oe_sleep t).
Proof. apply keeps_gone_of_live, ol_sleep. Qed.
Lemma gone_deployment k n d : keeps (W := W) (gone k n) (se_deleteDeployment d).
Proof. apply keeps_gone_of_live, ol_deployment. Qed.
Lemma gone_service k n cr : keeps (W := W) (gone k n) (se_deleteService cr).
Proof. apply keeps_gone_of_live, ol_service. Qed.
Lemma gone_delete k n k' o : keeps (W := W) (gone k n) (oe_delete k' o).
Proof.
  intros w Hw. destruct (oe_delete k' o w) eqn:E. apply ol_delete in E as [[Heq|Heq] _]; unfold gone in *; simpl; rewrite Heq; [done|].
  by apply lookup_delete_None; right.
Qed.
Lemma gone_scale k n o : keeps (W := W) (gone k n) (oe_scale o).
Proof.
  intros w Hw. destruct (oe_scale o w) eqn:E. apply ol_scale in E as [Heq|[[x Hs] Heq]]; unfold gone in *; simpl; rewrite Heq; [done|].
  destruct (decide ((k, n) = (KStatefulSet, ob_Key o))) as [E|Hne]; [|by rewrite lookup_insert_ne]. congruence.
Qed.
#[local] Hint Resolve gone_get gone_list gone_sleep gone_deployment gone_service gone_delete gone_scale : go.

Lemma gone_deletePVC k n ns ls : keeps (W := W) (gone k n) (deletePVC ns ls).
Proof. unfold deletePVC. keeps_solve. Qed.
Lemma gone_deleteSecrets k n cr : keeps (W := W) (gone k n) (deleteSecrets cr).
Proof. unfold deleteSecrets. keeps_solve. Qed.
Lemma gone_delete_named k n kind what cr names : keeps (W := W) (gone k n) (delete_named kind what cr names).
Proof. unfold delete_named. keeps_solve. Qed.
#[local] Hint Resolve gone_deletePVC gone_deleteSecrets gone_delete_named : go.

Lemma gone_work k n cr f work : finalizer_work cr f = Some work -> keeps (W := W) (gone k n) work.
Proof.
  unfold finalizer_work. intros Hw. repeat case_bool_decide; simplify_eq.
  - unfold deleteCerts. keeps_solve.
  - unfold deleteStatefulSet. keeps_solve.
  - unfold deleteStatefulSet. keeps_solve.
  - unfold deletePXCPods, deleteStatefulSetPods, deletePITR. keeps_solve.
Qed.

(** ** What a loop of deletions has done *)

Lemma for_each_done {A} (P : A -> W -> Prop) (body : A -> M W unit) l (w w' : W) :
  (forall x w w', body x w = (w', Ok tt) -> P x w') -> (forall x y, keeps (P y) (body x)) ->
  for_each body l w = (w', Ok tt) -> forall x, x ∈ l -> P x w'.
Proof.
  intros Hdone Hkeep. revert w. induction l as [|y l IH]; intros w; [set_solver|]. cbn [for_each].
  intros (w1 & [] & E1 & E2)%bind_inv_Ok x [->|Hx]%elem_of_cons; [|by eapply IH].
  assert (keeps (P y) (for_each body l)) as Hk by (apply keeps_for_each; auto).
  pose proof (Hk w1 (Hdone _ _ _ E1)) as Hp. by rewrite E2 in Hp.
Qed.

(** The claims that carry the labels, and the secrets of the cluster. *)
Definition no_claims (ns : string) (ls : gmap string string) (w : W) : Prop :=
  forall o, live w !! (KClaim, ob_Key o) = Some o -> nn_namespace (ob_Key o) = ns -> ~ ls ⊆ ob_Labels o.

Lemma live_shrinks_delete k o (w w' : W) r : oe_delete k o w = (w', r) -> live w' ⊆ live w.
Proof. intros E. apply ol_delete in E as [[->| ->] _]; [done|apply delete_subseteq]. Qed.

Lemma deletePVC_done ns ls (w w' : W) : deletePVC ns ls w = (w', Ok tt) -> no_claims ns ls w'.
Proof.
  unfold deletePVC. intros (w1 & l & [Heq Hl]%wrap_inv_Ok%ol_list & Hrun)%bind_inv_Ok o Ho Hns Hls.
  set (body := fun pvc => _) in Hrun.
  assert (live w' ⊆ live w1) as Hsub.
  { assert (keeps (fun v => live v ⊆ live w1) (for_each body l)) as Hk.
    { apply keeps_for_each. intros x. apply keeps_wrap. intros v Hv. destruct (oe_delete KClaim x v) eqn:E. simpl.
      apply live_shrinks_delete in E. by etrans. }
    pose proof (Hk w1 (reflexivity _)) as Hp. by rewrite Hrun in Hp. }
  assert (o ∈ l) as Ha by (eapply Hl; [done| |done|done]; rewrite <- Heq; by eapply lookup_weaken).
  apply (for_each_done (fun pvc => gone KClaim (ob_Key pvc))) with (x := o) in Hrun; [| | |done].
  - unfold gone in Hrun. by rewrite Hrun in Ho.
  - intros x v v' E%wrap_inv_Ok. by apply ol_delete in E as (_ & E & _); apply E.
  - intros x y. subst body. simpl. auto with go.
Qed.

Definition secret_names (cr : PerconaXtraDBCluster) : list string :=
  [spec_SecretsName (cluster_Spec cr); "internal-" +:+ cluster_Name cr; cluster_Name cr +:+ "-mysql-init"].

Lemma deleteSecrets_done cr (w w' : W) s : deleteSecrets cr w = (w', Ok tt) -> s ∈ secret_names cr ->
  gone KSecret (mkNN (cluster_Namespace cr) s) w'.
Proof.
  unfold deleteSecrets. set (body := fun s => _). intros Hrun Hs.
  apply (for_each_done (fun s => gone KSecret (mkNN (cluster_Namespace cr) s))) with (x := s) in Hrun; [done| | |done].
  - intros x v v' (v1 & got & Hg & E)%bind_inv_Ok.
    apply try_inv_Ok in Hg as [(o & -> & [Hv [Hk _]]%ol_get)|(e & -> & [Hv Hn]%ol_get)].
    + apply wrap_inv_Ok, ol_delete in E as (_ & E & _). rewrite <- Hk. by apply E.
    + destruct (IsNotFound e) eqn:En; [|done]. injection E as <-. unfold gone. rewrite Hv. by apply Hn.
  - intros x y. subst body. simpl. keeps_solve.
Qed.

(** ** The statefulset with what belongs to it *)

Definition sts_key (cr : PerconaXtraDBCluster) (app : StatefulApp) : NamespacedName := mkNN (cluster_Namespace cr) (sts_name cr app).

Lemma no_claims_keeps ns ls cr : keeps (W := W) (no_claims ns ls) (deleteSecrets cr).
Proof.
  assert (forall k o, keeps (W := W) (no_claims ns ls) (oe_delete k o)) as Hd.
  { intros k o w Hw. destruct (oe_delete k o w) eqn:E. simpl. apply live_shrinks_delete in E. intros o' Ho'.
    apply Hw. by eapply lookup_weaken. }
  assert (forall k n, keeps (W := W) (no_claims ns ls) (oe_get k n)) as Hg.
  { intros k n w Hw. destruct (oe_get k n w) eqn:E. simpl. apply ol_get in E as [Hv _]. intros o. rewrite Hv. apply Hw. }
  unfold deleteSecrets. keeps_solve.
Qed.

(** A statefulset that is there and belongs to the cluster is removed with its claims
    and its secrets. *)
Lemma deleteStatefulSet_done cr app o (w w' : W) b :
  live w !! (KStatefulSet, sts_key cr app) = Some o -> IsControlledBy o cr = true ->
  deleteStatefulSet cr app true b w = (w', Ok tt) ->
  gone KStatefulSet (sts_key cr app) w' /\ no_claims (cluster_Namespace cr) (sa_Labels app) w' /\
  (b = true -> forall s, s ∈ secret_names cr -> gone KSecret (mkNN (cluster_Namespace cr) s) w').
Proof.
  unfold deleteStatefulSet. fold (sts_key cr app). intros Ho Hc (w1 & got & Hg & Hrun)%bind_inv_Ok.
  apply try_inv_Ok in Hg as [(o' & -> & [Hv [Hk Heq]]%ol_get)|(e & -> & [Hv Hn]%ol_get)].
  2: { destruct (IsNotFound e); [|done]. specialize (Hn eq_refl). unfold gone in Hn. congruence. }
  rewrite <- (Heq _ Ho), Hc in Hrun. cbn [negb] in Hrun.
  apply bind_inv_Ok in Hrun as (w2 & del & Hd & (w3 & [] & E3 & (w4 & [] & E4 & Hrun)%bind_inv_Ok)%bind_inv_Ok).
  assert (ob_Key o = sts_key cr app) as Hok by (by rewrite (Heq _ Ho)).
  assert (gone KStatefulSet (sts_key cr app) w3) as Hg3.
  { rewrite <- Hok. apply try_inv_Ok in Hd as [(? & -> & (_ & Hd & _)%ol_delete)|(e & -> & (_ & _ & Hd)%ol_delete)].
    - injection E3 as <-. destruct x. by apply Hd.
    - destruct (IsNotFound e) eqn:En; [|done]. injection E3 as <-. by eapply Hd. }
  apply wrap_inv_Ok in E4. pose proof (deletePVC_done _ _ _ _ E4) as Hcl.
  pose proof (gone_deletePVC KStatefulSet (sts_key cr app) (cluster_Namespace cr) (sa_Labels app) w3 Hg3) as Hg4. rewrite E4 in Hg4. simpl in Hg4.
  destruct b; [|injection Hrun as <-; done]. apply wrap_inv_Ok in Hrun.
  pose proof (gone_deleteSecrets KStatefulSet (sts_key cr app) cr w4 Hg4) as Hg5. rewrite Hrun in Hg5.
  pose proof (no_claims_keeps (cluster_Namespace cr) (sa_Labels app) cr w4 Hcl) as Hcl5. rewrite Hrun in Hcl5.
  split_and!; [done|done|]. intros _ s Hs. by eapply deleteSecrets_done.
Qed.

(** C20: deleting the database's statefulset for good removes all that belongs to it:
    after success the statefulset, every claim with its labels in the namespace, and
    the three secrets are gone (or being deleted). *)
Theorem cluster_removed_with_data cr o (w w' : W) :
  live w !! (KStatefulSet, sts_key cr (NewNode cr)) = Some o -> IsControlledBy o cr = true ->
  deleteStatefulSet cr (NewNode cr) true true w = (w', Ok tt) ->
  gone KStatefulSet (sts_key cr (NewNode cr)) w' /\ no_claims (cluster_Namespace cr) (sa_Labels (NewNode cr)) w' /\
  forall s, s ∈ secret_names cr -> gone KSecret (mkNN (cluster_Namespace cr) s) w'.
Proof. intros Ho Hc Hrun. pose proof (deleteStatefulSet_done _ _ _ _ _ _ Ho Hc Hrun) as (Hs & Hcl & Hsec). auto. Qed.

(** ** Finalizers *)

(** A turn of the loop. *)
Lemma run_finalizers_cons cr f fs err (w w' : W) l : run_finalizers cr (f :: fs) err w = (w', Ok l) ->
  exists w1 err' rest,
    match finalizer_work cr f with
    | Some work => (err' = None /\ work w = (w1, Ok tt)) \/ (exists e, err' = Some e /\ work w = (w1, Err e))
    | None => err' = err /\ w1 = w
    end /\ run_finalizers cr fs err' w1 = (w', Ok rest) /\ l = match err' with Some _ => f :: rest | None => rest end.
Proof.
  cbn [run_finalizers]. intros (w1 & err' & Herr & (w2 & rest & Hrest & Hret)%bind_inv_Ok)%bind_inv_Ok.
  unfold mret, M_ret in Hret. injection Hret as -> <-. exists w1, err', rest. split; [|done].
  destruct (finalizer_work cr f) as [work|]; [|by injection Herr as <- <-].
  apply bind_inv_Ok in Herr as (w3 & r & Hr & Hret). unfold mret, M_ret in Hret. injection Hret as <- <-.
  apply try_inv_Ok in Hr as [([] & -> & Hr)|(e & -> & Hr)]; eauto.
Qed.

Lemma gone_finalizers k n cr fs err : keeps (W := W) (gone k n) (run_finalizers cr fs err).
Proof.
  revert err. induction fs as [|f fs IH]; intros err; cbn [run_finalizers]; [keeps_solve|].
  apply keeps_bind; [|intros err'; keeps_solve]. destruct (finalizer_work cr f) as [work|] eqn:E; [|keeps_solve].
  pose proof (gone_work k n _ _ _ E). keeps_solve.
Qed.

(** A finalizer that has work to do is given up only when the work was done. *)
Lemma dropped_finalizer cr fs err f work (w w' : W) l :
  run_finalizers cr fs err w = (w', Ok l) -> f ∈ fs -> (f ∉ l) -> finalizer_work cr f = Some work ->
  exists w1 w2, work w1 = (w2, Ok tt).
Proof.
  revert err w l. induction fs as [|g fs IH]; intros err w l; [set_solver|].
  intros (w1 & err' & rest & Hturn & Hrest & ->)%run_finalizers_cons [->|Hin]%elem_of_cons Hout Hwork.
  - rewrite Hwork in Hturn. destruct Hturn as [[-> Hw]|(e & -> & Hw)]; [eauto|set_solver].
  - eapply IH; [exact Hrest|done| |done]. destruct err'; set_solver.
Qed.

(** A cluster that must stop pod by pod keeps its finalizer until at most one of
    the database pods is left. *)
Theorem pods_in_order_kept cr fs err (w w' : W) l :
  run_finalizers cr fs err w = (w', Ok l) -> FinalizerDeletePxcPodsInOrder ∈ fs -> (FinalizerDeletePxcPodsInOrder ∉ l) ->
  exists w1 w2 pods, oe_list KPod (cluster_Namespace cr) (sa_Labels (NewNode cr)) w1 = (w2, Ok pods) /\ (length pods <= 1)%nat.
Proof.
  intros Hrun Hin Hout. edestruct dropped_finalizer as (w1 & w2 & Hw); [exact Hrun|exact Hin|exact Hout|reflexivity|].
  unfold deletePXCPods in Hw. apply bind_inv_Ok in Hw as (w3 & [] & Hw%wrap_inv_Ok & _). unfold deleteStatefulSetPods in Hw.
  apply bind_inv_Ok in Hw as (w4 & pods & Hl%wrap_inv_Ok & Hw). exists w1, w4, pods. split; [done|].
  case_bool_decide; [done|]. apply bind_inv_Ok in Hw as (w5 & cSet & _ & (w6 & [] & _ & Hw)%bind_inv_Ok). done.
Qed.

(** The statefulset is there and belongs to the cluster. *)
Definition owned (cr : PerconaXtraDBCluster) (w : W) : Prop :=
  exists o, live w !! (KStatefulSet, sts_key cr (NewNode cr)) = Some o /\ IsControlledBy o cr = true.

Lemma owned_of_live cr (w w' : W) : live w' = live w -> owned cr w -> owned cr w'.
Proof. intros Hl. unfold owned. by rewrite Hl. Qed.

Lemma owned_keeps {A} (m : M W A) cr : (forall L, keeps (fun w => live w = L) m) -> keeps (owned cr) m.
Proof. intros Hm w Hw. pose proof (Hm (live w) w eq_refl) as Hl. simpl in Hl. by eapply owned_of_live. Qed.

Lemma owned_pods cr (w w' : W) r : deletePXCPods cr w = (w', r) -> owned cr w -> owned cr w'.
Proof.
  intros Hrun. assert (keeps (owned cr) (deletePXCPods cr)) as Hk; [|intros Hw; specialize (Hk w Hw); by rewrite Hrun in Hk].
  pose proof (fun n => owned_keeps (se_deleteDeployment n) cr (ol_deployment n)).
  pose proof (fun c => owned_keeps (se_deleteService c) cr (ol_service c)).
  assert (keeps (owned cr) (deleteStatefulSetPods cr (NewNode cr))); [|unfold deletePXCPods, deletePITR; keeps_solve].
  clear w w' r Hrun. intros w Hw. unfold deleteStatefulSetPods, mbind, M_bind, wrap.
  destruct (oe_list KPod _ _ w) as [w1 r1] eqn:E1. apply ol_list in E1 as [Hl1 _].
  apply (owned_of_live cr w w1 Hl1) in Hw. destruct r1 as [pods|e|]; simpl; [|done..]. case_bool_decide.
  { by apply (owned_keeps (oe_sleep 3) cr (ol_sleep 3)). }
  destruct (oe_get KStatefulSet _ w1) as [w2 r2] eqn:E2. apply ol_get in E2 as [Hl2 Hg].
  pose proof (owned_of_live cr w1 w2 Hl2 Hw) as Hw2. destruct r2 as [cSet|e|]; simpl; [|done..]. case_bool_decide; simpl; [done|].
  destruct (oe_scale _ w2) as [w3 r3] eqn:E3. simpl. apply ol_scale in E3.
  assert (owned cr w3); [|by destruct r3 as [[]|e|]].
  destruct Hg as [Hkey Hg], Hw as (o & Ho & Hc). fold (sts_key cr (NewNode cr)) in Hkey, Hg. rewrite (Hg _ Ho) in Hc.
  destruct E3 as [E3|[_ E3]]; [by eapply owned_of_live|]. eexists. rewrite E3. split.
  - replace (ob_Key (cSet <| ob_Replicas := Some 1 |>)) with (sts_key cr (NewNode cr)) by (by destruct cSet). apply lookup_insert_eq.
  - by destruct cSet.
Qed.

(** The order in which the pods stop is not kept when the data is deleted as well:
    in the pass in which the first finalizer still waits for the pods, the work of the
    second one has already removed the statefulset, the claims and the secrets. *)
Theorem data_deletion_ignores_pod_order cr err (w w' : W) :
  owned cr w ->
  run_finalizers cr [FinalizerDeletePxcPodsInOrder; FinalizerDeletePxcPvc] err w = (w', Ok [FinalizerDeletePxcPodsInOrder]) ->
  gone KStatefulSet (sts_key cr (NewNode cr)) w' /\ no_claims (cluster_Namespace cr) (sa_Labels (NewNode cr)) w' /\
  forall s, s ∈ secret_names cr -> gone KSecret (mkNN (cluster_Namespace cr) s) w'.
Proof.
  intros Hown (w1 & err1 & l1 & Ht1 & (w2 & err2 & l2 & Ht2 & Ht3 & ->)%run_finalizers_cons & Hl)%run_finalizers_cons.
  change (finalizer_work cr FinalizerDeletePxcPodsInOrder) with (Some (deletePXCPods cr)) in Ht1.
  change (finalizer_work cr FinalizerDeletePxcPvc) with (Some (deleteStatefulSet cr (NewNode cr) true true)) in Ht2.
  cbn in Ht3. injection Ht3 as <- <-. simpl in Ht1, Ht2.
  assert (deleteStatefulSet cr (NewNode cr) true true w1 = (w2, Ok tt)) as Hdel.
  { destruct Ht2 as [[_ Ht2]|(e2 & -> & _)]; [done|]. by destruct Ht1 as [[-> _]|(e1 & -> & _)]. }
  assert (owned cr w1) as (o & Ho & Hc) by (destruct Ht1 as [[_ Ht1]|(e1 & _ & Ht1)]; by eapply owned_pods).
  pose proof (deleteStatefulSet_done _ _ _ _ _ _ Ho Hc Hdel) as (Hs & Hcl & Hsec). auto.
Qed.

(** A deletion that failed half way is not taken up again: once the statefulset
    itself is gone, the next pass does nothing and gives the finalizer up, whatever
    claims and secrets are left. *)
Theorem failed_deletion_forgotten cr err (w w1 : W) e :
  oe_get KStatefulSet (sts_key cr (NewNode cr)) w = (w1, Err e) -> IsNotFound e = true ->
  run_finalizers cr [FinalizerDeletePxcPvc] err w = (w1, Ok []) /\ live w1 = live w.
Proof.
  intros Hget Hn. split; [|by apply ol_get in Hget as [-> _]]. cbn [run_finalizers].
  change (finalizer_work cr FinalizerDeletePxcPvc) with (Some (deleteStatefulSet cr (NewNode cr) true true)).
  unfold deleteStatefulSet, mbind, M_bind, try. fold (sts_key cr (NewNode cr)). by rewrite Hget, Hn.
Qed.

(** Whether a finalizer the operator does not know (such as the one of a deletion
    in the foreground) survives depends on the finalizer before it. *)
Theorem foreign_finalizer_follows_neighbour cr f work (w w' : W) r :
  finalizer_work cr f = Some work -> work w = (w', r) ->
  (r = Ok tt -> run_finalizers cr [f; "foregroundDeletion"] None w = (w', Ok [])) /\
  (forall e, r = Err e -> run_finalizers cr [f; "foregroundDeletion"] None w = (w', Ok [f; "foregroundDeletion"])).
Proof.
  intros Hf Hw. cbn [run_finalizers]. rewrite Hf. change (finalizer_work cr "foregroundDeletion") with (@None (M W unit)).
  unfold mbind, M_bind, try. rewrite Hw. split; [intros ->|intros e ->]; done.
Qed.
End deleted.
