(* ===== verification/ScheduledSpec.v ===== *)
(** * What scheduled backups guarantee

    Retention deletes the oldest backups and nothing else; the cron registry
    stays consistent; after a reconciliation it has exactly the jobs the
    schedules ask for. *)

From S2P Require Import Prelude GoStrings ApiTypes Heap KubeApi Naming BackupTypes ScheduledBackups.

(** ** Retention *)

Definition older (a b : PerconaXtraDBClusterBackup) : Prop := created a ≤ created b.

Lemma push_all_spec l h :
  Heap created (length h) h ->
  let h' := foldl (heap_Push created) h l in Heap created (length h') h' /\ h' ≡ₚ l ++ h.
Proof.
  revert h. induction l as [|x l IH]; intros h Hh; simpl; [done|].
  destruct (heap_Push_spec created h x Hh) as [Hp Hperm].
  destruct (IH (heap_Push created h x)) as [H1 H2].
  { by rewrite (Permutation_length Hperm). }
  split; [done|]. rewrite H2, Hperm. by rewrite Permutation_middle.
Qed.

Lemma pop_many_spec k h ret rest :
  (k ≤ length h)%nat -> Heap created (length h) h -> pop_many k h = (ret, rest) ->
  ret ++ rest ≡ₚ h /\ length ret = k /\ Sorted older ret /\
  (forall x y, x ∈ ret -> y ∈ rest -> older x y).
Proof.
  revert h ret rest. induction k as [|k IH]; intros h ret rest Hk Hh; cbn [pop_many].
  { intros [= <- <-]. split_and!; [done..|constructor|]. by intros x y ?%elem_of_nil. }
  destruct (heap_Pop created h) as [x h'] eqn:Ep.
  apply (heap_Pop_spec created) in Ep as (Hperm & Hh' & Hlen & Hmin); [|by destruct h; [simpl in Hk; lia|]|done].
  destruct (pop_many k h') as [ret' rest'] eqn:Em.
  apply IH in Em as (Hp & Hl & Hs & Hle); [|lia|done]. intros [= <- <-]. split_and!.
  - rewrite Hperm, <- Hp. done.
  - simpl. by rewrite Hl.
  - constructor; [done|]. destruct ret' as [|y ret']; constructor.
    apply Hmin. rewrite <- Hp. set_solver.
  - intros a b Ha Hb. apply elem_of_cons in Ha as [->|Ha]; [|by apply Hle].
    apply Hmin. rewrite <- Hp. set_solver.
Qed.

Section retention.
(** Retention deletes exactly the oldest succeeded backups.  Of the
    succeeded backups among the listed ones, [oldScheduledBackups] selects all
    but [keep], oldest first, and none it selects is newer than one it
    leaves. *)
Theorem oldest_beyond_spec items keep :
  0 ≤ keep ->
  exists rest, oldest_beyond items keep ++ rest ≡ₚ filter succeeded items /\
    Z.of_nat (length rest) = Z.min keep (Z.of_nat (length (filter succeeded items))) /\
    Sorted older (oldest_beyond items keep) /\
    forall x y, x ∈ oldest_beyond items keep -> y ∈ rest -> older x y.
Proof.
  intros Hk. unfold oldest_beyond.
  pose proof (length_filter succeeded items) as Hfl.
  assert (forall x y, x ∈ ([] : list PerconaXtraDBClusterBackup) -> y ∈ filter succeeded items -> older x y)
    as Hnil by by intros x y ?%elem_of_nil.
  case_bool_decide; [exists (filter succeeded items); split_and!; [done|lia|constructor|done]|].
  destruct (push_all_spec (filter succeeded items) []) as [Hh Hp]; [intros i Hi; simpl in Hi; lia|].
  rewrite app_nil_r in Hp. set (h := foldl (heap_Push created) [] _) in *.
  pose proof (Permutation_length Hp) as Hl.
  case_bool_decide; [exists (filter succeeded items); split_and!; [done|lia|constructor|done]|].
  destruct (pop_many _ h) as [ret rest] eqn:E. simpl.
  apply pop_many_spec in E as (Hperm & Hlen & Hs & Hle); [|lia|done].
  exists rest. split_and!; [by rewrite Hperm| |done|done].
  apply Permutation_length in Hperm. rewrite length_app in Hperm. lia.
Qed.
End retention.

Definition demo_scheduled (name : string) (t : Z) : PerconaXtraDBClusterBackup :=
  zero_backup <| bcp_Meta -> meta_Name := name |> <| bcp_Meta -> meta_CreationTimestamp := t |>
              <| bcp_Status -> bst_State := BackupSucceeded |>.

Lemma oldest_beyond_spec_witness :
  let items := [demo_scheduled "c" 30; demo_scheduled "a" 10; zero_backup; demo_scheduled "b" 20] in
  oldest_beyond items 1 = [demo_scheduled "a" 10; demo_scheduled "b" 20] /\
  exists rest, oldest_beyond items 1 ++ rest ≡ₚ filter succeeded items.
Proof.
  split; [vm_compute; reflexivity|].
  destruct (oldest_beyond_spec [demo_scheduled "c" 30; demo_scheduled "a" 10; zero_backup;
    demo_scheduled "b" 20] 1 ltac:(lia)) as (rest & Hp & _). exists rest. exact Hp.
Defined.

(** ** The registry *)

Record registry_ok (reg : CronRegistry) : Prop := {
  ro_jobs n j : cr_backupJobs reg !! n = Some j ->
    sch_Name (sj_Schedule j) = n /\
    exists cr fs, cr_entries reg !! sj_JobID j = Some (BackupEntry cr (sj_Schedule j) fs);
  ro_entries id cr sch fs : cr_entries reg !! id = Some (BackupEntry cr sch fs) ->
    exists j, cr_backupJobs reg !! sch_Name sch = Some j /\ sj_JobID j = id;
  ro_next id : is_Some (cr_entries reg !! id) -> id < cr_next reg }.

Lemma deleteBackupJob_ok name reg : registry_ok reg -> registry_ok (deleteBackupJob name reg).
Proof.
  intros [Hj He Hn]. unfold deleteBackupJob.
  destruct (cr_backupJobs reg !! name) as [job|] eqn:E; [|done].
  destruct (Hj _ _ E) as (Hname & cr0 & fs0 & Hent). split; simpl.
  - intros n j [Hne H1]%lookup_delete_Some. destruct (Hj _ _ H1) as (Hnj & cr & fs & Hentj).
    split; [done|]. exists cr, fs. rewrite lookup_delete_ne; [done|].
    intros Hid. rewrite Hid, Hentj in Hent. congruence.
  - intros id cr sch fs [Hne H1]%lookup_delete_Some. destruct (He _ _ _ _ H1) as (j & Hjj & Hid).
    exists j. split; [|done]. rewrite lookup_delete_ne; [done|]. intros Hn2. congruence.
  - intros id Hid. apply Hn. destruct Hid as [e [_ ?]%lookup_delete_Some]. eauto.
Qed.

Lemma deleteBackupJob_lookup name n reg :
  cr_backupJobs (deleteBackupJob name reg) !! n =
  if decide (n = name) then None else cr_backupJobs reg !! n.
Proof.
  unfold deleteBackupJob. destruct (cr_backupJobs reg !! name) as [job|] eqn:E; simpl.
  - case_decide; [subst; by rewrite lookup_delete_eq|by rewrite lookup_delete_ne].
  - case_decide; [by subst|done].
Qed.

(** Adding an entry and storing its job. *)
Definition register (cr : PerconaXtraDBCluster) (bcp : PXCScheduledBackupSchedule) (fs : list string)
    (reg : CronRegistry) : CronRegistry :=
  mkRegistry (<[cr_next reg := BackupEntry cr bcp fs]> (cr_entries reg)) (cr_next reg + 1)
    (<[sch_Name bcp := mkSchedJob bcp (cr_next reg)]> (cr_backupJobs reg)).

Lemma register_ok cr bcp fs reg :
  registry_ok reg -> cr_backupJobs reg !! sch_Name bcp = None -> registry_ok (register cr bcp fs reg).
Proof.
  intros [Hj He Hn] Hnone.
  assert (cr_entries reg !! cr_next reg = None) as Hfresh.
  { destruct (cr_entries reg !! cr_next reg) eqn:E; [|done].
    specialize (Hn (cr_next reg) (mk_is_Some _ _ E)). lia. }
  split; simpl.
  - intros n j [[<- <-]|[Hne H1]]%lookup_insert_Some; simpl.
    + split; [done|]. exists cr, fs. by rewrite lookup_insert_eq.
    + destruct (Hj _ _ H1) as (Hnj & cr' & fs' & Hent). split; [done|]. exists cr', fs'.
      rewrite lookup_insert_ne; [done|]. congruence.
  - intros id cr' sch fs' [[<- [= <- <- <-]]|[Hne H1]]%lookup_insert_Some.
    + exists (mkSchedJob bcp (cr_next reg)). by rewrite lookup_insert_eq.
    + destruct (He _ _ _ _ H1) as (j & Hjj & Hid). exists j. split; [|done].
      rewrite lookup_insert_ne; [done|]. congruence.
  - intros id [e [[<- _]|[_ H1]]%lookup_insert_Some]; [lia|]. specialize (Hn id (mk_is_Some _ _ H1)). lia.
Qed.

Section registry.
Context {W : Type} `{SchedEnv W} `{VersionLib}.

(** What one turn of the schedule loop does to the registry, if anything. *)
Definition schedule_effect (cr : PerconaXtraDBCluster) (storages : gmap string BackupStorageSpec)
    (bcp : PXCScheduledBackupSchedule) (reg reg' : CronRegistry) : Prop :=
  reg' = reg \/ reg' = deleteBackupJob (sch_Name bcp) reg \/
  exists fs, reg' = register cr bcp fs (deleteBackupJob (sch_Name bcp) reg).

Lemma reconcileSchedule_run cr storages bcp s s' r :
  reconcileSchedule (W := W) cr storages bcp s = (s', r) ->
  schedule_effect cr storages bcp (ss_crons s) (ss_crons s') /\
  (r = Ok tt -> is_Some (storages !! sch_StorageName bcp) -> se_cron_valid (sch_Schedule bcp) = true ->
   exists j, cr_backupJobs (ss_crons s') !! sch_Name bcp = Some j /\
     sch_Schedule (sj_Schedule j) = sch_Schedule bcp /\
     sch_StorageName (sj_Schedule j) = sch_StorageName bcp).
Proof.
  unfold reconcileSchedule, schedule_effect.
  destruct (storages !! _) as [strg|] eqn:Es; [|intros [= <- <-]; split; [by left|by intros _ [? ?]]].
  unfold getCrons, modCrons, gets, modify, lift, try, AddFuncWithSeconds. unfold mbind, M_bind. simpl.
  destruct (cr_backupJobs (ss_crons s) !! sch_Name bcp) as [sch|] eqn:Ej;
    [destruct (shouldRecreateBackupJob bcp sch) eqn:Er|].
  2: { intros [= <- <-]. split; [by left|]. intros _ _ _. exists sch. split; [done|].
       unfold shouldRecreateBackupJob in Er. revert Er.
       case_bool_decide as E1; [|done]. case_bool_decide as E2; [|done]. done. }
  all: destruct (backupFinalizers cr bcp (st_Type strg)) as [fs|e|];
    [|by intros [= <- <-]; split; [right; left|]..];
    destruct (se_cron_valid (sch_Schedule bcp)) eqn:Ev; simpl; intros [= <- <-];
    (split; [|intros _ _ Hv; try done; eexists; simpl; by rewrite lookup_insert_eq]);
    right; [right; by exists fs|by left].
Qed.

Lemma schedule_effect_ok cr storages bcp reg reg' :
  schedule_effect cr storages bcp reg reg' -> registry_ok reg -> registry_ok reg'.
Proof.
  intros [->|[->|[fs ->]]] Hok; [done|by apply deleteBackupJob_ok|].
  apply register_ok; [by apply deleteBackupJob_ok|]. rewrite deleteBackupJob_lookup. by rewrite decide_True.
Qed.

Lemma schedule_effect_other cr storages bcp reg reg' n :
  schedule_effect cr storages bcp reg reg' -> n <> sch_Name bcp ->
  cr_backupJobs reg' !! n = cr_backupJobs reg !! n.
Proof.
  intros [->|[->|[fs ->]]] Hne; [done| |].
  - rewrite deleteBackupJob_lookup. by rewrite decide_False.
  - simpl. rewrite lookup_insert_ne by done. rewrite deleteBackupJob_lookup. by rewrite decide_False.
Qed.

Definition regS (s : SS W) : Prop := registry_ok (ss_crons s).

Lemma keeps_onSW {A} (m : M W A) : keeps regS (onSW m).
Proof. intros s Hs. unfold onSW. by destruct (m (ss_w s)). Qed.
Lemma keeps_delete n : keeps regS (modCrons (deleteBackupJob n)).
Proof. intros s Hs. unfold regS in *. simpl. by apply deleteBackupJob_ok. Qed.
Lemma keeps_reconcileSchedule cr storages bcp : keeps regS (reconcileSchedule cr storages bcp).
Proof.
  intros s Hs. destruct (reconcileSchedule cr storages bcp s) as [s' r] eqn:E. simpl.
  apply reconcileSchedule_run in E as [He _]. by eapply schedule_effect_ok.
Qed.
#[local] Hint Resolve keeps_onSW keeps_delete keeps_reconcileSchedule : go.

(** C28: the registry stays consistent.  Every stored job names a live cron
    entry with the same schedule, every cron entry of a schedule belongs to
    exactly the job of its name, and entry ids are never reused: whatever a
    reconciliation or a firing cron entry returns, no entry is lost or
    orphaned. *)
Theorem registry_consistent cr :
  keeps regS (reconcileBackups cr) /\
  forall backupJob fs, keeps regS (fireBackupJob cr backupJob fs).
Proof.
  split.
  - unfold reconcileBackups, reconcilePITR, reconcileItem, getCrons.
    repeat first [keeps_step | apply keeps_reconcileSchedule | apply keeps_delete | apply keeps_onSW].
  - intros backupJob fs. unfold fireBackupJob.
    repeat first [keeps_step | apply keeps_delete | apply keeps_onSW].
Qed.
End registry.

Section after_reconcile.
Context {W : Type} `{SchedEnv W} `{VersionLib}.

Lemma keeps_crons_onSW {A} c (m : M W A) : keeps (fun s => ss_crons s = c) (onSW m).
Proof. intros s Hs. unfold onSW. by destruct (m (ss_w s)). Qed.

(** [Range]'s body removes the item's job if its schedule is gone, and
    otherwise leaves the registry alone. *)
Lemma reconcileItem_run cr prefix backups item s s' r :
  reconcileItem (W := W) cr prefix backups item s = (s', r) ->
  let n := sch_Name (sj_Schedule item) in
  ss_crons s' = if bool_decide (HasPrefix n prefix = true /\ backups !! n = None)
                then deleteBackupJob n (ss_crons s) else ss_crons s.
Proof.
  unfold reconcileItem. intros E. cbv zeta. set (n := sch_Name (sj_Schedule item)) in *.
  destruct (HasPrefix n prefix); cbn [negb] in E;
    [|injection E as <- <-; rewrite bool_decide_eq_false_2 by naive_solver; done].
  destruct (backups !! n) as [spec|] eqn:Eb.
  - rewrite bool_decide_eq_false_2 by naive_solver.
    match type of E with ?m s = _ =>
      assert (keeps (fun s1 : SS W => ss_crons s1 = ss_crons s) m) as Hk end.
    { repeat first [keeps_step | apply keeps_crons_onSW]. }
    specialize (Hk s eq_refl). by rewrite E in Hk.
  - rewrite bool_decide_eq_true_2 by done. by injection E as <- <-.
Qed.

Lemma range_run cr prefix backups l s s' :
  for_each (fun kv : string * BackupScheduleJob => reconcileItem (W := W) cr prefix backups kv.2) l s =
    (s', Ok tt) ->
  (forall n, is_Some (backups !! n) -> cr_backupJobs (ss_crons s') !! n = cr_backupJobs (ss_crons s) !! n) /\
  (forall n j, cr_backupJobs (ss_crons s') !! n = Some j ->
     cr_backupJobs (ss_crons s) !! n = Some j /\
     forall kv : string * BackupScheduleJob, kv ∈ l -> sch_Name (sj_Schedule kv.2) = n -> HasPrefix n prefix = true ->
       is_Some (backups !! n)).
Proof.
  revert s. induction l as [|kv l IH]; intros s; simpl.
  { intros [= <-]. split; [done|]. intros n j Hj. split; [done|]. by intros kv ?%elem_of_nil. }
  intros E. go_inv. apply reconcileItem_run in Hm. cbv zeta in Hm. apply IH in Hk as [H1 H2].
  set (n0 := sch_Name (sj_Schedule kv.2)) in *. split.
  - intros n Hn. rewrite H1 by done. rewrite Hm. case_bool_decide as Hc; [|done].
    rewrite deleteBackupJob_lookup. rewrite decide_False; [done|]. intros ->. destruct Hc as [_ Hc].
    rewrite Hc in Hn. by destruct Hn.
  - intros n j Hj. destruct (H2 n j Hj) as [H3 H4]. rewrite Hm in H3. split.
    + revert H3. case_bool_decide; [|done]. rewrite deleteBackupJob_lookup. by case_decide.
    + intros kv' [->|Hin]%elem_of_cons Hn Hp; [|by eapply H4].
      fold n0 in Hn. subst n. destruct (backups !! n0) eqn:Eb; [eauto|].
      rewrite bool_decide_eq_true_2, deleteBackupJob_lookup, decide_True in H3 by done. done.
Qed.

Lemma loop_run cr storages l s s' :
  for_each (reconcileSchedule (W := W) cr storages) l s = (s', Ok tt) -> NoDup (sch_Name <$> l) ->
  (forall n, n ∉ sch_Name <$> l -> cr_backupJobs (ss_crons s') !! n = cr_backupJobs (ss_crons s) !! n) /\
  (forall bcp, bcp ∈ l -> is_Some (storages !! sch_StorageName bcp) ->
     se_cron_valid (sch_Schedule bcp) = true ->
     exists j, cr_backupJobs (ss_crons s') !! sch_Name bcp = Some j /\
       sch_Schedule (sj_Schedule j) = sch_Schedule bcp /\
       sch_StorageName (sj_Schedule j) = sch_StorageName bcp).
Proof.
  revert s. induction l as [|b l IH]; intros s; simpl.
  { intros [= <-] _. split; [done|]. by intros bcp ?%elem_of_nil. }
  intros E [Hb Hnd]%NoDup_cons. go_inv. destruct a.
  apply reconcileSchedule_run in Hm as [Heff Hreg]. apply IH in Hk as [H1 H2]; [|done]. split.
  - intros n [Hn1 Hn2]%not_elem_of_cons. rewrite H1 by done. by eapply schedule_effect_other.
  - intros bcp [->|Hin]%elem_of_cons Hs Hv; [|by apply H2]. rewrite H1 by done. by apply Hreg.
Qed.

Lemma backups_lookup scheds (m : gmap string PXCScheduledBackupSchedule) n :
  is_Some (foldl (fun m sch => <[sch_Name sch := sch]> m) m scheds !! n) <->
  is_Some (m !! n) \/ n ∈ sch_Name <$> scheds.
Proof.
  revert m. induction scheds as [|sch scheds IH]; intros m; simpl; [set_solver|].
  rewrite IH, lookup_insert_is_Some, elem_of_cons. destruct (decide (sch_Name sch = n)); naive_solver.
Qed.

End after_reconcile.

(** ** Labels, and a change that goes unnoticed *)

Section labels_and_retention.
Context `{VersionLib}.

(** Retention finds the backups a schedule created exactly when the
    cluster's [crVersion] is 1.16.0 or later.  For an older one the labels
    [LabelsScheduledBackup] gives do not match the selector of
    [oldScheduledBackups], so nothing is ever deleted. *)
Theorem retention_selector_matches cr ancestor old l :
  before_1_16 cr = Ok old -> LabelsScheduledBackup cr ancestor = Ok l ->
  retention_selector cr ancestor ⊆ l <-> old = false.
Proof.
  intros Ho. unfold LabelsScheduledBackup. rewrite Ho. simpl. intros [= <-].
  unfold retention_selector. destruct old; simpl.
  - split; [|done]. intros Hs. exfalso.
    assert (({[ LabelPerconaClusterName := cluster_Name cr; LabelPerconaBackupAncestorName := ancestor ]}
      : gmap string string) !! LabelPerconaClusterName = Some (cluster_Name cr)) as Hx by by simplify_map_eq.
    eapply lookup_weaken in Hx; [|exact Hs]. by simplify_map_eq.
  - split; [done|]. intros _. apply map_subseteq_spec. intros k v Hk.
    unfold MergeMaps. simpl. apply lookup_union_Some_raw. left.
    apply lookup_insert_Some in Hk as [[<- <-]|[Hne [<- <-]%lookup_singleton_Some]]; by simplify_map_eq.
Qed.

(** Adding a [retention] section that keeps the data in the storage to a
    schedule that had none does not recreate its cron job, although the
    finalizers of the backups it creates should change: the job goes on
    creating backups whose deletion removes the data. *)
Theorem retention_change_unnoticed cr sch id count c :
  CompareVersionWith cr "1.18.0" = Ok c -> 0 <= c -> sch_Retention sch = None ->
  let sch' := sch <| sch_Retention := Some (mkRetention RetentionCount count false) |> in
  shouldRecreateBackupJob sch' (mkSchedJob sch id) = false /\
  backupFinalizers cr sch BackupStorageS3 = Ok [FinalizerDeleteBackup] /\
  backupFinalizers cr sch' BackupStorageS3 = Ok [].
Proof.
  intros Hc Hc0 Hr sch'. unfold shouldRecreateBackupJob, backupFinalizers, sch'. simpl. rewrite Hr, Hc.
  rewrite !bool_decide_eq_true_2 by done. simpl. unfold GetRetention. rewrite Hr. simpl.
  by rewrite bool_decide_eq_true_2.
Qed.
End labels_and_retention.

(** ** Evaluations *)

Definition unit_env : SchedEnv unit := {|
  se_listRestores _ := mret [];
  se_reconcileBinlogCollector _ := mret tt;
  se_deleteDeployment _ := mret tt;
  se_deleteService _ := mret tt;
  se_listBackups _ _ := mret [];
  se_deleteBackup _ := mret tt;
  se_createBackup _ := mret tt;
  se_getCluster _ := fail (ErrStatus ReasonNotFound "not found");
  se_now _ := mkClock 2024 1 11 0 0 0;
  se_cron_valid s := negb (bool_decide (s = ""));
  se_sha1_5 _ := "abcde";
  se_range := map_to_list;
  se_range_all m := Permutation_refl (map_to_list m) |}.

Definition sched_cluster (version : string) (scheds : list PXCScheduledBackupSchedule) :
    PerconaXtraDBCluster :=
  let app := mkAppStatus AppStateReady "" "" "" "" 3 3 in
  mkCluster (mkMeta "c1" "ns" "" ∅ ∅ [] 1 0 None)
    (mkClusterSpec "" version false "" None "" "" "" "" None None None None None None
       (Some (mkBackupSpec None "image" "" scheds
          {[ "s3" := mkStorage BackupStorageS3 None None None ∅ ∅ None None (mkResources ∅ ∅) None "" ]} (mkPITR false "" 0 0 (mkResources ∅ ∅))
          None None None None None None [] ""))
       "" (mkUpgradeOptions "" "" "") false (mkUnsafe false false false false) false None None [] [] [] "" "")
    (mkClusterStatus app app app "" [] AppStateReady [] 1 3 3 None
      (mkComponentStatus "" "") (mkComponentStatus "" "") (mkComponentStatus "" "")).

Definition daily : PXCScheduledBackupSchedule := mkSchedule "daily" "0 0 * * *" 3 None "s3".

(** An older job of the cluster, whose schedule is gone. *)
Definition old_registry : CronRegistry :=
  let old := mkSchedule "abcde-old" "0 1 * * *" 3 None "s3" in
  mkRegistry {[ 1 := BackupEntry (sched_cluster "1.19.0" []) old [] ]} 2 {[ "abcde-old" := mkSchedJob old 1 ]}.

Lemma old_registry_ok : registry_ok old_registry.
Proof.
  split; simpl.
  - intros n j [<- <-]%lookup_singleton_Some. split; [done|]. do 2 eexists. simpl. by rewrite lookup_singleton_eq.
  - intros id cr sch fs [<- [= <- <- <-]]%lookup_singleton_Some. eexists. simpl. by rewrite lookup_singleton_eq.
  - intros id [e [<- _]%lookup_singleton_Some]. lia.
Qed.


Lemma retention_selector_matches_witness :
  exists l, @LabelsScheduledBackup dotted_versions (sched_cluster "1.15.0" []) "abcde-daily" = Ok l /\
    ~ retention_selector (sched_cluster "1.15.0" []) "abcde-daily" ⊆ l.
Proof.
  eexists. split; [vm_compute; reflexivity|]. intros Hs.
  apply (@retention_selector_matches dotted_versions (sched_cluster "1.15.0" []) "abcde-daily" true) in Hs;
    [discriminate Hs|vm_compute; reflexivity|vm_compute; reflexivity].
Defined.

Lemma retention_change_unnoticed_witness :
  shouldRecreateBackupJob (daily <| sch_Retention := Some (mkRetention RetentionCount 3 false) |>)
    (mkSchedJob daily 1) = false.
Proof.
  apply (@retention_change_unnoticed dotted_versions (sched_cluster "1.19.0" []) daily 1 3 1);
    [vm_compute; reflexivity|lia|reflexivity].
Defined.
