(* ===== verification/BackupController.v ===== *)
(** * The backup controller: [pkg/controller/pxcbackup]

    [Reconcile] drives one [PerconaXtraDBClusterBackup] through its states
    (new, starting, running, suspended, succeeded, failed), with the lock that
    serialises backups of a cluster, the deadlines, suspension of the job while
    the cluster is unhealthy, and the finalizers that run when a backup object
    is deleted.  The controller state is [RS]: the API world, the in-memory
    backup object the handler works on, and the reconciler's own fields. *)

From S2P Require Import Prelude GoStrings ApiTypes ApiDefaults KubeApi Lease Naming CollectorPod BackupTypes.

(** ** The reconciler *)

(** [chLimit] holds [rec_used] of [rec_limit] tokens; [rec_workers] are the
    goroutines running [runBackupFinalizers], each with its backup. *)
Record Reconciler := mkReconciler {
  rec_limit : nat;
  rec_used : nat;
  rec_inProgress : gset string;
  rec_workers : list PerconaXtraDBClusterBackup }.

Record RS (W : Type) := mkRS {
  rs_w : W;
  rs_cr : PerconaXtraDBClusterBackup;
  rs_rec : Reconciler }.
Arguments mkRS {W}.
Arguments rs_w {W}.
Arguments rs_cr {W}.
Arguments rs_rec {W}.

(** Acting on the API world, and on the backup object. *)
Definition onW {W A} (m : M W A) : M (RS W) A := fun s =>
  let '(w', r) := m (rs_w s) in (mkRS w' (rs_cr s) (rs_rec s), r).
Definition getCR {W} : M (RS W) PerconaXtraDBClusterBackup := gets rs_cr.
Definition modCR {W} (f : PerconaXtraDBClusterBackup -> PerconaXtraDBClusterBackup) :
    M (RS W) unit := modify (fun s => mkRS (rs_w s) (f (rs_cr s)) (rs_rec s)).
Definition modRec {W} (f : Reconciler -> Reconciler) : M (RS W) unit :=
  modify (fun s => mkRS (rs_w s) (rs_cr s) (f (rs_rec s))).

Definition set_state (st : PXCBackupState) (cr : PerconaXtraDBClusterBackup) :
    PerconaXtraDBClusterBackup := cr <| bcp_Status -> bst_State := st |>.

(** [reconcile.Result]; [0] is an empty result. *)
Record Result := mkResult { RequeueAfter : Z }.
Definition second : Z := 1000000000.
Definition rr : Result := mkResult (5 * second).

(** ** What the controller calls elsewhere

    Job templates (package [backup] and [xtrabackup]), the init image lookup,
    the binlog collector pod and the object storage of a backup: services and
    builders the state machine does not depend on.  None of them changes an API
    object.  [be_newStorage] returns a handle of the storage client, which the
    object operations take first. *)
Class BackupEnv (W : Type) := {
  be_initImage : PerconaXtraDBCluster -> M W string;
  be_sidecarHost : PerconaXtraDBCluster -> M W string;
  be_JobSpec : PXCBackupSpec -> PerconaXtraDBCluster -> Job -> string ->
    res (list (string * string));
  be_sidecarJobSpec : PerconaXtraDBClusterBackup -> PerconaXtraDBCluster -> Job -> string ->
    string -> res (list (string * string));
  be_SetStoragePVC : list (string * string) -> PerconaXtraDBClusterBackup -> string ->
    res (list (string * string));
  be_SetStorageS3 : list (string * string) -> PerconaXtraDBClusterBackup ->
    res (list (string * string));
  be_SetStorageAzure : list (string * string) -> PerconaXtraDBClusterBackup ->
    res (list (string * string));
  be_setOwner : PerconaXtraDBClusterBackup -> Job -> res unit;
  be_BucketURL : BackupStorageS3Spec -> res string;
  be_formatTime : string -> Z -> string;
  be_collector :: CollectorPodEnv W;
  be_newStorage : PerconaXtraDBClusterBackup -> M W string;
  be_listObjects : string -> string -> M W (list string);
  be_deleteObject : string -> string -> M W unit;
  be_xtrabackupSidecar : bool;
  be_serverVersion : option string }.

(** ** Deadlines ([deadline.go]) *)

Definition errDeadlineExceeded : error := ErrVar "errDeadlineExceeded" "deadline exceeded".
Definition errSuspendedDeadlineExceeded : error :=
  ErrWrap "suspended deadline seconds exceeded" errDeadlineExceeded.
Definition errStartingDeadlineExceeded : error :=
  ErrWrap "starting deadline seconds exceeded" errDeadlineExceeded.
Definition errRunningDeadlineExceeded : error :=
  ErrWrap "running deadline seconds exceeded" errDeadlineExceeded.

(** The backup's own deadline, or else the cluster's. *)
Definition pick_deadline (own cluster : option Z) : option Z :=
  match own with Some d => Some d | None => cluster end.

(** The [select] of [tryRunBackupFinalizers]: take a token if there is one, give
    it back if the backup is already in progress, else start a goroutine. *)
Definition spawn_worker (cr : PerconaXtraDBClusterBackup) (rec : Reconciler) : Reconciler :=
  if bool_decide (rec_used rec < rec_limit rec)%nat then
    if bool_decide (meta_Name (bcp_Meta cr) ∈ rec_inProgress rec) then rec
    else mkReconciler (rec_limit rec) (S (rec_used rec))
           ({[meta_Name (bcp_Meta cr)]} ∪ rec_inProgress rec) (rec_workers rec ++ [cr])
  else rec.

Section controller.
Context {W : Type} `{KubeClient W} `{BackupEnv W} `{RetryLib} `{ApiLibs}.

Definition clusterBackup (cluster : PerconaXtraDBCluster) : res BackupSpec :=
  deref (spec_Backup (cluster_Spec cluster)).

Definition getBackupJob (cr : PerconaXtraDBClusterBackup) : M W Job :=
  kc_getJob (mkNN (meta_Namespace (bcp_Meta cr)) (BackupJobName (meta_Name (bcp_Meta cr)))).

Definition checkStartingDeadline (cluster : PerconaXtraDBCluster)
    (cr : PerconaXtraDBClusterBackup) : M W unit :=
  if negb (bool_decide (bst_State (bcp_Status cr) = BackupNew)) then mret tt else
  b ← lift (clusterBackup cluster);
  match pick_deadline (bsp_StartingDeadlineSeconds (bcp_Spec cr)) (bs_StartingDeadlineSeconds b) with
  | None => mret tt
  | Some d =>
      now ← gets kc_now;
      if bool_decide (now - meta_CreationTimestamp (bcp_Meta cr) < d * second)
      then mret tt else fail errStartingDeadlineExceeded
  end.

Definition checkRunningDeadline (cluster : PerconaXtraDBCluster)
    (cr : PerconaXtraDBClusterBackup) : M W unit :=
  if negb (bool_decide (bst_State (bcp_Status cr) = BackupStarting)) then mret tt else
  b ← lift (clusterBackup cluster);
  match pick_deadline (bsp_RunningDeadlineSeconds (bcp_Spec cr)) (bs_RunningDeadlineSeconds b) with
  | None => mret tt
  | Some d =>
      job ← wrap "failed to get backup job for running deadline check" (getBackupJob cr);
      now ← gets kc_now;
      if bool_decide (now - meta_CreationTimestamp (job_Meta job) < d * second)
      then mret tt else fail errRunningDeadlineExceeded
  end.

(** Some true [JobSuspended] condition is older than the deadline. *)
Definition suspended_too_long (now d : Z) (conds : list JobCondition) : bool :=
  existsb (fun c => bool_decide (jc_Type c = JobSuspended) && jc_True c &&
                    bool_decide (d * second < now - jc_LastTransitionTime c)) conds.

Definition checkSuspendedDeadline (cluster : PerconaXtraDBCluster)
    (cr : PerconaXtraDBClusterBackup) : M W unit :=
  r ← try (getBackupJob cr);
  match r with
  | inl e =>
      if IsNotFound e then mret tt
      else fail (ErrWrap "failed to get backup job for suspended deadline check" e)
  | inr job =>
      if negb (default false (job_Suspend job)) then mret tt else
      b ← lift (clusterBackup cluster);
      match pick_deadline (bsp_SuspendedDeadlineSeconds (bcp_Spec cr))
              (bs_SuspendedDeadlineSeconds b) with
      | None => mret tt
      | Some d =>
          now ← gets kc_now;
          if suspended_too_long now d (job_Conditions job)
          then fail errSuspendedDeadlineExceeded else mret tt
      end
  end.

Definition checkDeadlines (cluster : PerconaXtraDBCluster) (cr : PerconaXtraDBClusterBackup) :
    M W unit :=
  _ ← checkStartingDeadline cluster cr;
  _ ← checkRunningDeadline cluster cr;
  checkSuspendedDeadline cluster cr.

(** ** Status updates *)

Definition updateStatus (cr : PerconaXtraDBClusterBackup) : M W unit :=
  retry_on_conflict (
    localCr ← kc_getBackup (bcp_key cr);
    kc_statusUpdate (localCr <| bcp_Status := bcp_Status cr |>)).

Definition setFailedStatus (e : error) : M (RS W) unit :=
  _ ← modCR (SetFailedStatusWithError e);
  cr ← getCR;
  onW (updateStatus cr).

(** [setFailedStatus], then return [e]; an error of the update comes first. *)
Definition fail_backup {A} (e : error) : M (RS W) A :=
  _ ← wrap "update status" (setFailedStatus e);
  fail e.

(** ** The job's state *)

Definition finished_state (c : JobCondition) : option PXCBackupState :=
  if jc_True c then
    match jc_Type c with
    | JobFailed => Some BackupFailed
    | JobComplete => Some BackupSucceeded
    | _ => None
    end
  else None.

Definition getPXCBackupStateFromJob (job : Job) : PXCBackupState :=
  match list_find (fun c => is_Some (finished_state c)) (job_Conditions job) with
  | Some (_, c) => default BackupStarting (finished_state c)
  | None =>
      if bool_decide (0 < default 0 (job_Ready job)) || bool_decide (0 < job_Failed job)
      then BackupRunning else BackupStarting
  end.

Definition checkJobPodsRunning (job : Job) : M W bool :=
  pods ← wrap "list job pods" (kc_listPods (meta_Namespace (job_Meta job)) (meta_Labels (job_Meta job)));
  mret (existsb (fun p => bool_decide (jp_Phase p = "Running")) pods).

(** ** Suspending and resuming the job *)

(** The retried function: get the latest job, set [spec.suspend], record the
    new state. *)
Definition setJobSuspend (suspend : bool) (state : PXCBackupState) : M (RS W) unit :=
  cr ← getCR;
  job ← onW (getBackupJob cr);
  _ ← onW (kc_updateJob (job <| job_Suspend := Some suspend |>));
  _ ← modCR (set_state state);
  cr ← getCR;
  onW (updateStatus cr).

Definition suspendJobIfNeeded (cluster : PerconaXtraDBCluster) : M (RS W) unit :=
  let st := cluster_Status cluster in
  if unsafe_BackupIfUnhealthy (spec_Unsafe (cluster_Spec cluster)) then mret tt else
  if bool_decide (cs_Status st = AppStateReady) then mret tt else
  if bool_decide (app_Ready (cs_PXC st) = app_Size (cs_PXC st)) then mret tt else
  cr ← getCR;
  r ← try (onW (getBackupJob cr));
  match r with
  | inl e => if IsNotFound e then mret tt else fail e
  | inr job =>
      if existsb (fun c => jc_True c && bool_decide (jc_Type c = JobSuspended \/ jc_Type c = JobComplete))
           (job_Conditions job) then mret tt else
      if default false (job_Suspend job) then mret tt else
      retry_on_conflict (setJobSuspend true BackupSuspended)
  end.

Definition resumeJobIfNeeded (cluster : PerconaXtraDBCluster) : M (RS W) unit :=
  let st := cluster_Status cluster in
  if negb (bool_decide (cs_Status st = AppStateReady)) then mret tt else
  if negb (bool_decide (app_Ready (cs_PXC st) = app_Size (cs_PXC st))) then mret tt else
  cr ← getCR;
  r ← try (onW (getBackupJob cr));
  match r with
  | inl e => if IsNotFound e then mret tt else fail e
  | inr job =>
      let suspended := existsb (fun c => jc_True c && bool_decide (jc_Type c = JobSuspended))
                         (job_Conditions job) in
      if bool_decide (job_Suspend job = Some false) then mret tt else
      if negb suspended then mret tt else
      retry_on_conflict (setJobSuspend false BackupStarting)
  end.

Definition reconcileBackupJob (cluster : PerconaXtraDBCluster) : M (RS W) unit :=
  _ ← wrap "suspend job if needed" (suspendJobIfNeeded cluster);
  wrap "resume job if needed" (resumeJobIfNeeded cluster).

(** ** Job finalizers and clean-up *)

Definition runJobFinalizers (cr : PerconaXtraDBClusterBackup) : M W unit :=
  wrap "failed to remove keep-job finalizer" (retry_on_conflict (
    r ← try (getBackupJob cr);
    match r with
    | inl e => if IsNotFound e then mret tt else fail (ErrWrap "failed to get job" e)
    | inr job =>
        if bool_decide (FinalizerKeepJob ∈ meta_Finalizers (job_Meta job))
        then kc_updateJob (job <| job_Meta -> meta_Finalizers ::=
                                    filter (fun f => f <> FinalizerKeepJob) |>)
        else mret tt
    end)).

Definition cleanUpJob (cr : PerconaXtraDBClusterBackup) : M W unit :=
  job ← wrap "get job" (getBackupJob cr);
  _ ← wrap "run job finalizers" (runJobFinalizers cr);
  wrap "delete job" (kc_deleteJob (job_key job)).

(** ** Creating the job *)

Definition ascii_lower (c : Ascii.ascii) : Ascii.ascii :=
  let n := Ascii.nat_of_ascii c in
  if bool_decide (65 ≤ n ≤ 90)%nat then Ascii.ascii_of_nat (n + 32) else c.
Fixpoint ToLower (s : string) : string :=
  match s with EmptyString => "" | String c s' => String (ascii_lower c) (ToLower s') end.

(** [backup.NewPVC] *)
Definition NewPVC (cr : PerconaXtraDBClusterBackup) (cluster : PerconaXtraDBCluster) : res PVC :=
  old ← before_1_16 cluster;
  let uid := ToLower (meta_UID (bcp_Meta cr)) in
  let name := BackupJobName (meta_Name (bcp_Meta cr)) +:+ "-" +:+
              be_formatTime "20060102150405" (meta_CreationTimestamp (bcp_Meta cr)) +:+ "-" +:+
              (if bool_decide (8 < String.length uid)%nat then str_take 8 uid else uid) in
  mret (mkPVC (mkMeta name (meta_Namespace (bcp_Meta cr)) ""
                 (if old : bool then ∅ else LabelsCluster cluster) ∅ [] 0 0 None)
          (mkPVCSpec [] ∅)).

(** [Backup.Job] *)
Definition newJob (cr : PerconaXtraDBClusterBackup) (cluster : PerconaXtraDBCluster) : res Job :=
  let jobName := BackupJobName (meta_Name (bcp_Meta cr)) in
  labels ← LabelsBackupJob cr cluster jobName;
  b ← clusterBackup cluster;
  st ← deref (bs_Storages b !! bsp_StorageName (bcp_Spec cr));
  mret (mkJob (mkMeta jobName (meta_Namespace (bcp_Meta cr)) "" labels (st_Annotations st)
                 [FinalizerKeepJob] 0 0 None) None [] [] None 0 None).

Definition backup_dest (cr : PerconaXtraDBClusterBackup) : string :=
  bsp_PXCCluster (bcp_Spec cr) +:+ "-" +:+
  be_formatTime "2006-01-02-15:04:05" (meta_CreationTimestamp (bcp_Meta cr)) +:+ "-full".

Definition set_dest (d : string) (cr : PerconaXtraDBClusterBackup) : PerconaXtraDBClusterBackup :=
  cr <| bcp_Status -> bst_Destination := d |>.

(** The switch on the storage type: where the backup goes, and the storage
    settings of the job. *)
Definition set_storage (cluster : PerconaXtraDBCluster) (storage : BackupStorageSpec)
    (env : list (string * string)) : M (RS W) (list (string * string)) :=
  match st_Type storage with
  | BackupStorageFilesystem =>
      cr ← getCR;
      pvc ← lift (NewPVC cr cluster);
      vol ← lift (deref (st_Volume storage));
      spec ← lift (deref (vol_PersistentVolumeClaim vol));
      let pvc := pvc <| pvcobj_Spec := spec |> in
      let name := meta_Name (pvcobj_Meta pvc) in
      _ ← modCR (set_dest (SetPVCDestination name));
      r ← try (onW (kc_getPVC (meta_key (pvcobj_Meta pvc))));
      pvc ← match r with
            | inr stored => mret stored
            | inl e => if IsNotFound e
                       then _ ← wrap "create backup pvc" (onW (kc_createPVC pvc)); mret pvc
                       else fail (ErrWrap "get backup pvc" e)
            end;
      cr ← getCR;
      env ← wrap "set storage FS" (lift (be_SetStoragePVC env cr name));
      _ ← modCR (fun cr => cr <| bcp_Status -> bst_PVC := Some (pvcobj_Spec pvc) |>);
      mret env
  | BackupStorageS3 =>
      s3 ← match st_S3 storage with
           | Some s3 => mret s3 | None => fail (ErrNew "s3 storage is not specified") end;
      bucket ← wrap "failed to get bucket" (lift (be_BucketURL s3));
      _ ← modCR (fun cr => set_dest (SetS3Destination bucket (backup_dest cr)) cr);
      cr ← getCR;
      wrap "set storage FS" (lift (be_SetStorageS3 env cr))
  | BackupStorageAzure =>
      az ← match st_Azure storage with
           | Some az => mret az | None => fail (ErrNew "azure storage is not specified") end;
      _ ← modCR (fun cr => set_dest (SetAzureDestination (az_ContainerPath az) (backup_dest cr)) cr);
      cr ← getCR;
      wrap "set storage FS for Azure" (lift (be_SetStorageAzure env cr))
  | StorageOther _ => mret env
  end.

Definition createBackupJob (cluster : PerconaXtraDBCluster) (storage : BackupStorageSpec) :
    M (RS W) Job :=
  cr ← getCR;
  job ← lift (newJob cr cluster);
  initImage ← wrap "failed to get initImage" (onW (be_initImage cluster));
  env ← wrap "failed to get job spec" (
          if be_xtrabackupSidecar then
            srcNode ← wrap "failed to get primary pod dns name" (onW (be_sidecarHost cluster));
            lift (be_sidecarJobSpec cr cluster job initImage srcNode)
          else lift (be_JobSpec (bcp_Spec cr) cluster job initImage));
  env ← set_storage cluster storage env;
  cr ← getCR;
  let env := if be_xtrabackupSidecar
             then env ++ [("BACKUP_DEST", PathWithoutBucket (bst_Destination (bcp_Status cr)))]
             else env in
  let job := job <| job_Env := env |> in
  _ ← wrap "job/setControllerReference" (lift (be_setOwner cr job));
  r ← try (onW (kc_createJob job));
  match r with
  | inr _ => mret job
  | inl e => if IsAlreadyExists e then wrap "get backup job" (onW (kc_getJob (job_key job)))
             else fail (ErrWrap "create backup job" e)
  end.

(** ** Following the job *)

(** The status [updateJobStatus] derives from the job. *)
Definition job_status (bcp : PerconaXtraDBClusterBackup) (job : Job) (storageName : string)
    (storage : BackupStorageSpec) : PXCBackupStatus :=
  let st := bcp_Status bcp in
  let state := getPXCBackupStateFromJob job in
  mkBcpStatus state "" (if bool_decide (state = BackupSucceeded) then job_CompletionTime job else None)
    (bst_Destination st) storageName (st_S3 storage) (st_Azure storage) (bst_PVC st)
    (st_Type storage) (bst_Image st) (bst_SSLSecretName st) (bst_SSLInternalSecretName st)
    (bst_VaultSecretName st) (st_VerifyTLS storage) None [] None.

(** What follows a successful backup: the collector's gap and timeline files
    and the [mysql-init] secret go away. *)
Definition after_success (cluster : PerconaXtraDBCluster) : M W unit :=
  _ ← (when PITREnabled cluster do
         (pod ← wrap "get binlog collector pod" (GetPod cluster);
          r ← try (RemoveGapFile pod.1);
          _ ← match r with
              | inl e => if errors_Is e GapFileNotFound then mret tt
                         else fail (ErrWrap "remove gap file" e)
              | inr _ => mret tt
              end;
          wrap "remove timeline file" (RemoveTimelineFile pod.1)));
  r ← try (kc_deleteSecret (mkNN (cluster_Namespace cluster) (cluster_Name cluster +:+ "-mysql-init")));
  match r with
  | inl e => if IsNotFound e then mret tt else fail (ErrWrap "delete mysql-init secret" e)
  | inr _ => mret tt
  end.

Definition updateJobStatus (job : Job) (storageName : string) (storage : BackupStorageSpec)
    (cluster : PerconaXtraDBCluster) : M (RS W) unit :=
  r ← try (onW (kc_getJob (job_key job)));
  match r with
  | inl e => if IsNotFound e then mret tt else fail (ErrWrap "get backup status" e)
  | inr job =>
      bcp ← getCR;
      let status := job_status bcp job storageName storage in
      running ← (if bool_decide (bst_State status = BackupStarting)
                 then wrap "check job pods running" (onW (checkJobPodsRunning job))
                 else mret false);
      let status := if running : bool then status <| bst_State := BackupRunning |> else status in
      if bool_decide (bcp_Status bcp = status) then mret tt else
      _ ← modCR (fun cr => cr <| bcp_Status := status |>);
      _ ← (when bool_decide (bst_State status = BackupSucceeded) do onW (after_success cluster));
      cr ← getCR;
      wrap "update status" (onW (updateStatus cr))
  end.

(** ** Finalizers of the backup object *)

Definition ensureFinalizers (cluster : PerconaXtraDBCluster) : M (RS W) unit :=
  b ← lift (clusterBackup cluster);
  if GetAllowParallel b then mret tt else
  cr ← getCR;
  let fs := meta_Finalizers (bcp_Meta cr) in
  if bool_decide (FinalizerReleaseLock ∈ fs) then mret tt else
  _ ← modCR (set_finalizers (fs ++ [FinalizerReleaseLock]));
  wrap "patch finalizers" (onW (kc_patchFinalizers (bcp_key cr) (fs ++ [FinalizerReleaseLock]))).

(** Spawns a worker if a token is free and the backup has none yet. *)
Definition tryRunBackupFinalizers : M (RS W) unit :=
  cr ← getCR;
  if bool_decide (meta_DeletionTimestamp (bcp_Meta cr) = None) then mret tt else
  modRec (spawn_worker cr).

Definition lease_name (cr : PerconaXtraDBClusterBackup) (clusterName : string) : NamespacedName :=
  mkNN (meta_Namespace (bcp_Meta cr)) (BackupLeaseName clusterName).

(** The deferred call of [Reconcile]: a finished backup gives up the lock. *)
Definition releaseIfDone (cluster : PerconaXtraDBCluster) : M (RS W) unit :=
  b ← lift (clusterBackup cluster);
  if GetAllowParallel b then mret tt else
  cr ← getCR;
  if bool_decide (bst_State (bcp_Status cr) = BackupSucceeded \/
                  bst_State (bcp_Status cr) = BackupFailed) then
    _ ← try (onW (ReleaseLease (lease_name cr (cluster_Name cluster)) (BackupHolderId cr)));
    mret tt
  else mret tt.

(** ** [Reconcile] *)

(** After the deadlines: suspend or resume, take the lock, create the job and
    follow it. *)
Definition runBackup (cluster : PerconaXtraDBCluster) (storage : BackupStorageSpec) :
    M (RS W) Result :=
  _ ← wrap "reconcile backup job" (reconcileBackupJob cluster);
  match CanBackup cluster with
  | Some _ => mret rr
  | None =>
      b ← lift (clusterBackup cluster);
      cr ← getCR;
      locked ← (if bool_decide (bst_State (bcp_Status cr) = BackupNew) && negb (GetAllowParallel b)
                then lease ← wrap "acquire backup lock"
                       (onW (AcquireLease (lease_name cr (cluster_Name cluster)) (BackupHolderId cr)));
                     mret (match lease_HolderIdentity lease with
                           | Some h => negb (bool_decide (h = BackupHolderId cr))
                           | None => false
                           end)
                else mret false);
      if locked : bool then mret rr else
      pxc ← lift (deref (spec_PXC (cluster_Spec cluster)));
      _ ← (when bool_decide (bst_S3 (bcp_Status cr) = None \/ bst_Azure (bcp_Status cr) = None) do
             modCR (fun cr => cr
               <| bcp_Status -> bst_S3 := st_S3 storage |>
               <| bcp_Status -> bst_Azure := st_Azure storage |>
               <| bcp_Status -> bst_StorageType := st_Type storage |>
               <| bcp_Status -> bst_Image := bs_Image b |>
               <| bcp_Status -> bst_SSLSecretName := pod_SSLSecretName (pxc_PodSpec pxc) |>
               <| bcp_Status -> bst_SSLInternalSecretName := pod_SSLInternalSecretName (pxc_PodSpec pxc) |>
               <| bcp_Status -> bst_VaultSecretName := pod_VaultSecretName (pxc_PodSpec pxc) |>
               <| bcp_Status -> bst_VerifyTLS := st_VerifyTLS storage |>));
      r ← try (createBackupJob cluster storage);
      match r with
      | inl e => fail_backup (ErrWrap "create backup job" e)
      | inr job =>
          _ ← updateJobStatus job (bsp_StorageName (bcp_Spec cr)) storage cluster;
          mret rr
      end
  end.

(** Deadlines, then [runBackup]. *)
Definition reconcileLocked (cluster : PerconaXtraDBCluster) (storage : BackupStorageSpec) :
    M (RS W) Result :=
  cr ← getCR;
  r ← try (onW (checkDeadlines cluster cr));
  match r with
  | inr _ => runBackup cluster storage
  | inl e =>
      if negb (errors_Is e errDeadlineExceeded) then fail (ErrWrap "check deadlines" e) else
      _ ← wrap "update status" (setFailedStatus e);
      cr ← getCR;
      _ ← (when errors_Is e errSuspendedDeadlineExceeded do
             wrap "clean up suspended job" (onW (cleanUpJob cr)));
      _ ← (when errors_Is e errRunningDeadlineExceeded do
             wrap "clean up running deadline exceeded job" (onW (cleanUpJob cr)));
      mret (mkResult 0)
  end.

(** From the cluster lookup on, for a backup that is neither done nor deleted. *)
Definition reconcileActive : M (RS W) Result :=
  cr ← getCR;
  cluster ← wrap "get cluster" (wrap "get PXC cluster" (onW (kc_getCluster
              (mkNN (meta_Namespace (bcp_Meta cr)) (bsp_PXCCluster (bcp_Spec cr))))));
  b ← lift (clusterBackup cluster);
  match bs_Storages b !! bsp_StorageName (bcp_Spec cr) with
  | None => fail_backup (ErrNew ("storage " +:+ bsp_StorageName (bcp_Spec cr) +:+ " doesn't exist"))
  | Some storage =>
      if bool_decide (st_Type storage = BackupStorageFilesystem) && be_xtrabackupSidecar then
        fail_backup (ErrNew "pvc backups are not supported when 'XtrabackupSidecar' feature flag is enabled")
      else
      match CheckNSetDefaults be_serverVersion cluster with
      | (_, Panic) => panic
      | (_, Err e) => fail_backup (ErrWrap "wrong PXC options" e)
      | (cluster, Ok _) =>
          b ← lift (clusterBackup cluster);
          storage ← lift (deref (bs_Storages b !! bsp_StorageName (bcp_Spec cr)));
          _ ← wrap "ensure finalizers" (ensureFinalizers cluster);
          with_defer (reconcileLocked cluster storage) (releaseIfDone cluster)
      end
  end.

(** [Reconcile] of one request; the world starts with an arbitrary [rs_cr],
    which the first read replaces. *)
Definition Reconcile (request : NamespacedName) : M (RS W) Result :=
  r ← try (onW (kc_getBackup request));
  match r with
  | inl e => if IsNotFound e then mret rr else fail e
  | inr cr =>
      _ ← modCR (fun _ => cr);
      _ ← wrap "run finalizers" tryRunBackupFinalizers;
      if bool_decide (bst_State (bcp_Status cr) = BackupSucceeded \/
                      bst_State (bcp_Status cr) = BackupFailed) then
        _ ← wrap "run finalizers" (onW (runJobFinalizers cr));
        mret (if bool_decide (meta_Finalizers (bcp_Meta cr) = []) then mkResult 0 else rr)
      else if negb (bool_decide (meta_DeletionTimestamp (bcp_Meta cr) = None)) then mret rr
      else reconcileActive
  end.
End controller.
