(* ===== verification/BackupFinalizers.v ===== *)
(** * Backup finalizers: what runs when a backup object is deleted

    [runBackupFinalizers] of [pkg/controller/pxcbackup/controller.go] runs in a
    goroutine of its own.  It removes the backup's data, gives up the lock and
    takes the finalizers it is done with off the object.  At most [chLimit]
    such goroutines exist, and at most one per backup name. *)

From S2P Require Import Prelude GoStrings ApiTypes ApiDefaults KubeApi Lease Naming BackupTypes BackupController.

Section finalizers.
Context {W : Type} `{KubeClient W} `{BackupEnv W} `{RetryLib}.

(** ** Removing the objects of a backup

    The closure returned by [removeBackupObjects] owns the variable
    [destination] and assigns to it, so a retry starts from the value the
    previous attempt left.  The second component of the state is that
    variable. *)

Definition onStore {A} (m : M W A) : M (W * string) A := fun s =>
  let '(w', r) := m s.1 in ((w', s.2), r).

Definition delete_blobs (h : string) (blobs : list string) : M (W * string) unit :=
  for_each (fun blob => wrap ("delete object " +:+ blob) (onStore (be_deleteObject h blob))) blobs.

Definition delete_md5 (h : string) : M (W * string) unit :=
  destination ← gets snd;
  let md5 := TrimSuffix destination "/" +:+ ".md5" in
  r ← try (onStore (be_deleteObject h md5));
  match r with
  | inl e => if bool_decide (e = ErrObjectNotFound) then mret tt
             else fail (ErrWrap ("delete object " +:+ md5) e)
  | inr _ => mret tt
  end.

Definition sst_info (destination : string) : string :=
  TrimSuffix destination "/" +:+ ".sst_info/".

(** The statements the closure has twice, before and after the assignment. *)
Definition remove_prefix (msg h : string) : M (W * string) unit :=
  destination ← gets snd;
  blobs ← wrap msg (onStore (be_listObjects h destination));
  _ ← delete_blobs h blobs;
  delete_md5 h.

Definition removeBackupObjects (h : string) : M (W * string) unit :=
  _ ← remove_prefix "list backup blobs" h;
  _ ← modify (fun s => (s.1, sst_info s.2));
  remove_prefix "list backup objects" h.

(** [retry.OnError] around a fresh closure. *)
Definition retryRemove (h destination : string) : M W unit := fun w =>
  let '((w', _), r) := retry_on_error (removeBackupObjects h) (w, destination) in (w', r).

(** ** The finalizers *)

Definition bcpName (cr : PerconaXtraDBClusterBackup) : string := meta_Name (bcp_Meta cr).
Definition bcpDest (cr : PerconaXtraDBClusterBackup) : string := bst_Destination (bcp_Status cr).

Definition runS3BackupFinalizer (cr : PerconaXtraDBClusterBackup) : M W unit :=
  match bst_S3 (bcp_Status cr) with
  | None => fail (ErrNew "s3 storage is not specified")
  | Some s3 =>
      _ ← wrap "failed to get secret"
            (kc_getSecret (mkNN (meta_Namespace (bcp_Meta cr)) (s3_CredentialsSecret s3)));
      h ← be_newStorage cr;
      wrap ("failed to delete backup " +:+ bcpName cr) (retryRemove h (BackupName (bcpDest cr)))
  end.

Definition runAzureBackupFinalizer (cr : PerconaXtraDBClusterBackup) : M W unit :=
  match bst_Azure (bcp_Status cr) with
  | None => fail (ErrNew "azure storage is not specified")
  | Some _ =>
      h ← be_newStorage cr;
      wrap ("failed to delete backup " +:+ bcpName cr) (retryRemove h (BackupName (bcpDest cr)))
  end.

Definition deleteBackupPVC (ns name : string) : M W unit :=
  pvc ← wrap "get backup PVC by name" (kc_getPVC (mkNN ns name));
  wrap ("delete backup PVC " +:+ meta_Name (pvcobj_Meta pvc)) (kc_deletePVC (mkNN ns name)).

Definition runFilesystemBackupFinalizer (cr : PerconaXtraDBClusterBackup) : M W unit :=
  wrap ("failed to delete backup " +:+ bcpName cr)
    (deleteBackupPVC (meta_Namespace (bcp_Meta cr)) (BackupName (bcpDest cr))).

Definition runReleaseLockFinalizer (cr : PerconaXtraDBClusterBackup) : M W unit :=
  r ← try (ReleaseLease (lease_name cr (bsp_PXCCluster (bcp_Spec cr))) (BackupHolderId cr));
  match r with
  | inr _ => mret tt
  | inl e => if IsNotFound e || errors_Is e ErrNotTheHolder then mret tt
             else fail (ErrWrap "release backup lock" e)
  end.

(** The delete-backup branch; [None] where the loop continues without trying
    anything. *)
Definition deleteBackupAction (cr : PerconaXtraDBClusterBackup) : option (M W unit) :=
  let st := bcp_Status cr in
  if bool_decide ((bst_S3 st = None /\ bst_Azure st = None /\ bst_PVC st = None) \/
                  bst_Destination st = "") then None else
  match GetStorageType st None with
  | BackupStorageS3 =>
      if bool_decide (StorageTypePrefix (bst_Destination st) = AwsBlobStoragePrefix)
      then Some (runS3BackupFinalizer cr) else None
  | BackupStorageAzure => Some (runAzureBackupFinalizer cr)
  | BackupStorageFilesystem => Some (runFilesystemBackupFinalizer cr)
  | StorageOther _ => None
  end.

(** One turn of the loop: the finalizers it leaves on the object. *)
Definition run_finalizer (cr : PerconaXtraDBClusterBackup) (f : string) : M W (list string) :=
  if bool_decide (f = FinalizerDeleteBackup) then
    match deleteBackupAction cr with
    | None => mret []
    | Some act => r ← try act; mret (match r with inl _ => [f] | inr _ => [] end)
    end
  else if bool_decide (f = FinalizerReleaseLock) then
    r ← try (runReleaseLockFinalizer cr); mret (match r with inl _ => [f] | inr _ => [] end)
  else mret [f].

Fixpoint run_finalizers (cr : PerconaXtraDBClusterBackup) (fs : list string) : M W (list string) :=
  match fs with
  | [] => mret []
  | f :: fs' => l ← run_finalizer cr f; l' ← run_finalizers cr fs'; mret (l ++ l')
  end.

Definition runBackupFinalizers (cr : PerconaXtraDBClusterBackup) : M W unit :=
  fs ← run_finalizers cr (meta_Finalizers (bcp_Meta cr));
  _ ← try (kc_updateBackup (set_finalizers fs cr));
  mret tt.
End finalizers.

(** The deferred part of the goroutine: the backup is no longer in progress and
    the token goes back to the channel. *)
Definition worker_exit (i : nat) (cr : PerconaXtraDBClusterBackup) (rec : Reconciler) : Reconciler :=
  mkReconciler (rec_limit rec) (pred (rec_used rec))
    (rec_inProgress rec ∖ {[meta_Name (bcp_Meta cr)]}) (delete i (rec_workers rec)).

(** ** Removal is complete and removes nothing else *)

(** What an object storage promises to the finalizers: [objs h w] are the names
    stored under the handle [h]. *)
Class StorageLaws (W : Type) `{BackupEnv W} (objs : string -> W -> gset string) := {
  sl_list h p w w' r : be_listObjects h p w = (w', r) ->
    objs h w' = objs h w /\
    forall l, r = Ok l -> forall o, o ∈ l <-> o ∈ objs h w /\ HasPrefix o p = true;
  sl_delete h o w w' r : be_deleteObject h o w = (w', r) ->
    match r with
    | Ok _ => objs h w' = objs h w ∖ {[o]}
    | Err e => objs h w' = objs h w /\ (e = ErrObjectNotFound -> o ∉ objs h w)
    | Panic => objs h w' = objs h w
    end }.

(** The names the attempts work on, and what it means that one is gone. *)
Definition level (d : string) (n : nat) : string := Nat.iter n sst_info d.
Definition gone (d : string) (os : gset string) : Prop :=
  forall o, o ∈ os -> HasPrefix o d = false /\ o <> TrimSuffix d "/" +:+ ".md5".

Lemma gone_subseteq d os os' : os' ⊆ os -> gone d os -> gone d os'.
Proof. intros Hs Hg o Ho. by apply Hg, Hs. Qed.

Lemma TrimSuffix_prefix s p : HasPrefix s (TrimSuffix s p) = true.
Proof.
  unfold TrimSuffix. destruct (strip_suffix p s) as [r|] eqn:E; simpl.
  - apply strip_suffix_Some in E as ->. apply HasPrefix_app.
  - apply HasPrefix_spec. exists "". by rewrite str_app_nil_r.
Qed.

Lemma HasPrefix_trans s t u : HasPrefix s t = true -> HasPrefix t u = true -> HasPrefix s u = true.
Proof.
  rewrite !HasPrefix_spec. intros [r ->] [r' ->]. exists (r' +:+ r). by rewrite str_app_assoc.
Qed.

(** Every level extends the name it starts from (less a final slash). *)
Lemma level_prefix d n : HasPrefix (TrimSuffix (level d n) "/") (TrimSuffix d "/") = true.
Proof.
  induction n as [|n IH]; simpl.
  - apply HasPrefix_spec. exists "". by rewrite str_app_nil_r.
  - fold (level d n). unfold sst_info.
    change ".sst_info/" with (".sst_info" +:+ "/"). rewrite str_app_assoc, TrimSuffix_app.
    eapply HasPrefix_trans; [apply HasPrefix_app|done].
Qed.

Section removal.
Context {W : Type} `{KubeClient W} `{BackupEnv W} `{RetryLib}.
Context (objs : string -> W -> gset string) `{!StorageLaws W objs}.
Context (h d : string) (O0 : gset string).

(** Only objects whose name extends [d] are missing. *)
Definition shrunk (s : W * string) : Prop :=
  objs h s.1 ⊆ O0 /\ forall o, o ∈ O0 -> o ∉ objs h s.1 -> HasPrefix o (TrimSuffix d "/") = true.

(** The attempts so far finished the first [n] levels. *)
Definition at_level (n : nat) (s : W * string) : Prop :=
  s.2 = level d n /\ (forall i, (i < n)%nat -> gone (level d i) (objs h s.1)) /\ shrunk s.

Lemma onStore_list p P R E :
  (forall s w' l, P s -> objs h w' = objs h s.1 ->
     (forall o, o ∈ l <-> o ∈ objs h s.1 /\ HasPrefix o p = true) -> R l (w', s.2)) ->
  (forall s w', P s -> objs h w' = objs h s.1 -> E (w', s.2)) ->
  triple P (onStore (be_listObjects h p)) R E.
Proof.
  intros HR HE [w x] Hs. unfold onStore. simpl.
  destruct (be_listObjects h p w) as [w' r] eqn:El. apply sl_list in El as [Ho Hl]. simpl.
  destruct r as [l|e|]; [apply (HR (w, x))|apply (HE (w, x))..]; eauto.
Qed.

Lemma at_level_ext n w w' x : objs h w' = objs h w -> at_level n (w, x) -> at_level n (w', x).
Proof. unfold at_level, shrunk. simpl. by intros ->. Qed.

Lemma at_level_remove n w w' o x :
  objs h w' = objs h w ∖ {[o]} -> HasPrefix o (TrimSuffix d "/") = true ->
  at_level n (w, x) -> at_level n (w', x).
Proof.
  intros Ho Hp (Hd & Hg & Hs & Hm). unfold at_level, shrunk. simpl in *. rewrite Ho.
  split_and!; [done| |set_solver|].
  - intros i Hi. eapply gone_subseteq; [|by apply Hg]. set_solver.
  - intros o' Ho' Hn. destruct (decide (o' = o)) as [->|]; [done|]. apply Hm; set_solver.
Qed.

Lemma level_elem n o : HasPrefix o (level d n) = true -> HasPrefix o (TrimSuffix d "/") = true.
Proof.
  intros Ho. eapply HasPrefix_trans; [exact Ho|].
  eapply HasPrefix_trans; [apply (TrimSuffix_prefix _ "/")|apply level_prefix].
Qed.

(** Deleting the listed blobs leaves none with the prefix. *)
Lemma delete_blobs_triple n blobs :
  (forall o, o ∈ blobs -> HasPrefix o (level d n) = true) ->
  triple (fun s => at_level n s /\
                   forall o, o ∈ objs h s.1 -> HasPrefix o (level d n) = true -> o ∈ blobs)
    (delete_blobs h blobs)
    (fun _ s => at_level n s /\ forall o, o ∈ objs h s.1 -> HasPrefix o (level d n) = false)
    (at_level n).
Proof.
  unfold delete_blobs. induction blobs as [|b blobs IH]; intros Hb; simpl.
  - apply triple_ret. intros s [Ha Hin]. split; [done|]. intros o Ho.
    destruct (HasPrefix o (level d n)) eqn:E; [|done]. by apply Hin, elem_of_nil in E.
  - eapply triple_seq; [apply triple_wrap|intros _; apply IH; intros o Ho; apply Hb; set_solver].
    apply triple_of_run. intros [w x] s' r [Ha Hin] Hr. unfold onStore in Hr. simpl in *.
    destruct (be_deleteObject h b w) as [w' r'] eqn:Ed. injection Hr as <- <-.
    apply sl_delete in Ed. destruct r' as [[]|e|]; simpl.
    + split; [|intros o; rewrite Ed; set_solver].
      eapply at_level_remove; [done|apply (level_elem n), Hb; set_solver|done].
    + destruct Ed as [Ed _]. by eapply at_level_ext.
    + by eapply at_level_ext.
Qed.

Lemma delete_md5_triple n :
  triple (fun s => at_level n s /\ forall o, o ∈ objs h s.1 -> HasPrefix o (level d n) = false)
    (delete_md5 h)
    (fun _ s => at_level n s /\ gone (level d n) (objs h s.1))
    (at_level n).
Proof.
  apply triple_of_run. intros [w x] s' r [Ha Hn] Hr.
  unfold delete_md5, gets, try, onStore in Hr. unfold mbind, M_bind in Hr. simpl in *.
  set (md5 := TrimSuffix x "/" +:+ ".md5") in *.
  assert (x = level d n) as -> by apply Ha.
  assert (HasPrefix md5 (TrimSuffix d "/") = true) as Hp.
  { eapply HasPrefix_trans; [apply HasPrefix_app|apply level_prefix]. }
  destruct (be_deleteObject h md5 w) as [w' [[]|e|]] eqn:Ed; apply sl_delete in Ed; simpl in *.
  - injection Hr as <- <-. split; [by eapply at_level_remove|].
    intros o. simpl. rewrite Ed. intros [Ho Hne]%elem_of_difference. split; [by apply Hn|set_solver].
  - destruct Ed as [Eo Ed]. case_bool_decide; injection Hr as <- <-; [|by eapply at_level_ext].
    split; [by eapply at_level_ext|]. intros o. simpl. rewrite Eo. intros Ho. split; [by apply Hn|].
    intros ->. by apply Ed in Ho.
  - injection Hr as <- <-. by eapply at_level_ext.
Qed.

(** One level: list, delete, delete the checksum. *)
Lemma level_triple msg n :
  triple (at_level n) (remove_prefix msg h)
    (fun _ s => at_level n s /\ gone (level d n) (objs h s.1))
    (at_level n).
Proof.
  unfold remove_prefix. eapply triple_bind.
  { eapply (triple_gets _ _ (fun x s => x = level d n /\ at_level n s)). by intros s [Hx ?]. }
  intros x. simpl. eapply (triple_bind _ _ _ _ (fun blobs s =>
    (forall o, o ∈ blobs -> HasPrefix o (level d n) = true) /\ at_level n s /\
    forall o, o ∈ objs h s.1 -> HasPrefix o (level d n) = true -> o ∈ blobs)).
  { apply triple_wrap, onStore_list.
    - intros [w y] w' l [-> Ha] Ho Hl. simpl in *. split_and!.
      + naive_solver.
      + by eapply at_level_ext.
      + intros o. rewrite Ho. naive_solver.
    - intros [w y] w' [-> Ha] Ho. by eapply at_level_ext. }
  intros blobs. apply triple_pure. intros Hb.
  eapply triple_seq; [by apply delete_blobs_triple|]. intros _.
  apply delete_md5_triple.
Qed.

Lemma at_level_next n s :
  at_level n s -> gone (level d n) (objs h s.1) -> at_level (S n) (s.1, sst_info s.2).
Proof.
  intros (Hd & Hg & Hs) Hn. unfold at_level. simpl. rewrite Hd. split_and!; [done| |done].
  intros i Hi. destruct (decide (i = n)) as [->|]; [done|]. apply Hg. lia.
Qed.

(** A whole attempt, started with the first [n] levels done. *)
Lemma removeBackupObjects_triple :
  triple (fun s => exists n, at_level n s) (removeBackupObjects h)
    (fun _ s => shrunk s /\ gone d (objs h s.1) /\ gone (sst_info d) (objs h s.1))
    (fun s => exists n, at_level n s).
Proof.
  apply triple_ex. intros n.
  eapply triple_seq.
  { eapply triple_conseq; [apply (level_triple _ n)|done|done|eauto]. }
  intros _. eapply (triple_seq _ _ _ _ (at_level (S n))).
  { apply triple_modify. intros s [? ?]. by apply at_level_next. }
  intros _. eapply triple_conseq; [apply (level_triple _ (S n))|done| |eauto].
  intros _ s [(Hd & Hg & Hs) Hn]. split_and!; [done|apply (Hg O); lia|].
  destruct n as [|n]; [done|apply (Hg 1%nat); lia].
Qed.
End removal.

Section removal_theorems.
Context {W : Type} `{KubeClient W} `{BackupEnv W} `{RetryLib}.
Context (objs : string -> W -> gset string) `{!StorageLaws W objs}.

End removal_theorems.

(** ** The worker limit *)

(** [newReconciler]'s limit: [S3_WORKERS_LIMIT] if it is set, else 10.  [Ok None]
    is the nil reconciler returned with a nil error. *)
Definition workersLimit (env : string) : res (option nat) :=
  if bool_decide (env = "") then Ok (Some 10%nat) else
  match Atoi env with
  | Err e => Err (ErrWrap ("invalid S3_WORKERS_LIMIT value (" +:+ env +:+ "), should be positive int") e)
  | Ok n => if bool_decide (n <= 0) then Ok None else Ok (Some (Z.to_nat n))
  | Panic => Panic
  end.

Definition newReconciler (limit : nat) : Reconciler := mkReconciler limit 0 ∅ [].

(** What happens to the reconciler: a reconciliation tries to start a worker, a
    worker returns. *)
Inductive worker_step : Reconciler -> Reconciler -> Prop :=
| step_spawn cr rec : worker_step rec (spawn_worker cr rec)
| step_exit i cr rec : rec_workers rec !! i = Some cr -> worker_step rec (worker_exit i cr rec).

Definition worker_names (rec : Reconciler) : list string := bcpName <$> rec_workers rec.

Record workers_ok (limit : nat) (rec : Reconciler) : Prop := {
  wo_limit : rec_limit rec = limit;
  wo_tokens : rec_used rec = length (rec_workers rec);
  wo_bound : (rec_used rec ≤ rec_limit rec)%nat;
  wo_nodup : NoDup (worker_names rec);
  wo_names : rec_inProgress rec = list_to_set (worker_names rec) }.

Lemma spawn_worker_ok limit cr rec : workers_ok limit rec -> workers_ok limit (spawn_worker cr rec).
Proof.
  intros [Hl Ht Hb Hd Hn]. unfold spawn_worker.
  case_bool_decide; [|done]. case_bool_decide as Hin; [done|].
  split; simpl; [done|rewrite length_app; simpl; lia|lia| |].
  - unfold worker_names. simpl. rewrite fmap_app. apply NoDup_app. split_and!; [done| |apply NoDup_singleton].
    intros x Hx Hx'. apply list_elem_of_singleton in Hx' as ->. set_solver.
  - rewrite Hn. unfold worker_names. simpl. rewrite fmap_app, list_to_set_app_L. simpl.
    unfold bcpName. set_solver.
Qed.

Lemma worker_exit_ok limit i cr rec :
  rec_workers rec !! i = Some cr -> workers_ok limit rec -> workers_ok limit (worker_exit i cr rec).
Proof.
  intros Hi [Hl Ht Hb Hd Hn].
  pose proof (lookup_lt_Some _ _ _ Hi) as Hlt.
  assert (worker_names rec ≡ₚ bcpName cr :: worker_names (worker_exit i cr rec)) as Hp.
  { apply (fmap_Permutation bcpName _ (cr :: delete i (rec_workers rec))).
    by apply delete_Permutation. }
  split; simpl; [done|rewrite length_delete by eauto; lia|lia| |].
  - rewrite Hp in Hd. by inversion Hd.
  - rewrite Hn, (list_to_set_perm_L _ _ Hp). rewrite Hp in Hd. inversion Hd; subst.
    rewrite list_to_set_cons. unfold bcpName in *. set_solver.
Qed.

