(* ===== verification/MutexHandlers.v ===== *)
(** * The invariant of the backup lock

    When a cluster does not allow parallel backups, the controller guards the
    backup job with a lease.  [Inv] is the invariant of the stored objects from
    which mutual exclusion follows; the lemmas here say which changes of the
    stored objects keep it. *)

From S2P Require Import Prelude GoStrings ApiTypes KubeApi Lease Naming CollectorPod ApiDefaults ApiDefaultsSpec BackupTypes BackupController BackupFinalizers.

(** ** Vocabulary *)

(** What identifies a backup and never changes. *)
Definition bcp_id (b : PerconaXtraDBClusterBackup) : string * string * string * PXCBackupSpec :=
  (meta_Namespace (bcp_Meta b), meta_Name (bcp_Meta b), meta_UID (bcp_Meta b), bcp_Spec b).

Definition job_of (b : PerconaXtraDBClusterBackup) : NamespacedName :=
  mkNN (meta_Namespace (bcp_Meta b)) (BackupJobName (meta_Name (bcp_Meta b))).
Definition lease_of (b : PerconaXtraDBClusterBackup) : NamespacedName :=
  lease_name b (bsp_PXCCluster (bcp_Spec b)).

Definition terminal (b : PerconaXtraDBClusterBackup) : Prop :=
  bst_State (bcp_Status b) = BackupSucceeded \/ bst_State (bcp_Status b) = BackupFailed.
Definition active (b : PerconaXtraDBClusterBackup) : Prop :=
  ~ terminal b /\ meta_DeletionTimestamp (bcp_Meta b) = None.

Definition job_finished (j : Job) : Prop :=
  getPXCBackupStateFromJob j = BackupSucceeded \/ getPXCBackupStateFromJob j = BackupFailed.
Definition job_done (s : Server) (b : PerconaXtraDBClusterBackup) : Prop :=
  exists j, srv_jobs s !! job_of b = Some j /\ job_finished j.
Definition job_running (s : Server) (b : PerconaXtraDBClusterBackup) : Prop :=
  exists j, srv_jobs s !! job_of b = Some j /\ ~ job_finished j.
Definition holds (s : Server) (b : PerconaXtraDBClusterBackup) : Prop :=
  exists l, srv_leases s !! lease_of b = Some l /\ lease_HolderIdentity l = Some (BackupHolderId b).
Definition started (s : Server) (b : PerconaXtraDBClusterBackup) : Prop :=
  bst_State (bcp_Status b) <> BackupNew \/ is_Some (srv_jobs s !! job_of b).
Definition covered (s : Server) (b : PerconaXtraDBClusterBackup) : Prop := holds s b \/ job_done s b.

Lemma bcp_id_key a b : bcp_id a = bcp_id b -> bcp_key a = bcp_key b.
Proof. unfold bcp_id, bcp_key, meta_key. by intros [= -> -> _ _]. Qed.
Lemma bcp_id_job a b : bcp_id a = bcp_id b -> job_of a = job_of b.
Proof. unfold bcp_id, job_of. by intros [= -> -> _ _]. Qed.
Lemma bcp_id_lease a b : bcp_id a = bcp_id b -> lease_of a = lease_of b.
Proof. unfold bcp_id, lease_of, lease_name. by intros [= -> _ _ ->]. Qed.
Lemma bcp_id_holder a b : bcp_id a = bcp_id b -> BackupHolderId a = BackupHolderId b.
Proof. unfold bcp_id, BackupHolderId. by intros [= _ -> -> _]. Qed.
Lemma bcp_id_covered s a b : bcp_id a = bcp_id b -> covered s a -> covered s b.
Proof.
  intros Hid. unfold covered, holds, job_done.
  by rewrite (bcp_id_job _ _ Hid), (bcp_id_lease _ _ Hid), (bcp_id_holder _ _ Hid).
Qed.

#[export] Instance terminal_dec b : Decision (terminal b).
Proof. unfold terminal. apply _. Defined.
#[export] Instance job_finished_dec j : Decision (job_finished j).
Proof. unfold job_finished. apply _. Defined.

Section invariant.
Context (ns cname : string).

(** The backups the lock is about: those of the cluster [ns/cname]. *)
Definition of_cluster (b : PerconaXtraDBClusterBackup) : Prop :=
  meta_Namespace (bcp_Meta b) = ns /\ bsp_PXCCluster (bcp_Spec b) = cname.
#[export] Instance of_cluster_dec b : Decision (of_cluster b).
Proof. unfold of_cluster. apply _. Defined.
Definition cluster_lease : NamespacedName := mkNN ns (BackupLeaseName cname).

Definition serial_backups (c : PerconaXtraDBCluster) : Prop :=
  forall p, parallel_setting (cluster_Spec c) = Some p -> p = Some false.

Record Inv (s : Server) (ws : list PerconaXtraDBClusterBackup) : Prop := {
  inv_keyed k b : srv_backups s !! k = Some b -> bcp_key b = k;
  inv_uid k b : srv_backups s !! k = Some b -> String.length (meta_UID (bcp_Meta b)) = 36%nat;
  inv_jobs k1 k2 b1 b2 :
    srv_backups s !! k1 = Some b1 -> srv_backups s !! k2 = Some b2 ->
    job_of b1 = job_of b2 -> k1 = k2;
  inv_lock k b :
    srv_backups s !! k = Some b -> of_cluster b -> active b -> started s b -> covered s b;
  inv_holder l :
    srv_leases s !! cluster_lease = Some l -> is_Some (lease_HolderIdentity l);
  inv_serial c : srv_clusters s !! mkNN ns cname = Some c -> serial_backups c;
  inv_settled k j : srv_jobs s !! k = Some j -> settle_job j = Some j;
  inv_workers cr : cr ∈ ws ->
    String.length (meta_UID (bcp_Meta cr)) = 36%nat /\
    forall b, srv_backups s !! bcp_key cr = Some b ->
      meta_UID (bcp_Meta b) = meta_UID (bcp_Meta cr) -> meta_DeletionTimestamp (bcp_Meta b) <> None }.

Lemma of_cluster_lease b : of_cluster b -> lease_of b = cluster_lease.
Proof. unfold of_cluster, lease_of, lease_name, cluster_lease. by intros [-> ->]. Qed.

Lemma bcp_id_cluster a b : bcp_id a = bcp_id b -> of_cluster a -> of_cluster b.
Proof. unfold bcp_id, of_cluster. by intros [= -> _ _ ->]. Qed.

(** Two backups of the cluster that hold the lock are one. *)
Lemma holds_unique s ws k1 k2 b1 b2 :
  Inv s ws -> srv_backups s !! k1 = Some b1 -> srv_backups s !! k2 = Some b2 ->
  of_cluster b1 -> of_cluster b2 -> holds s b1 -> holds s b2 -> k1 = k2.
Proof.
  intros HI H1 H2 C1 C2 (l1 & L1 & E1) (l2 & L2 & E2).
  rewrite (of_cluster_lease _ C1) in L1. rewrite (of_cluster_lease _ C2) in L2.
  rewrite L1 in L2. injection L2 as <-. rewrite E1 in E2. injection E2 as Hh.
  apply BackupHolderId_inj in Hh as [Hn _];
    [|by rewrite (inv_uid _ _ HI _ _ H1), (inv_uid _ _ HI _ _ H2)].
  rewrite <- (inv_keyed _ _ HI _ _ H1), <- (inv_keyed _ _ HI _ _ H2).
  destruct C1 as [N1 _], C2 as [N2 _]. unfold bcp_key, meta_key. by rewrite Hn, N1, N2.
Qed.

(** ** Effects on the stored objects that keep the invariant *)

Lemma Inv_frame s s' ws :
  srv_backups s' = srv_backups s -> srv_jobs s' = srv_jobs s ->
  srv_leases s' = srv_leases s -> srv_clusters s' = srv_clusters s -> Inv s ws -> Inv s' ws.
Proof.
  intros Hb Hj Hl Hc [I1 I2 I3 I4 I5 I6 I7 I8].
  split; unfold started, covered, holds, job_done in *; rewrite ?Hb, ?Hj, ?Hl, ?Hc; eauto.
Qed.

(** A stored backup changes, but not its identity or its deletion mark. *)
Lemma Inv_backup s ws k b b' :
  Inv s ws -> srv_backups s !! k = Some b -> bcp_id b' = bcp_id b ->
  meta_DeletionTimestamp (bcp_Meta b') = meta_DeletionTimestamp (bcp_Meta b) ->
  (of_cluster b -> active b' -> started s b' -> covered s b) ->
  Inv (s <| srv_backups := <[k := b']> (srv_backups s) |>) ws.
Proof.
  intros HI Hk Hid Hd Hc.
  assert (forall k1 b1, <[k := b']> (srv_backups s) !! k1 = Some b1 ->
    exists b2, srv_backups s !! k1 = Some b2 /\ bcp_id b1 = bcp_id b2 /\
      meta_DeletionTimestamp (bcp_Meta b1) = meta_DeletionTimestamp (bcp_Meta b2)) as Hold.
  { intros k1 b1. destruct (decide (k = k1)) as [<-|Hne].
    - rewrite lookup_insert_eq. intros [= <-]. eauto.
    - rewrite lookup_insert_ne by done. eauto. }
  split; record.simp.
  - intros k1 b1 H1. apply Hold in H1 as (b2 & H2 & E & _).
    rewrite (bcp_id_key _ _ E). by eapply inv_keyed.
  - intros k1 b1 H1. apply Hold in H1 as (b2 & H2 & E & _).
    injection E as _ _ -> _. by eapply inv_uid.
  - intros k1 k2 b1 b2 H1 H2. apply Hold in H1 as (c1 & H1 & E1 & _).
    apply Hold in H2 as (c2 & H2 & E2 & _). rewrite (bcp_id_job _ _ E1), (bcp_id_job _ _ E2).
    by eapply inv_jobs.
  - intros k1 b1. destruct (decide (k = k1)) as [<-|Hne].
    + rewrite lookup_insert_eq. intros [= <-] C A S. apply (bcp_id_covered s b); [done|].
      apply Hc; [by eapply bcp_id_cluster|done|done].
    + rewrite lookup_insert_ne by done. apply (inv_lock _ _ HI).
  - apply (inv_holder _ _ HI).
  - apply (inv_serial _ _ HI).
  - apply (inv_settled _ _ HI).
  - intros cr Hcr. destruct (inv_workers _ _ HI cr Hcr) as [Hl Hw]. split; [done|].
    intros b1 H1 Hu. apply Hold in H1 as (b2 & H2 & E & ->). apply Hw; [done|].
    injection E as _ _ E _. congruence.
Qed.

(** Stored backups may go away. *)
Lemma Inv_delete s ws k :
  Inv s ws -> Inv (s <| srv_backups := delete k (srv_backups s) |>) ws.
Proof.
  intros HI.
  assert (forall k1 b1, delete k (srv_backups s) !! k1 = Some b1 -> srv_backups s !! k1 = Some b1) as Hd.
  { intros k1 b1. by intros [_ ?]%lookup_delete_Some. }
  split; record.simp; intros.
  - by eapply inv_keyed; eauto.
  - by eapply inv_uid; eauto.
  - eapply inv_jobs; eauto.
  - by eapply (inv_lock _ _ HI); eauto.
  - by apply (inv_holder _ _ HI).
  - by apply (inv_serial _ _ HI).
  - by eapply (inv_settled _ _ HI).
  - destruct (inv_workers _ _ HI cr) as [? Hw]; [done|]. split; [done|]. eauto.
Qed.

(** The job of the backup stored under [k] changes. *)
Lemma Inv_job s ws k b oj :
  Inv s ws -> srv_backups s !! k = Some b ->
  (forall j, oj = Some j -> settle_job j = Some j) ->
  (of_cluster b -> active b -> holds s b \/ exists j, oj = Some j /\ job_finished j) ->
  Inv (s <| srv_jobs := partial_alter (fun _ => oj) (job_of b) (srv_jobs s) |>) ws.
Proof.
  intros HI Hk Hs Hc.
  split; record.simp; try solve [apply HI].
  - intros k1 b1 H1 C A S.
    destruct (decide (k1 = k)) as [->|Hne].
    + rewrite Hk in H1. injection H1 as <-. destruct (Hc C A) as [Hh|(j & Hj & Hf)]; [by left|].
      right. exists j. record.simp. by rewrite lookup_partial_alter_eq.
    + assert (job_of b <> job_of b1) as Hj.
      { intros E. apply Hne. symmetry. by eapply (inv_jobs _ _ HI). }
      unfold started, covered, holds, job_done in *. record.simp_hyps.
      revert S. record.simp. rewrite !lookup_partial_alter_ne by done. intros S.
      by apply (inv_lock _ _ HI k1).
  - intros k1 j. destruct (decide (k1 = job_of b)) as [->|Hne].
    + rewrite lookup_partial_alter_eq. naive_solver.
    + rewrite lookup_partial_alter_ne by done. apply (inv_settled _ _ HI).
Qed.

(** Leases change, in a way that keeps the lock for those who need it. *)
Lemma Inv_leases s ws ls :
  Inv s ws ->
  (forall k b, srv_backups s !! k = Some b -> of_cluster b -> active b -> holds s b ->
     holds (s <| srv_leases := ls |>) b \/ job_done s b) ->
  (forall l, ls !! cluster_lease = Some l -> is_Some (lease_HolderIdentity l)) ->
  Inv (s <| srv_leases := ls |>) ws.
Proof.
  intros HI Hh Hl. split; record.simp; try solve [apply HI]; [|done].
  intros k b Hk C A S. destruct (inv_lock _ _ HI k b Hk C A S) as [H1|H1].
  - destruct (Hh k b Hk C A H1) as [H2|H2]; [by left|by right].
  - by right.
Qed.
End invariant.

(** ** The backup controller keeps the lock invariant

    A triple per operation of [BackupController], up to [reconcileActive].  The
    assertions relate the handler's copy of the backup to the stored one:
    [Synced] (same state, active), [Locked] (and allowed to run), [Pending] (a
    new status not stored yet), [Failed] (stored as terminal) and [Returns]
    (what the deferred release needs). *)

Section handlers.
Context {W : Type} `{KubeClient W} `{!KubeLaws W} `{BackupEnv W} `{RetryLib} `{ApiLibs}.

(** What runs outside the API server changes no API object. *)
Class EnvQuiet := {
  eq_initImage c : quiet (W := W) (be_initImage c);
  eq_sidecarHost c : quiet (W := W) (be_sidecarHost c);
  eq_collectorPods c : quiet (W := W) (cp_listPods c);
  eq_collectorExec p c : quiet (W := W) (cp_exec p c);
  eq_newStorage b : quiet (W := W) (be_newStorage b);
  eq_listObjects h p : quiet (W := W) (be_listObjects h p);
  eq_deleteObject h o : quiet (W := W) (be_deleteObject h o) }.

(** The API server serves and updates the status of a backup it stores. *)
Class StatusReliable := {
  sr_get w b : srv_backups (kc_view w) !! bcp_key b = Some b ->
    exists w', kc_getBackup (bcp_key b) w = (w', Ok b);
  sr_update w b : is_Some (srv_backups (kc_view w) !! bcp_key b) ->
    exists w', kc_statusUpdate b w = (w', Ok tt) }.

Context `{!EnvQuiet} `{!StatusReliable} (ns cname : string).

Abbreviation view s := (kc_view (rs_w s)).
Abbreviation Inv := (Inv ns cname).
Abbreviation of_cluster := (of_cluster ns cname).

Definition InvS (s : RS W) : Prop := Inv (view s) (rec_workers (rs_rec s)).

(** The handler works on an active backup and its copy has the stored state. *)
Definition Synced (i : string * string * string * PXCBackupSpec) (s : RS W) : Prop :=
  InvS s /\ bcp_id (rs_cr s) = i /\
  exists b, srv_backups (view s) !! bcp_key (rs_cr s) = Some b /\ bcp_id b = i /\ active b /\
            bst_State (bcp_Status b) = bst_State (bcp_Status (rs_cr s)).

(** The handler may return: if its copy is terminal, the backup does not need
    the lock any more. *)
Definition Returns (i : string * string * string * PXCBackupSpec) (s : RS W) : Prop :=
  InvS s /\ bcp_id (rs_cr s) = i /\
  exists b, srv_backups (view s) !! bcp_key (rs_cr s) = Some b /\ bcp_id b = i /\
            (terminal (rs_cr s) -> active b -> job_done (view s) b).

Lemma Synced_Returns i s : Synced i s -> Returns i s.
Proof.
  intros (HI & Hi & b & Hb & Hbi & [Ht Hd] & Hst). split; [done|]. split; [done|].
  exists b. split_and!; [done..|]. intros Hcr. exfalso. apply Ht. unfold terminal in *. by rewrite Hst.
Qed.

(** Predicates on the controller state that only see the stored objects. *)
Definition viewed (X : RS W -> Prop) : Prop :=
  forall s w', kc_view w' = view s -> X s -> X (mkRS w' (rs_cr s) (rs_rec s)).

Lemma Synced_viewed i : viewed (Synced i).
Proof. intros s w' E. unfold Synced, InvS. simpl. by rewrite E. Qed.
Lemma Returns_viewed i : viewed (Returns i).
Proof. intros s w' E. unfold Returns, InvS. simpl. by rewrite E. Qed.

Lemma triple_quiet {A} (X : RS W -> Prop) (m : M W A) :
  viewed X -> quiet m -> triple X (onW m) (fun _ => X) X.
Proof.
  intros HX Hq. apply triple_of_run. intros s s' r Hs Hr. unfold onW in Hr.
  destruct (m (rs_w s)) as [w' r'] eqn:E. injection Hr as <- <-.
  apply Hq in E. assert (X (mkRS w' (rs_cr s) (rs_rec s))) by by apply HX. by destruct r'.
Qed.

Lemma quiet_checkDeadlines cluster cr : quiet (W := W) (checkDeadlines cluster cr).
Proof.
  apply quiet_of_keeps. intros s0.
  unfold checkDeadlines, checkStartingDeadline, checkRunningDeadline, checkSuspendedDeadline,
    getBackupJob. keeps_solve.
Qed.

Lemma quiet_checkJobPodsRunning j : quiet (W := W) (checkJobPodsRunning j).
Proof. apply quiet_of_keeps. intros s0. unfold checkJobPodsRunning. keeps_solve. Qed.

(** ** Status updates *)

Lemma updateStatus_spec cr b w w' r :
  srv_backups (kc_view w) !! bcp_key cr = Some b -> bcp_key b = bcp_key cr ->
  updateStatus cr w = (w', r) ->
  r = Ok tt /\
  kc_view w' = (kc_view w) <| srv_backups :=
    <[bcp_key cr := b <| bcp_Status := bcp_Status cr |>]> (srv_backups (kc_view w)) |>.
Proof.
  intros Hb Hk Hr. unfold updateStatus in Hr. apply retry_on_conflict_runs in Hr.
  set (fn := _ ≫= _) in Hr.
  assert (exists w2, fn w = (w2, Ok tt) /\ kc_view w2 = (kc_view w) <| srv_backups :=
    <[bcp_key cr := b <| bcp_Status := bcp_Status cr |>]> (srv_backups (kc_view w)) |>) as (w2 & E & V).
  { destruct (sr_get w b) as [w1 E1]; [by rewrite Hk|]. rewrite Hk in E1.
    pose proof (quiet_getBackup _ _ _ _ E1) as V1.
    set (b' := b <| bcp_Status := bcp_Status cr |>).
    assert (bcp_key b' = bcp_key cr) as Hk' by (unfold b', bcp_key in *; by record.simp).
    destruct (sr_update w1 b') as [w2 E2]; [rewrite Hk', V1; eauto|].
    exists w2. unfold fn, mbind, M_bind. rewrite E1. split; [done|].
    apply kl_statusUpdate in E2 as (b0 & Hb0 & ->). rewrite Hk', V1 in *. simplify_eq.
    unfold b'. by record.simp. }
  inversion Hr as [|? ? ? ? ? Hf]; subst; rewrite E in *; [done|congruence].
Qed.

Lemma of_key i s b :
  InvS s -> srv_backups (view s) !! bcp_key (rs_cr s) = Some b ->
  bcp_id (rs_cr s) = i -> bcp_id b = i -> bcp_key b = bcp_key (rs_cr s).
Proof. intros _ _ <- E. by apply bcp_id_key. Qed.

(** Storing the status of the handler's copy. *)
Lemma triple_updateStatus i (X : RS W -> Prop) cr0 :
  triple (fun s => rs_cr s = cr0 /\ InvS s /\ bcp_id (rs_cr s) = i /\ exists b,
      srv_backups (view s) !! bcp_key (rs_cr s) = Some b /\ bcp_id b = i /\
      (of_cluster b -> ~ terminal (rs_cr s) -> active b ->
       started (view s) (b <| bcp_Status := bcp_Status (rs_cr s) |>) -> covered (view s) b) /\
      (active b \/ terminal (rs_cr s)))
    (onW (updateStatus cr0))
    (fun _ s => rs_cr s = cr0 /\ InvS s /\ bcp_id (rs_cr s) = i /\ exists b,
      srv_backups (view s) !! bcp_key (rs_cr s) = Some b /\ bcp_id b = i /\
      bcp_Status b = bcp_Status (rs_cr s) /\ (terminal b \/ active b))
    X.
Proof.
  apply triple_of_run. intros s s' r (E0 & HI & Hi & b & Hb & Hbi & Hc & Ha) Hr. subst cr0.
  unfold onW in Hr. destruct (updateStatus (rs_cr s) (rs_w s)) as [w' r'] eqn:Eu.
  injection Hr as <- <-. apply (updateStatus_spec _ b) in Eu as [-> V]; [|done|by eapply of_key].
  set (b' := b <| bcp_Status := bcp_Status (rs_cr s) |>) in *.
  assert (bcp_id b' = bcp_id b) as Hid by (unfold b', bcp_id; by record.simp).
  assert (meta_DeletionTimestamp (bcp_Meta b') = meta_DeletionTimestamp (bcp_Meta b)) as Hd
    by (unfold b'; by record.simp).
  assert (bcp_Status b' = bcp_Status (rs_cr s)) as Hs by (unfold b'; by record.simp).
  assert (terminal b' <-> terminal (rs_cr s)) as Ht by (unfold terminal; by rewrite Hs).
  unfold InvS in *. simpl. rewrite V. split_and!; [done| |done|].
  - eapply Inv_backup; [done..|]. intros C [At Ad] S. apply Hc; [done|tauto| |done].
    split; [|congruence]. destruct Ha as [Ha|Ha]; [apply Ha|tauto].
  - exists b'. record.simp. rewrite lookup_insert_eq. split_and!; [done|by rewrite Hid|done|].
    destruct (decide (terminal b')) as [|Hn]; [by left|right]. split; [done|].
    rewrite Hd. destruct Ha as [[_ ?]|?]; [done|tauto].
Qed.

Lemma triple_getCR (X : RS W -> Prop) E : triple X getCR (fun cr s => rs_cr s = cr /\ X s) E.
Proof. by apply triple_gets. Qed.

(** The stored backup is terminal. *)
Definition Failed (i : string * string * string * PXCBackupSpec) (s : RS W) : Prop :=
  InvS s /\ bcp_id (rs_cr s) = i /\
  exists b, srv_backups (view s) !! bcp_key (rs_cr s) = Some b /\ bcp_id b = i /\ terminal b.

Lemma Failed_Returns i s : Failed i s -> Returns i s.
Proof.
  intros (HI & Hi & b & Hb & Hbi & Ht). split; [done|]. split; [done|]. exists b.
  split_and!; [done..|]. by intros _ [Hn _].
Qed.

Lemma triple_setFailedStatus i e :
  triple (Synced i) (setFailedStatus e) (fun _ => Failed i) (Failed i).
Proof.
  unfold setFailedStatus. eapply (triple_seq _ _ _ _ (fun s => InvS s /\ bcp_id (rs_cr s) = i /\
    terminal (rs_cr s) /\ exists b,
      srv_backups (view s) !! bcp_key (rs_cr s) = Some b /\ bcp_id b = i /\ active b)).
  { apply triple_modify. intros s (HI & Hi & b & Hb & Hbi & Ha & _). simpl. split_and!; [done|..].
    - rewrite <- Hi. unfold SetFailedStatusWithError, bcp_id. by record.simp.
    - right. unfold SetFailedStatusWithError. by record.simp.
    - by exists b. }
  intros _. eapply triple_bind; [apply triple_getCR|]. intros cr. simpl.
  eapply (triple_conseq _ _ _ _ (fun _ => Failed i) _ (Failed i)).
  - apply (triple_pure (terminal cr)). intros Ht.
    eapply triple_conseq; [apply (triple_updateStatus i (Failed i) cr)|intros s Hs; exact Hs| |done].
    intros _ s (Hcr & HI & Hi & b & Hb & Hbi & Hs & _). split; [exact HI|]. split; [done|].
    exists b. split_and!; [done..|]. unfold terminal. by rewrite Hs, Hcr.
  - intros s (Hcr & HI & Hi & Ht & b & Hb & Hbi & Ha). split; [by rewrite <- Hcr|].
    split_and!; [done..|]. exists b. split_and!; [done..| |by right]. intros _ Hn. done.
  - done.
  - done.
Qed.

Lemma triple_fail_backup {A} i e (R : A -> RS W -> Prop) :
  triple (Synced i) (fail_backup e) R (Returns i).
Proof.
  unfold fail_backup. eapply triple_seq.
  - eapply triple_wrap, triple_conseq; [apply (triple_setFailedStatus i)|done..|apply Failed_Returns].
  - intros _. apply triple_fail. apply Failed_Returns.
Qed.

(** ** Suspending and resuming *)

(** Reading the job of the backup. *)
Lemma triple_getBackupJob (X : RS W -> Prop) cr :
  viewed X ->
  triple X (onW (getBackupJob cr))
    (fun j s => X s /\ srv_jobs (view s) !! job_of cr = Some j /\ job_key j = job_of cr) X.
Proof.
  intros HX. apply triple_of_run. intros s s' r Hs Hr. unfold onW, getBackupJob in Hr.
  destruct (kc_getJob _ (rs_w s)) as [w' r'] eqn:E. injection Hr as <- <-.
  destruct (kl_getJob _ _ _ _ E) as [V Hj].
  assert (X (mkRS w' (rs_cr s) (rs_rec s))) as HX' by by apply HX.
  destruct r' as [j|e|]; [|done..]. simpl. rewrite V. split_and!; [done..|].
  by eapply kl_getJob_key.
Qed.

Lemma settle_same_meta j j' :
  job_Meta j' = job_Meta j -> settle_job j = Some j -> settle_job j' = Some j'.
Proof. unfold settle_job. intros ->. by repeat case_match. Qed.

(** A write to a job, at its own key. *)
Lemma updateJob_view j w w' r :
  kc_updateJob j w = (w', r) ->
  match r with
  | Ok _ => kc_view w' = (kc_view w) <| srv_jobs :=
              partial_alter (fun _ => settle_job j) (job_key j) (srv_jobs (kc_view w)) |>
  | Err _ => kc_view w' = kc_view w
  | Panic => False
  end.
Proof. intros E. apply kl_updateJob in E. by destruct r as [[]|e|]; [destruct E|..]. Qed.

(** The stored backup of a synchronised handler with a job is covered. *)
Lemma Synced_covered i s b :
  Synced i s -> srv_backups (view s) !! bcp_key (rs_cr s) = Some b -> of_cluster b ->
  is_Some (srv_jobs (view s) !! job_of (rs_cr s)) -> active b /\ covered (view s) b.
Proof.
  intros (HI & Hi & b' & Hb' & Hbi & Ha & _) Hb C Hj. rewrite Hb in Hb'. injection Hb' as <-.
  split; [done|]. eapply (inv_lock _ _ _ _ HI); [done..|]. right.
  by rewrite (bcp_id_job b (rs_cr s)) by congruence.
Qed.

Lemma triple_setSpecSuspend i cr j v :
  triple (fun s => (Synced i s /\ srv_jobs (view s) !! job_of cr = Some j /\ job_key j = job_of cr) /\
                   rs_cr s = cr)
    (onW (kc_updateJob (j <| job_Suspend := v |>)))
    (fun _ s => Synced i s /\ is_Some (srv_jobs (view s) !! job_of (rs_cr s))) (Synced i).
Proof.
  apply triple_of_run. intros s s' r ((Hs & Hj & Hk) & Hcr) Hr. subst cr.
  unfold onW in Hr. destruct (kc_updateJob _ (rs_w s)) as [w' r'] eqn:E.
  injection Hr as <- <-. apply updateJob_view in E.
  destruct r' as [[]|e|]; [|by apply Synced_viewed|done].
  set (j' := j <| job_Suspend := v |>) in *.
  pose proof Hs as (HI & Hi & b & Hb & Hbi & Ha & Hst).
  assert (settle_job j' = Some j') as Hset.
  { eapply settle_same_meta; [|by eapply (inv_settled _ _ _ _ HI)]. done. }
  assert (job_key j' = job_of b) as Hk'.
  { rewrite (bcp_id_job b (rs_cr s)) by congruence. done. }
  rewrite Hk', Hset in E. unfold Synced, InvS in *. simpl. rewrite E. split.
  - split_and!; [|done|exists b; by record.simp].
    eapply Inv_job; [done..|naive_solver|]. intros C _.
    destruct (Synced_covered i s b) as [_ [?|(j0 & Hj0 & Hf)]]; [done..|by eauto|by left|right].
    rewrite (bcp_id_job b (rs_cr s)) in Hj0 by congruence. rewrite Hj in Hj0. injection Hj0 as <-.
    exists j'. split; [done|]. exact Hf.
  - record.simp. rewrite (bcp_id_job (rs_cr s) b) by congruence.
    rewrite lookup_partial_alter_eq. eauto.
Qed.

Lemma triple_setJobSuspend i v st :
  st <> BackupSucceeded -> st <> BackupFailed ->
  triple (Synced i) (setJobSuspend v st) (fun _ => Synced i) (Synced i).
Proof.
  intros Hn1 Hn2. unfold setJobSuspend. eapply triple_bind; [apply triple_getCR|]. intros cr.
  eapply triple_bind; [eapply (triple_conseq _ (fun s => Synced i s /\ rs_cr s = cr));
    [apply triple_getBackupJob|..]|].
  { intros s w' V [Hs Hcr]. split; [by apply Synced_viewed|done]. }
  { naive_solver. } { intros j s Hs. exact Hs. } { naive_solver. }
  intros j. simpl. eapply triple_seq; [eapply triple_pre; [apply (triple_setSpecSuspend i cr j)|]|].
  { intros s ((Hs & Hcr) & Hj & Hk). split_and!; done. }
  intros _. eapply (triple_seq _ _ _ _ (fun s => InvS s /\ bcp_id (rs_cr s) = i /\
    bst_State (bcp_Status (rs_cr s)) = st /\ exists b,
    srv_backups (view s) !! bcp_key (rs_cr s) = Some b /\ bcp_id b = i /\ active b /\
    (of_cluster b -> covered (view s) b))).
  { apply triple_modify. intros s [Hs Hj].
    pose proof Hs as (HI & Hi & b & Hb & Hbi & Ha & Hst). unfold InvS. simpl.
    split_and!; [done..|]. exists b. split_and!; [done..|]. intros C.
    by eapply Synced_covered. }
  intros _. eapply triple_bind; [apply triple_getCR|]. intros cr'. simpl.
  eapply (triple_conseq _ _ _ _ (fun _ => Synced i) _ (Synced i));
    [apply (triple_pure (bst_State (bcp_Status cr') = st)); intros Hst;
     eapply triple_conseq; [apply (triple_updateStatus i (Synced i) cr')|intros s Hs; exact Hs| |done]
    | | |done].
  - intros _ s (Hcr & HI & Hi & b & Hb & Hbi & Hs & Hta). split; [exact HI|]. split; [done|].
    exists b. split_and!; [done..| |by rewrite Hs]. destruct Hta as [[Hx|Hx]|]; [..|done];
      rewrite Hs, Hcr, Hst in Hx; done.
  - intros s (Hcr & HI & Hi & Hst & b & Hb & Hbi & Ha & Hc). split; [by rewrite <- Hcr|].
    split_and!; [done..|]. exists b. split_and!; [done..| |by left]. intros C _ _ _. by apply Hc.
  - done.
Qed.

Lemma keeps_onW_quiet {A} (X : RS W -> Prop) (m : M W A) : viewed X -> quiet m -> keeps X (onW m).
Proof.
  intros HX Hq s Hs. pose proof (triple_quiet X m HX Hq s Hs) as Ht. by destruct (onW m s) as [s' []].
Qed.
Lemma keeps_getCR (X : RS W -> Prop) : keeps X getCR.
Proof. apply keeps_gets. Qed.
Lemma keeps_setJobSuspend i v st :
  st <> BackupSucceeded -> st <> BackupFailed -> keeps (Synced i) (setJobSuspend v st).
Proof.
  intros H1' H2' s Hs. pose proof (triple_setJobSuspend i v st H1' H2' s Hs) as Ht.
  by destruct (setJobSuspend v st s) as [s' []].
Qed.
Lemma quiet_getBackupJob cr : quiet (W := W) (getBackupJob cr).
Proof. apply quiet_getJob. Qed.
#[local] Hint Resolve keeps_onW_quiet keeps_getCR keeps_setJobSuspend quiet_getBackupJob
  Synced_viewed Returns_viewed : go.

Lemma keeps_reconcileBackupJob i cluster : keeps (Synced i) (reconcileBackupJob cluster).
Proof.
  unfold reconcileBackupJob, suspendJobIfNeeded, resumeJobIfNeeded.
  repeat first [keeps_step | apply keeps_retry_conflict, keeps_setJobSuspend; done | solve [eauto with go]].
Qed.

(** ** Jobs of a terminal backup *)

Definition Dead ws (b0 : PerconaXtraDBClusterBackup) (w : W) : Prop :=
  Inv (kc_view w) ws /\
  exists b, srv_backups (kc_view w) !! bcp_key b0 = Some b /\ bcp_id b = bcp_id b0 /\ terminal b.

Lemma Dead_view ws b0 w w' : kc_view w' = kc_view w -> Dead ws b0 w -> Dead ws b0 w'.
Proof. unfold Dead. by intros ->. Qed.

Lemma Dead_job ws b0 w w' oj :
  (forall j, oj = Some j -> settle_job j = Some j) ->
  kc_view w' = (kc_view w) <| srv_jobs :=
    partial_alter (fun _ => oj) (job_of b0) (srv_jobs (kc_view w)) |> ->
  Dead ws b0 w -> Dead ws b0 w'.
Proof.
  intros Hset V (HI & b & Hb & Hid & Ht). unfold Dead. rewrite V.
  rewrite <- (bcp_id_job _ _ Hid). split; [|by exists b].
  eapply Inv_job; [done..|]. by intros _ [Hn _].
Qed.

Lemma settle_settled j j' : settle_job j = Some j' -> settle_job j' = Some j'.
Proof.
  intros E. assert (j' = j) as -> by (unfold settle_job in E; repeat case_match; congruence). done.
Qed.
Lemma mark_deleted_settled now j j' : mark_deleted now j = Some j' -> settle_job j' = Some j'.
Proof.
  unfold mark_deleted. destruct (meta_Finalizers (job_Meta j)) as [|f fs] eqn:E; [done|].
  intros [= <-]. unfold settle_job. record.simp. by rewrite E.
Qed.

Lemma keeps_dead_updateJob ws b0 j :
  job_key j = job_of b0 -> keeps (Dead ws b0) (kc_updateJob j).
Proof.
  intros Hk w Hw. destruct (kc_updateJob j w) as [w' r] eqn:E. simpl. apply updateJob_view in E.
  destruct r as [[]|e|]; [|by eapply Dead_view|done].
  rewrite Hk in E. eapply Dead_job; [|done|done]. intros j' Hj'. by eapply settle_settled.
Qed.

Lemma triple_dead_getJob ws b0 :
  triple (Dead ws b0) (getBackupJob b0)
    (fun j w => job_key j = job_of b0 /\ Dead ws b0 w) (Dead ws b0).
Proof.
  apply triple_of_run. intros w w' r Hw E. unfold getBackupJob in E.
  pose proof (quiet_getJob _ _ _ _ E) as V. destruct r as [j|e|]; [|by eapply Dead_view..].
  split; [by eapply kl_getJob_key|by eapply Dead_view].
Qed.

Lemma triple_dead_runJobFinalizers ws b0 :
  triple (Dead ws b0) (runJobFinalizers b0) (fun _ => Dead ws b0) (Dead ws b0).
Proof.
  unfold runJobFinalizers. apply triple_wrap, triple_retry_conflict; [|done].
  eapply triple_bind; [apply triple_try_any, triple_dead_getJob|]. intros [e|j]; simpl.
  - case_match; [by apply triple_ret|by apply triple_fail].
  - apply triple_pure. intros Hk. case_match; [|by apply triple_ret].
    apply triple_keeps, keeps_dead_updateJob. done.
Qed.

Lemma triple_dead_cleanUpJob ws b0 :
  triple (Dead ws b0) (cleanUpJob b0) (fun _ => Dead ws b0) (Dead ws b0).
Proof.
  unfold cleanUpJob. eapply triple_bind; [apply triple_wrap, triple_dead_getJob|]. intros j. simpl.
  apply triple_pure. intros Hk.
  eapply triple_seq; [apply triple_wrap, triple_dead_runJobFinalizers|]. intros _.
  apply triple_wrap. apply triple_of_run. intros w w' r Hw E. apply kl_deleteJob in E.
  destruct r as [[]|e|]; [|by eapply Dead_view|done].
  destruct E as (j' & now & Hj' & E). rewrite Hk in E. eapply Dead_job; [|done|done].
  intros j2 Hj2. by eapply mark_deleted_settled.
Qed.

Lemma triple_dead_onW {A} i cr (m : M W A) :
  (forall ws, triple (Dead ws cr) m (fun _ => Dead ws cr) (Dead ws cr)) -> bcp_id cr = i ->
  triple (Failed i) (onW m) (fun _ => Failed i) (Failed i).
Proof.
  intros Hm Hi. apply triple_of_run. intros s s' r (HI & Hcr & b & Hb & Hbi & Ht) Hr.
  unfold onW in Hr. destruct (m (rs_w s)) as [w' r'] eqn:E. injection Hr as <- <-.
  eapply (triple_run _ _ _ _ _ _ _ (Hm (rec_workers (rs_rec s)))) in E.
  - assert (Dead (rec_workers (rs_rec s)) cr w') as (HI' & b' & Hb' & Hbi' & Ht') by by destruct r'.
    assert (Failed i (mkRS w' (rs_cr s) (rs_rec s))); [|by destruct r'].
    split; [done|]. split; [done|]. exists b'. rewrite <- Hi in *. split_and!; [|done..].
    simpl. by rewrite (bcp_id_key _ _ Hcr).
  - split; [done|]. exists b. rewrite <- Hi in *. split_and!; [|done..].
    by rewrite <- (bcp_id_key _ _ Hcr).
Qed.

(** ** Creating the job *)

(** Synchronised, and allowed to run. *)
Definition Locked (i : string * string * string * PXCBackupSpec) (s : RS W) : Prop :=
  Synced i s /\ (of_cluster (rs_cr s) -> covered (view s) (rs_cr s)).

Lemma Locked_viewed i : viewed (Locked i).
Proof. intros s w' V [Hs Hc]. split; [by apply Synced_viewed|]. simpl. by rewrite V. Qed.

Lemma keeps_Locked_modCR i f :
  (forall cr, bcp_id (f cr) = bcp_id cr /\ bst_State (bcp_Status (f cr)) = bst_State (bcp_Status cr)) ->
  keeps (Locked i) (modCR f).
Proof.
  intros Hf s [(HI & Hi & b & Hb & Hbi & Ha & Hst) Hc]. destruct (Hf (rs_cr s)) as [Hid Hs].
  unfold modCR, modify. simpl. split.
  - split; [done|]. split; [simpl; congruence|]. exists b. simpl.
    rewrite (bcp_id_key _ _ Hid), Hs. done.
  - simpl. intros C. apply (bcp_id_covered _ (rs_cr s)); [done|]. apply Hc. by eapply bcp_id_cluster.
Qed.

(** Changes of the stored objects the lock does not depend on. *)
Lemma Locked_frame i s w' :
  srv_backups (kc_view w') = srv_backups (view s) -> srv_jobs (kc_view w') = srv_jobs (view s) ->
  srv_leases (kc_view w') = srv_leases (view s) -> srv_clusters (kc_view w') = srv_clusters (view s) ->
  Locked i s -> Locked i (mkRS w' (rs_cr s) (rs_rec s)).
Proof.
  intros Hb Hj Hl Hc [(HI & Hi & b & Hbb & Hr) Hcov].
  split; [split_and!|].
  - unfold InvS in *. simpl. by eapply Inv_frame.
  - done.
  - exists b. simpl. by rewrite Hb.
  - unfold covered, holds, job_done in *. simpl. by rewrite Hj, Hl.
Qed.

Lemma keeps_Locked_createPVC i p : keeps (Locked i) (onW (kc_createPVC p)).
Proof.
  intros s Hs. unfold onW. destruct (kc_createPVC p (rs_w s)) as [w' r] eqn:E. simpl.
  apply kl_createPVC in E. destruct r as [[]|e|]; [|by apply Locked_viewed|done].
  destruct E as [pvcs E]. by apply Locked_frame; [rewrite E..|].
Qed.
#[local] Hint Resolve Locked_viewed keeps_Locked_createPVC : go.

Lemma keeps_set_storage i cluster storage env : keeps (Locked i) (set_storage cluster storage env).
Proof.
  unfold set_storage.
  repeat first [keeps_step | apply keeps_getCR | apply keeps_Locked_createPVC
               | apply keeps_Locked_modCR; intros cr; unfold set_dest, bcp_id; by record.simp
               | solve [eauto with go]].
Qed.

Lemma newJob_spec cr cluster job :
  newJob cr cluster = Ok job ->
  job_key job = job_of cr /\ meta_DeletionTimestamp (job_Meta job) = None.
Proof.
  unfold newJob. destruct (LabelsBackupJob _ _ _) as [l|e|]; simpl; [|done..].
  destruct (clusterBackup cluster) as [b|e|]; simpl; [|done..].
  destruct (deref _) as [st|e|]; simpl; [|done..]. by intros [= <-].
Qed.

Lemma triple_createJob i job :
  meta_DeletionTimestamp (job_Meta job) = None ->
  triple (fun s => Locked i s /\ job_key job = job_of (rs_cr s)) (onW (kc_createJob job))
    (fun _ s => Locked i s /\ job_key job = job_of (rs_cr s))
    (fun s => Locked i s /\ job_key job = job_of (rs_cr s)).
Proof.
  intros Hd. apply triple_of_run. intros s s' r [Hs Hk] Hr. unfold onW in Hr.
  destruct (kc_createJob job (rs_w s)) as [w' r'] eqn:E. injection Hr as <- <-.
  apply kl_createJob in E.
  destruct r' as [[]|e|]; [|split; [by apply Locked_viewed|done]|done].
  destruct E as [Hn E]. destruct Hs as [(HI & Hi & b & Hb & Hbi & Ha & Hst) Hc].
  assert (bcp_id b = bcp_id (rs_cr s)) as Hid by congruence.
  assert (job_key job = job_of b) as Hk' by (rewrite Hk; symmetry; by apply bcp_id_job).
  assert (of_cluster (rs_cr s) -> holds (view s) (rs_cr s)) as Hh.
  { intros C. destruct (Hc C) as [?|(j & Hj & _)]; [done|]. rewrite <- Hk in Hj. congruence. }
  split; [|done]. split; [split_and!|].
  - unfold InvS in *. simpl. rewrite E, Hk'. eapply Inv_job; [done..| |].
    + intros j [= <-]. unfold settle_job. by rewrite Hd.
    + intros C _. left. unfold holds in *.
      rewrite (bcp_id_lease b (rs_cr s)), (bcp_id_holder b (rs_cr s)) by done.
      apply Hh. by eapply bcp_id_cluster.
  - done.
  - exists b. simpl. by rewrite E.
  - simpl. intros C. left. unfold holds. rewrite E. by apply Hh.
Qed.

(** [createBackupJob]: the job it returns is the backup's own. *)
Lemma triple_createBackupJob i cluster storage :
  triple (Locked i) (createBackupJob cluster storage)
    (fun job s => job_key job = job_of (rs_cr s) /\ Locked i s) (Locked i).
Proof.
  unfold createBackupJob. eapply triple_bind; [apply triple_getCR|]. intros cr.
  eapply (triple_bind _ _ _ _ (fun job s => (bcp_id cr = i /\ job_key job = job_of cr /\
    meta_DeletionTimestamp (job_Meta job) = None) /\ Locked i s)).
  { apply triple_lift; [|naive_solver]. intros s job [<- Hs] Ej. apply newJob_spec in Ej.
    split_and!; [|naive_solver..]. apply Hs. }
  intros job. apply triple_pure. intros (Hi & Hk & Hd).
  eapply triple_seq; [apply triple_wrap, triple_quiet; [apply Locked_viewed|apply eq_initImage]|].
  intros initImage. eapply triple_seq.
  { apply triple_wrap. destruct be_xtrabackupSidecar; [|by apply triple_lift].
    eapply triple_seq; [apply triple_wrap, triple_quiet; [apply Locked_viewed|apply eq_sidecarHost]|].
    intros src. by apply triple_lift. }
  intros env. eapply triple_seq; [apply triple_keeps, keeps_set_storage|]. intros env'.
  eapply triple_bind; [apply triple_getCR|]. intros cr'.
  eapply (triple_seq _ _ _ _ (Locked i)); [apply triple_wrap, triple_lift; naive_solver|]. intros _.
  set (job' := job <| job_Env := _ |>). cbv zeta.
  eapply triple_bind; [apply triple_try_any; eapply triple_conseq;
    [apply (triple_createJob i job')| |intros a s Hs; exact Hs|naive_solver]|]; [done| |].
  { intros s Hs. split; [done|]. change (job_key job') with (job_key job). rewrite Hk.
    apply bcp_id_job. destruct Hs as [(_ & -> & _) _]. done. }
  intros [e|u]; simpl; [|apply triple_ret; intros s [? ?]; done].
  case_match; [|by apply triple_fail]. apply triple_wrap, triple_of_run.
  intros s s' r Hs Hr. unfold onW in Hr.
  destruct (kc_getJob (job_key job') (rs_w s)) as [w' r'] eqn:E. injection Hr as <- <-.
  assert (Locked i (mkRS w' (rs_cr s) (rs_rec s))) as Hs'.
  { apply Locked_viewed; [|done]. by eapply quiet_getJob. }
  destruct r' as [j|?|]; [|done..]. split; [|done]. simpl.
  apply kl_getJob_key in E. rewrite E. change (job_key job') with (job_key job). rewrite Hk.
  apply bcp_id_job. destruct Hs as [(_ & -> & _) _]. done.
Qed.

(** ** Following the job *)

(** The copy has a new status that is not stored yet. *)
Definition Pending (i : string * string * string * PXCBackupSpec) (s : RS W) : Prop :=
  InvS s /\ bcp_id (rs_cr s) = i /\ exists b,
    srv_backups (view s) !! bcp_key (rs_cr s) = Some b /\ bcp_id b = i /\ active b /\
    (of_cluster b -> covered (view s) b) /\ (terminal (rs_cr s) -> job_done (view s) b).

Lemma Pending_Returns i s : Pending i s -> Returns i s.
Proof.
  intros (HI & Hi & b & Hb & Hbi & Ha & Hc & Ht). split_and!; [done..|]. exists b. eauto.
Qed.

Lemma Pending_viewed i : viewed (Pending i).
Proof. intros s w' E. unfold Pending, InvS. simpl. by rewrite E. Qed.

Lemma keeps_after_success i cluster : keeps (Pending i) (onW (after_success cluster)).
Proof.
  set (I := fun ws cr0 w => Pending i (mkRS w cr0 ws)).
  assert (forall ws cr0, keeps (I ws cr0) (after_success cluster)) as Hk.
  { intros ws cr0.
    assert (forall A (m : M W A), quiet m -> keeps (I ws cr0) m) as Hq.
    { intros A m Hm w Hw. unfold I in *. destruct (m w) as [w' r] eqn:E. simpl. apply Hm in E.
      by apply (Pending_viewed i (mkRS w cr0 ws)). }
    assert (forall n, keeps (I ws cr0) (kc_deleteSecret n)) as Hd.
    { intros n w Hw. destruct (kc_deleteSecret n w) as [w' r] eqn:E. simpl.
      apply kl_deleteSecret in E. destruct r as [[]|e|];
        [|by apply (Pending_viewed i (mkRS w cr0 ws))|done].
      destruct Hw as (HI & Hi & b & Hb & Hr). split_and!.
      - unfold InvS in *. simpl in *. eapply Inv_frame; [..|exact HI]; by rewrite E.
      - done.
      - exists b. unfold covered, holds, job_done in *. simpl in *. by rewrite E. }
    unfold after_success, GetPod, RemoveGapFile, RemoveTimelineFile.
    repeat first [keeps_step | apply Hd | apply Hq, eq_collectorPods | apply Hq, eq_collectorExec]. }
  intros s Hs. unfold onW. specialize (Hk (rs_rec s) (rs_cr s) (rs_w s)).
  destruct (after_success cluster (rs_w s)) as [w' r]. apply Hk. by destruct s.
Qed.

(** The status derived from a job is terminal only if the job is finished. *)
Lemma job_status_terminal bcp job sn storage st (running : bool) :
  st = (if running then (job_status bcp job sn storage) <| bst_State := BackupRunning |>
        else job_status bcp job sn storage) ->
  bst_State st = BackupSucceeded \/ bst_State st = BackupFailed -> job_finished job.
Proof. intros ->. destruct running; simpl; [by intros [|]|done]. Qed.

Lemma triple_updateJobStatus i job sn storage cluster :
  triple (fun s => job_key job = job_of (rs_cr s) /\ Locked i s)
    (updateJobStatus job sn storage cluster) (fun _ => Returns i) (Returns i).
Proof.
  unfold updateJobStatus.
  eapply (triple_bind _ _ _ _ (fun x s => match x with
    | inl _ => Returns i s
    | inr j => srv_jobs (view s) !! job_of (rs_cr s) = Some j /\ Locked i s end)).
  { apply triple_try. intros s [Hk Hs]. unfold onW.
    destruct (kc_getJob (job_key job) (rs_w s)) as [w' r] eqn:E.
    destruct (kl_getJob _ _ _ _ E) as [V Hj].
    assert (Locked i (mkRS w' (rs_cr s) (rs_rec s))) as Hs' by by apply Locked_viewed.
    destruct r as [j|e|]; simpl; [|by apply Synced_Returns, Hs'..].
    rewrite V, <- Hk. done. }
  intros [e|j]; [case_match; [by apply triple_ret|by apply triple_fail]|].
  eapply triple_bind; [apply triple_getCR|]. intros bcp. cbv zeta.
  set (X := fun s => rs_cr s = bcp /\ srv_jobs (view s) !! job_of (rs_cr s) = Some j /\ Locked i s).
  assert (forall s, X s -> Returns i s) as HX by (intros s (_ & _ & [Hs _]); by apply Synced_Returns).
  assert (viewed X) as HXv.
  { intros s w' V (? & ? & ?). split_and!; [done| |by apply Locked_viewed]. simpl. by rewrite V. }
  eapply (triple_seq _ _ _ _ X).
  { case_match; [|by apply triple_ret]. apply triple_wrap.
    eapply triple_post; [apply (triple_quiet X); [done|apply quiet_checkJobPodsRunning]|done|done]. }
  intros running. cbv beta. remember (if running then _ else _) as st eqn:Est.
  pose proof (job_status_terminal _ _ _ _ _ _ Est) as Hterm. clear Est.
  case_match; [by apply triple_ret|].
  eapply (triple_seq _ _ _ _ (Pending i)).
  { apply triple_modify. intros s (Hcr & Hj & [(HI & Hi & b & Hb & Hbi & Ha & Hst) Hc]).
    assert (bcp_id b = bcp_id (rs_cr s)) as Hid by congruence.
    split_and!; [done..|]. exists b. simpl. split_and!; [done..| |].
    - intros C. apply (bcp_id_covered _ (rs_cr s)); [done|]. apply Hc. by eapply bcp_id_cluster.
    - intros Ht. exists j. rewrite (bcp_id_job _ _ Hid). split; [done|]. apply Hterm. exact Ht. }
  intros _. eapply triple_seq; [|intros _].
  { eapply (triple_post _ _ _ (fun _ => Pending i) _ (Pending i)); [|done|apply Pending_Returns].
    case_match; [apply triple_keeps, keeps_after_success|by apply triple_ret]. }
  eapply triple_bind; [apply triple_getCR|]. intros cr. apply triple_wrap.
  eapply triple_conseq; [apply (triple_updateStatus i (Returns i) cr)| | |done].
  - intros s (Hcr & HI & Hi & b & Hb & Hbi & Ha & Hc & Ht). split_and!; [done..|].
    exists b. split_and!; [done..| |by left]. intros C _ _ _. by apply Hc.
  - intros _ s (Hcr & HI & Hi & b & Hb & Hbi & Hs & Hta). split_and!; [done..|].
    exists b. split_and!; [done..|]. intros Ht [Hn _]. exfalso. apply Hn.
    unfold terminal in *. by rewrite Hs.
Qed.

(** ** Taking the lock *)

(** The cluster object the handler works with. *)
Definition cluster_for (i : string * string * string * PXCBackupSpec)
    (cluster : PerconaXtraDBCluster) : Prop :=
  forall cr, bcp_id cr = i ->
    cluster_Name cluster = bsp_PXCCluster (bcp_Spec cr) /\
    (of_cluster cr -> forall b, spec_Backup (cluster_Spec cluster) = Some b -> GetAllowParallel b = false).

Lemma triple_acquire i cr cluster :
  bcp_id cr = i -> cluster_for i cluster ->
  triple (Synced i) (onW (AcquireLease (lease_name cr (cluster_Name cluster)) (BackupHolderId cr)))
    (fun l s => Synced i s /\ srv_leases (view s) !! lease_of cr = Some l) (Synced i).
Proof.
  intros Hi Hcl. destruct (Hcl cr Hi) as [-> _]. fold (lease_of cr).
  apply triple_of_run. intros s s' r Hs Hr. unfold onW in Hr.
  destruct (AcquireLease _ _ (rs_w s)) as [w' r'] eqn:E. injection Hr as <- <-.
  apply AcquireLease_spec in E as (Hsame & Hold & Hr). unfold lease_at in *.
  destruct r' as [l|e|]; [|by apply Synced_viewed|done]. destruct Hr as [Hl Hnew].
  split; [|done]. destruct Hs as (HI & Hcr & b & Hb & Hbr). destruct Hsame as (ls & V & Hne).
  unfold Synced, InvS in *. simpl. rewrite V in *. split_and!; [|done|by exists b].
  revert Hold Hl. record.simp. intros Hold Hl. apply Inv_leases; [done| |].
  - intros k b' Hb' C A (l' & Hl' & Hh). left. exists l'. split; [|done]. record.simp.
    destruct (decide (lease_of b' = lease_of cr)) as [Heq|]; [rewrite Heq in *; by apply Hold|].
    by rewrite Hne.
  - intros l' Hl'. destruct (decide (cluster_lease ns cname = lease_of cr)) as [Heq|].
    + rewrite Heq, Hl in Hl'. injection Hl' as <-.
      destruct (srv_leases (view s) !! lease_of cr) as [l0|] eqn:E0; [|rewrite Hnew by done; eauto].
      specialize (Hold _ eq_refl). rewrite Hl in Hold. injection Hold as ->.
      apply (inv_holder _ _ _ _ HI). by rewrite Heq.
    + rewrite Hne in Hl' by done. by apply (inv_holder _ _ _ _ HI).
Qed.

(** A backup that is past [BackupNew] is covered. *)
Lemma Synced_started i s :
  Synced i s -> bst_State (bcp_Status (rs_cr s)) <> BackupNew -> Locked i s.
Proof.
  intros Hs Hn. split; [done|]. destruct Hs as (HI & Hi & b & Hb & Hbi & Ha & Hst). intros C.
  apply (bcp_id_covered _ b); [congruence|]. eapply (inv_lock _ _ _ _ HI); [done| |done|].
  - eapply bcp_id_cluster; [|done]. congruence.
  - left. congruence.
Qed.

Lemma triple_runBackup i cluster storage :
  cluster_for i cluster ->
  triple (Synced i) (runBackup cluster storage) (fun _ => Returns i) (Returns i).
Proof.
  intros Hcl. unfold runBackup.
  eapply triple_seq; [apply triple_wrap; eapply triple_post;
    [apply triple_keeps, keeps_reconcileBackupJob|done|apply Synced_Returns]|]. intros _.
  case_match; [apply triple_ret; apply Synced_Returns|].
  eapply (triple_bind _ _ _ _ (fun b s => spec_Backup (cluster_Spec cluster) = Some b /\ Synced i s)).
  { apply triple_lift; [|apply Synced_Returns]. intros s b Hs Hb. split; [|done].
    unfold clusterBackup, deref in Hb. case_match; congruence. }
  intros b. apply triple_pure. intros Hb.
  eapply triple_bind; [apply triple_getCR|]. intros cr.
  eapply (triple_bind _ _ _ _ (fun (locked : bool) s =>
    if locked then Synced i s else Locked i s)).
  { case_match eqn:Ec; apply andb_true_iff in Ec || apply andb_false_iff in Ec.
    - destruct Ec as [Hnew%bool_decide_eq_true_1 Hp].
      eapply (triple_pre _ (fun s => (bcp_id cr = i) /\ rs_cr s = cr /\ Synced i s)).
      2: { intros s (Hcr & Hs). split_and!; [|done..]. rewrite <- Hcr. apply Hs. }
      apply triple_pure. intros Hi.
      eapply (triple_bind _ _ _ _ (fun l s => Synced i s /\ srv_leases (view s) !! lease_of cr = Some l)).
      { apply triple_wrap. eapply triple_conseq; [by apply triple_acquire|naive_solver|done|apply Synced_Returns]. }
      intros l. apply triple_ret. intros s [Hs Hl].
      assert (bcp_id (rs_cr s) = bcp_id cr) as Hid by (rewrite Hi; apply Hs).
      destruct (lease_HolderIdentity l) as [h|] eqn:Eh.
      + case_bool_decide; simpl; [|done]. split; [done|]. intros C. left. exists l.
        rewrite (bcp_id_lease _ _ Hid), (bcp_id_holder _ _ Hid). naive_solver.
      + split; [done|]. intros C. exfalso.
        destruct Hs as (HI & _). assert (is_Some (lease_HolderIdentity l)) as [? ?]; [|congruence].
        apply (inv_holder _ _ _ _ HI). rewrite <- (of_cluster_lease ns cname (rs_cr s)) by done.
        by rewrite (bcp_id_lease _ _ Hid).
    - apply triple_ret. intros s [Hcr Hs]. destruct Ec as [Hn%bool_decide_eq_false_1|Hp%negb_false_iff].
      + apply Synced_started; [done|congruence].
      + split; [done|]. intros C. exfalso. destruct (Hcl (rs_cr s)) as [_ Hpar]; [apply Hs|].
        rewrite (Hpar C b) in Hp; done. }
  intros locked. destruct locked; [apply triple_ret; apply Synced_Returns|].
  assert (forall s, Locked i s -> Returns i s) as HLR by (intros s [Hs _]; by apply Synced_Returns).
  eapply (triple_seq _ _ _ _ (Locked i)); [by apply triple_lift|]. intros pxc.
  eapply (triple_seq _ _ _ _ (Locked i)).
  { case_match; [|by apply triple_ret]. eapply triple_post; [apply triple_keeps|done|done].
    apply keeps_Locked_modCR. intros cr'. unfold bcp_id. by record.simp. }
  intros _. eapply triple_bind.
  { eapply triple_post; [apply triple_try_any, triple_createBackupJob|intros x s Hs; exact Hs|done]. }
  intros [e|job]; simpl.
  - eapply triple_pre; [apply triple_fail_backup|]. by intros s [? _].
  - eapply triple_seq; [apply triple_updateJobStatus|]. intros _. by apply triple_ret.
Qed.

Lemma triple_reconcileLocked i cluster storage :
  cluster_for i cluster ->
  triple (Synced i) (reconcileLocked cluster storage) (fun _ => Returns i) (Returns i).
Proof.
  intros Hcl. unfold reconcileLocked. eapply triple_bind; [apply triple_getCR|]. intros cr0.
  eapply triple_pre; [|intros s [_ Hs]; exact Hs].
  eapply triple_bind.
  { eapply triple_post; [apply triple_try_any, triple_quiet; [apply Synced_viewed|
      apply quiet_checkDeadlines]|intros x s Hs; exact Hs|apply Synced_Returns]. }
  intros [e|[]]; simpl; [|by apply triple_runBackup].
  case_match; [apply triple_fail, Synced_Returns|].
  eapply triple_seq; [apply triple_wrap; eapply triple_post;
    [apply triple_setFailedStatus|done|apply Failed_Returns]|]. intros _.
  eapply triple_bind; [apply triple_getCR|]. intros cr.
  eapply (triple_pre _ (fun s => bcp_id cr = i /\ Failed i s));
    [|intros s [<- Hs]; split; [apply Hs|done]].
  apply triple_pure. intros Hi.
  assert (forall (b : bool) msg, triple (Failed i) (when b do wrap msg (onW (cleanUpJob cr)))
            (fun _ => Failed i) (Returns i)) as Hclean.
  { intros b msg. destruct b; [|by apply triple_ret]. apply triple_wrap.
    eapply triple_post; [eapply triple_dead_onW; [intros ws; apply triple_dead_cleanUpJob|done]|done|].
    apply Failed_Returns. }
  eapply triple_seq; [apply Hclean|intros _]. eapply triple_seq; [apply Hclean|intros _].
  apply triple_ret, Failed_Returns.
Qed.

(** ** Giving the lock up *)

(** A release is harmless when nobody active still needs the lock under that
    holder name. *)
Lemma Inv_release ws cr w w' r :
  Inv (kc_view w) ws ->
  (forall k b, srv_backups (kc_view w) !! k = Some b -> of_cluster b -> active b ->
     lease_of b = lease_of cr -> BackupHolderId b = BackupHolderId cr -> job_done (kc_view w) b) ->
  ReleaseLease (lease_of cr) (BackupHolderId cr) w = (w', r) -> Inv (kc_view w') ws.
Proof.
  intros HI Hn E. apply ReleaseLease_spec in E. unfold lease_at in *.
  destruct r as [u|e|]; [|by rewrite E|done]. destruct E as [(l & Hl & Hh) E]. rewrite E.
  apply Inv_leases; [done| |].
  - intros k b Hb C A Hhold. pose proof Hhold as (l' & Hl' & Hh').
    destruct (decide (lease_of b = lease_of cr)) as [Heq|Hne].
    + right. eapply Hn; [done..|]. rewrite Heq, Hl in Hl'. injection Hl' as <-.
      destruct Hh as [Hh|Hh]; congruence.
    + left. exists l'. record.simp. by rewrite lookup_delete_ne.
  - intros l' [_ Hl']%lookup_delete_Some. by apply (inv_holder _ _ _ _ HI).
Qed.

Lemma same_holder_key s ws k b cr :
  Inv s ws -> srv_backups s !! k = Some b -> String.length (meta_UID (bcp_Meta cr)) = 36%nat ->
  lease_of b = lease_of cr -> BackupHolderId b = BackupHolderId cr ->
  k = bcp_key cr /\ meta_UID (bcp_Meta b) = meta_UID (bcp_Meta cr).
Proof.
  intros HI Hb Hu [= Hns _] Hh.
  apply BackupHolderId_inj in Hh as [Hname Huid]; [|by rewrite (inv_uid _ _ _ _ HI _ _ Hb)].
  split; [|done]. rewrite <- (inv_keyed _ _ _ _ HI _ _ Hb). unfold bcp_key, meta_key.
  by rewrite Hns, Hname.
Qed.

Lemma triple_releaseIfDone i cluster :
  cluster_for i cluster -> triple (Returns i) (releaseIfDone cluster) (fun _ => InvS) InvS.
Proof.
  intros Hcl. assert (forall s, Returns i s -> InvS s) as HRI by by intros s [? _].
  unfold releaseIfDone. eapply triple_seq; [by apply triple_lift|]. intros b.
  case_match; [by apply triple_ret|].
  eapply triple_bind; [apply triple_getCR|]. intros cr.
  case_bool_decide as Ht; [|apply triple_ret; naive_solver].
  eapply (triple_seq _ _ _ _ InvS); [|intros _; by apply triple_ret].
  eapply (triple_post _ _ _ (fun _ => InvS) _ InvS); [|done|done].
  apply triple_of_run. intros s s' r [Hcr Hs] Hr.
  assert (InvS s'); [|by destruct r].
  destruct Hs as (HI & Hi & b0 & Hb0 & Hbi & Hdone).
  unfold try, onW in Hr. rewrite Hcr in *. destruct (Hcl cr Hi) as [Hname _]. rewrite Hname in Hr.
  change (lease_name cr _) with (lease_of cr) in Hr.
  destruct (ReleaseLease _ _ (rs_w s)) as [w' r'] eqn:E.
  eapply Inv_release in E; [|exact HI|].
  - destruct r'; injection Hr as <- <-; done.
  - intros k b' Hb' C A Hl Hh.
    assert (String.length (meta_UID (bcp_Meta cr)) = 36%nat) as Hu.
    { injection (eq_trans Hi (eq_sym Hbi)) as _ _ -> _. by eapply (inv_uid _ _ _ _ HI). }
    destruct (same_holder_key _ _ _ _ cr HI Hb') as [-> _]; [done..|].
    rewrite Hb0 in Hb'. injection Hb' as <-. by apply Hdone.
Qed.

(** ** Finalizers and the whole handler *)

Lemma set_finalizers_id fs b : bcp_id (set_finalizers fs b) = bcp_id b.
Proof. done. Qed.

Lemma keeps_ensureFinalizers i cluster : keeps (Synced i) (ensureFinalizers cluster).
Proof.
  intros s Hs. unfold ensureFinalizers, lift, getCR, gets, modCR, modify, wrap, onW. unfold mbind, M_bind.
  destruct (clusterBackup cluster) as [b|e|]; simpl; [|done..].
  destruct (GetAllowParallel b); [done|]. simpl. case_bool_decide; [done|]. simpl.
  destruct (kc_patchFinalizers _ _ (rs_w s)) as [w' r] eqn:E. apply kl_patchFinalizers in E.
  destruct Hs as (HI & Hi & b0 & Hb0 & Hbi & [Ht Hd] & Hst).
  assert (Inv (kc_view w') (rec_workers (rs_rec s)) /\ exists b1,
    srv_backups (kc_view w') !! bcp_key (rs_cr s) = Some b1 /\ bcp_id b1 = i /\ active b1 /\
    bst_State (bcp_Status b1) = bst_State (bcp_Status (rs_cr s))) as [HI' (b1 & ? & ? & ? & ?)].
  { destruct r as [[]|e|]; [|rewrite E; split; [done|by exists b0]|done].
    destruct E as (b2 & Hb2 & E). rewrite Hb0 in Hb2. injection Hb2 as <-. rewrite E.
    set (b' := set_finalizers _ b0). assert (settle_backup b' = Some b') as Hset.
    { unfold settle_backup. change (meta_DeletionTimestamp (bcp_Meta b')) with
        (meta_DeletionTimestamp (bcp_Meta b0)). by rewrite Hd. }
    rewrite Hset. split.
    - eapply (Inv_backup _ _ _ _ _ _ b'); [done..|]. intros C A S. by eapply (inv_lock _ _ _ _ HI).
    - exists b'. record.simp. by rewrite lookup_partial_alter_eq. }
  assert (Synced i (mkRS w' (set_finalizers (meta_Finalizers (bcp_Meta (rs_cr s)) ++ [FinalizerReleaseLock])
                      (rs_cr s)) (rs_rec s))) as Hs'.
  { split; [done|]. split; [done|]. by exists b1. }
  by destruct r.
Qed.

Lemma cluster_for_stored i s c b sv c' r :
  Synced i s -> bcp_id b = i ->
  srv_clusters (view s) !! mkNN (meta_Namespace (bcp_Meta b)) (bsp_PXCCluster (bcp_Spec b)) = Some c ->
  meta_key (cluster_Meta c) = mkNN (meta_Namespace (bcp_Meta b)) (bsp_PXCCluster (bcp_Spec b)) ->
  CheckNSetDefaults sv c = (c', r) -> cluster_for i c'.
Proof.
  intros (HI & _) Hi Hc Hk E cr Hcr.
  pose proof (CheckNSetDefaults_identity (cluster_Meta c) (parallel_setting (cluster_Spec c)) sv c
    (conj eq_refl eq_refl)) as [Hm Hp]. rewrite E in Hm, Hp. simpl in *.
  rewrite <- Hcr in Hi. injection Hi as Hns _ _ Hspec. rewrite Hns, Hspec in *. split.
  - unfold cluster_Name. rewrite Hm. by injection Hk.
  - intros [C1 C2] bk Hbk. rewrite C1, C2 in Hc. apply (inv_serial _ _ _ _ HI) in Hc.
    unfold parallel_setting in Hp at 1. rewrite Hbk in Hp. simpl in Hp. symmetry in Hp.
    apply Hc in Hp. unfold GetAllowParallel. by rewrite Hp.
Qed.

Lemma triple_reconcileActive i : triple (Synced i) reconcileActive (fun _ => InvS) InvS.
Proof.
  assert (forall s, Returns i s -> InvS s) as HRI by by intros s [? _].
  assert (forall s, Synced i s -> InvS s) as HSI by by intros s [? _].
  assert (forall A e (R : A -> RS W -> Prop), triple (Synced i) (fail_backup e) R InvS) as Hfail.
  { intros A e R. eapply triple_post; [apply triple_fail_backup|intros a s Hs; exact Hs|done]. }
  unfold reconcileActive. eapply triple_bind; [apply triple_getCR|]. intros cr.
  eapply (triple_bind _ _ _ _ (fun c s => (forall sv c' r, CheckNSetDefaults sv c = (c', r) -> cluster_for i c') /\
    Synced i s)).
  { apply triple_wrap, triple_wrap, triple_of_run. intros s s' r [Hcr Hs] Hr. unfold onW in Hr.
    destruct (kc_getCluster _ (rs_w s)) as [w' r'] eqn:E. injection Hr as <- <-.
    destruct (kl_getCluster _ _ _ _ E) as [V Hc].
    assert (Synced i (mkRS w' (rs_cr s) (rs_rec s))) as Hs' by by apply Synced_viewed.
    destruct r' as [c|e|]; [|by apply HSI..]. split; [|done]. intros sv c' r'' Ec.
    eapply (cluster_for_stored i s c cr); [done| |done| |done].
    - rewrite <- Hcr. apply Hs.
    - by eapply kl_getCluster_key. }
  intros c. apply triple_pure. intros Hcl.
  eapply (triple_seq _ _ _ _ (Synced i)); [by apply triple_lift|]. intros b.
  case_match; [|apply Hfail]. case_match; [apply Hfail|].
  destruct (CheckNSetDefaults _ c) as [c' [[]|e|]] eqn:Ec; [|apply Hfail|by apply triple_panic].
  apply Hcl in Ec as Hfor.
  eapply (triple_seq _ _ _ _ (Synced i)); [by apply triple_lift|]. intros b'.
  eapply (triple_seq _ _ _ _ (Synced i)); [by apply triple_lift|]. intros storage.
  eapply triple_seq; [apply triple_wrap; eapply triple_post;
    [apply triple_keeps, keeps_ensureFinalizers|done|done]|]. intros _.
  eapply triple_defer; [by apply triple_reconcileLocked|by apply triple_releaseIfDone].
Qed.
End handlers.
