(* ===== verification/BackupMem.v ===== *)
(** * A concrete world for the backup controller

    An instance of every interface the backup controller is written against, on
    the in-memory API server of [KubeMem], and the objects of a small cluster.
    The theorems about the controller are evaluated on it. *)

From S2P Require Import Prelude GoStrings ApiTypes ApiDefaults ApiDefaultsSpec KubeApi KubeMem Lease Naming CollectorPod BackupTypes BackupController BackupFinalizers MutexHandlers.

(** ** Instances *)

Definition demo_libs : ApiLibs := {|
  api_versions := dotted_versions;
  tmpl_execute text _ := Ok text;
  MinimumCertificateDuration := hours 1 |}.

Section mem_env.
Variable deny : list string.

(** The object storage is [mem_objs]; it has one bucket, whatever the handle. *)
Definition mem_list (p : string) : M Mem (list string) := fun w =>
  if bool_decide ("listObjects" ∈ deny) then (w, Err forbidden)
  else (w, Ok (filter (fun o => HasPrefix o p = true) (elements (mem_objs w)))).

Definition mem_delete (o : string) : M Mem unit := fun w =>
  if bool_decide ("deleteObject" ∈ deny) then (w, Err forbidden)
  else if bool_decide (o ∈ mem_objs w) then (w <| mem_objs := mem_objs w ∖ {[o]} |>, Ok tt)
  else (w, Err ErrObjectNotFound).

Definition Mem_env : BackupEnv Mem := {|
  be_initImage _ := mret "init";
  be_sidecarHost _ := mret "host";
  be_JobSpec _ _ _ _ := if bool_decide ("jobSpec" ∈ deny) then Err forbidden else Ok [];
  be_sidecarJobSpec _ _ _ _ _ := Ok [];
  be_SetStoragePVC env _ _ := Ok env;
  be_SetStorageS3 env _ := Ok env;
  be_SetStorageAzure env _ := Ok env;
  be_setOwner _ _ := Ok tt;
  be_BucketURL s3 := Ok (s3_Bucket s3);
  be_formatTime _ t := pretty t;
  be_collector := {| cp_listPods _ := mret [("collector", "Running")]; cp_exec _ _ := mret ""; cp_stderr _ := "" |};
  be_newStorage _ := mret "bucket";
  be_listObjects _ := mem_list;
  be_deleteObject _ := mem_delete;
  be_xtrabackupSidecar := false;
  be_serverVersion := None |}.

Lemma Mem_storage : @StorageLaws Mem Mem_env (fun _ => mem_objs).
Proof.
  split.
  - intros h p w w' r. simpl. unfold mem_list. case_bool_decide; intros [= <- <-]; [done|].
    split; [done|]. intros l [= <-] o. rewrite list_elem_of_filter, elem_of_elements. naive_solver.
  - intros h o w w' r. simpl. unfold mem_delete. repeat case_bool_decide; intros [= <- <-]; [done|by destruct w|done].
Qed.

Lemma Mem_quiet : @EnvQuiet Mem (Mem_client deny) Mem_env.
Proof.
  split; simpl; intros; try (intros w w' r [= <- <-]; done).
  - intros w w' r. unfold mem_list. case_bool_decide; by intros [= <- <-].
  - intros w w' r. unfold mem_delete. repeat case_bool_decide; intros [= <- <-]; by destruct w.
Qed.

Lemma Mem_reliable :
  "getBackup" ∉ deny -> "statusUpdate" ∉ deny -> @StatusReliable Mem (Mem_client deny).
Proof.
  intros H1 H2. split; simpl.
  - intros w b Hb. unfold mem_keyed, mem_read, guarded. rewrite bool_decide_eq_false_2 by done.
    rewrite Hb, bool_decide_eq_true_2 by done. eauto.
  - intros w b [b0 Hb]. unfold mem_change, guarded. rewrite bool_decide_eq_false_2 by done.
    rewrite Hb. eauto.
Qed.
End mem_env.

(** ** A cluster and its backups *)

Definition demo_meta (name uid : string) : ObjectMeta := mkMeta name "ns" uid ∅ ∅ [] 1 0 None.
Definition demo_probe : Probe := mkProbe 0 0 0 0 0.
Definition demo_pod (size : Z) (vol : option VolumeSpec) : PodSpec :=
  mkPodSpec true size "image" (mkResources ∅ ∅) vol None "" None "" "" "" "" None None demo_probe None
    demo_probe None "" "" [] None [] "" ∅ ∅ [] (mkResources ∅ ∅) "".
Definition demo_volume : VolumeSpec :=
  mkVolumeSpec None None (Some (mkPVCSpec [] {[ "storage" := 1000 ]})).
Definition demo_expose : ServiceExpose := mkExpose false "" None [] ∅ ∅ "" "" "".
Definition demo_s3 : BackupStorageS3Spec := mkS3 "bucket" "s3-secret" "" "" None false.
Definition demo_storage : BackupStorageSpec :=
  mkStorage BackupStorageS3 (Some demo_s3) None None ∅ ∅ None None (mkResources ∅ ∅) None "".
Definition demo_backup_spec (parallel : option bool) : BackupSpec :=
  mkBackupSpec parallel "backup-image" "" [] {[ "s3" := demo_storage ]} (mkPITR false "" 0 0 (mkResources ∅ ∅))
    None None (Some 60) None None None [] "".
Definition demo_spec (parallel : option bool) : PerconaXtraDBClusterSpec :=
  mkClusterSpec "" "1.19.0" false "" None "" "" "" "" None
    (Some (mkPXCSpec None [] demo_expose (demo_pod 3 (Some demo_volume)) "")) None
    (Some (mkHAProxySpec (demo_pod 2 None) demo_expose None None None false)) None None
    (Some (demo_backup_spec parallel)) "" (mkUpgradeOptions "" "" "") false
    (mkUnsafe false false false false) true None None [] [] [] "" "".
Definition demo_app (n : Z) : AppStatus := mkAppStatus AppStateReady "" "" "" "" n n.
Definition demo_status : PerconaXtraDBClusterStatus :=
  mkClusterStatus (demo_app 3) (demo_app 0) (demo_app 2) "" [] AppStateReady [] 1 5 5 None
    (mkComponentStatus "" "") (mkComponentStatus "" "") (mkComponentStatus "" "").
Definition demo_cluster (parallel : option bool) : PerconaXtraDBCluster :=
  mkCluster (demo_meta "c1" "") (demo_spec parallel) demo_status.

Definition demo_uid (c : string) : string := c +:+ "0000000-0000-0000-0000-000000000000".
Definition demo_bcp_status : PXCBackupStatus :=
  mkBcpStatus BackupNew "" None "" "" None None None (StorageOther "") "" "" "" "" None None [] None.
Definition demo_bcp (name uid storage : string) : PerconaXtraDBClusterBackup :=
  mkBcp (demo_meta name (demo_uid uid)) (mkBcpSpec "c1" storage None None None None None) demo_bcp_status.

Definition demo_server : Server :=
  mkServer ∅ {[ mkNN "ns" "c1" := demo_cluster (Some false) ]} ∅ ∅ ∅ ∅ [].
Definition demo_world : Mem := mkMem demo_server 0 ∅.

(** Changing the stored objects, or the clock, from outside. *)
Definition with_server (s : Server) (w : Mem) : Mem := w <| mem_srv := s |>.
Definition add_backup (b : PerconaXtraDBClusterBackup) (w : Mem) : Mem :=
  w <| mem_srv -> srv_backups ::= <[bcp_key b := b]> |>.
