(* ===== verification/SafeDefaults.v ===== *)
(** * Safe sizes, valid durations, unique names

    What a cluster object satisfies once [Validate] and [CheckNSetDefaults]
    ([ApiDefaults]) accepted it. *)

From S2P Require Import Prelude GoStrings ApiTypes ApiDefaults ApiDefaultsSpec KubeApi KubeMem Naming BackupMem.

(** ** Sizes *)

Lemma safe_pxc_size_range n : safe_pxc_size n = 3 \/ safe_pxc_size n = 5.
Proof.
  unfold safe_pxc_size, maxSafePXCSize.
  destruct (decide (n < 3)); [rewrite (bool_decide_eq_true_2 (n < 3)) by done; by left|].
  rewrite (bool_decide_eq_false_2 (n < 3)) by done.
  destruct (decide (5 < n)); [rewrite (bool_decide_eq_true_2 (5 < n)) by done; by right|].
  rewrite (bool_decide_eq_false_2 (5 < n)) by done.
  assert (n = 3 \/ n = 4 \/ n = 5) as [-> |[-> | ->]] by lia; vm_compute; auto.
Qed.

Lemma safe_pxc_size_idem n : safe_pxc_size (safe_pxc_size n) = safe_pxc_size n.
Proof. by destruct (safe_pxc_size_range n) as [-> | ->]. Qed.

Lemma safe_proxy_size_min n : minSafeProxySize <= safe_proxy_size n.
Proof. unfold safe_proxy_size. case_bool_decide; lia. Qed.

Lemma safe_proxy_size_idem n : safe_proxy_size (safe_proxy_size n) = safe_proxy_size n.
Proof. unfold safe_proxy_size at 1. rewrite bool_decide_eq_false_2; [done|]. pose proof (safe_proxy_size_min n). lia. Qed.

(** The part of the specification the size rules read. *)
Record View := mkView {
  vw_allow : bool; vw_unsafe : UnsafeFlags; vw_pause : bool;
  vw_tls : option (option bool);
  vw_pxc : option Z; vw_haproxy : option (bool * Z); vw_proxysql : option (bool * Z) }.

Definition pod_view (p : PodSpec) : bool * Z := (pod_Enabled p, pod_Size p).
Definition view (s : PerconaXtraDBClusterSpec) : View :=
  mkView (spec_AllowUnsafeConfig s) (spec_Unsafe s) (spec_Pause s) (tls_Enabled <$> spec_TLS s)
    ((pod_Size ∘ pxc_PodSpec) <$> spec_PXC s) ((pod_view ∘ ha_PodSpec) <$> spec_HAProxy s)
    ((pod_view ∘ ps_PodSpec) <$> spec_ProxySQL s).

Definition safe_proxy (p : bool * Z) : bool * Z := if p.1 then (true, safe_proxy_size p.2) else p.

Lemma view_setSafeDefaults s :
  view (setSafeDefaults s) =
  let v := view s in
  if vw_allow v then v
  else mkView (vw_allow v) (vw_unsafe v) (vw_pause v) (vw_tls v) (safe_pxc_size <$> vw_pxc v)
         (safe_proxy <$> vw_haproxy v) (safe_proxy <$> vw_proxysql v).
Proof.
  unfold setSafeDefaults, spec_ProxySQLEnabled, spec_HAProxyEnabled. cbn [vw_allow view].
  destruct (spec_AllowUnsafeConfig s) eqn:Ea; [done|]. cbv zeta. record.simp.
  destruct (spec_PXC s) as [pxc|] eqn:Ep, (spec_ProxySQL s) as [ps|] eqn:Eq, (spec_HAProxy s) as [ha|] eqn:Eh;
    try destruct (pod_Enabled (ps_PodSpec ps)) eqn:E1; record.simp; rewrite ?Eh;
    try destruct (pod_Enabled (ha_PodSpec ha)) eqn:E2;
    unfold view; record.simp; rewrite ?Ep, ?Eq, ?Eh, ?Ea; cbn; unfold pod_view, safe_proxy; try record.simp;
    rewrite ?E1, ?E2; try done.
Qed.

Definition proxy_safe (v : option (bool * Z)) : Prop := forall n, v = Some (true, n) -> minSafeProxySize <= n.

(** The sizes and the TLS switch the operator calls safe. *)
Definition safe_sizes (v : View) : Prop :=
  (unsafe_PXCSize (vw_unsafe v) = false -> vw_pxc v = Some 3 \/ vw_pxc v = Some 5) /\
  (unsafe_ProxySize (vw_unsafe v) = false -> proxy_safe (vw_haproxy v) /\ proxy_safe (vw_proxysql v)).
Definition safe_view (v : View) : Prop :=
  (unsafe_TLS (vw_unsafe v) = false -> vw_tls v = Some (Some true)) /\ safe_sizes v.

Lemma size_checks n :
  (bool_decide (n < 3) = false /\ bool_decide (maxSafePXCSize < n) = false /\
   bool_decide (Z.rem n 2 = 0) = false) <-> n = 3 \/ n = 5.
Proof.
  unfold maxSafePXCSize. split.
  - intros (H1 & H2 & H3). apply bool_decide_eq_false in H1, H2, H3.
    assert (n = 3 \/ n = 4 \/ n = 5) as [-> |[-> | ->]] by lia; auto. by destruct H3.
  - by intros [-> | ->].
Qed.

Lemma proxy_check {A} (get : A -> PodSpec) (p : option A) (unsafe : bool) (en : bool) :
  en = match p with Some a => pod_Enabled (get a) | None => false end ->
  (en && default false (((fun p => negb unsafe && bool_decide (pod_Size p < minSafeProxySize)) ∘ get) <$> p) = false
   <-> (unsafe = false -> proxy_safe ((pod_view ∘ get) <$> p))).
Proof.
  intros ->. unfold proxy_safe, pod_view. destruct p as [a|]; cbn; [|done].
  destruct (pod_Enabled (get a)), unsafe; cbn; try (split; [intros _|]; done).
  rewrite bool_decide_eq_false. split.
  - intros Hn _ n [= <-]. lia.
  - intros Hn. specialize (Hn eq_refl _ eq_refl). lia.
Qed.

Lemma if_Err (b : bool) e (r : res unit) : (if b then Err e else r) = Ok tt <-> b = false /\ r = Ok tt.
Proof. destruct b; split; intros; intuition discriminate. Qed.

Lemma unless (u b : bool) : negb u && b = false <-> (u = false -> b = false).
Proof. destruct u, b; split; intros; intuition discriminate. Qed.

(** [checkSafeDefaults] accepts exactly the safe specifications. *)
Lemma checkSafeDefaults_spec s n b :
  vw_pxc (view s) = Some n -> vw_tls (view s) = Some (Some b) ->
  checkSafeDefaults s = Ok tt <-> safe_view (view s).
Proof.
  unfold view, safe_view, safe_sizes, checkSafeDefaults. cbn [vw_pxc vw_tls vw_unsafe vw_haproxy vw_proxysql].
  destruct (spec_PXC s) as [pxc|]; [|done]. destruct (spec_TLS s) as [[en dur ca]|]; [|done]. cbn.
  intros [= Hn] [= ->]. unfold deref, mbind, res_bind. rewrite Hn. rewrite !if_Err, !unless.
  rewrite (proxy_check ps_PodSpec (spec_ProxySQL s) _ _ eq_refl).
  rewrite (proxy_check ha_PodSpec (spec_HAProxy s) _ _ eq_refl).
  assert (negb b = false <-> Some (Some b) = Some (Some true)) as -> by (destruct b; split; done).
  pose proof (size_checks n) as Hs.
  assert ((Some n = Some 3 \/ Some n = Some 5) <-> (n = 3 \/ n = 5)) as ->
    by (clear; split; (intros [E|E]; [left|right]); congruence).
  rewrite <-Hs. clear. tauto.
Qed.

Lemma safe_sizes_forced u pause tls n ha ps a :
  safe_sizes (mkView a u pause tls (Some (safe_pxc_size n)) (safe_proxy <$> ha) (safe_proxy <$> ps)).
Proof.
  assert (forall p, proxy_safe (safe_proxy <$> p)) as Hps.
  { intros [[[] k]|] m; cbn; [|done|done]. intros [= <-]. apply safe_proxy_size_min. }
  split; cbn; [|by split]. intros _. destruct (safe_pxc_size_range n) as [-> | ->]; auto.
Qed.

(** The forced sizes pass the check.  What [setSafeDefaults] leaves, on a
    cluster that does not allow unsafe settings and has TLS on, is accepted by
    [checkSafeDefaults] whatever flags are set; a second pass changes no size;
    and a specification that was safe already is not changed. *)
Theorem setSafeDefaults_accepted s n :
  vw_tls (view s) = Some (Some true) -> vw_pxc (view s) = Some n -> spec_AllowUnsafeConfig s = false ->
  checkSafeDefaults (setSafeDefaults s) = Ok tt /\
  view (setSafeDefaults (setSafeDefaults s)) = view (setSafeDefaults s) /\
  (safe_view (view s) -> spec_Unsafe s = mkUnsafe false false false false -> view (setSafeDefaults s) = view s).
Proof.
  intros Ht Hp Ha.
  assert (view (setSafeDefaults s) = mkView false (vw_unsafe (view s)) (vw_pause (view s)) (Some (Some true))
            (Some (safe_pxc_size n)) (safe_proxy <$> vw_haproxy (view s)) (safe_proxy <$> vw_proxysql (view s))) as Hv.
  { rewrite view_setSafeDefaults. cbv zeta. change (vw_allow (view s)) with (spec_AllowUnsafeConfig s). by rewrite Ha, Ht, Hp. }
  split_and!.
  - eapply checkSafeDefaults_spec; rewrite ?Hv; [done..|]. split; [done|apply safe_sizes_forced].
  - rewrite view_setSafeDefaults, Hv. cbn. rewrite safe_pxc_size_idem.
    assert (forall p : option (bool * Z), safe_proxy <$> (safe_proxy <$> p) = safe_proxy <$> p) as Hid.
    { intros [[[] k]|]; cbn; [|done|done]. by rewrite safe_proxy_size_idem. }
    by rewrite !Hid.
  - intros (_ & Hs & Hq) Hu. rewrite Hv. change (vw_unsafe (view s)) with (spec_Unsafe s) in Hs, Hq.
    rewrite Hu in Hs, Hq. specialize (Hs eq_refl). destruct (Hq eq_refl) as [Hq1 Hq2].
    assert (forall p, proxy_safe p -> safe_proxy <$> p = p) as Hid.
    { intros [[[] k]|] Hk; cbn; [|done|done]. specialize (Hk k eq_refl). unfold safe_proxy_size.
      by rewrite bool_decide_eq_false_2 by lia. }
    rewrite (Hid _ Hq1), (Hid _ Hq2).
    rewrite Hp in Hs.
    assert (safe_pxc_size n = n) as -> by (destruct Hs as [[= ->]|[= ->]]; done).
    rewrite <-Ht, <-Hp, <-Ha. done.
Qed.

Section safe.
Context `{ApiLibs} (m : ObjectMeta).

(** The object keeps its metadata and its view. *)
Definition viewed (v : View) (c : PerconaXtraDBCluster) : Prop :=
  cluster_Meta c = m /\ view (cluster_Spec c) = v.

Lemma viewed_updSpec v f :
  (forall s, view s = v -> view (f s) = v) -> keeps (viewed v) (updSpec f).
Proof. intros Hf c [Hm Hv]. unfold updSpec, modify, viewed. record.simp. split; [done|]. by apply Hf. Qed.

Lemma viewed_fail_if v b msg : keeps (viewed v) (fail_if b msg).
Proof. unfold fail_if. keeps_solve. Qed.
Lemma viewed_raise v e : keeps (viewed v) (raise e).
Proof. unfold raise. keeps_solve. Qed.
Lemma viewed_version_lt v ver : keeps (viewed v) (version_lt ver).
Proof. unfold version_lt. keeps_solve. Qed.
Lemma viewed_getSpec v : keeps (viewed v) getSpec.
Proof. apply keeps_gets. Qed.

Ltac fold_fmap := rewrite <-?option_fmap_compose.
Ltac view_solve :=
  apply viewed_updSpec; let s := fresh "s" in intros s <-; unfold view, upd_pxc, pod_reconcileAffinityOpts, defaults_pxc_secrets, tls_defaults,
    defaults_sidecars, defaults_platform, defaults_upgrade, setProbesDefaults,
    setPasswordGenerationOptionsDefaults, setPodSecurityContext, defaults_backup;
  try record.simp;
  destruct (spec_PXC s), (spec_HAProxy s), (spec_ProxySQL s); cbn; try record.simp; try done.
Ltac vs := repeat first
  [ keeps_step
  | apply viewed_fail_if | apply viewed_raise | apply viewed_version_lt | apply viewed_getSpec
  | solve [view_solve] ].

Lemma viewed_Validate v : keeps (viewed v) Validate.
Proof. unfold Validate, validate_pxc, validate_proxies, validate_backup. vs. Qed.

Lemma viewed_sidecars v : keeps (viewed v) (updSpec defaults_sidecars).
Proof. vs. Qed.
Lemma viewed_backup v : keeps (viewed v) (updSpec defaults_backup).
Proof. vs. Qed.
Lemma viewed_security v : keeps (viewed v) (updSpec setPodSecurityContext).
Proof. vs. Qed.
Lemma viewed_probes v : keeps (viewed v) (updSpec setProbesDefaults).
Proof.
  apply viewed_updSpec. intros s <-. unfold setProbesDefaults, spec_HAProxyEnabled, view.
  record.simp. destruct (spec_HAProxy s) as [h|] eqn:Eh; [destruct (pod_Enabled (ha_PodSpec h)) eqn:En|];
    record.simp; rewrite ?Eh; destruct (spec_PXC s); try done.
Qed.

Lemma executeConfigurationTemplate_view p p' :
  executeConfigurationTemplate p = Ok p' -> pod_view p' = pod_view p.
Proof.
  unfold executeConfigurationTemplate, pod_view. case_match.
  - destruct (tmpl_execute _ _); intros [= <-]. by record.simp.
  - case_match; by intros [= <-].
Qed.

Lemma viewed_read {A} v (f : PerconaXtraDBCluster -> M PerconaXtraDBCluster A) :
  (forall c, view (cluster_Spec c) = v -> keeps (viewed v) (f c)) -> keeps (viewed v) (c ← gets id; f c).
Proof. intros Hf c Hc. apply (Hf c); [by destruct Hc|done]. Qed.

Lemma keeps_lift_bind {W A B} (I : W -> Prop) (r : res A) (f : A -> M W B) :
  (forall a, r = Ok a -> keeps I (f a)) -> keeps I (a ← lift r; f a).
Proof. intros Hf w Hw. unfold lift, mbind, M_bind. destruct r; [by apply Hf|done|done]. Qed.

Lemma keeps_wrap_lift_bind {W A B} (I : W -> Prop) msg (r : res A) (f : A -> M W B) :
  (forall a, r = Ok a -> keeps I (f a)) -> keeps I (a ← wrap msg (lift r); f a).
Proof. intros Hf w Hw. unfold wrap, lift, mbind, M_bind. destruct r; [by apply Hf|done|done]. Qed.

Lemma view_put_haproxy s h : vw_haproxy (view s) = Some (pod_view (ha_PodSpec h)) ->
  view (s <| spec_HAProxy := Some h |>) = view s.
Proof. unfold view. cbn [vw_haproxy]. intros E. record.simp. by rewrite E. Qed.
Lemma view_put_proxysql s p : vw_proxysql (view s) = Some (pod_view (ps_PodSpec p)) ->
  view (s <| spec_ProxySQL := Some p |>) = view s.
Proof. unfold view. cbn [vw_proxysql]. intros E. record.simp. by rewrite E. Qed.

Lemma viewed_haproxy v sa : vw_pause v = false -> keeps (viewed v) (defaults_haproxy sa).
Proof.
  intros Hpause. apply viewed_read. intros c Hc. cbv zeta.
  assert (spec_Pause (cluster_Spec c) = false) as -> by (by rewrite <-Hc in Hpause).
  case_match; [apply keeps_ret|]. apply keeps_lift_bind. intros h Hh.
  apply keeps_bind; [apply viewed_version_lt|]. intros old.
  assert (vw_haproxy v = Some (pod_view (ha_PodSpec h))) as Hv.
  { rewrite <-Hc. unfold view. cbn [vw_haproxy]. by destruct (spec_HAProxy (cluster_Spec c)); simplify_eq/=. }
  set (h0 := if old then _ else _).
  assert (ha_PodSpec h0 = ha_PodSpec h) as -> by (unfold h0; destruct old; by record.simp).
  apply keeps_bind.
  { apply viewed_updSpec. intros s <-. apply view_put_haproxy. by record.simp. }
  intros _. apply keeps_wrap_lift_bind. intros p Hp%executeConfigurationTemplate_view.
  apply viewed_updSpec. intros s <-. apply view_put_haproxy. record.simp. by rewrite Hp.
Qed.

Lemma viewed_proxysql v sa : vw_pause v = false -> keeps (viewed v) (defaults_proxysql sa).
Proof.
  intros Hpause. apply viewed_read. intros c Hc. cbv zeta.
  assert (spec_Pause (cluster_Spec c) = false) as -> by (by rewrite <-Hc in Hpause).
  case_match; [apply keeps_ret|]. apply keeps_lift_bind. intros h Hh.
  assert (vw_proxysql v = Some (pod_view (ps_PodSpec h))) as Hv.
  { rewrite <-Hc. unfold view. cbn [vw_proxysql]. by destruct (spec_ProxySQL (cluster_Spec c)); simplify_eq/=. }
  apply keeps_bind.
  { apply viewed_updSpec. intros s <-. apply view_put_proxysql. by record.simp. }
  intros _. apply keeps_wrap_lift_bind. intros p Hp%executeConfigurationTemplate_view.
  apply viewed_updSpec. intros s <-. apply view_put_proxysql. record.simp. by rewrite Hp.
Qed.

(** The TLS block turns an unset switch on. *)
Definition tls_on (v : View) : View :=
  mkView (vw_allow v) (vw_unsafe v) (vw_pause v)
    (Some (Some (default true (default None (vw_tls v))))) (vw_pxc v) (vw_haproxy v) (vw_proxysql v).

Lemma view_pxc_secrets name s :
  spec_AllowUnsafeConfig s = false -> view (defaults_pxc_secrets name s) = tls_on (view s).
Proof.
  intros Ha. unfold defaults_pxc_secrets, tls_defaults, upd_pxc. cbv zeta. record.simp. rewrite Ha.
  unfold view, tls_on. record.simp. cbn [vw_tls vw_pxc vw_haproxy vw_proxysql vw_allow vw_unsafe vw_pause].
  destruct (spec_PXC s), (spec_TLS s) as [[[]]|]; try done; cbn; by record.simp.
Qed.

Lemma fail_if_inv {W} b msg (w w' : W) r : fail_if b msg w = (w', Ok r) -> w' = w.
Proof. unfold fail_if. case_match; [done|]. by intros [= <-]. Qed.

Lemma Validate_pxc c c' : Validate c = (c', Ok tt) -> exists p, spec_PXC (cluster_Spec c) = Some p.
Proof.
  unfold Validate. intros E.
  apply bind_inv_Ok in E as (c0 & cr & E0 & E). injection E0 as <- <-.
  apply bind_inv_Ok in E as (c1 & [] & ->%fail_if_inv & E).
  apply bind_inv_Ok in E as (c2 & [] & E2 & E).
  assert (c2 = c) as -> by (revert E2; unfold id; case_match; [done|]; by intros [= <-]).
  apply bind_inv_Ok in E as (c3 & [] & E3 & _). unfold validate_pxc in E3.
  apply bind_inv_Ok in E3 as (c4 & s & E4 & E3). injection E4 as <- <-.
  destruct (spec_PXC (cluster_Spec c)) as [p|]; [by exists p|done].
Qed.

Lemma viewed_getSpec_bind {A} v (f : PerconaXtraDBClusterSpec -> M PerconaXtraDBCluster A) :
  (forall s, view s = v -> keeps (viewed v) (f s)) -> keeps (viewed v) (s ← getSpec; f s).
Proof. intros Hf c Hc. apply (Hf (cluster_Spec c)); [by destruct Hc|done]. Qed.

(** The part of [defaults_pxc] after the size check. *)
Lemma viewed_pxc_tail v (name sa : string) (s : PerconaXtraDBClusterSpec) :
  spec_Pause s = false ->
  keeps (viewed v) (
    _ ← updSpec (upd_pxc (fun p =>
        pod_reconcileAffinityOpts
          (p <| pod_PodDisruptionBudget ::= or_nil (mkPDB None (Some 1)) |>
             <| pod_TerminationGracePeriodSeconds ::= or_nil 600 |>
             <| pod_ServiceAccountName ::= or_default sa |>
             <| pod_EnvVarsSecretName ::= or_default (name +:+ "-env-vars-pxc") |>)));
    _ ← (when spec_Pause s do updSpec (upd_pxc (fun p => p <| pod_Size := 0 |>)));
    s ← getSpec;
    pxc ← lift (deref (spec_PXC s));
    pod ← wrap "pxc config" (lift (executeConfigurationTemplate (pxc_PodSpec pxc)));
    _ ← updSpec (upd_pxc (fun _ => pod));
    old ← version_lt "1.10.0";
    let inherit r := if empty_resources r then pod_Resources pod else r in
    _ ← (when (old : bool) do updSpec (fun s =>
           s <| spec_PMM ::= fmap (fun p => p <| pmm_Resources ::= inherit |>) |>
             <| spec_LogCollector ::= fmap (fun p => p <| lc_Resources ::= inherit |>) |>));
    updSpec (fun s => s <| spec_LogCollectorSecretName ::= or_default (name +:+ "-log-collector") |>)).
Proof.
  intros ->. apply keeps_bind; [vs|]. intros _. apply keeps_bind; [vs|]. intros _.
  apply viewed_getSpec_bind. intros s1 Hs1. apply keeps_lift_bind. intros pxc Hpxc.
  apply keeps_wrap_lift_bind. intros pod Hpod%executeConfigurationTemplate_view.
  assert (vw_pxc v = Some (pod_Size pod)) as Hv.
  { rewrite <-Hs1. unfold view. cbn [vw_pxc]. destruct (spec_PXC s1); simplify_eq/=.
    f_equal. congruence. }
  apply keeps_bind; [|intros _; apply keeps_bind; [apply viewed_version_lt|intros old; cbv zeta; vs]].
  apply viewed_updSpec. intros s2 <-. unfold upd_pxc, view in *. cbn [vw_pxc] in Hv. record.simp.
  destruct (spec_PXC s2); [|done]. cbn in *. try record.simp. by rewrite Hv.
Qed.

Lemma defaults_pxc_safe v sa n :
  vw_allow v = false -> vw_pause v = false -> vw_pxc v = Some n -> meta_DeletionTimestamp m = None ->
  triple (viewed v) (defaults_pxc sa)
    (fun _ c => exists v', viewed v' c /\ safe_sizes v' /\ vw_pause v' = false /\ vw_unsafe v' = vw_unsafe v)
    (fun _ => True).
Proof.
  intros Ha Hp Hn Hdel. unfold defaults_pxc.
  apply (triple_bind _ _ _ _ (fun cr c => cluster_Meta cr = m /\ viewed v c)).
  { apply triple_gets. unfold id. intros c Hc. split; [apply Hc|done]. }
  intros cr. apply triple_pure. intros Hcr. cbv zeta.
  apply (triple_seq _ _ _ _ (viewed (tls_on v))).
  { apply triple_modify. intros c [Hm Hv]. split; record.simp; [done|].
    rewrite view_pxc_secrets; [by rewrite Hv|]. by rewrite <-Hv in Ha. }
  intros _. apply (triple_bind _ _ _ _ (fun s c => view s = tls_on v /\ viewed (tls_on v) c)).
  { apply triple_gets. intros c Hc. split; [apply Hc|done]. }
  intros s. apply triple_pure. intros Hs.
  assert (spec_Pause s = false) as Hpause by (change (spec_Pause s) with (vw_pause (view s)); by rewrite Hs).
  rewrite Hcr, Hdel, bool_decide_eq_true_2, Hpause by done. simpl andb. cbv iota.
  pose (v' := view (setSafeDefaults s)).
  apply (triple_seq _ _ _ _ (fun c => exists v', viewed v' c /\ safe_sizes v' /\ vw_pause v' = false /\
                                        vw_unsafe v' = vw_unsafe v)).
  2: { intros _. apply triple_ex. intros v1. 
       apply (triple_pre _ (fun c => (safe_sizes v1 /\ vw_pause v1 = false /\ vw_unsafe v1 = vw_unsafe v) /\ viewed v1 c));
         [|by intros c (? & ? & ? & ?)]. apply triple_pure. intros Hv1.
       apply (triple_post _ _ _ (fun _ => viewed v1) _ (viewed v1)); [|eauto|done].
       apply triple_keeps. pose proof (viewed_pxc_tail v1 (cluster_Name cr) sa s Hpause) as Ht.
       rewrite Hpause in Ht. exact Ht. }
  apply (triple_bind _ _ _ _ (fun _ => viewed (tls_on v))).
  { eapply triple_post; [apply triple_keeps, viewed_version_lt|done|done]. }
  intros [].
  - apply triple_modify. intros c [Hm Hv]. exists (view (setSafeDefaults (cluster_Spec c))).
    split; [by split; record.simp|]. rewrite view_setSafeDefaults, Hv. cbn. rewrite Ha, Hn. cbn.
    split; [|done]. apply safe_sizes_forced.
  - apply triple_wrap, triple_lift; [|done]. intros c [] Hc Ok. exists (tls_on v).
    split; [done|]. split; [|done].
    eapply checkSafeDefaults_spec in Ok; [|by rewrite Hs; apply Hn|by rewrite Hs]. rewrite Hs in Ok. apply Ok.
Qed.

(** The certificate durations are in order. *)
Definition durations_ok (s : PerconaXtraDBClusterSpec) : Prop :=
  exists tls dur cadur, spec_TLS s = Some tls /\ tls_Duration tls = Some dur /\ tls_CADuration tls = Some cadur /\
    MinimumCertificateDuration ≤ dur /\ dur ≤ cadur /\ DefaultRenewBefore < cadur.

Lemma triple_fail_if {W} b msg (P Q : W -> Prop) :
  (forall w, P w -> b = false -> Q w) -> triple P (fail_if b msg) (fun _ => Q) (fun _ => True).
Proof. intros HQ w Hw. unfold fail_if. destruct b; simpl; [done|by apply HQ]. Qed.

Lemma defaults_durations_ok v :
  unsafe_TLS (vw_unsafe v) = false ->
  triple (viewed v) defaults_durations (fun _ c => viewed v c /\ durations_ok (cluster_Spec c)) (fun _ => True).
Proof.
  intros Hu. apply triple_of_run. intros c c' r [Hm Hv] E. destruct r as [[]| |]; [|done|done].
  unfold defaults_durations in E.
  apply bind_inv_Ok in E as (c0 & s & E0 & E). injection E0 as <- <-.
  apply bind_inv_Ok in E as (c0 & en & E0 & E). injection E0 as <- Een.
  assert (en = true) as ->.
  { unfold TLSEnabled in Een. assert (unsafe_TLS (spec_Unsafe (cluster_Spec c)) = false) as Hu'
      by (by rewrite <-Hv in Hu). rewrite Hu' in Een. by injection Een. }
  simpl negb in E. cbv iota in E.
  apply bind_inv_Ok in E as (c0 & tls & E0 & E). injection E0 as <- Etls.
  apply bind_inv_Ok in E as (c1 & [] & E0 & E). injection E0 as <-.
  apply bind_inv_Ok in E as (c2 & [] & Ed & E). apply bind_inv_Ok in E as (c3 & [] & Ec & Er).
  pose proof (fail_if_inv _ _ _ _ _ Ed) as ->. pose proof (fail_if_inv _ _ _ _ _ Ec) as ->.
  pose proof (fail_if_inv _ _ _ _ _ Er) as ->.
  revert Ed Ec Er. unfold fail_if. case_bool_decide; [done|]. case_bool_decide; [done|]. case_bool_decide; [done|].
  intros _ _ _. destruct (spec_TLS (cluster_Spec c)) as [tls0|] eqn:Et; [|done]. injection Etls as ->.
  split.
  - split; record.simp; [done|]. rewrite <-Hv. unfold view. record.simp. rewrite Et. cbn. by record.simp.
  - eexists _, _, _. record.simp. split; [done|]. record.simp. split_and!; [done..|lia|lia|lia].
Qed.

(** The invariant of the steps after [spec.pxc] was checked. *)
Definition settled (u : UnsafeFlags) (c : PerconaXtraDBCluster) : Prop :=
  exists v, viewed v c /\ safe_sizes v /\ vw_pause v = false /\ vw_unsafe v = u.

Lemma settled_keeps {A} u (p : M PerconaXtraDBCluster A) :
  (forall v, vw_pause v = false -> keeps (viewed v) p) -> keeps (settled u) p.
Proof. intros Hk c (v & Hv & ? & ? & ?). exists v. split; [|done]. by apply Hk. Qed.

Lemma settled_step {A B} u (p : M PerconaXtraDBCluster A) (f : A -> M PerconaXtraDBCluster B) R :
  (forall v, vw_pause v = false -> keeps (viewed v) p) ->
  (forall a, triple (settled u) (f a) R (fun _ => True)) ->
  triple (settled u) (p ≫= f) R (fun _ => True).
Proof.
  intros Hk Hf. eapply (triple_seq _ _ _ _ (settled u)); [|done].
  eapply triple_post; [apply triple_keeps, settled_keeps, Hk|done|done].
Qed.

Lemma CheckNSetDefaults_settled sv v n :
  vw_allow v = false -> vw_pause v = false -> vw_pxc v = Some n -> meta_DeletionTimestamp m = None ->
  unsafe_TLS (vw_unsafe v) = false ->
  triple (viewed v) (CheckNSetDefaults sv)
    (fun _ c => settled (vw_unsafe v) c /\ durations_ok (cluster_Spec c)) (fun _ => True).
Proof.
  intros Ha Hp Hn Hdel Hu. unfold CheckNSetDefaults.
  apply (triple_seq _ _ _ _ (viewed v)).
  { eapply triple_post; [apply triple_keeps, keeps_wrap, viewed_Validate|done|done]. }
  intros _. apply (triple_seq _ _ _ _ (viewed v)).
  { eapply triple_post; [apply triple_keeps, viewed_version_lt|done|done]. }
  intros old. cbv zeta. apply (triple_seq _ _ _ _ (settled (vw_unsafe v))).
  { by eapply defaults_pxc_safe. }
  intros _. apply settled_step; [intros; apply viewed_sidecars|]. intros _.
  apply settled_step; [intros; by apply viewed_haproxy|]. intros _.
  apply settled_step; [intros; by apply viewed_proxysql|]. intros _.
  apply settled_step; [intros; apply viewed_backup|]. intros _.
  apply settled_step; [intros; vs|]. intros _.
  apply settled_step; [intros; apply viewed_probes|]. intros _.
  apply settled_step; [intros; apply viewed_security|]. intros _.
  apply settled_step; [intros; vs|]. intros _.
  apply settled_step; [intros; vs|]. intros _.
  apply settled_step; [intros; apply viewed_version_lt|]. intros old'.
  apply settled_step; [intros; vs|]. intros _.
  apply triple_ex. intros v1.
  apply (triple_pre _ (fun c => (safe_sizes v1 /\ vw_pause v1 = false /\ vw_unsafe v1 = vw_unsafe v) /\ viewed v1 c));
    [|by intros c (? & ? & ? & ?)]. apply triple_pure. intros (Hs & Hp1 & Hu1).
  eapply triple_post; [apply (defaults_durations_ok v1); by rewrite Hu1| |done].
  intros _ c [Hc Hd]. split; [|done]. by exists v1.
Qed.
End safe.

(** C7: a defaulted cluster is safe.  When [CheckNSetDefaults] accepts a cluster
    that is neither paused nor being deleted and sets no unsafe flag, then
    whatever the CR version, the database has 3 or 5 pods, an enabled proxy has at least 2,
    and the certificate durations are set and in order. *)
Theorem CheckNSetDefaults_safe `{ApiLibs} sv cr cr' :
  CheckNSetDefaults sv cr = (cr', Ok tt) ->
  meta_DeletionTimestamp (cluster_Meta cr) = None -> spec_Pause (cluster_Spec cr) = false ->
  spec_AllowUnsafeConfig (cluster_Spec cr) = false ->
  spec_Unsafe (cluster_Spec cr) = mkUnsafe false false false false ->
  let s := cluster_Spec cr' in
  (exists pxc, spec_PXC s = Some pxc /\ (pod_Size (pxc_PodSpec pxc) = 3 \/ pod_Size (pxc_PodSpec pxc) = 5)) /\
  (forall h, spec_HAProxy s = Some h -> pod_Enabled (ha_PodSpec h) = true -> 2 ≤ pod_Size (ha_PodSpec h)) /\
  (forall p, spec_ProxySQL s = Some p -> pod_Enabled (ps_PodSpec p) = true -> 2 ≤ pod_Size (ps_PodSpec p)) /\
  durations_ok s.
Proof.
  intros E Hdel Hp Ha Hu s.
  assert (exists p, spec_PXC (cluster_Spec cr) = Some p) as [p Hpxc].
  { unfold CheckNSetDefaults in E. apply bind_inv_Ok in E as (c1 & [] & E1%wrap_inv_Ok & _).
    by eapply Validate_pxc. }
  pose proof (CheckNSetDefaults_settled (cluster_Meta cr) sv (view (cluster_Spec cr)) (pod_Size (pxc_PodSpec p))) as Ht.
  unfold view in Ht at 3. cbn [vw_pxc] in Ht. rewrite Hpxc in Ht.
  specialize (Ht Ha Hp eq_refl Hdel). cbn [vw_unsafe view] in Ht. rewrite Hu in Ht. specialize (Ht eq_refl).
  apply (triple_run _ _ _ _ _ _ _ Ht) in E as [(v & [_ Hv] & [Hs1 Hs2] & _ & Hvu) Hd]; [|done].
  rewrite Hvu in Hs1, Hs2. specialize (Hs1 eq_refl). destruct (Hs2 eq_refl) as [Hh Hq].
  fold s in Hv, Hd. rewrite <-Hv in Hs1, Hh, Hq. unfold view in Hs1, Hh, Hq. cbn [vw_pxc vw_haproxy vw_proxysql] in *.
  split_and!; [|..|done].
  - destruct (spec_PXC s) as [px|]; [|by destruct Hs1]. exists px. split; [done|].
    destruct Hs1 as [[= ->]|[= ->]]; auto.
  - intros h Eh En. rewrite Eh in Hh. apply Hh. cbn. unfold pod_view. by rewrite En.
  - intros q Eq En. rewrite Eq in Hq. apply Hq. cbn. unfold pod_view. by rewrite En.
Qed.

Lemma CheckNSetDefaults_safe_witness :
  exists cr', @CheckNSetDefaults demo_libs None (demo_cluster None) = (cr', Ok tt) /\
    (exists pxc, spec_PXC (cluster_Spec cr') = Some pxc /\
       (pod_Size (pxc_PodSpec pxc) = 3 \/ pod_Size (pxc_PodSpec pxc) = 5)).
Proof.
  assert ((@CheckNSetDefaults demo_libs None (demo_cluster None)).2 = Ok tt) as H2 by (vm_compute; reflexivity).
  exists (@CheckNSetDefaults demo_libs None (demo_cluster None)).1.
  assert (@CheckNSetDefaults demo_libs None (demo_cluster None) =
            ((@CheckNSetDefaults demo_libs None (demo_cluster None)).1, Ok tt)) as E
    by (rewrite <-H2; apply surjective_pairing).
  split; [exact E|].
  exact (proj1 (@CheckNSetDefaults_safe demo_libs None (demo_cluster None) _ E eq_refl eq_refl eq_refl eq_refl)).
Defined.

Lemma setSafeDefaults_accepted_witness :
  let s := (demo_spec None) <| spec_TLS := Some (mkTLS (Some true) [] None None None) |>
             <| spec_PXC := Some (mkPXCSpec None [] demo_expose (demo_pod 4 (Some demo_volume)) "") |> in
  checkSafeDefaults s <> Ok tt /\ checkSafeDefaults (setSafeDefaults s) = Ok tt.
Proof.
  intros s. split; [vm_compute; discriminate|].
  apply (setSafeDefaults_accepted s 4); vm_compute; reflexivity.
Defined.

(** ** Unique names *)

Lemma validate_users_unique l : forall seen,
  validate_users seen l = None <->
  NoDup (user_Name <$> l) /\ forall u, u ∈ l -> user_Name u ∉ seen.
Proof.
  induction l as [|u l IH]; intros seen; simpl.
  { split; [intros _; split; [constructor|by intros u ?%elem_of_nil]|done]. }
  rewrite NoDup_cons. case_bool_decide as Hin.
  - split; [done|]. intros [_ Hs]. by destruct (Hs u ltac:(by left)).
  - rewrite IH. split.
    + intros [Hnd Hs]. split; [split; [|done]|].
      * intros (u' & Hu & Hin')%list_elem_of_fmap. destruct (Hs u' Hin'). set_solver.
      * intros u' [->|Hu']%elem_of_cons; [done|]. specialize (Hs u' Hu'). set_solver.
    + intros [[Hn Hnd] Hs]. split; [done|]. intros u' Hu'.
      specialize (Hs u' ltac:(by right)).
      assert (user_Name u' <> user_Name u) by (intros E; apply Hn; rewrite <-E; by apply list_elem_of_fmap_2).
      set_solver.
Qed.

Lemma validateExtraPVCs_go_unique l : forall names claims paths,
  validateExtraPVCs_go names claims paths l = None <->
  (NoDup (ep_Name <$> l) /\ NoDup (ep_ClaimName <$> l) /\ NoDup (ep_MountPath <$> l)) /\
  forall e, e ∈ l -> (ep_Name e ∉ names) /\ (ep_ClaimName e ∉ claims) /\ (ep_MountPath e ∉ paths).
Proof.
  induction l as [|e l IH]; intros names claims paths; simpl.
  { split; [intros _; split; [by split_and!; constructor|by intros u ?%elem_of_nil]|done]. }
  rewrite !NoDup_cons. repeat case_bool_decide; try (split; [done|]; intros [_ Hs];
    destruct (Hs e ltac:(by left)) as (? & ? & ?); done).
  rewrite IH. split.
  - intros [(Hn & Hc & Hp) Hs]. split.
    + split_and!; try done; intros (e' & Hu & Hin')%list_elem_of_fmap; destruct (Hs e' Hin') as (? & ? & ?); set_solver.
    + intros e' [->|He']%elem_of_cons; [done|]. specialize (Hs e' He'). set_solver.
  - intros [((Hn & ?) & (Hc & ?) & (Hp & ?)) Hs]. split; [done|]. intros e' He'.
    specialize (Hs e' ltac:(by right)).
    assert (ep_Name e' <> ep_Name e) by (intros E; apply Hn; rewrite <-E; by apply list_elem_of_fmap_2).
    assert (ep_ClaimName e' <> ep_ClaimName e) by (intros E; apply Hc; rewrite <-E; by apply list_elem_of_fmap_2).
    assert (ep_MountPath e' <> ep_MountPath e) by (intros E; apply Hp; rewrite <-E; by apply list_elem_of_fmap_2).
    set_solver.
Qed.

(** Extra volumes are validated exactly.  [validateExtraPVCs] accepts a list
    if and only if no two entries share a volume name, no two a claim and no two a mount
    path. *)
Theorem validateExtraPVCs_unique l :
  validateExtraPVCs l = None <->
  NoDup (ep_Name <$> l) /\ NoDup (ep_ClaimName <$> l) /\ NoDup (ep_MountPath <$> l).
Proof.
  unfold validateExtraPVCs. rewrite validateExtraPVCs_go_unique. split; [by intros [? _]|].
  intros Hl. split; [done|]. set_solver.
Qed.

(** ** Affinity *)

(** When the affinity of a pod settles.  Defaulting is run on every pass over
    the object.  A second pass leaves the affinity as the first one left it
    exactly when there are no advanced rules: with advanced rules and no topology
    key a pass adds the default key, though advanced rules are documented to take
    precedence and clear it, and the next pass clears it again. *)
Theorem reconcileAffinityOpts_settles a :
  reconcileAffinityOpts (reconcileAffinityOpts a) = reconcileAffinityOpts a <->
  (forall p, a = Some p -> aff_Advanced p = None).
Proof.
  destruct a as [[[k|] [adv|]]|]; cbn.
  - split; [done|]. intros Ha. by specialize (Ha _ eq_refl).
  - destruct (decide (k ∈ affinityValidTopologyKeys)) as [Hk|Hk].
    + rewrite (bool_decide_eq_true_2 _ Hk). cbn. rewrite (bool_decide_eq_true_2 _ Hk).
      split; [|done]. by intros _ p [= <-].
    + rewrite (bool_decide_eq_false_2 _ Hk). cbn. split; [|done]. by intros _ p [= <-].
  - split; [done|]. intros Ha. by specialize (Ha _ eq_refl).
  - split; [|done]. by intros _ p [= <-].
  - by split.
Qed.
