(* ===== verification/PitrPxc.v ===== *)
(** * The database client of point-in-time recovery: [cmd/pitr/pxc/pxc.go]

    GTID sets, binary logs, and the queries the collector and the recoverer
    send, with the retry that installs missing server functions. *)

From S2P Require Import Prelude GoStrings.

(** ** GTID sets and binary logs

    [GTIDSet] is a struct around one string; it is the string here. *)

Definition IsEmpty (set : string) : bool := bool_decide (set = "").

(** [GTIDSet.List] *)
Definition gtid_List (set : string) : list string :=
  if IsEmpty set then [] else sort_Strings (Split set ",").

Record Binlog := mkBinlog {
  bl_Name : string;
  bl_Size : Z;
  bl_Encrypted : string;
  bl_GTIDSet : string }.

(** [strings.Split(s, sep)[0]] *)
Definition split_head (s sep : string) : string := default "" (head (Split s sep)).

(** ** The server

    One query each; a host is the address of a node, and [db_open] is [NewPXC].  [db_binaryLogs] are the
    rows of SHOW BINARY LOGS that were read, name, size and encryption.  [db_after] tells whether
    the compiler reads the variable of [return x, scan()] after the call, which
    the language leaves open. *)
Class DbEnv (W : Type) := {
  db_open : string -> M W unit;
  db_gtidSet : string -> string -> M W string;
  db_firstTimestamp : string -> string -> M W string;
  db_lastTimestamp : string -> string -> M W string;
  db_version : string -> M W string;
  db_binaryLogs : string -> M W (list (string * Z * string));
  db_flush : string -> M W unit;
  db_gtidSubset : string -> string -> M W bool;
  db_gtidSubtract : string -> string -> M W string;
  db_componentURN : string -> M W (option string);
  db_installComponent : string -> M W unit;
  db_hasFunction : string -> string -> M W bool;
  db_createFunction : string -> string -> string -> M W unit;
  db_nodes : string -> M W (list string);
  db_clusterUUID : string -> M W string;
  db_functionOrder : list (string * string);
  db_after : bool }.

Definition collectorFunctions : list (string * string) :=
  [ ("get_last_record_timestamp_by_binlog", "INTEGER"); ("get_gtid_set_by_binlog", "STRING");
    ("get_first_record_timestamp_by_binlog", "INTEGER") ].

Definition synced_marker : string :=
  "wsrep_ready:ON:wsrep_connected:ON:wsrep_local_state_comment:Synced:wsrep_cluster_status:Primary".

Section pxc.
Context {W : Type} `{DbEnv W}.

Definition GetVersion (host : string) : M W string := wrap "select @@VERSION" (db_version host).

(** The map is ranged over in some order, [db_functionOrder]. *)
Definition CreateCollectorFunctions (host : string) : M W unit :=
  for_each (fun '(functionName, returnType) =>
    has ← wrap ("check if function " +:+ functionName +:+ " exists") (db_hasFunction host functionName);
    if has : bool then mret tt
    else wrap ("create function " +:+ functionName) (db_createFunction host functionName returnType))
    db_functionOrder.

Definition InstallBinlogUDFComponent (host : string) : M W unit :=
  urn ← wrap "get component_binlog_utils_udf" (db_componentURN host);
  if negb (bool_decide (default "" urn = "")) then mret tt
  else wrap "install component" (db_installComponent host).

(** The common retry: when the server says that something does not exist, the
    functions are installed and the query is sent again.  The branches test the
    error of the version query, not of the installation, so installing never
    fails the call. *)
Definition with_install (host : string) (scan : M W string) : M W string :=
  r ← try scan;
  match r with
  | inr v => mret v
  | inl e =>
      if Contains (Error e) "does not exist" then
        v ← try (GetVersion host);
        let version := match v with inr s => s | inl _ => "" end in
        _ ← (if HasPrefix version "8.0" then _ ← try (CreateCollectorFunctions host); mret tt
             else if HasPrefix version "8.4" then _ ← try (InstallBinlogUDFComponent host); mret tt
             else mret tt);
        v ← scan;
        mret (if db_after then v else "")
      else fail (ErrWrap "scan binlog timestamp" e)
  end.

Definition GetGTIDSet (host binlogName : string) : M W string :=
  with_install host (
    r ← try (db_gtidSet host binlogName);
    match r with
    | inr s => mret s
    | inl e => if Contains (Error e) "Binary log does not exist" then mret ""
               else fail (ErrWrap "scan set" e)
    end).

Definition GetBinLogFirstTimestamp (host binlog : string) : M W string :=
  with_install host (wrap "scan binlog timestamp" (db_firstTimestamp host binlog)).

Definition GetBinLogLastTimestamp (host binlog : string) : M W string :=
  with_install host (wrap "scan binlog timestamp" (db_lastTimestamp host binlog)).

(** The list is read before the flush, so that no listed log is open any more
    when its GTID set is read. *)
Definition GetBinLogList (host : string) : M W (list Binlog) :=
  rows ← wrap "show binary logs" (db_binaryLogs host);
  _ ← wrap "flush binary logs" (db_flush host);
  mret ((fun '(name, size, encrypted) => mkBinlog name size encrypted "") <$> rows).

Definition GetBinLogNamesList (host : string) : M W (list string) :=
  rows ← wrap "show binary logs" (db_binaryLogs host);
  mret ((fun '(name, _, _) => name) <$> rows).

Definition GTIDSubset (set1 set2 : string) : M W bool := wrap "scan result" (db_gtidSubset set1 set2).
Definition SubtractGTIDSet (set subSet : string) : M W string :=
  wrap "scan gtid subtract result" (db_gtidSubtract set subSet).

(** ** Choosing a node *)

Definition GetNodesByServiceName (svc : string) : M W (list string) :=
  wrap "run peer-list output" (db_nodes svc).

Definition GetPXCFirstHost (svc : string) : M W string :=
  nodes ← wrap "get nodes by service name" (GetNodesByServiceName svc);
  match list_find (fun n => Contains n synced_marker = true) (sort_Strings nodes) with
  | Some (_, node) =>
      let host := split_head node ":" in
      if bool_decide (host = "") then fail (ErrNew "can't find host") else mret host
  | None => fail (ErrNew "can't find host")
  end.

Definition getBinlogTimeByName (host binlogName : string) : M W Z :=
  ts ← wrap "get binlog first timestamp" (GetBinLogFirstTimestamp host binlogName);
  wrap "parse timestamp" (lift (ParseInt64 ts)).

(** The first positive time stamp; on an error the loop goes on, with the
    variable reset to 0 by the failed assignment. *)
Fixpoint first_time (host : string) (names : list string) (binlogTime : Z) : M W Z :=
  match names with
  | [] => mret binlogTime
  | n :: names =>
      r ← try (getBinlogTimeByName host n);
      match r with
      | inl _ => first_time host names 0
      | inr t => if bool_decide (0 < t) then mret t else first_time host names t
      end
  end.

Definition getBinlogTime (host : string) : M W Z :=
  o ← try (db_open host);
  match o with
  | inl e => fail (ErrNew ("creating connection for host " +:+ host +:+ ": " +:+ Error e))
  | inr _ =>
  r ← try (GetBinLogNamesList host);
  match r with
  | inl e => fail (ErrNew ("get binlog list for host " +:+ host +:+ ": " +:+ Error e))
  | inr [] => fail (ErrNew ("get binlog list for host " +:+ host +:+ ": no binlogs found"))
  | inr names =>
      t ← first_time host names 0;
      if bool_decide (t = 0)
      then fail (ErrNew ("get binlog oldest timestamp for host " +:+ host +:+ ": no binlogs timestamp found"))
      else mret t
  end
  end.

(** The loop over the nodes: the host so far and its time. *)
Fixpoint oldest_host (nodes : list string) (best : string * Z) : M W (string * Z) :=
  match nodes with
  | [] => mret best
  | node :: nodes =>
      if Contains node synced_marker then
        let host := split_head node ":" in
        r ← try (getBinlogTime host);
        match r with
        | inl _ => oldest_host nodes best
        | inr t =>
            oldest_host nodes
              (if bool_decide (best.1 = "") || (bool_decide (0 < best.2) && bool_decide (t < best.2))
               then (host, t) else best)
        end
      else oldest_host nodes best
  end.

Definition GetPXCOldestBinlogHost (svc : string) : M W string :=
  nodes ← wrap "get nodes by service name" (GetNodesByServiceName svc);
  best ← oldest_host nodes ("", 0);
  if bool_decide (best.1 = "") then fail (ErrNew "can't find host") else mret best.1.
End pxc.
