(* ===== verification/Collector.v ===== *)
(** * The binlog collector: [cmd/pitr/collector]

    [CollectBinLogs] uploads the binary logs of a node that the object storage
    does not have yet.  The state of the collector is the set uploaded last;
    everything else is in the storage: the logs with their GTID sets, the last
    set per source, and a cache of GTID sets per host. *)

From S2P Require Import Prelude GoStrings ApiTypes Naming PitrPxc.

(** ** The cache ([cache.go]) *)

(** The struct around a map from log names to GTID sets, as the map itself. *)
Abbreviation BinlogCacheEntry := (gmap string string).

Record HostBinlogCache := mkCache {
  ca_Entries : gmap string BinlogCacheEntry;
  ca_Version : Z;
  ca_LastUpdatedAt : Z }.

(** The collector's configuration and the host it reads from. *)
Record Collector := mkCollector {
  co_host : string;
  co_gtidCacheKey : string;
  co_sourceID : string }.

(** The storage, the local files, the processes and the libraries.  A log is
    uploaded through a named pipe: [pe_start host log] starts [mysqlbinlog],
    which writes the log to the pipe, and [pe_upload log obj] is the
    [PutObject] that reads the pipe and stores what it reads as [obj]. *)
Class PitrEnv (W : Type) := {
  pe_getObject : string -> M W string;
  pe_putObject : string -> string -> M W unit;
  pe_removeTmp : string -> M W unit;
  pe_mkfifo : string -> M W unit;
  pe_start : string -> string -> M W unit;
  pe_openPipe : string -> M W unit;
  pe_upload : string -> string -> M W unit;
  pe_wait : string -> M W unit;
  pe_closePipe : string -> M W unit;
  pe_removePipe : string -> M W unit;
  pe_writeFile : string -> string -> M W unit;
  pe_readFile : string -> M W (option string);
  pe_marshal : HostBinlogCache -> string;
  pe_unmarshal : string -> res HostBinlogCache;
  pe_md5 : string -> string;
  pe_now : W -> Z }.

(** The world and the field [lastUploadedSet]. *)
Record CW (W : Type) := mkCW { cw_w : W; cw_last : string }.
Arguments mkCW {W}.
Arguments cw_w {W}.
Arguments cw_last {W}.

Definition onC {W A} (m : M W A) : M (CW W) A := fun s =>
  let '(w', r) := m (cw_w s) in (mkCW w' (cw_last s), r).
Definition getLast {W} : M (CW W) string := gets cw_last.
Definition setLast {W} (set : string) : M (CW W) unit := modify (fun s => mkCW (cw_w s) set).

Definition lastSetFilePrefix : string := "last-binlog-set-".
Definition gtidPostfix : string := "-gtid-set".
Definition TimelinePath : string := "/tmp/pitr-timeline".

Definition mergeErrors (a b : option error) : option error :=
  match a, b with
  | Some e1, Some e2 => Some (ErrNew (Error e1 +:+ "; " +:+ Error e2))
  | Some e1, None => Some e1
  | None, b => b
  end.

(** A deferred function that merges its error into the one that is returned. *)
Definition defer_err {W} (m d : M W unit) : M W unit := fun w =>
  let '(w1, r) := m w in
  let '(w2, rd) := d w1 in
  let as_err r := match r with Err e => Some e | _ => None end in
  match r, rd with
  | Panic, _ | _, Panic => (w2, Panic)
  | _, _ => match mergeErrors (as_err r) (as_err rd) with Some e => (w2, Err e) | None => (w2, Ok tt) end
  end.

(** Removing newline characters. *)
Definition no_newlines (s : string) : string := ReplaceAll (ReplaceAll s nl "") cr_char "".

Definition removeEmptyBinlogs (logs : list Binlog) : list Binlog :=
  filter (fun b => IsEmpty (bl_GTIDSet b) = false) logs.

(** The GTID sets of the last log that has any. *)
Definition lastGTIDSetList (logs : list Binlog) : list string :=
  default [] (gtid_List ∘ bl_GTIDSet <$> last (filter (fun b => gtid_List (bl_GTIDSet b) <> []) logs)).

Definition extractIncrementalNumber (binlogName : string) : res string :=
  match Split binlogName "." with
  | (_ :: _ :: _) as parts => deref (last parts)
  | _ => Err (ErrNew ("invalid binlog name format: " +:+ binlogName))
  end.

(** [bufio.ScanLines]: lines without their ending; a final newline does not
    start another line. *)
Definition scan_lines (content : string) : list string :=
  let parts := Split content nl in
  let parts := if bool_decide (last parts = Some "") then take (length parts - 1) parts else parts in
  (fun l => TrimSuffix l cr_char) <$> parts.

(** What [updateTimelineFile] writes, given what it read. *)
Definition timeline_content (content lastTs : string) : string :=
  let lines := scan_lines content in
  Join (if bool_decide (1 < length lines)%nat then take (length lines - 1) lines ++ [lastTs]
        else lines ++ [lastTs]) nl.

Section collector.
Context {W : Type} `{DbEnv W} `{PitrEnv W} (c : Collector).

Definition loadCache : M W HostBinlogCache :=
  r ← try (pe_getObject (co_gtidCacheKey c));
  match r with
  | inl e => if errors_Is e ErrObjectNotFound then mret (mkCache ∅ 1 0)
             else fail (ErrWrap "get cache from storage" e)
  | inr data => wrap "decode cache" (lift (pe_unmarshal data))
  end.

Definition saveCache (cache : HostBinlogCache) : M W unit :=
  now ← gets pe_now;
  wrap "put cache to s3"
    (pe_putObject (co_gtidCacheKey c) (pe_marshal (cache <| ca_LastUpdatedAt := now |>))).

Definition InvalidateCache (hostname : string) : M W unit :=
  cache ← wrap "load cache" loadCache;
  match ca_Entries cache !! hostname with
  | None => fail (ErrNew ("failed to find cache for " +:+ hostname))
  | Some _ => wrap "save cache" (saveCache (cache <| ca_Entries ::= delete hostname |>))
  end.

(** ** GTID sets of the logs

    [addGTIDSets] fills in the sets.  For a host with a cache entry only error
    3200 is looked at: after any other error the set is the empty string, and
    it is cached. *)

Fixpoint sets_cached (entry : BinlogCacheEntry) (dirty : bool) (logs : list Binlog) :
    M W (BinlogCacheEntry * bool * list Binlog) :=
  match logs with
  | [] => mret (entry, dirty, [])
  | b :: logs =>
      match entry !! bl_Name b with
      | Some set =>
          x ← sets_cached entry dirty logs;
          mret (x.1, b <| bl_GTIDSet := set |> :: x.2)
      | None =>
          r ← try (GetGTIDSet (co_host c) (bl_Name b));
          match r with
          | inl e =>
              if is_mysql_error 3200 e then
                x ← sets_cached entry dirty logs; mret (x.1, b :: x.2)
              else
                x ← sets_cached (<[bl_Name b := ""]> entry) true logs;
                mret (x.1, b <| bl_GTIDSet := "" |> :: x.2)
          | inr set =>
              x ← sets_cached (<[bl_Name b := set]> entry) true logs;
              mret (x.1, b <| bl_GTIDSet := set |> :: x.2)
          end
      end
  end.

Fixpoint sets_fresh (entry : BinlogCacheEntry) (logs : list Binlog) :
    M W (BinlogCacheEntry * list Binlog) :=
  match logs with
  | [] => mret (entry, [])
  | b :: logs =>
      r ← try (GetGTIDSet (co_host c) (bl_Name b));
      match r with
      | inl e =>
          if is_mysql_error 3200 e then
            x ← sets_fresh entry logs; mret (x.1, b :: x.2)
          else fail (ErrWrap "get GTID set" e)
      | inr set =>
          x ← sets_fresh (<[bl_Name b := set]> entry) logs;
          mret (x.1, b <| bl_GTIDSet := set |> :: x.2)
      end
  end.

Definition addGTIDSets (cache : HostBinlogCache) (logs : list Binlog) : M W (list Binlog) :=
  match ca_Entries cache !! co_host c with
  | Some entry =>
      x ← sets_cached entry false logs;
      let '(entry, dirty, logs) := x in
      _ ← (when (dirty : bool) do
             wrap "update binlog cache" (saveCache (cache <| ca_Entries ::= <[co_host c := entry]> |>)));
      mret logs
  | None =>
      x ← sets_fresh ∅ logs;
      let '(entry, logs) := x in
      _ ← wrap "update binlog cache" (saveCache (cache <| ca_Entries ::= <[co_host c := entry]> |>));
      mret logs
  end.

(** ** What was uploaded last *)

Definition lastGTIDSet (suffix : string) : M W string :=
  r ← try (pe_getObject (lastSetFilePrefix +:+ suffix));
  match r with
  | inl e => if bool_decide (e = ErrObjectNotFound) then mret ""
             else fail (ErrWrap "get last set content" e)
  | inr s => mret s
  end.

(** The first source with a last set, or the current source if there is one. *)
Fixpoint choose_last (sets : list string) : M (CW W) unit :=
  match sets with
  | [] => mret tt
  | gtidSet :: sets =>
      let sourceID := no_newlines (split_head gtidSet ":") in
      cur ← getLast;
      if IsEmpty cur || bool_decide (co_sourceID c = sourceID) then
        set ← wrap "get last uploaded gtid set" (onC (lastGTIDSet sourceID));
        _ ← setLast set;
        if bool_decide (co_sourceID c = sourceID) then mret tt else choose_last sets
      else choose_last sets
  end.

(** The innermost loop: the log's name if one of the sets uploaded last is
    equal to [gtidSet], contains it or is contained in it. *)
Fixpoint match_set (name gtidSet : string) (lastSets : list string) : M W string :=
  match lastSets with
  | [] => mret ""
  | lastUploaded :: lastSets =>
      if bool_decide (lastUploaded = gtidSet) then mret name else
      sub1 ← wrap "check if gtid set is subset" (GTIDSubset lastUploaded gtidSet);
      if sub1 : bool then mret name else
      sub2 ← wrap "check if gtid set is subset" (GTIDSubset gtidSet lastUploaded);
      if sub2 : bool then mret name else match_set name gtidSet lastSets
  end.

Fixpoint match_sets (name : string) (lastSets sets : list string) : M W string :=
  match sets with
  | [] => mret ""
  | gtidSet :: sets =>
      n ← match_set name gtidSet lastSets;
      if bool_decide (n = "") then match_sets name lastSets sets else mret n
  end.

(** The loop over the logs, from the last one; the argument is reversed. *)
Fixpoint find_last (lastSets : list string) (logs : list Binlog) : M W string :=
  match logs with
  | [] => mret ""
  | b :: logs =>
      n ← match_sets (bl_Name b) lastSets (gtid_List (bl_GTIDSet b));
      if bool_decide (n = "") then find_last lastSets logs else mret n
  end.

(** The index loop reads [logs[startIndex]] before it compares [startIndex] with
    the length, so it panics when no log has the name. *)
Definition filterBinLogs (logs : list Binlog) (lastBinlogName : string) : M (CW W) (list Binlog) :=
  if bool_decide (lastBinlogName = "") then mret (removeEmptyBinlogs logs) else
  match list_find (fun b => bl_Name b = lastBinlogName) logs with
  | None => panic
  | Some (startIndex, b) =>
      set ← wrap "get gtid set of last uploaded binlog" (onC (GetGTIDSet (co_host c) (bl_Name b)));
      cur ← getLast;
      let startIndex := if bool_decide (set = cur) then S startIndex else startIndex in
      mret (removeEmptyBinlogs (drop startIndex logs))
  end.

(** ** Local files *)

Definition createGapFile (set : string) : M W unit :=
  wrap ("create " +:+ GapDetected) (pe_writeFile GapDetected set).

Definition fileExists (name : string) : M W bool :=
  r ← wrap "os stat" (pe_readFile name); mret (bool_decide (is_Some r)).

Definition createTimelineFile (firstTs : string) : M W unit :=
  wrap ("create " +:+ TimelinePath) (pe_writeFile TimelinePath firstTs).

Definition updateTimelineFile (lastTs : string) : M W unit :=
  f ← wrap ("open " +:+ TimelinePath) (pe_readFile TimelinePath);
  match f with
  | None => fail (ErrWrap ("open " +:+ TimelinePath) (ErrNew "no such file or directory"))
  | Some content =>
      wrap "write last timestamp to timeline file" (pe_writeFile TimelinePath (timeline_content content lastTs))
  end.

(** ** Uploading *)

(** The object name: time stamp, number and checksum of the GTID set. *)
Definition object_name (ts num set : string) : string :=
  "binlog_" +:+ ts +:+ "_" +:+ num +:+ "_" +:+ pe_md5 set.

Definition last_set_name (gtidSet : string) : string :=
  no_newlines (lastSetFilePrefix +:+ split_head gtidSet ":").

(** From [PutObject] on: the log, its GTID set, then the last set of each of
    its sources. *)
Definition store_binlog (b : Binlog) (binlogName : string) : M (CW W) unit :=
  let set := bl_GTIDSet b in
  _ ← wrap ("put " +:+ bl_Name b +:+ " object") (onC (pe_upload (bl_Name b) binlogName));
  _ ← wrap "wait mysqlbinlog command error:" (onC (pe_wait (bl_Name b)));
  _ ← wrap "put gtid-set object" (onC (pe_putObject (binlogName +:+ gtidPostfix) set));
  _ ← for_each (fun gtidSet => wrap "put last-set object" (onC (pe_putObject (last_set_name gtidSet) set)))
        (gtid_List set);
  setLast set.

(** The deferred function. *)
Definition close_pipe (name : string) : M W unit :=
  _ ← wrap ("close tmp file for " +:+ name) (pe_closePipe name);
  wrap ("remove tmp file for " +:+ name) (pe_removePipe name).

Definition manageBinlog (b : Binlog) : M (CW W) unit :=
  ts ← wrap ("get first timestamp for " +:+ bl_Name b) (onC (GetBinLogFirstTimestamp (co_host c) (bl_Name b)));
  num ← wrap ("extract incremental number from " +:+ bl_Name b) (lift (extractIncrementalNumber (bl_Name b)));
  let binlogName := object_name ts num (bl_GTIDSet b) in
  _ ← wrap "remove temp file" (onC (pe_removeTmp (bl_Name b)));
  _ ← wrap "make named pipe file error" (onC (pe_mkfifo (bl_Name b)));
  _ ← wrap "run mysqlbinlog command" (onC (pe_start (co_host c) (bl_Name b)));
  _ ← wrap ("open named pipe " +:+ bl_Name b) (onC (pe_openPipe (bl_Name b)));
  defer_err (store_binlog b binlogName) (onC (close_pipe (bl_Name b))).

(** One turn of the last loop of [CollectBinLogs]. *)
Definition upload_one (b : Binlog) : M (CW W) unit :=
  _ ← wrap "manage binlog" (manageBinlog b);
  lastTs ← wrap "get last timestamp" (onC (GetBinLogLastTimestamp (co_host c) (bl_Name b)));
  wrap "update timeline file" (onC (updateTimelineFile lastTs)).

(** Where to start: the log that has what was uploaded last, or [""], after the
    gap was recorded if there is one. *)
Definition last_uploaded_name (logs : list Binlog) : M (CW W) string :=
  cur ← getLast;
  if IsEmpty cur then mret "" else
  name ← onC (find_last (gtid_List cur) (reverse logs));
  _ ← (when bool_decide (name = "") do wrap "create gap file" (onC (createGapFile cur)));
  mret name.

(** Everything after the GTID sets are known. *)
Definition collect_from (logs : list Binlog) : M (CW W) unit :=
  if bool_decide (lastGTIDSetList logs = []) then mret tt else
  _ ← choose_last (lastGTIDSetList logs);
  name ← last_uploaded_name logs;
  todo ← wrap "filter empty binlogs" (filterBinLogs logs name);
  match todo with
  | [] => mret tt
  | b :: _ =>
      r ← try (onC (fileExists TimelinePath));
      _ ← (when bool_decide (r = inr false) do
             (firstTs ← wrap "get first timestamp" (onC (GetBinLogFirstTimestamp (co_host c) (bl_Name b)));
              wrap "create timeline file" (onC (createTimelineFile firstTs))));
      for_each upload_one todo
  end.

Definition CollectBinLogs : M (CW W) unit :=
  cache ← wrap "load binlog cache" (onC loadCache);
  logs ← wrap "get binlog list" (onC (GetBinLogList (co_host c)));
  logs ← wrap "get GTID sets" (onC (addGTIDSets cache logs));
  collect_from logs.
End collector.

(** [Run]: connect to the node with the oldest log, forget the last set, and
    collect. *)
Definition Run {W} `{DbEnv W} `{PitrEnv W} (svc gtidCacheKey : string) : M (CW W) unit :=
  host ← wrap "new db connection"
    (host ← wrap "get host" (onC (GetPXCOldestBinlogHost svc));
     _ ← wrap ("new manager with host " +:+ host) (onC (db_open host));
     mret host);
  _ ← setLast "";
  uuid ← wrap "get cluster state uuid" (onC (db_clusterUUID host));
  wrap "collect binlog files" (CollectBinLogs (mkCollector host gtidCacheKey uuid)).
