(* ===== verification/CollectorSpec.v ===== *)
(** * What the binlog collector guarantees

    The collector starts where the storage ends and leaves out no later log; a
    log counts as uploaded only when its objects are in the storage. *)

From S2P Require Import Prelude GoStrings PitrPxc Collector.

(** ** The storage and the server, as the collector relies on them

    [pl_objs] are the stored objects, [pl_uploads] the logs that were streamed
    successfully, as pairs of log and object name; [pl_Sub] is the subset
    relation of GTID sets. *)

Record PView := mkPView { pv_objs : gmap string string; pv_uploads : list (string * string) }.

Definition unseen {W A} (view : W -> PView) (m : M W A) : Prop := forall v, keeps (fun w => view w = v) m.

Definition row_name (r : string * Z * string) : string := r.1.1.

Class PitrLaws (W : Type) `{DbEnv W} `{PitrEnv W} := {
  pl_view : W -> PView;
  pl_Sub : string -> string -> Prop;
  pl_gtidSet h n : unseen pl_view (db_gtidSet h n);
  pl_first h n : unseen pl_view (db_firstTimestamp h n);
  pl_last h n : unseen pl_view (db_lastTimestamp h n);
  pl_version h : unseen pl_view (db_version h);
  pl_logs h : unseen pl_view (db_binaryLogs h);
  pl_flush h : unseen pl_view (db_flush h);
  pl_subset a b : unseen pl_view (db_gtidSubset a b);
  pl_urn h : unseen pl_view (db_componentURN h);
  pl_install h : unseen pl_view (db_installComponent h);
  pl_hasfn h f : unseen pl_view (db_hasFunction h f);
  pl_mkfn h f t : unseen pl_view (db_createFunction h f t);
  pl_get n : unseen pl_view (pe_getObject n);
  pl_write f d : unseen pl_view (pe_writeFile f d);
  pl_read f : unseen pl_view (pe_readFile f);
  pl_get_Ok n w w' d : pe_getObject n w = (w', Ok d) -> pv_objs (pl_view w) !! n = Some d;
  pl_get_None n w w' : pe_getObject n w = (w', Err ErrObjectNotFound) -> pv_objs (pl_view w) !! n = None;
  pl_listed h w w' rows : db_binaryLogs h w = (w', Ok rows) ->
    NoDup (row_name <$> rows) /\ "" ∉ row_name <$> rows;
  pl_Sub_spec a b w w' r : db_gtidSubset a b w = (w', Ok r) -> r = true <-> pl_Sub a b;
  pl_put n d w w' r : pe_putObject n d w = (w', r) ->
    pv_uploads (pl_view w') = pv_uploads (pl_view w) /\
    (forall n', n' <> n -> pv_objs (pl_view w') !! n' = pv_objs (pl_view w) !! n') /\
    (is_ok r = true -> pv_objs (pl_view w') !! n = Some d);
  pl_removeTmp n : unseen pl_view (pe_removeTmp n);
  pl_mkfifo n : unseen pl_view (pe_mkfifo n);
  pl_start h n : unseen pl_view (pe_start h n);
  pl_openPipe n : unseen pl_view (pe_openPipe n);
  pl_wait n : unseen pl_view (pe_wait n);
  pl_closePipe n : unseen pl_view (pe_closePipe n);
  pl_removePipe n : unseen pl_view (pe_removePipe n);
  pl_upload l o w w' r : pe_upload l o w = (w', r) ->
    pv_uploads (pl_view w') = pv_uploads (pl_view w) ++ (if is_ok r then [(l, o)] else []) /\
    (forall n', n' <> o -> pv_objs (pl_view w') !! n' = pv_objs (pl_view w) !! n') /\
    (is_ok r = true -> is_Some (pv_objs (pl_view w') !! o)) }.

#[export] Hint Resolve pl_gtidSet pl_first pl_last pl_version pl_logs pl_flush pl_subset pl_urn
  pl_install pl_hasfn pl_mkfn pl_get pl_write pl_read : go.

Section quiet.
Context {W : Type} `{PitrLaws W} (c : Collector).
Implicit Types (v : PView).

Definition sees (v : PView) (w : W) : Prop := pl_view w = v.
Definition seesC (v : PView) (s : CW W) : Prop := pl_view (cw_w s) = v.

Ltac quiet_tac := repeat first [keeps_step | solve [eauto with go] | match goal with
  |- keeps _ (?m) => let h := fresh in solve [apply pl_gtidSet | apply pl_first | apply pl_last | apply pl_version
     | apply pl_logs | apply pl_flush | apply pl_subset | apply pl_urn | apply pl_install | apply pl_hasfn
     | apply pl_mkfn | apply pl_get | apply pl_write | apply pl_read] end].

Lemma unseen_with_install v host (scan : M W string) :
  keeps (sees v) scan -> keeps (sees v) (with_install host scan).
Proof.
  intros Hs. unfold with_install, GetVersion, CreateCollectorFunctions, InstallBinlogUDFComponent.
  quiet_tac; try done.
  all: try (destruct x; quiet_tac).
Qed.

Lemma unseen_GetGTIDSet v h n : keeps (sees v) (GetGTIDSet h n).
Proof. apply unseen_with_install. quiet_tac. Qed.
Lemma unseen_First v h n : keeps (sees v) (GetBinLogFirstTimestamp h n).
Proof. apply unseen_with_install. quiet_tac. Qed.
Lemma unseen_Last v h n : keeps (sees v) (GetBinLogLastTimestamp h n).
Proof. apply unseen_with_install. quiet_tac. Qed.
Lemma unseen_update v ts : keeps (sees v) (updateTimelineFile ts).
Proof. unfold updateTimelineFile. quiet_tac. Qed.

Lemma unseen_find v ls logs : keeps (sees v) (find_last ls logs).
Proof.
  assert (forall n g, keeps (sees v) (match_set n g ls)) as Hm.
  { intros n g. induction ls; cbn [match_set]; unfold GTIDSubset; repeat first [keeps_step | apply pl_subset | done]. }
  assert (forall n gs, keeps (sees v) (match_sets n ls gs)) as Hms.
  { intros n gs. induction gs; cbn [match_sets]; repeat first [keeps_step | apply Hm | done]. }
  induction logs; cbn [find_last]; repeat first [keeps_step | apply Hms | done].
Qed.

Lemma keeps_onC {A} v (m : M W A) : keeps (sees v) m -> keeps (seesC v) (onC m).
Proof.
  intros Hm [w l] Hw. unfold onC, seesC in *. simpl in *. specialize (Hm w Hw).
  by destruct (m w) as [w' r].
Qed.
Lemma keeps_setLast v set : keeps (seesC v) (setLast set).
Proof. by intros s Hs. Qed.
Lemma keeps_getLast v : keeps (seesC v) getLast.
Proof. apply keeps_gets. Qed.
End quiet.

(** ** Finding the log that was uploaded last *)

Section search.
Context {W : Type} `{PitrLaws W}.

Definition overlap (l g : string) : Prop := l = g \/ pl_Sub l g \/ pl_Sub g l.

(** The log has a set in common with one of [ls]. *)
Definition related (ls : list string) (b : Binlog) : Prop :=
  exists g l, g ∈ gtid_List (bl_GTIDSet b) /\ l ∈ ls /\ overlap l g.

Lemma match_set_spec name g ls w w' n :
  match_set name g ls w = (w', Ok n) ->
  (n = name /\ exists l, l ∈ ls /\ overlap l g) \/ (n = "" /\ forall l, l ∈ ls -> ~ overlap l g).
Proof.
  revert w. induction ls as [|l ls IH]; intros w; simpl.
  { intros [= <- <-]. right. split; [done|]. by intros l ?%elem_of_nil. }
  case_bool_decide as El.
  { intros [= <- <-]. left. split; [done|]. exists l. split; [by left|by left]. }
  intros E. unfold GTIDSubset in E. apply bind_inv_Ok in E as (w1 & r1 & E1%wrap_inv_Ok%wrap_inv_Ok & E).
  apply pl_Sub_spec in E1. destruct r1.
  { injection E as <- <-. left. split; [done|]. exists l. split; [by left|]. right. left. by apply E1. }
  apply bind_inv_Ok in E as (w2 & r2 & E2%wrap_inv_Ok%wrap_inv_Ok & E). apply pl_Sub_spec in E2. destruct r2.
  { injection E as <- <-. left. split; [done|]. exists l. split; [by left|]. right. right. by apply E2. }
  apply IH in E as [(-> & l' & Hl' & Ho)|[-> Hno]].
  - left. split; [done|]. exists l'. split; [by right|done].
  - right. split; [done|]. intros l' [-> |Hl']%elem_of_cons; [|by apply Hno].
    intros [?|[?%E1|?%E2]]; done.
Qed.

Lemma match_sets_spec name ls sets w w' n :
  name <> "" -> match_sets name ls sets w = (w', Ok n) ->
  (n = name /\ exists g l, g ∈ sets /\ l ∈ ls /\ overlap l g) \/
  (n = "" /\ forall g l, g ∈ sets -> l ∈ ls -> ~ overlap l g).
Proof.
  intros Hname. revert w. induction sets as [|g sets IH]; intros w; simpl.
  { intros [= <- <-]. right. split; [done|]. by intros g l ?%elem_of_nil. }
  intros E. apply bind_inv_Ok in E as (w1 & n1 & [(-> & l & Hl & Ho)|[-> Hno]]%match_set_spec & E).
  - rewrite bool_decide_eq_false_2 in E by done. injection E as <- <-. left. split; [done|].
    exists g, l. split; [by left|done].
  - rewrite bool_decide_eq_true_2 in E by done. apply IH in E as [(-> & g' & l' & Hg & Hl & Ho)|[-> Hno']].
    + left. split; [done|]. exists g', l'. split; [by right|done].
    + right. split; [done|]. intros g' l' [-> |Hg]%elem_of_cons Hl; [by apply Hno|by apply Hno'].
Qed.

(** The search ends at the first related log, or finds none. *)
Lemma find_last_spec ls logs w w' n :
  (forall b, b ∈ logs -> bl_Name b <> "") -> find_last ls logs w = (w', Ok n) ->
  (exists l1 b l2, logs = l1 ++ b :: l2 /\ n = bl_Name b /\ related ls b /\ forall x, x ∈ l1 -> ~ related ls x) \/
  (n = "" /\ forall x, x ∈ logs -> ~ related ls x).
Proof.
  revert w. induction logs as [|b logs IH]; intros w Hn; simpl.
  { intros [= <- <-]. right. split; [done|]. by intros x ?%elem_of_nil. }
  intros E. apply bind_inv_Ok in E as (w1 & n1 & E1 & E).
  apply match_sets_spec in E1 as [(-> & g & l & Hg & Hl & Ho)|[-> Hno]]; [..|apply Hn; by left].
  - rewrite bool_decide_eq_false_2 in E by (apply Hn; by left). injection E as <- <-. left.
    exists [], b, logs. split_and!; [done|done|by exists g, l|by intros x ?%elem_of_nil].
  - rewrite bool_decide_eq_true_2 in E by done.
    assert (~ related ls b) as Hb by (intros (g & l & Hg & Hl & Ho); by eapply Hno).
    apply IH in E as [(l1 & b' & l2 & -> & -> & Hr & Hl1)|[-> Hall]].
    + left. exists (b :: l1), b', l2. split_and!; [done|done|done|].
      intros x [-> |Hx]%elem_of_cons; [done|by apply Hl1].
    + right. split; [done|]. intros x [-> |Hx]%elem_of_cons; [done|by apply Hall].
    + intros x Hx. apply Hn. by right.
Qed.
End search.

(** ** Uploading *)

#[local] Arguments last_set_name _ : simpl never.
#[local] Arguments gtid_List _ : simpl never.

Section upload.
Context {W : Type} `{PitrLaws W} (c : Collector).

Definition uploads (s : CW W) : list (string * string) := pv_uploads (pl_view (cw_w s)).
Definition objs (s : CW W) : gmap string string := pv_objs (pl_view (cw_w s)).

Lemma puts_uploads set (gs : list string) s s' r :
  for_each (fun g => wrap "put last-set object" (onC (pe_putObject (last_set_name g) set))) gs s = (s', r) ->
  uploads s' = uploads s /\
  (forall n, objs s' !! n <> objs s !! n -> exists g, g ∈ gs /\ n = last_set_name g) /\
  (r = Ok tt -> forall n, objs s !! n = Some set \/ (exists g, g ∈ gs /\ n = last_set_name g) ->
     objs s' !! n = Some set).
Proof.
  revert s. induction gs as [|g gs IH]; intros s; simpl.
  { intros [= <- <-]. split_and!; [reflexivity|by intros n []|]. by intros _ n [Hn|(g & []%elem_of_nil & _)]. }
  unfold mbind, M_bind, wrap, onC.
  destruct (pe_putObject (last_set_name g) set (cw_w s)) as [w1 r1] eqn:E1.
  apply pl_put in E1 as (Hu & Ho & Hs).
  assert (forall n, pv_objs (pl_view w1) !! n <> objs s !! n -> n = last_set_name g) as Hd.
  { intros n Hn. destruct (decide (n = last_set_name g)); [done|]. by destruct Hn; apply Ho. }
  destruct r1 as [[]|e|]; simpl.
  - intros (Hu' & Ho' & Hok)%IH. unfold uploads, objs in *. cbn [cw_w cw_last] in *. split_and!; [congruence| |].
    + intros n Hn. destruct (decide (pv_objs (pl_view (cw_w s')) !! n = pv_objs (pl_view w1) !! n)) as [En|En].
      * rewrite En in Hn. exists g. split; [by left|by apply Hd].
      * destruct (Ho' n En) as (g' & ? & ?). exists g'. split; [by right|done].
    + intros -> n Hn. apply Hok; [done|]. destruct (decide (n = last_set_name g)) as [-> |Hng]; [left; by apply Hs|].
      destruct Hn as [Hn|(g' & [-> |Hg']%elem_of_cons & ->)]; [left; by rewrite Ho|done|right; by exists g'].
  - intros [= <- <-]. split_and!; [done| |done]. intros n Hn. exists g. split; [by left|by apply Hd].
  - intros [= <- <-]. split_and!; [done| |done]. intros n Hn. exists g. split; [by left|by apply Hd].
Qed.

Definition letter_l : Ascii.ascii := Ascii.Ascii false false true true false true true false.

(** Object names and last-set names never meet. *)
Lemma ReplaceAll_first c0 d s :
  d <> c0 -> exists t, ReplaceAll (String d s) (String c0 "") "" = String d t.
Proof.
  intros Hd. unfold ReplaceAll. rewrite Split_cons, bool_decide_eq_false_2 by done.
  pose proof (Split_not_nil c0 s). destruct (Split s (String c0 "")) as [|x [|y l]]; [done|..]; simpl; eauto.
Qed.

Lemma last_set_name_first g : exists t, last_set_name g = String letter_l t.
Proof.
  unfold last_set_name, no_newlines, lastSetFilePrefix, nl, cr_char.
  destruct (ReplaceAll_first (Ascii.Ascii false true false true false false false false) letter_l
    ("ast-binlog-set-" +:+ split_head g ":")) as [t Ht]; [done|].
  change ("last-binlog-set-" +:+ split_head g ":") with
    (String letter_l ("ast-binlog-set-" +:+ split_head g ":")). rewrite Ht. by apply ReplaceAll_first.
Qed.

Lemma ReplaceAll_app c0 a b :
  no_char c0 a = true -> ReplaceAll (a +:+ b) (String c0 "") "" = a +:+ ReplaceAll b (String c0 "") "".
Proof.
  unfold ReplaceAll. induction a as [|d a IH]; [done|]. cbn [no_char].
  intros [Hd Ha]%andb_true_iff. change (String d a +:+ b) with (String d (a +:+ b)).
  change (String d a +:+ ?x) with (String d (a +:+ x)). apply negb_true_iff in Hd. rewrite Split_cons, Hd.
  rewrite <- (IH Ha). pose proof (Split_not_nil c0 (a +:+ b)).
  by destruct (Split (a +:+ b) (String c0 "")) as [|x [|y l]].
Qed.

Definition source (gtidSet : string) : string := no_newlines (split_head gtidSet ":").

(** The name a last set is stored under is the name it is looked up with. *)
Lemma last_set_name_source g : last_set_name g = lastSetFilePrefix +:+ source g.
Proof. unfold last_set_name, source, no_newlines, nl, cr_char. by rewrite !ReplaceAll_app. Qed.

Lemma last_set_name_object g ts num set tail : last_set_name g <> object_name ts num set +:+ tail.
Proof. destruct (last_set_name_first g) as [t ->]. unfold object_name. simpl. discriminate. Qed.

(** The storage while a log is stored as [o]: nothing was uploaded and only the
    object itself may have changed; or the log was uploaded, and a last set was
    changed only once both objects of the log were there. *)
Definition partly (o : string) (s s' : CW W) : Prop :=
  uploads s' = uploads s /\ forall n, objs s' !! n <> objs s !! n -> n = o.

Definition managed (b : Binlog) (o : string) (ok : bool) (s s' : CW W) : Prop :=
  uploads s' = uploads s ++ [(bl_Name b, o)] /\
  is_Some (objs s' !! o) /\
  (ok = true -> objs s' !! (o +:+ gtidPostfix) = Some (bl_GTIDSet b) /\
     forall g, g ∈ gtid_List (bl_GTIDSet b) -> objs s' !! last_set_name g = Some (bl_GTIDSet b)) /\
  (forall n, objs s' !! n <> objs s !! n ->
     n = o \/ n = o +:+ gtidPostfix \/
     (exists g, g ∈ gtid_List (bl_GTIDSet b) /\ n = last_set_name g) /\
     objs s' !! (o +:+ gtidPostfix) = Some (bl_GTIDSet b)).

Definition stored (b : Binlog) (o : string) (s s' : CW W) (r : res unit) : Prop :=
  (partly o s s' /\ r <> Ok tt) \/
  (managed b o (is_ok r) s s' /\ (r = Ok tt -> cw_last s' = bl_GTIDSet b)).

Lemma onC_run {A} (m : M W A) s s' r :
  onC m s = (s', r) -> cw_last s' = cw_last s /\ m (cw_w s) = (cw_w s', r).
Proof. unfold onC. destruct (m (cw_w s)). by intros [= <- <-]. Qed.

Lemma seesC_run {A} (m : M (CW W) A) s s' r :
  (forall v, keeps (seesC v) m) -> m s = (s', r) -> pl_view (cw_w s') = pl_view (cw_w s).
Proof. intros Hk E. specialize (Hk _ s eq_refl). by rewrite E in Hk. Qed.

(** A quiet step before the rest: the view is still the old one. *)
Lemma quiet_bind {A} msg (m : M W A) (f : A -> M (CW W) unit) s s' r :
  (forall v, keeps (sees v) m) -> (wrap msg (onC m) ≫= f) s = (s', r) ->
  exists s1, pl_view (cw_w s1) = pl_view (cw_w s) /\ cw_last s1 = cw_last s /\
    ((exists a, f a s1 = (s', r)) \/ (s1 = s' /\ is_ok r = false)).
Proof.
  intros Hm. unfold mbind, M_bind, wrap. destruct (onC m s) as [s1 r1] eqn:E1.
  apply onC_run in E1 as [Hl E1]. specialize (Hm _ (cw_w s) eq_refl). rewrite E1 in Hm. simpl in Hm.
  intros E. exists s1. split_and!; [done|done|]. destruct r1 as [a|e|]; simpl in E; [eauto|..];
    injection E as <- <-; auto.
Qed.

Lemma store_run b o s s' r : (forall g, last_set_name g <> o /\ last_set_name g <> o +:+ gtidPostfix) ->
  store_binlog b o s = (s', r) -> stored b o s s' r.
Proof.
  intros Hname. unfold store_binlog, setLast, modify.
  unfold mbind at 1, M_bind at 1, wrap at 1, onC at 1.
  destruct (pe_upload (bl_Name b) o (cw_w s)) as [w2 r2] eqn:E2. apply pl_upload in E2 as (Hu2 & Ho2 & Hs2).
  destruct r2 as [[]|e|]; simpl in Hu2, Hs2 |- *.
  2,3: intros [= <- <-]; left; split; [|done]; split; [unfold uploads; simpl; by rewrite Hu2, app_nil_r|];
       intros n Hn; destruct (decide (n = o)); [done|]; destruct Hn; by apply Ho2.
  assert (o <> o +:+ gtidPostfix) as Hoo.
  { intros E%(f_equal String.length). rewrite str_app_length in E. simpl in E. lia. }
  intros (s3 & Hv3 & Hl3 & Hk)%quiet_bind; [|intros v; apply pl_wait]. simpl in Hv3.
  assert (forall s4 ok, pl_view (cw_w s4) = pl_view w2 -> ok = false -> managed b o ok s s4) as Hw.
  { intros s4 ok Hv ->. unfold managed, uploads, objs. rewrite Hv. split_and!; [done|by apply Hs2|intros [=]|].
    intros n Hn. destruct (decide (n = o)); [by left|]. by destruct Hn; apply Ho2. }
  destruct Hk as [[[] Hk]|[<- Hr]]; [|right; split; [by apply Hw|by intros ->]].
  revert Hk. unfold mbind at 1, M_bind at 1, wrap at 1, onC at 1.
  destruct (pe_putObject (o +:+ gtidPostfix) (bl_GTIDSet b) (cw_w s3)) as [w4 r4] eqn:E4.
  apply pl_put in E4 as (Hu4 & Ho4 & Hs4). rewrite Hv3 in Hu4, Ho4.
  assert (is_Some (pv_objs (pl_view w4) !! o)) as Ho by (rewrite Ho4 by done; by apply Hs2).
  assert (forall n, pv_objs (pl_view w4) !! n <> objs s !! n -> n = o \/ n = o +:+ gtidPostfix) as Hd4.
  { intros n Hn. destruct (decide (n = o)); [by left|]. destruct (decide (n = o +:+ gtidPostfix)); [by right|].
    destruct Hn. rewrite Ho4, Ho2; done. }
  assert (forall ok l, ok = false -> managed b o ok s (mkCW w4 l)) as Hput.
  { intros ok l ->. split; [unfold uploads; cbn [cw_w]; congruence|]. split; [exact Ho|]. split; [discriminate|].
    intros n Hn. destruct (Hd4 n Hn) as [-> | ->]; [by left|right; by left]. }
  destruct r4 as [[]|e|]; simpl.
  2,3: intros [= <- <-]; right; split; [by apply Hput|discriminate].
  unfold mbind, M_bind. destruct (for_each _ _ _) as [s5 r5] eqn:E5.
  apply puts_uploads in E5 as (Hu5 & Ho5 & Hok5). unfold uploads, objs in Hu5, Ho5, Hok5. cbn [cw_w cw_last] in Hu5, Ho5, Hok5.
  assert (forall n, (forall g, last_set_name g <> n) ->
    pv_objs (pl_view (cw_w s5)) !! n = pv_objs (pl_view w4) !! n) as Hsame.
  { intros n Hn. destruct (decide (pv_objs (pl_view (cw_w s5)) !! n = pv_objs (pl_view w4) !! n)) as [|Hne]; [done|].
    destruct (Ho5 n Hne) as (g & _ & ->). by destruct (Hn g). }
  assert (forall l ok, (ok = true -> r5 = Ok tt) -> managed b o ok s (mkCW (cw_w s5) l)) as Hm.
  { intros l ok Hr5. unfold managed, uploads, objs. cbn [cw_w].
    assert (pv_objs (pl_view (cw_w s5)) !! (o +:+ gtidPostfix) = Some (bl_GTIDSet b)) as Hg.
    { rewrite Hsame by (intros g; apply Hname). by apply Hs4. }
    split_and!; [by rewrite Hu5, Hu4, Hu2|by rewrite Hsame by (intros g; apply Hname)| |].
    { intros Ht. split; [done|]. intros g Hg'. apply Hok5; [by apply Hr5|right; by exists g]. }
    intros n Hn. destruct (decide (pv_objs (pl_view (cw_w s5)) !! n = pv_objs (pl_view w4) !! n)) as [En|En].
    - rewrite En in Hn. destruct (Hd4 n Hn) as [-> | ->]; auto.
    - right. right. split; [by apply Ho5|done]. }
  destruct r5 as [[]|e|]; simpl; intros [= <- <-]; right; (split; [|done]); [by apply Hm|..];
    destruct s5; by apply Hm.
Qed.

Lemma object_names ts num set g :
  last_set_name g <> object_name ts num set /\ last_set_name g <> object_name ts num set +:+ gtidPostfix.
Proof.
  split; [|apply last_set_name_object]. rewrite <- (str_app_nil_r (object_name ts num set)).
  apply last_set_name_object.
Qed.

Lemma stored_view b o s s1 s2 s' r r' :
  pl_view (cw_w s1) = pl_view (cw_w s) -> pl_view (cw_w s') = pl_view (cw_w s2) -> cw_last s' = cw_last s2 ->
  (is_ok r' = true -> is_ok r = true) -> stored b o s1 s2 r -> stored b o s s' r'.
Proof.
  intros Hv1 Hv2 Hl Hr. unfold stored, partly, managed, uploads, objs. rewrite Hv1, Hv2, Hl.
  intros [[Hp Hne]|[(? & ? & Hg & ?) Hk]].
  - left. split; [done|]. intros ->. destruct r as [[]|e|]; [done|by discriminate Hr..].
  - right. split_and!; [done|done| |done|]; [intros ?; apply Hg; auto|].
    intros ->. apply Hk. destruct r as [[]|e|]; [done|by discriminate Hr..].
Qed.

Lemma manageBinlog_run b s s' r :
  manageBinlog c b s = (s', r) -> exists ts num, stored b (object_name ts num (bl_GTIDSet b)) s s' r.
Proof.
  assert (forall s1 ts num, pl_view (cw_w s1) = pl_view (cw_w s) -> is_ok r = false ->
    stored b (object_name ts num (bl_GTIDSet b)) s s1 r) as Hstop.
  { intros s1 ts num Hv Hr. left. unfold partly, uploads, objs. rewrite Hv. split; [by split|by intros ->]. }
  unfold manageBinlog.
  intros (s1 & Hv1 & _ & [[ts E]|[<- Hr]])%quiet_bind; [|exists "", ""; by apply Hstop|intros v; apply unseen_First].
  revert E. unfold mbind at 1, M_bind at 1, wrap at 1, lift.
  destruct (extractIncrementalNumber (bl_Name b)) as [num|e|]; simpl;
    [|intros [= <- <-]; exists "", ""; by apply Hstop..].
  intros E. exists ts, num. revert E.
  intros (s2 & Hv2 & _ & [[_ E]|[<- Hr]])%quiet_bind; [|apply Hstop; congruence|intros v; apply pl_removeTmp]. revert E.
  intros (s3 & Hv3 & _ & [[_ E]|[<- Hr]])%quiet_bind; [|apply Hstop; congruence|intros v; apply pl_mkfifo]. revert E.
  intros (s4 & Hv4 & _ & [[_ E]|[<- Hr]])%quiet_bind; [|apply Hstop; congruence|intros v; apply pl_start]. revert E.
  intros (s5 & Hv5 & _ & [[_ E]|[<- Hr]])%quiet_bind; [|apply Hstop; congruence|intros v; apply pl_openPipe]. revert E.
  unfold defer_err. destruct (store_binlog b _ s5) as [s6 r6] eqn:E6. apply store_run in E6; [|intros g; apply object_names].
  destruct (onC _ s6) as [s7 r7] eqn:E7. pose proof E7 as [Hl7 _]%onC_run.
  assert (pl_view (cw_w s7) = pl_view (cw_w s6)) as Hv7.
  { revert E7. apply seesC_run. intros v. apply keeps_onC. unfold close_pipe.
    repeat first [keeps_step | apply pl_closePipe | apply pl_removePipe]. }
  intros E. eapply stored_view; [| | | |exact E6]; [congruence|..];
    destruct r6 as [[]|e|], r7 as [[]|e'|]; simpl in E; by injection E as <- <-.
Qed.

(** C24: the last set is a promise the storage keeps.  On every exit of
    [manageBinlog], a last-set object that changed belongs to a source of the
    log, and then the log itself and its GTID set are in the storage. *)
Theorem manageBinlog_order b s s' r g :
  manageBinlog c b s = (s', r) -> objs s' !! last_set_name g <> objs s !! last_set_name g ->
  (exists g', g' ∈ gtid_List (bl_GTIDSet b) /\ last_set_name g = last_set_name g') /\
  exists ts num, let o := object_name ts num (bl_GTIDSet b) in
    is_Some (objs s' !! o) /\ objs s' !! (o +:+ gtidPostfix) = Some (bl_GTIDSet b).
Proof.
  intros (ts & num & [[[_ Hp] _]|[(_ & Ho & _ & Hd) _]])%manageBinlog_run Hg.
  - apply Hp in Hg. by apply object_names in Hg.
  - destruct (Hd _ Hg) as [E|[E|[Hl Hgs]]]; [by apply object_names in E..|].
    split; [done|]. by exists ts, num.
Qed.

(** C30: what one run stores, the next run finds.  When [manageBinlog] returns
    without an error, the last set that [lastGTIDSet] reads for every source of
    the log is the GTID set of that log, and so is [lastUploadedSet]. *)
Theorem manageBinlog_resume b s s' g :
  manageBinlog c b s = (s', Ok tt) -> g ∈ gtid_List (bl_GTIDSet b) ->
  cw_last s' = bl_GTIDSet b /\
  forall w' set, lastGTIDSet (source g) (cw_w s') = (w', Ok set) -> set = bl_GTIDSet b.
Proof.
  intros (ts & num & [[_ ?]|[(_ & _ & Hok & _) Hl]])%manageBinlog_run Hg; [done|].
  split; [by apply Hl|]. intros w' set E. destruct (Hok eq_refl) as [_ Hlast]. specialize (Hlast g Hg).
  rewrite last_set_name_source in Hlast. unfold lastGTIDSet in E.
  apply bind_inv_Ok in E as (w1 & x & [(d & -> & Ed)|(e & -> & Ee)]%try_inv_Ok & E).
  - injection E as _ <-. apply pl_get_Ok in Ed. unfold objs in Hlast. congruence.
  - case_bool_decide; [|done]. subst e. apply pl_get_None in Ee. unfold objs in Hlast. congruence.
Qed.

(** ** Which logs are uploaded *)

Lemma upload_one_run b s s' r :
  upload_one c b s = (s', r) ->
  exists ups, uploads s' = uploads s ++ ups /\
    (fst <$> ups = [bl_Name b] \/ (ups = [] /\ r <> Ok tt)).
Proof.
  unfold upload_one. unfold mbind at 1, M_bind at 1, wrap at 1.
  destruct (manageBinlog c b s) as [s1 r1] eqn:E1.
  apply manageBinlog_run in E1 as (ts & num & [[[Hu _] Hr]|[(Hu & _) _]]).
  - destruct r1 as [[]|e|]; [done|..]; simpl; intros [= <- <-]; exists []; rewrite app_nil_r; auto.
  - assert (forall s2, pl_view (cw_w s2) = pl_view (cw_w s1) ->
      exists ups, uploads s2 = uploads s ++ ups /\ (fst <$> ups = [bl_Name b] \/ (ups = [] /\ r <> Ok tt))) as Hend.
    { intros s2 Hv. eexists. unfold uploads in *. rewrite Hv, Hu. split; [done|by left]. }
    destruct r1 as [[]|e|]; simpl; [|intros [= <- <-]; by apply Hend..].
    intros E. apply Hend. revert E. apply seesC_run.
    intros v. repeat first [keeps_step | apply keeps_onC | apply unseen_Last | apply unseen_update].
Qed.

Lemma upload_all_run todo s s' r :
  for_each (upload_one c) todo s = (s', r) ->
  exists ups rest, uploads s' = uploads s ++ ups /\ bl_Name <$> todo = (fst <$> ups) ++ rest /\
    (r = Ok tt -> rest = []).
Proof.
  revert s. induction todo as [|b todo IH]; intros s; cbn [for_each].
  { intros [= <- <-]. exists [], []. by rewrite app_nil_r. }
  unfold mbind, M_bind. destruct (upload_one c b s) as [s1 r1] eqn:E1.
  apply upload_one_run in E1 as (ups & Hu & Hups). rewrite fmap_cons.
  assert (r1 <> Ok tt -> s' = s1 -> r <> Ok tt -> exists ups rest, uploads s' = uploads s ++ ups /\
    bl_Name b :: (bl_Name <$> todo) = (fst <$> ups) ++ rest /\ (r = Ok tt -> rest = [])) as Hstop.
  { intros Hr1 -> Hr. destruct Hups as [Hups|[-> _]].
    - exists ups, (bl_Name <$> todo). by rewrite Hups.
    - by exists [], (bl_Name b :: (bl_Name <$> todo)). }
  destruct r1 as [[]|e|]; [|intros [= <- <-]; by apply Hstop..].
  destruct Hups as [Hups|[_ ?]]; [|done].
  intros (ups2 & rest & Hu2 & Hr & Hok)%IH. exists (ups ++ ups2), rest.
  by rewrite Hu2, Hu, app_assoc, fmap_app, Hups, Hr.
Qed.

Definition last_of (s : CW W) (src : string) : string := default "" (objs s !! (lastSetFilePrefix +:+ src)).

Lemma lastGTIDSet_run src s s' set :
  onC (lastGTIDSet src) s = (s', Ok set) ->
  set = last_of s src /\ pl_view (cw_w s') = pl_view (cw_w s) /\ cw_last s' = cw_last s.
Proof.
  intros E. assert (pl_view (cw_w s') = pl_view (cw_w s)) as Hv.
  { revert E. apply seesC_run. intros v. apply keeps_onC. unfold lastGTIDSet.
    repeat first [keeps_step | apply pl_get]. }
  apply onC_run in E as [Hl E]. split_and!; [|done|done]. revert E. unfold lastGTIDSet, last_of, objs.
  intros (w1 & x & [(d & -> & Ed)|(e & -> & Ee)]%try_inv_Ok & E)%bind_inv_Ok.
  - injection E as _ <-. by erewrite pl_get_Ok.
  - case_bool_decide; [|done]. subst e. injection E as _ <-. by erewrite pl_get_None.
Qed.

(** The set the collector compares with: unchanged, or the one in the storage
    for a source of the newest log; with priority for the current source. *)
Lemma choose_last_run sets s s' :
  choose_last c sets s = (s', Ok tt) ->
  pl_view (cw_w s') = pl_view (cw_w s) /\
  (cw_last s' = cw_last s \/ exists g, g ∈ sets /\ cw_last s' = last_of s (source g)) /\
  (co_sourceID c ∈ source <$> sets -> cw_last s' = last_of s (co_sourceID c)).
Proof.
  revert s. induction sets as [|g sets IH]; intros s; cbn [choose_last].
  { intros [= <-]. split_and!; [done|by left|]. by intros ?%elem_of_nil. }
  fold (source g). intros (s0 & cur & E0 & E)%bind_inv_Ok. unfold getLast, gets in E0. injection E0 as <- <-.
  assert (forall s1, choose_last c sets s1 = (s', Ok tt) -> pl_view (cw_w s1) = pl_view (cw_w s) ->
    co_sourceID c <> source g -> (cw_last s1 = cw_last s \/ cw_last s1 = last_of s (source g)) ->
    pl_view (cw_w s') = pl_view (cw_w s) /\
    (cw_last s' = cw_last s \/ exists x, x ∈ g :: sets /\ cw_last s' = last_of s (source x)) /\
    (co_sourceID c ∈ source <$> g :: sets -> cw_last s' = last_of s (co_sourceID c))) as Hrest.
  { intros s1 (Hv & Hl & Hc)%IH Hv1 Hne Hl1. unfold last_of, objs in *. rewrite Hv1 in Hv, Hl, Hc.
    split_and!; [done| |].
    - destruct Hl as [Hl|(x & Hx & Hl)]; [|right; exists x; split; [by right|done]].
      rewrite Hl. destruct Hl1 as [-> | ->]; [by left|right; exists g; split; [by left|done]].
    - rewrite fmap_cons. intros [?|?]%elem_of_cons; [done|by apply Hc]. }
  destruct (IsEmpty _ || bool_decide _) eqn:Hcond.
  - apply bind_inv_Ok in E as (s1 & set & (-> & Hv1 & Hl1)%wrap_inv_Ok%lastGTIDSet_run & E).
    apply bind_inv_Ok in E as (s2 & [] & E2 & E). unfold setLast, modify in E2. injection E2 as <-.
    case_bool_decide as Hsrc; [|apply (Hrest _ E); simpl; auto].
    injection E as <-. simpl. rewrite Hsrc. split_and!; [done| |done].
    right. exists g. split; [by left|done].
  - apply orb_false_iff in Hcond as [_ ?%bool_decide_eq_false]. apply (Hrest _ E); auto.
Qed.

(** ** Where the upload starts *)

(** The position [i] of the newest log related to [last]. *)
Definition newest_related (last : string) (logs : list Binlog) (i : nat) (b : Binlog) : Prop :=
  logs !! i = Some b /\ related (gtid_List last) b /\
  forall j x, (i < j)%nat -> logs !! j = Some x -> ~ related (gtid_List last) x.

Lemma last_uploaded_name_run logs s s' n :
  (forall b, b ∈ logs -> bl_Name b <> "") -> last_uploaded_name logs s = (s', Ok n) ->
  pl_view (cw_w s') = pl_view (cw_w s) /\ cw_last s' = cw_last s /\
  ((n = "" /\ (cw_last s = "" \/ forall b, b ∈ logs -> ~ related (gtid_List (cw_last s)) b)) \/
   (exists i b, newest_related (cw_last s) logs i b /\ n = bl_Name b)).
Proof.
  intros Hn E. unfold last_uploaded_name in E. apply bind_inv_Ok in E as (s0 & cur & E0 & E).
  unfold getLast, gets in E0. injection E0 as <- <-. unfold IsEmpty in E. case_bool_decide as Hl.
  { injection E as <- <-. split_and!; [done|done|]. left. by split; [|left]. }
  apply bind_inv_Ok in E as (s1 & name & E1 & E). apply bind_inv_Ok in E as (s2 & [] & E2 & E).
  injection E as <- <-.
  assert (pl_view (cw_w s1) = pl_view (cw_w s)) as Hv1.
  { revert E1. apply seesC_run. intros v. apply keeps_onC, unseen_find. }
  apply onC_run in E1 as [Hl1 E1].
  assert (pl_view (cw_w s2) = pl_view (cw_w s1) /\ cw_last s2 = cw_last s1) as [Hv2 Hl2].
  { case_bool_decide; [|by injection E2 as <-]. apply wrap_inv_Ok in E2. split; [|by apply onC_run in E2 as [? _]].
    revert E2. apply seesC_run. intros v. apply keeps_onC. unfold createGapFile. apply keeps_wrap, pl_write. }
  split_and!; [congruence|congruence|].
  apply find_last_spec in E1 as [(l1 & b & l2 & El & -> & Hr & Hl')|[-> Hno]].
  - right. exists (length l2), b. split; [|done].
    assert (logs = reverse l2 ++ b :: reverse l1) as ->.
    { rewrite <- (reverse_involutive logs), El, reverse_app, reverse_cons. by rewrite <- app_assoc. }
    split_and!; [|done|].
    + rewrite lookup_app_r; rewrite length_reverse; [by rewrite Nat.sub_diag|done].
    + intros j x Hj Hx. apply Hl'. rewrite lookup_app_r in Hx by (rewrite length_reverse; lia).
      rewrite length_reverse in Hx. destruct (j - length l2)%nat eqn:E; [lia|]. simpl in Hx.
      apply elem_of_reverse. by eapply list_elem_of_lookup_2.
  - left. split; [done|]. right. intros b Hb. apply Hno. by apply elem_of_reverse.
  - intros b Hb. apply Hn. by rewrite elem_of_reverse in Hb.
Qed.

Lemma filterBinLogs_run logs n s s' todo :
  NoDup (bl_Name <$> logs) -> filterBinLogs c logs n s = (s', Ok todo) ->
  pl_view (cw_w s') = pl_view (cw_w s) /\
  ((n = "" /\ todo = removeEmptyBinlogs logs) \/
   n <> "" /\ forall i b, logs !! i = Some b -> n = bl_Name b ->
     todo = removeEmptyBinlogs (drop i logs) \/
     (todo = removeEmptyBinlogs (drop (S i) logs) /\
      exists w1 w2, GetGTIDSet (co_host c) n w1 = (w2, Ok (cw_last s)))).
Proof.
  intros Hnd. unfold filterBinLogs. case_bool_decide as Hn.
  { intros [= <- <-]. split; [done|]. by left. }
  destruct (list_find _ logs) as [[k b']|] eqn:Ef; [|done].
  apply list_find_Some in Ef as (Hk & Hb' & Hfirst).
  intros (s1 & set & E1%wrap_inv_Ok & E)%bind_inv_Ok. apply bind_inv_Ok in E as (s2 & cur & E2 & E).
  unfold getLast, gets in E2. injection E2 as <- <-. injection E as <- <-.
  split. { revert E1. apply seesC_run. intros v. apply keeps_onC, unseen_GetGTIDSet. }
  apply onC_run in E1 as [Hl E1]. right. split; [done|]. intros i b Hi ->.
  assert (k = i) as ->.
  { apply (NoDup_lookup (bl_Name <$> logs) _ _ (bl_Name b) Hnd); rewrite list_lookup_fmap, ?Hk, ?Hi; simpl; congruence. }
  simplify_eq. case_bool_decide as Hset; [right|by left]. split; [done|]. rewrite Hset, Hl in E1. eauto.
Qed.

(** Where the upload starts: at the first log when there is no last set or
    nothing is related to it, otherwise at the newest related log, or behind it
    when the server still reports exactly the last set for it. *)
Definition starts_at (last : string) (logs : list Binlog) (k : nat) : Prop :=
  (k = 0%nat /\ (last = "" \/ forall b, b ∈ logs -> ~ related (gtid_List last) b)) \/
  (exists i b, newest_related last logs i b /\
     (k = i \/ (k = S i /\ exists w1 w2, GetGTIDSet (co_host c) (bl_Name b) w1 = (w2, Ok last)))).

Lemma collect_from_run logs s s' :
  (forall b, b ∈ logs -> bl_Name b <> "") -> NoDup (bl_Name <$> logs) -> cw_last s = "" ->
  collect_from c logs s = (s', Ok tt) ->
  (lastGTIDSetList logs = [] /\ uploads s' = uploads s) \/
  exists last k ups,
    (last = "" \/ exists g, g ∈ lastGTIDSetList logs /\ last = last_of s (source g)) /\
    (co_sourceID c ∈ source <$> lastGTIDSetList logs -> last = last_of s (co_sourceID c)) /\
    starts_at last logs k /\ uploads s' = uploads s ++ ups /\
    fst <$> ups = bl_Name <$> removeEmptyBinlogs (drop k logs).
Proof.
  intros Hn Hnd Hl0. unfold collect_from. case_bool_decide as Hls; [intros [= <-]; by left|].
  intros (s1 & [] & (Hv1 & Hlast & Hcur)%choose_last_run & E)%bind_inv_Ok. rewrite Hl0 in Hlast.
  apply bind_inv_Ok in E as (s2 & n & (Hv2 & Hl2 & Hname)%last_uploaded_name_run & E); [|done].
  apply bind_inv_Ok in E as (s3 & todo & E3%wrap_inv_Ok & E).
  apply filterBinLogs_run in E3 as [Hv3 Htodo]; [|done].
  right. exists (cw_last s1).
  assert (exists k, starts_at (cw_last s1) logs k /\ todo = removeEmptyBinlogs (drop k logs)) as (k & Hk & ->).
  { destruct Hname as [[-> Hnone]|(i & b & Hi & ->)].
    - destruct Htodo as [[_ ->]|[? _]]; [|done]. exists 0%nat. split; [by left|done].
    - destruct Htodo as [[Hb _]|[_ Hx]]; [destruct Hi as [Hi _]; destruct (Hn b); [by eapply list_elem_of_lookup_2|done]|].
      destruct (Hx i b (proj1 Hi) eq_refl) as [-> |[-> Hg]].
      + exists i. split; [|done]. right. exists i, b. split; [done|by left].
      + exists (S i). split; [|done]. right. exists i, b. split; [done|]. right. rewrite <- Hl2. done. }
  assert (uploads s3 = uploads s) as Hu3 by (unfold uploads; congruence). exists k.
  destruct (removeEmptyBinlogs (drop k logs)) as [|b0 todo0] eqn:Et.
  { injection E as <-. exists []. by rewrite Hu3, app_nil_r. }
  rewrite <- Et in *. apply bind_inv_Ok in E as (s4 & x & E4 & E). apply bind_inv_Ok in E as (s5 & [] & E5 & E).
  assert (uploads s5 = uploads s) as Hu5.
  { unfold uploads in *. erewrite (seesC_run _ s4 s5), (seesC_run _ s3 s4); [done| |exact E4| |exact E5].
    all: intros v; repeat first [keeps_step | apply keeps_onC | apply unseen_First | apply pl_read | apply pl_write
      | progress unfold fileExists, createTimelineFile]. }
  apply upload_all_run in E as (ups & rest & Hu & Hups & Hrest). exists ups. rewrite Hups, Hrest, app_nil_r by done.
  by rewrite Hu, Hu5.
Qed.

(** ** The whole collection *)

(** Where the GTID set of a log comes from: the cache, the server, or nowhere
    because the server failed. *)
Definition known (entry : BinlogCacheEntry) (name set : string) : Prop :=
  entry !! name = Some set \/
  (exists w1 w2, GetGTIDSet (co_host c) name w1 = (w2, Ok set)) \/
  (set = "" /\ exists w1 w2 e, GetGTIDSet (co_host c) name w1 = (w2, Err e)).

(** Only the object [key] may have changed. *)
Definition off_key (key : string) (v : PView) (w : W) : Prop :=
  pv_uploads (pl_view w) = pv_uploads v /\
  forall n, n <> key -> pv_objs (pl_view w) !! n = pv_objs v !! n.

Lemma keeps_unseen {A} key v (m : M W A) : (forall v', keeps (sees v') m) -> keeps (off_key key v) m.
Proof. intros Hm w Hw. specialize (Hm _ w eq_refl). unfold sees in Hm. unfold off_key in *. by rewrite Hm. Qed.

Lemma keeps_saveCache v cache : keeps (off_key (co_gtidCacheKey c) v) (saveCache c cache).
Proof.
  unfold saveCache. repeat keeps_step. intros w [Hu Ho]. destruct (pe_putObject _ _ w) as [w' r] eqn:E.
  apply pl_put in E as (Hu' & Ho' & _). split; simpl; [congruence|]. intros n Hn. rewrite Ho'; auto.
Qed.

Definition fills (P : string -> string -> Prop) (logs logs' : list Binlog) : Prop :=
  bl_Name <$> logs' = bl_Name <$> logs /\ Forall (fun b => P (bl_Name b) (bl_GTIDSet b)) logs'.

Lemma fills_cons P b b' logs logs' :
  bl_Name b' = bl_Name b -> P (bl_Name b) (bl_GTIDSet b') -> fills P logs logs' -> fills P (b :: logs) (b' :: logs').
Proof. intros Hn HP [Hl Hf]. split; [by rewrite !fmap_cons, Hn, Hl|]. constructor; [simpl; by rewrite Hn|done]. Qed.

Lemma sets_cached_run entry0 entry dirty logs w w' x :
  map_Forall (known entry0) entry -> Forall (fun b => bl_GTIDSet b = "") logs ->
  sets_cached c entry dirty logs w = (w', Ok x) -> fills (known entry0) logs x.2.
Proof.
  intros He Hb. revert entry dirty w x He. induction Hb as [|b logs Hb Hbs IH]; intros entry dirty w x He.
  { intros [= <- <-]. by split. }
  cbn [sets_cached]. destruct (entry !! bl_Name b) as [set|] eqn:El.
  - intros (w1 & x1 & E1 & E)%bind_inv_Ok. injection E as <- <-.
    apply fills_cons; [done|by apply He|by eapply IH].
  - intros (w1 & r & Hr & E)%bind_inv_Ok.
    apply try_inv_Ok in Hr as [(set & -> & Hs)|(e & -> & Hs)].
    + apply bind_inv_Ok in E as (w2 & x1 & E1 & E). injection E as <- <-.
      assert (known entry0 (bl_Name b) set) as Hk by (right; left; eauto).
      apply fills_cons; [done|done|]. eapply IH; [|exact E1]. by apply map_Forall_insert_2.
    + assert (known entry0 (bl_Name b) "") as Hk by (right; right; split; [done|]; eauto).
      destruct (is_mysql_error 3200 e); apply bind_inv_Ok in E as (w2 & x1 & E1 & E); injection E as <- <-.
      * apply fills_cons; [done|by rewrite Hb|by eapply IH].
      * apply fills_cons; [done|done|]. eapply IH; [|exact E1]. by apply map_Forall_insert_2.
Qed.

Lemma sets_fresh_run entry logs w w' x :
  Forall (fun b => bl_GTIDSet b = "") logs -> sets_fresh c entry logs w = (w', Ok x) -> fills (known ∅) logs x.2.
Proof.
  intros Hb. revert entry w x. induction Hb as [|b logs Hb Hbs IH]; intros entry w x.
  { intros [= <- <-]. by split. }
  cbn [sets_fresh]. intros (w1 & r & Hr & E)%bind_inv_Ok.
  apply try_inv_Ok in Hr as [(set & -> & Hs)|(e & -> & Hs)].
  - apply bind_inv_Ok in E as (w2 & x1 & E1 & E). injection E as <- <-.
    apply fills_cons; [done|right; left; eauto|by eapply IH].
  - destruct (is_mysql_error 3200 e); [|done]. apply bind_inv_Ok in E as (w2 & x1 & E1 & E). injection E as <- <-.
    apply fills_cons; [done|right; right; rewrite Hb; eauto|by eapply IH].
Qed.

Lemma unseen_sets v entry dirty logs : keeps (sees v) (sets_cached c entry dirty logs).
Proof.
  revert entry dirty. induction logs as [|b logs IH]; intros entry dirty; cbn [sets_cached];
    repeat first [keeps_step | apply IH | apply unseen_GetGTIDSet].
Qed.

Lemma unseen_fresh v entry logs : keeps (sees v) (sets_fresh c entry logs).
Proof.
  revert entry. induction logs as [|b logs IH]; intros entry; cbn [sets_fresh];
    repeat first [keeps_step | apply IH | apply unseen_GetGTIDSet].
Qed.

Lemma addGTIDSets_run cache logs w w' logs' :
  Forall (fun b => bl_GTIDSet b = "") logs -> addGTIDSets c cache logs w = (w', Ok logs') ->
  fills (known (default ∅ (ca_Entries cache !! co_host c))) logs logs' /\
  off_key (co_gtidCacheKey c) (pl_view w) w'.
Proof.
  intros Hb E. split.
  - revert E. unfold addGTIDSets. destruct (ca_Entries cache !! co_host c) as [entry|]; simpl.
    + intros (w1 & [[e d] l] & E1 & E)%bind_inv_Ok. apply bind_inv_Ok in E as (w2 & [] & _ & E).
      injection E as <- <-. eapply (sets_cached_run entry) in E1; [done| |done]. intros n set Hs. by left.
    + intros (w1 & [e l] & E1 & E)%bind_inv_Ok. apply bind_inv_Ok in E as (w2 & [] & _ & E).
      injection E as <- <-. by eapply sets_fresh_run in E1.
  - assert (keeps (off_key (co_gtidCacheKey c) (pl_view w)) (addGTIDSets c cache logs)) as Hk.
    { unfold addGTIDSets. repeat first [keeps_step | apply keeps_saveCache
        | apply keeps_unseen; intros v; apply unseen_sets | apply keeps_unseen; intros v; apply unseen_fresh]. }
    specialize (Hk w). rewrite E in Hk. by apply Hk.
Qed.

Lemma unseen_loadCache v : keeps (sees v) (loadCache c).
Proof. unfold loadCache. repeat first [keeps_step | apply pl_get]. Qed.

Lemma GetBinLogList_run w w' logs :
  GetBinLogList (co_host c) w = (w', Ok logs) ->
  pl_view w' = pl_view w /\ Forall (fun b => bl_GTIDSet b = "") logs /\
  exists w1 rows, db_binaryLogs (co_host c) w = (w1, Ok rows) /\ bl_Name <$> logs = row_name <$> rows.
Proof.
  intros E. split.
  { assert (keeps (sees (pl_view w)) (GetBinLogList (co_host c))) as Hk
      by (unfold GetBinLogList; repeat first [keeps_step | apply pl_logs | apply pl_flush]).
    specialize (Hk w eq_refl). by rewrite E in Hk. }
  unfold GetBinLogList in E. apply bind_inv_Ok in E as (w1 & rows & E1%wrap_inv_Ok & E).
  apply bind_inv_Ok in E as (w2 & [] & _ & E). injection E as <- <-. split.
  - apply Forall_fmap, Forall_true. by intros [[??]?].
  - exists w1, rows. split; [done|]. rewrite <- list_fmap_compose. apply list_fmap_ext. by intros i [[??]?].
Qed.

(** The outcome of a collection of [logs] with what the storage had in [s]. *)
Definition collected (logs : list Binlog) (s s' : CW W) : Prop :=
  (lastGTIDSetList logs = [] /\ uploads s' = uploads s) \/
  exists last k ups,
    (last = "" \/ exists g, g ∈ lastGTIDSetList logs /\ last = last_of s (source g)) /\
    (co_sourceID c ∈ source <$> lastGTIDSetList logs -> last = last_of s (co_sourceID c)) /\
    starts_at last logs k /\ uploads s' = uploads s ++ ups /\
    fst <$> ups = bl_Name <$> removeEmptyBinlogs (drop k logs).

End upload.

(** ** Logs that are never uploaded *)

Section lost.
Context {W : Type} `{DbEnv W} `{PitrEnv W} (c : Collector).

(** While [I] holds the server fails for this log, and not because the log is
    invalid. *)
Definition unreadable (I : W -> Prop) (name : string) : Prop :=
  forall w, I w -> exists w' e, GetGTIDSet (co_host c) name w = (w', Err e) /\ is_mysql_error 3200 e = false.

Lemma sets_cached_entry (I : W -> Prop) entry dirty logs w w' entry' dirty' logs' :
  (forall n, keeps I (GetGTIDSet (co_host c) n)) ->
  sets_cached c entry dirty logs w = (w', Ok (entry', dirty', logs')) ->
  (forall n set, entry !! n = Some set ->
     entry' !! n = Some set /\ forall b, b ∈ logs' -> bl_Name b = n -> bl_GTIDSet b = set) /\
  (I w -> forall b, b ∈ logs -> unreadable I (bl_Name b) -> entry !! bl_Name b = None -> entry' !! bl_Name b = Some "").
Proof.
  intros Hkeep. revert entry dirty w w' entry' dirty' logs'.
  induction logs as [|b logs IH]; intros entry dirty w w' entry' dirty' logs'; cbn [sets_cached].
  { intros [= <- <- <- <-]. split; [|by intros _ b ?%elem_of_nil]. intros n set Hn. split; [done|]. by intros b ?%elem_of_nil. }
  assert (forall (entry1 : gmap string string) d w1 x set0, sets_cached c entry1 d logs w1 = (w', Ok x) -> (x.1, b <| bl_GTIDSet := set0 |> :: x.2) = (entry', dirty', logs') ->
    entry1 = entry \/ entry1 = <[bl_Name b := set0]> entry /\ entry !! bl_Name b = None ->
    (forall set, entry !! bl_Name b = Some set -> set0 = set) ->
    (I w -> I w1) -> (I w -> unreadable I (bl_Name b) -> entry !! bl_Name b = None -> entry1 !! bl_Name b = Some "") ->
    (forall n set, entry !! n = Some set ->
      entry' !! n = Some set /\ forall b', b' ∈ logs' -> bl_Name b' = n -> bl_GTIDSet b' = set) /\
    (I w -> forall b', b' ∈ b :: logs -> unreadable I (bl_Name b') -> entry !! bl_Name b' = None -> entry' !! bl_Name b' = Some "")) as Hrest.
  { intros entry1 d w1 [[e1 d1] l1] set0 E [= <- <- <-] He1 Hset HI Hun. apply IH in E as [Hk Hu].
    assert (forall n set, entry !! n = Some set -> entry1 !! n = Some set) as Hin.
    { intros n set Hn. destruct He1 as [-> |[-> Hb]]; [done|]. by rewrite lookup_insert_ne by congruence. }
    split.
    - intros n set Hn. destruct (Hk n set) as [Hk1 Hk2]; [by apply Hin|]. split; [done|].
      intros b' [-> |Hb']%elem_of_cons Hname; [|by apply Hk2]. cbn in *. subst n. by apply Hset.
    - intros Hw b' Hb' Hunr Hnone. destruct (entry1 !! bl_Name b') as [set1|] eqn:E1.
      + destruct (Hk _ _ E1) as [-> _]. destruct He1 as [-> |[-> Hb]]; [congruence|].
        apply lookup_insert_Some in E1 as [[Hn ->]|[_ E1]]; [|congruence]. f_equal.
        rewrite <- Hn in Hunr. specialize (Hun Hw Hunr Hb). rewrite lookup_insert_eq in Hun. by injection Hun.
      + apply elem_of_cons in Hb' as [-> |Hb']; [|apply Hu; auto]. rewrite Hun in E1; done. }
  destruct (entry !! bl_Name b) as [set|] eqn:Eb.
  { intros (w1 & x & E1 & E)%bind_inv_Ok. injection E as <- E El.
    eapply (Hrest _ _ _ _ set); [exact E1|by rewrite E, El|by left|intros; congruence|done|intros; congruence]. }
  intros (w1 & r & Hr & E)%bind_inv_Ok. 
  assert (I w -> I w1) as HI.
  { intros Hw. specialize (Hkeep (bl_Name b) w Hw). unfold try in Hr.
    destruct (GetGTIDSet _ _ w) as [w3 [?|?|]]; simpl in *; [by injection Hr as <- <-..|discriminate]. }
  apply try_inv_Ok in Hr as [(set & -> & Hs)|(e & -> & Hs)].
  - apply bind_inv_Ok in E as (w2 & x & E1 & E). injection E as <- E El.
    eapply (Hrest _ _ _ _ set); [exact E1|by rewrite E, El|by right|intros; congruence|done|].
    intros HIw Hun _. destruct (Hun w HIw) as (w3 & e & Hw & _). congruence.
  - destruct (is_mysql_error 3200 e) eqn:E3200; apply bind_inv_Ok in E as (w2 & x & E1 & E); injection E as <- E El.
    + eapply (Hrest _ _ _ _ (bl_GTIDSet b)); [exact E1|rewrite E, <- El; by destruct b|by left|intros; congruence|done|].
      intros HIw Hun _. destruct (Hun w HIw) as (w3 & e' & Hw & He'). congruence.
    + eapply (Hrest _ _ _ _ ""); [exact E1|by rewrite E, El|by right|intros; congruence|done|]. intros _ _ _. by rewrite lookup_insert_eq.
Qed.
End lost.

(** A log whose GTID set could not be read once is never uploaded.  With a
    cache for the host, any error but 3200 is dropped and the empty set is
    cached; every later collection takes the log for one without transactions,
    even when the server is well again, and its upload list leaves the log out. *)
Theorem unreadable_binlog_is_lost {W} `{DbEnv W} `{PitrEnv W} (c : Collector) (I : W -> Prop) entry dirty logs b
    (w w' : W) entry' dirty' logs' entry2 d2 logs2 (w2 w2' : W) x2 k :
  (forall n, keeps I (GetGTIDSet (co_host c) n)) -> I w -> unreadable c I (bl_Name b) ->
  sets_cached c entry dirty logs w = (w', Ok (entry', dirty', logs')) ->
  b ∈ logs -> entry !! bl_Name b = None ->
  (forall n set, entry' !! n = Some set -> entry2 !! n = Some set) ->
  sets_cached c entry2 d2 logs2 w2 = (w2', Ok x2) ->
  bl_Name b ∉ bl_Name <$> removeEmptyBinlogs (drop k x2.2).
Proof.
  intros Hkeep Hw Hun E1 Hb He Hsub E2 (b' & Hname & Hb')%list_elem_of_fmap.
  apply (sets_cached_entry c I) in E1 as [_ Hlost]; [|done]. specialize (Hlost Hw b Hb Hun He).
  destruct x2 as [[e2 dd2] l2]. apply (sets_cached_entry c (fun _ => True)) in E2 as [Hk _]; [|by intros n w0].
  destruct (Hk _ _ (Hsub _ _ Hlost)) as [_ Hset].
  unfold removeEmptyBinlogs in Hb'. apply list_elem_of_filter in Hb' as [Hne Hin%elem_of_drop].
  by rewrite (Hset b' Hin (eq_sym Hname)) in Hne.
Qed.

(** ** The timeline file *)

Definition nl_char : Ascii.ascii := Ascii.Ascii false true false true false false false false.
Definition cr_ascii : Ascii.ascii := Ascii.Ascii true false true true false false false false.

(** A line of its own: no line ending inside. *)
Definition plain_line (s : string) : Prop := no_char nl_char s = true /\ no_char cr_ascii s = true.

Lemma TrimSuffix_no_char ch s : no_char ch s = true -> TrimSuffix s (String ch "") = s.
Proof.
  intros Hs. unfold TrimSuffix. destruct (strip_suffix (String ch "") s) as [r|] eqn:E; [|done].
  apply strip_suffix_Some in E as ->. rewrite no_char_app in Hs. simpl in Hs.
  rewrite bool_decide_eq_true_2 in Hs by done. by destruct (no_char ch r).
Qed.

Lemma timeline_first first ts : plain_line first -> first <> "" ->
  timeline_content first ts = first +:+ nl +:+ ts.
Proof.
  intros [Hn Hc] He. unfold timeline_content, scan_lines, nl. rewrite Split_no_char by done.
  rewrite (bool_decide_eq_false_2 (last [first] = Some "")) by (intros [= E]; done). cbn [fmap list_fmap length].
  unfold cr_char. rewrite TrimSuffix_no_char by done. done.
Qed.

Lemma timeline_next first t ts : plain_line first -> plain_line t -> first <> "" ->
  timeline_content (first +:+ nl +:+ t) ts = first +:+ nl +:+ ts.
Proof.
  intros [Hn Hc] [Hn' Hc'] He. unfold timeline_content, scan_lines, nl.
  rewrite Split_app_sep, (Split_no_char _ t) by done.
  destruct (decide (t = "")) as [-> |Ht].
  - rewrite (bool_decide_eq_true_2 (last [first; ""] = Some "")) by done. cbn [fmap list_fmap length take Nat.sub].
    unfold cr_char. rewrite TrimSuffix_no_char by done. done.
  - rewrite (bool_decide_eq_false_2 (last [first; t] = Some "")) by (intros [= E]; done). cbn [fmap list_fmap length].
    unfold cr_char. rewrite !TrimSuffix_no_char by done. done.
Qed.

Lemma timeline_written first tss t :
  plain_line first -> first <> "" -> Forall plain_line tss ->
  timeline_content (fold_left timeline_content tss first) t = first +:+ nl +:+ t.
Proof.
  intros Hf He Hts.
  assert (forall content, content = first \/ (exists u, plain_line u /\ content = first +:+ nl +:+ u) ->
    timeline_content (fold_left timeline_content tss content) t = first +:+ nl +:+ t) as Hinv; [|by apply Hinv; left].
  induction Hts as [|u tss Hu Hts IH]; intros content Hc; cbn [fold_left].
  - destruct Hc as [-> |(u & Hu & ->)]; [by apply timeline_first|by apply timeline_next].
  - apply IH. right. exists u. split; [done|].
    destruct Hc as [-> |(v & Hv & ->)]; [by apply timeline_first|by apply timeline_next].
Qed.

(** The timeline file always holds two lines: the first time stamp, written
    when the file was created, and the last time stamp of the newest log, however
    many updates came before. *)
Theorem timeline_first_last first tss t :
  plain_line first -> first <> "" -> Forall plain_line tss ->
  timeline_content (fold_left timeline_content tss first) t = first +:+ nl +:+ t.
Proof. apply timeline_written. Qed.
