(* ===== verification/Recoverer.v ===== *)
(** * The recoverer of point-in-time recovery: [cmd/pitr/recoverer]

    The recoverer reads from the backup which transactions it has, chooses the
    stored binary logs that come after them, and replays these. *)

From S2P Require Import Prelude GoStrings PitrPxc.

(** ** Storages and commands

    [st_get] returns the object as a reader: the inner result is what reading it
    to the end gives. *)
Record Storage (W : Type) := mkStorage {
  st_ListObjects : string -> M W (list string);
  st_GetObject : string -> M W (res string) }.
Arguments mkStorage {W}.
Arguments st_ListObjects {W}.
Arguments st_GetObject {W}.

(** The programs the recoverer starts.  [re_xbstream] unpacks an object and
    returns the named file of it; [re_mysqlbinlog flag log] decodes a log and
    sends the result to the client that [re_startMysql] started. *)
Class RecEnv (W : Type) := {
  re_xbstream : res string -> string -> M W string;
  re_setPassword : M W unit;
  re_startMysql : string -> M W unit;
  re_mysqlbinlog : string -> res string -> M W unit;
  re_closePipe : M W unit;
  re_waitMysql : M W unit;
  re_dropFunction : string -> string -> M W unit;
  re_uninstallComponent : string -> M W unit;
  re_parseDate : string -> res Z }.

Definition Latest : string := "latest".
Definition Date : string := "date".
Definition Transaction : string := "transaction".
Definition Skip : string := "skip".

(** The fields of [Recoverer] that [New] sets, and those that [Run] sets. *)
Record Recoverer := mkRecoverer {
  rc_recoverTime : string;
  rc_recoverType : string;
  rc_pxcServiceName : string;
  rc_startGTID : string;
  rc_gtid : string }.

Record Plan := mkPlan { pn_binlogs : list string; pn_gtidSet : string }.

(** ** Parsing *)

(** [bytes.Index] and slicing: what follows the first occurrence of [sep], up
    to the first [stop] in it. *)
Definition parseGTIDFromSSTInfoContent (content : string) : res string :=
  match cut_at "galera-gtid=" content with
  | None => Err (ErrNew "no gtid data in backup")
  | Some (_, newOut) =>
      match cut_at nl newOut with
      | None => Err (ErrNew "can't find gtid data in backup")
      | Some (gtid, _) => Ok gtid
      end
  end.

Definition parseGTIDFromXtrabackupBinlogInfoContent (content : string) : res string :=
  match Split content tab with
  | [_; _; set] => Ok set
  | _ => Err (ErrNew "incorrect number of tokens in xtrabackup_binlog_info content")
  end.

(** [newOut[se+1 : e]], where [e] is the first quote that ends a line and [se]
    the first quote: out of range when they are the same quote. *)
Definition getGTIDFromXtrabackup (content : string) : res string :=
  match cut_at "GTID of the last" content with
  | None => Err (ErrNew "no gtid data in backup")
  | Some (_, newOut) =>
      match cut_at ("'" +:+ nl) newOut with
      | None => Err (ErrNew "can't find gtid data in backup")
      | Some (before, _) =>
          match cut_at "'" before with
          | Some (_, set) => Ok set
          | None => Panic
          end
      end
  end.

Fixpoint find_source (gtid : string) (sets : list string) : res string :=
  match sets with
  | [] => Err (ErrNew ("can't find current gtid (" +:+ gtid +:+ ") in xtrabackup file"))
  | v :: sets =>
      let valueSplitted := Split v ":" in
      if bool_decide (head valueSplitted = Some gtid) then deref (valueSplitted !! 1%nat)
      else find_source gtid sets
  end.

Definition getSetFromXtrabackupInfo (gtid xtrabackupInfo : string) : res string :=
  gtids ← wrap_res "get gtid from xtrabackup info" (getGTIDFromXtrabackup xtrabackupInfo);
  find_source gtid (Split gtids ",").

(** The end of the first interval of a set, as in [1-5] or [5]. *)
Definition interval_end (interval : string) : string :=
  match Split interval "-" with
  | [e] => e
  | e => default "" (e !! 1%nat)
  end.

Definition getExtendGTIDSet (gtidSet gtid : string) : res string :=
  if bool_decide (gtidSet = gtid) then Ok gtid else
  match Split gtidSet ":" with
  | _ :: s1 :: _ =>
      match Split gtid ":" with
      | gs0 :: gs1 :: _ => Ok (gs0 +:+ ":" +:+ split_head gs1 "-" +:+ "-" +:+ interval_end s1)
      | _ => Err (ErrNew ("incorrect source in gtid set " +:+ gtid))
      end
  | _ => Err (ErrNew ("incorrect source in gtid set " +:+ gtidSet))
  end.

(** [list[i], list[opp] = list[opp], list[i]] *)
Definition swap {A} (i j : nat) (l : list A) : list A :=
  match l !! i, l !! j with
  | Some x, Some y => <[j := x]> (<[i := y]> l)
  | _, _ => l
  end.

(** The loop runs from [len(list)/2 - 1] down to 0; the first argument is the
    number of turns left. *)
Fixpoint reverse_loop {A} (n : nat) (l : list A) : list A :=
  match n with
  | O => l
  | S i => reverse_loop i (swap i (length l - 1 - i) l)
  end.

Definition reverse_in_place {A} (l : list A) : list A := reverse_loop (length l / 2) l.

(** [strings.Cut]; a prefix that is not empty gets a slash. *)
Definition getContainerAndPrefix (s : string) : string * string :=
  let '(container, prefix) := Cut s "/" in
  (container, if bool_decide (prefix = "") then prefix else prefix +:+ "/").

Section recoverer.
Context {W : Type} `{DbEnv W} `{RecEnv W}.

(** ** What the backup contains *)

Definition getGTIDFromSSTInfo (s : Storage W) (sstInfoFile : string) : M W string :=
  obj ← wrap "get sst_info object" (st_GetObject s sstInfoFile);
  sstContent ← wrap "get decompressed content for sst_info" (re_xbstream obj "sst_info");
  gtidSet ← wrap "parse gtid from sst_info content" (lift (parseGTIDFromSSTInfoContent sstContent));
  mret (split_head gtidSet ":").

Definition getGTIDFromXtrabackupBinlogInfo (s : Storage W) (file : string) : M W string :=
  obj ← wrap "get xtrabackup_binlog_info object" (st_GetObject s file);
  content ← wrap "get decompressed content for xtrabackup_binlog_info" (re_xbstream obj "xtrabackup_binlog_info");
  gtidSet ← wrap "parse gtid from xtrabackup_binlog_info content"
              (lift (parseGTIDFromXtrabackupBinlogInfoContent content));
  mret (split_head gtidSet ":").

Definition getGTID (s : Storage W) : M W string :=
  sstInfo ← wrap "list sst_info objects objects" (st_ListObjects s ".sst_info/sst_info");
  match sort_Strings sstInfo with
  | file :: _ => getGTIDFromSSTInfo s file
  | [] =>
      xbBinlogInfo ← wrap "list xtrabackup_binlog_info objects" (st_ListObjects s "xtrabackup_binlog_info");
      match sort_Strings xbBinlogInfo with
      | file :: _ => getGTIDFromXtrabackupBinlogInfo s file
      | [] => fail (ErrNew "no sst_info or xtrabackup_binlog_info objects found")
      end
  end.

Definition getXtrabackupInfo (s : Storage W) : M W string :=
  xbInfo ← wrap "list xtrabackup_info objects" (st_ListObjects s "xtrabackup_info");
  match sort_Strings xbInfo with
  | [] => fail (ErrNew "no xtrabackup_info objects found")
  | file :: _ =>
      obj ← wrap "get xtrabackup_info object" (st_GetObject s file);
      wrap "get decompressed content for xtrabackup_info" (re_xbstream obj "xtrabackup_info")
  end.

Definition getStartGTIDSet (s : Storage W) : M W string :=
  currGTID ← wrap "get gtid" (getGTID s);
  xbInfoContent ← wrap "get xtrabackup info" (getXtrabackupInfo s);
  set ← wrap "get set from xtrabackup info" (lift (getSetFromXtrabackupInfo currGTID xbInfoContent));
  mret (currGTID +:+ ":" +:+ set).

(** [New], after the storages are there: a transaction from before the backup
    cannot be the target.  The target's second part is taken by index. *)
Definition check_target (startGTID gtid : string) : res unit :=
  match Split startGTID ":" with
  | [_; set] =>
      lastSetInt ← wrap_res "failed to cast last set value to in" (ParseInt64 (interval_end set));
      num ← deref (Split gtid ":" !! 1%nat);
      transactionNum ← wrap_res "failed to parse transaction num to restore" (ParseInt64 num);
      if bool_decide (transactionNum < lastSetInt) then Err (ErrNew "Can't restore to transaction before backup")
      else Ok tt
  | _ => Err (ErrNew "Invalid start gtidset provided")
  end.

Definition New (recoverTime recoverType svc gtid : string) (backup : Storage W) : M W Recoverer :=
  startGTID ← wrap "get start GTID" (getStartGTIDSet backup);
  _ ← (when bool_decide (recoverType = Transaction) do lift (check_target startGTID gtid));
  mret (mkRecoverer recoverTime recoverType svc startGTID gtid).

(** ** Choosing the logs *)

(** The loop of [setBinlogs], newest log first: a log whose GTID set cannot be
    fetched is passed over; the loop ends at the first log that has transactions
    of the backup. *)
Fixpoint choose_logs (r : Recoverer) (s : Storage W) (list binlogs : list string) (gtidSet : string) : M W Plan :=
  match list with
  | [] => mret (mkPlan binlogs gtidSet)
  | binlog :: list =>
      if Contains binlog "-gtid-set" then choose_logs r s list binlogs gtidSet else
      infoObj ← try (st_GetObject s (binlog +:+ "-gtid-set"));
      match infoObj with
      | inl _ => choose_logs r s list binlogs gtidSet
      | inr obj =>
          set ← wrap ("read " +:+ binlog +:+ " gtid-set object") (lift obj);
          let target := negb (bool_decide (rc_gtid r = "")) && bool_decide (rc_recoverType r = Transaction) in
          gtidSet ←
            (if target then
               subResult ← wrap ("check if '" +:+ set +:+ "' is a subset of '" +:+ rc_gtid r) (SubtractGTIDSet set (rc_gtid r));
               if bool_decide (subResult = set) then mret gtidSet
               else wrap "get gtid set for extend" (lift (getExtendGTIDSet set (rc_gtid r)))
             else mret gtidSet);
          if target && bool_decide (gtidSet = "") then choose_logs r s list binlogs gtidSet else
          subResult ← wrap ("check if '" +:+ rc_startGTID r +:+ "' is a subset of '" +:+ set) (SubtractGTIDSet (rc_startGTID r) set);
          if bool_decide (subResult = rc_startGTID r) then choose_logs r s list (binlogs ++ [binlog]) gtidSet
          else mret (mkPlan (binlogs ++ [binlog]) gtidSet)
      end
  end.

Definition setBinlogs (r : Recoverer) (s : Storage W) : M W Plan :=
  list ← wrap "list objects with prefix 'binlog_'" (st_ListObjects s "binlog_");
  p ← choose_logs r s (reverse_in_place list) [] "";
  if bool_decide (pn_binlogs p = [])
  then fail (ErrNew ("no objects for prefix binlog_ or with source_id=" +:+ split_head (rc_startGTID r) ":"))
  else mret (mkPlan (reverse_in_place (pn_binlogs p)) (pn_gtidSet p)).

(** ** Replaying them *)

Definition DropCollectorFunctions (host : string) : M W unit :=
  for_each (fun '(functionName, _) =>
    wrap ("create function " +:+ functionName) (re_dropFunction host functionName)) db_functionOrder.

Definition UninstallBinlogUDFComponent (host : string) : M W unit :=
  urn ← wrap "get component_binlog_utils_udf" (db_componentURN host);
  if bool_decide (default "" urn = "") then mret tt
  else wrap "uninstall component" (re_uninstallComponent host).

(** The time in an object name. *)
Definition binlog_time (binlog : string) : res Z :=
  match Split binlog "_" with
  | _ :: ts :: _ => wrap_res "get binlog time" (ParseInt64 ts)
  | _ => Err (ErrNew "get timestamp from binlog name")
  end.

(** The loop of [recover]; [end_time] is set for a recovery to a date. *)
Fixpoint replay (s : Storage W) (flag : string) (end_time : option Z) (binlogs : list string) : M W unit :=
  match binlogs with
  | [] => mret tt
  | binlog :: binlogs =>
      stop ← match end_time with
             | None => mret false
             | Some t => binlogTime ← lift (binlog_time binlog); mret (bool_decide (t < binlogTime))
             end;
      if stop : bool then mret tt else
      obj ← wrap "get obj" (st_GetObject s binlog);
      _ ← wrap "run mysqlbinlog" (re_mysqlbinlog flag obj);
      replay s flag end_time binlogs
  end.

Definition recover (s : Storage W) (host flag : string) (end_time : option Z) (binlogs : list string) : M W unit :=
  version ← wrap "get version" (GetVersion host);
  _ ← (if HasPrefix version "8.0" then wrap "drop collector funcs" (DropCollectorFunctions host)
       else if HasPrefix version "8.4" then wrap "uninstall component" (UninstallBinlogUDFComponent host)
       else mret tt);
  _ ← wrap "set mysql pwd env var" re_setPassword;
  _ ← wrap "start mysql" (re_startMysql host);
  _ ← replay s flag end_time binlogs;
  _ ← wrap "close binlog stdout" re_closePipe;
  wrap "wait mysql" re_waitMysql.

(** The flag for [mysqlbinlog] and the end time, by the kind of recovery. *)
Definition recovery_args (r : Recoverer) (p : Plan) : res (string * option Z) :=
  if bool_decide (rc_recoverType r = Skip) then Ok ("--exclude-gtids=" +:+ rc_gtid r, None)
  else if bool_decide (rc_recoverType r = Transaction) then Ok ("--exclude-gtids=" +:+ pn_gtidSet p, None)
  else if bool_decide (rc_recoverType r = Date) then
    endTime ← wrap_res "parse date" (re_parseDate (rc_recoverTime r));
    Ok ("--stop-datetime=" +:+ dquote +:+ rc_recoverTime r +:+ dquote, Some endTime)
  else if bool_decide (rc_recoverType r = Latest) then Ok ("", None)
  else Err (ErrNew "wrong recover type").

Definition Recoverer_Run (r : Recoverer) (s : Storage W) : M W unit :=
  host ← wrap "get host" (GetPXCFirstHost (rc_pxcServiceName r));
  _ ← wrap ("new manager with host " +:+ host) (db_open host);
  p ← wrap "get binlog list" (setBinlogs r s);
  x ← lift (recovery_args r p);
  wrap "recover" (recover s host x.1 x.2 (pn_binlogs p)).
End recoverer.
