(* ===== verification/RecovererSpec.v ===== *)
(** * What the recoverer guarantees

    It replays a contiguous run of the stored logs, oldest first, that starts no
    later than the backup ends, and stops where the user asked. *)

From S2P Require Import Prelude GoStrings PitrPxc Collector Recoverer.

(** ** Reversing in place *)

Lemma swap_lookup {A} i j (l : list A) k :
  (i < length l)%nat -> (j < length l)%nat ->
  swap i j l !! k = if decide (k = j) then l !! i else if decide (k = i) then l !! j else l !! k.
Proof.
  intros [x Hx]%lookup_lt_is_Some_2 [y Hy]%lookup_lt_is_Some_2. unfold swap. rewrite Hx, Hy.
  destruct (decide (k = j)) as [-> |Hj].
  - apply list_lookup_insert_eq. rewrite length_insert. by eapply lookup_lt_Some.
  - rewrite list_lookup_insert_ne by done. destruct (decide (k = i)) as [-> |Hi].
    + apply list_lookup_insert_eq. by eapply lookup_lt_Some.
    + by rewrite list_lookup_insert_ne.
Qed.

Lemma swap_length {A} i j (l : list A) : length (swap i j l) = length l.
Proof. unfold swap. destruct (l !! i), (l !! j); by rewrite ?length_insert. Qed.

Lemma reverse_loop_lookup {A} n (l : list A) k :
  (2 * n <= length l)%nat -> (k < length l)%nat ->
  reverse_loop n l !! k = l !! (if decide (k < n \/ length l - n <= k)%nat then length l - 1 - k else k)%nat.
Proof.
  revert l. induction n as [|i IH]; intros l Hn Hk; cbn [reverse_loop].
  { rewrite decide_False by lia. done. }
  rewrite IH by (rewrite swap_length; lia). rewrite swap_length, swap_lookup by lia.
  repeat case_decide; try lia; f_equal; lia.
Qed.

(** The loop that swaps the ends inwards reverses the list. *)
Theorem reverse_in_place_correct {A} (l : list A) : reverse_in_place l = reverse l.
Proof.
  unfold reverse_in_place. apply list_eq. intros k.
  assert (forall n (x : list A), length (reverse_loop n x) = length x) as Hlen.
  { induction n as [|i IH]; intros x; cbn [reverse_loop]; [done|]. by rewrite IH, swap_length. }
  destruct (decide (k < length l)%nat) as [Hk|Hk].
  - pose proof (Nat.div_mod_eq (length l) 2). pose proof (Nat.mod_upper_bound (length l) 2).
    rewrite reverse_loop_lookup by lia. rewrite reverse_lookup by done.
    case_decide; f_equal; lia.
  - rewrite !lookup_ge_None_2; rewrite ?Hlen, ?length_reverse; lia || done.
Qed.

(** ** What the collector wrote, the recoverer reads *)

Definition underscore : Ascii.ascii := Ascii.Ascii true true true true true false true false.
Definition colon : Ascii.ascii := Ascii.Ascii false true false true true true false false.
Definition dash : Ascii.ascii := Ascii.Ascii true false true true false true false false.

(** The time stamp in the name of a stored log is the time of its first
    event: what the collector printed into the name, the recoverer parses. *)
Theorem binlog_time_object_name {W} `{PitrEnv W} (t : Z) num set :
  0 <= t < 2 ^ 63 -> binlog_time (object_name (W := W) (pretty t) num set) = Ok t.
Proof.
  intros Ht. unfold binlog_time, object_name.
  change ("binlog_" +:+ ?x) with ("binlog" +:+ String underscore "" +:+ x).
  change ("_" +:+ ?x) with (String underscore "" +:+ x). rewrite Split_app_sep by done.
  rewrite Split_app_sep by (apply pretty_no_char; [done|lia]). by rewrite ParseInt64_pretty.
Qed.

Lemma interval_end_pretty (a b : Z) : 0 <= a -> 0 <= b ->
  interval_end (pretty a +:+ "-" +:+ pretty b) = pretty b.
Proof.
  intros Ha Hb. unfold interval_end. change "-" with (String dash "").
  by rewrite Split_app_sep, Split_no_char by (apply pretty_no_char; done).
Qed.

(** A transaction is accepted as the target exactly when it is not older
    than the last transaction of the backup. *)
Theorem check_target_spec (src src' : string) (a b n : Z) :
  no_char colon src = true -> no_char colon src' = true ->
  0 <= a < 2 ^ 63 -> 0 <= b < 2 ^ 63 -> 0 <= n < 2 ^ 63 ->
  check_target (src +:+ ":" +:+ pretty a +:+ "-" +:+ pretty b) (src' +:+ ":" +:+ pretty n)
  = if bool_decide (b <= n) then Ok tt else Err (ErrNew "Can't restore to transaction before backup").
Proof.
  intros Hs Hs' Ha Hb Hn. unfold check_target. change ":" with (String colon "").
  assert (no_char colon (pretty a +:+ "-" +:+ pretty b) = true) as Hset.
  { rewrite !no_char_app, !(pretty_no_char colon) by (done || lia). done. }
  rewrite !Split_app_sep, !Split_no_char by (done || (apply pretty_no_char; [done|lia])).
  rewrite interval_end_pretty by lia. rewrite ParseInt64_pretty by done. simpl.
  rewrite ParseInt64_pretty by done. simpl.
  by repeat case_bool_decide; try lia.
Qed.

(** A target without a colon makes [New] panic: its second part is taken by
    index, and nothing checks that there is one. *)
Theorem check_target_panics (src gtid : string) (a b : Z) :
  no_char colon src = true -> 0 <= a < 2 ^ 63 -> 0 <= b < 2 ^ 63 -> no_char colon gtid = true ->
  check_target (src +:+ ":" +:+ pretty a +:+ "-" +:+ pretty b) gtid = Panic.
Proof.
  intros Hs Ha Hb Hg. unfold check_target. change ":" with (String colon "").
  assert (no_char colon (pretty a +:+ "-" +:+ pretty b) = true) as Hset.
  { rewrite !no_char_app, !(pretty_no_char colon) by (done || lia). done. }
  rewrite Split_app_sep, !Split_no_char by done.
  rewrite interval_end_pretty by lia. by rewrite ParseInt64_pretty by done.
Qed.

(** The set to leave out.  For a log with transactions [a] to [b] of a
    source, recovering to transaction [n] leaves out [n] to [b]. *)
Theorem getExtendGTIDSet_spec (src src' : string) (a b n : Z) :
  no_char colon src = true -> no_char colon src' = true -> 0 <= a -> 0 <= b -> 0 <= n ->
  getExtendGTIDSet (src +:+ ":" +:+ pretty a +:+ "-" +:+ pretty b) (src' +:+ ":" +:+ pretty n)
  = Ok (src' +:+ ":" +:+ pretty n +:+ "-" +:+ pretty b).
Proof.
  intros Hs Hs' Ha Hb Hn. unfold getExtendGTIDSet. change ":" with (String colon "").
  assert (no_char colon (pretty a +:+ "-" +:+ pretty b) = true) as Hset.
  { rewrite !no_char_app, !(pretty_no_char colon) by done. done. }
  rewrite bool_decide_eq_false_2.
  - rewrite !Split_app_sep, !Split_no_char by (done || by apply pretty_no_char).
    rewrite interval_end_pretty by done. unfold split_head. change "-" with (String dash "").
    by rewrite Split_no_char by (by apply pretty_no_char).
  - intros E%(f_equal (fun x => Split x (String colon ""))).
    rewrite !Split_app_sep, !Split_no_char in E by (done || by apply pretty_no_char).
    injection E as _ E. apply (f_equal (no_char dash)) in E. rewrite !no_char_app in E.
    rewrite (pretty_no_char dash n) in E by done. simpl in E. by rewrite andb_false_r in E.
Qed.

Lemma filter_reversed {A} (P : A -> Prop) `{forall x, Decision (P x)} (l : list A) :
  filter P (reverse l) = reverse (filter P l).
Proof.
  induction l as [|x l IH]; [done|]. rewrite reverse_cons, filter_app, IH, !filter_cons, filter_nil.
  case_decide; [by rewrite reverse_cons|by rewrite app_nil_r].
Qed.

(** ** Which logs are chosen

    [sets] is what the storage holds; reads of it do not fail otherwise, and
    [sub] is the server's GTID_SUBTRACT. *)

Section choice.
Context {W : Type} `{DbEnv W} (r : Recoverer) (s : Storage W).
Context (objects : string -> option string) (sub : string -> string -> string).
Context (Hget : forall n w w' x, st_GetObject s n w = (w', x) ->
  match objects n with Some c => x = Ok (Ok c) | None => exists e, x = Err e end).
Context (Hsub : forall a b w w' x, db_gtidSubtract a b w = (w', Ok x) -> x = sub a b).

(** A stored log: not one of the set objects, and its set is there. *)
Definition is_log (n : string) : Prop :=
  Contains n "-gtid-set" = false /\ is_Some (objects (n +:+ "-gtid-set")).
#[export] Instance is_log_dec n : Decision (is_log n).
Proof. unfold is_log. apply _. Defined.

(** The log has transactions that the backup has too. *)
Definition reaches_backup (n : string) : Prop :=
  is_log n /\ sub (rc_startGTID r) (default "" (objects (n +:+ "-gtid-set"))) <> rc_startGTID r.

Lemma choose_logs_run (l acc : list string) w w' p :
  (rc_recoverType r <> Transaction \/ rc_gtid r = "") ->
  choose_logs r s l acc "" w = (w', Ok p) ->
  exists l1 l2, l = l1 ++ l2 /\ pn_binlogs p = acc ++ filter is_log l1 /\
    ((l2 = [] /\ forall n, n ∈ l1 -> ~ reaches_backup n) \/
     (exists l0 n, l1 = l0 ++ [n] /\ reaches_backup n /\ forall x, x ∈ l0 -> ~ reaches_backup x)).
Proof.
  intros Ht. revert acc w. induction l as [|n l IH]; intros acc w; cbn [choose_logs].
  { intros [= <- <-]. exists [], []. split_and!; [done|by rewrite app_nil_r|]. left. by split; [|intros x ?%elem_of_nil]. }
  assert (forall acc w, choose_logs r s l acc "" w = (w', Ok p) -> ~ is_log n ->
    exists l1 l2, n :: l = l1 ++ l2 /\ pn_binlogs p = acc ++ filter is_log l1 /\
    ((l2 = [] /\ forall n, n ∈ l1 -> ~ reaches_backup n) \/
     (exists l0 n, l1 = l0 ++ [n] /\ reaches_backup n /\ forall x, x ∈ l0 -> ~ reaches_backup x))) as Hskip.
  { intros acc' w0 (l1 & l2 & -> & Hp & Hend)%IH Hn. exists (n :: l1), l2.
    rewrite filter_cons_False by done. split_and!; [done|done|].
    destruct Hend as [[-> Hno]|(l0 & x & -> & Hx & Hl0)].
    - left. split; [done|]. intros y [-> |Hy]%elem_of_cons; [by intros [? _]|by apply Hno].
    - right. exists (n :: l0), x. split_and!; [done|done|]. intros y [-> |Hy]%elem_of_cons; [by intros [? _]|by apply Hl0]. }
  destruct (Contains n "-gtid-set") eqn:Hc; [intros E; eapply Hskip; [exact E|]; unfold is_log; by intros [? _]; congruence|].
  intros (w1 & x & Hx & E)%bind_inv_Ok.
  apply try_inv_Ok in Hx as [(obj & -> & Hx)|(e & -> & Hx)]; apply Hget in Hx.
  2: { eapply Hskip; [exact E|]. intros [_ [c Hc']]. by rewrite Hc' in Hx. }
  destruct (objects (n +:+ "-gtid-set")) as [c|] eqn:Ho; [|by destruct Hx]. injection Hx as ->.
  apply bind_inv_Ok in E as (w2 & set & Es & E). apply wrap_inv_Ok in Es. injection Es as -> ->.
  assert (negb (bool_decide (rc_gtid r = "")) && bool_decide (rc_recoverType r = Transaction) = false) as Hf.
  { destruct Ht as [Ht|Ht]; [rewrite (bool_decide_eq_false_2 _ Ht); apply andb_false_r|by rewrite (bool_decide_eq_true_2 _ Ht)]. }
  rewrite Hf in E. clear Hf. apply bind_inv_Ok in E as (w3 & g & Eg & E). injection Eg as <- <-. simpl in E.
  apply bind_inv_Ok in E as (w4 & x & Ex & E). apply wrap_inv_Ok in Ex. unfold SubtractGTIDSet in Ex.
  apply wrap_inv_Ok, Hsub in Ex as ->.
  assert (is_log n) as Hlog by (split; [done|by rewrite Ho]).
  case_bool_decide as Hs.
  - apply IH in E as (l1 & l2 & -> & Hp & Hend). exists (n :: l1), l2.
    rewrite filter_cons_True by done. rewrite Hp, <- app_assoc. split_and!; [done|done|].
    assert (~ reaches_backup n) as Hn by (intros [_ Hr]; rewrite Ho in Hr; done).
    destruct Hend as [[-> Hno]|(l0 & x & -> & Hx & Hl0)].
    + left. split; [done|]. intros y [-> |Hy]%elem_of_cons; [done|by apply Hno].
    + right. exists (n :: l0), x. split_and!; [done|done|]. intros y [-> |Hy]%elem_of_cons; [done|by apply Hl0].
  - injection E as <- <-. exists [n], l. split_and!; [done| |].
    + by rewrite filter_cons_True.
    + right. exists [], n. split_and!; [done|split; [done|by rewrite Ho]|by intros y ?%elem_of_nil].
Qed.

End choice.

(** ** What is replayed *)

Section replay.
Context {W : Type} `{RecEnv W} (s : Storage W) (objects : string -> option string) (replayed : W -> list string).
Context (Hget : forall n w w' x, st_GetObject s n w = (w', Ok x) ->
  exists c, objects n = Some c /\ x = Ok c /\ replayed w' = replayed w).
Context (Hrun : forall flag c w w', re_mysqlbinlog flag (Ok c) w = (w', Ok tt) -> replayed w' = replayed w ++ [c]).

Definition content (n : string) : string := default "" (objects n).

(** Before the end time, for a recovery to a date. *)
Definition in_time (end_time : option Z) (n : string) : Prop :=
  match end_time, binlog_time n with
  | None, _ => True
  | Some t, Ok t' => t' <= t
  | Some _, _ => False
  end.
#[export] Instance in_time_dec e n : Decision (in_time e n).
Proof. unfold in_time. repeat case_match; apply _. Defined.

(** The replay to a date is the replay of exactly the logs that begin at or
    before that date, when the logs are in the order of their times; without a
    date it is the replay of all of them. *)
Theorem replay_in_time flag end_time binlogs w w' :
  StronglySorted (fun n m => forall t t', binlog_time n = Ok t -> binlog_time m = Ok t' -> t <= t') binlogs ->
  Forall (fun n => is_ok (binlog_time n) = true) binlogs ->
  replay s flag end_time binlogs w = (w', Ok tt) ->
  replayed w' = replayed w ++ (content <$> filter (in_time end_time) binlogs).
Proof.
  intros Hs Hok. revert w. induction Hs as [|n l Hs IH Hn]; intros w; cbn [replay].
  { intros [= <-]. by rewrite app_nil_r. }
  apply Forall_cons in Hok as [Hnt Hok]. destruct (binlog_time n) as [tn|e|] eqn:Etn; [|done..].
  intros (w1 & stop & Es & E)%bind_inv_Ok.
  assert (w1 = w /\ (stop = true <-> ~ in_time end_time n)) as [-> Hstop].
  { unfold in_time. rewrite Etn. destruct end_time as [t|].
    - injection Es as <- <-. split; [done|]. rewrite bool_decide_eq_true. lia.
    - injection Es as <- <-. split; [done|]. naive_solver. }
  destruct stop.
  - injection E as <-. rewrite filter_cons_False by (by apply Hstop).
    assert (filter (in_time end_time) l = []) as ->; [|by rewrite app_nil_r].
    destruct (filter (in_time end_time) l) as [|m l'] eqn:Ef; [done|exfalso].
    assert (m ∈ filter (in_time end_time) l) as [Hm Hml]%list_elem_of_filter by (rewrite Ef; by left).
    rewrite Forall_forall in Hn, Hok. specialize (Hok m Hml). specialize (Hn m Hml).
    destruct Hstop as [Hstop _]. apply (Hstop eq_refl). clear Hstop. unfold in_time in *. rewrite Etn.
    destruct end_time as [t|]; [|done]. destruct (binlog_time m) as [tm|e|] eqn:Etm; [|done..].
    specialize (Hn tn tm eq_refl eq_refl). lia.
  - rewrite filter_cons_True by (destruct (decide (in_time end_time n)) as [|Hx]; [done|by apply Hstop in Hx]).
    apply bind_inv_Ok in E as (w2 & obj & Eo%wrap_inv_Ok & E). apply Hget in Eo as (c & Hc & -> & Hr).
    apply bind_inv_Ok in E as (w3 & [] & Er%wrap_inv_Ok & E). apply Hrun in Er.
    apply IH in E; [|done]. rewrite E, Er, Hr, fmap_cons, <- app_assoc. unfold content at 2. by rewrite Hc.
Qed.
End replay.
