(* ===== verification/PitrWitness.v ===== *)
(** * A server and a storage in memory

    One node with its binary logs, an object store and local files, in which the
    collector and the recoverer run; it satisfies the laws their theorems use. *)

From S2P Require Import Prelude GoStrings PitrPxc Collector CollectorSpec Recoverer RecovererSpec.

(** [pw_broken] are logs for which the server function fails. *)
Record PW := mkPW {
  pw_rows : list (string * Z * string);
  pw_sets : gmap string string;
  pw_first : gmap string string;
  pw_broken : gset string;
  pw_objs : gmap string string;
  pw_uploads : list (string * string);
  pw_files : gmap string string;
  pw_replayed : list string }.

(** GTID sets of one source and one interval, [source:a-b]. *)
Definition interval (set : string) : option (string * Z * Z) :=
  match Split set ":" with
  | [src; iv] =>
      match Split iv "-" with
      | [a; b] => match parse_Z a, parse_Z b with Some a, Some b => Some (src, a, b) | _, _ => None end
      | _ => None
      end
  | _ => None
  end.

Definition mem_subset (a b : string) : bool :=
  match interval a, interval b with
  | Some (s1, a1, b1), Some (s2, a2, b2) => bool_decide (s1 = s2) && bool_decide (a2 <= a1) && bool_decide (b1 <= b2)
  | _, _ => false
  end.

(** What is left of [a]: its part before [b], or nothing. *)
Definition mem_subtract (a b : string) : string :=
  match interval a, interval b with
  | Some (s1, a1, b1), Some (s2, a2, b2) =>
      if bool_decide (s1 <> s2) || bool_decide (b1 < a2) || bool_decide (b2 < a1) then a
      else if bool_decide (a1 < a2) then s1 +:+ ":" +:+ pretty a1 +:+ "-" +:+ pretty (a2 - 1)
      else ""
  | _, _ => a
  end.

#[export] Instance pw_db : DbEnv PW := {|
  db_open _ := mret tt;
  db_gtidSet _ n := fun w =>
    (w, if bool_decide (n ∈ pw_broken w) then Err (ErrMySQL 1205 "Lock wait timeout exceeded")
        else Ok (default "" (pw_sets w !! n)));
  db_firstTimestamp _ n := fun w => (w, Ok (default "0" (pw_first w !! n)));
  db_lastTimestamp _ n := fun w => (w, Ok (default "0" (pw_first w !! n)));
  db_version _ := mret "8.0.36";
  db_binaryLogs _ := fun w =>
    (w, if bool_decide (NoDup (row_name <$> pw_rows w)) && bool_decide ("" ∉ row_name <$> pw_rows w)
        then Ok (pw_rows w) else Err (ErrNew "corrupt index"));
  db_flush _ := mret tt;
  db_gtidSubset a b := mret (mem_subset a b);
  db_gtidSubtract a b := mret (mem_subtract a b);
  db_componentURN _ := mret None;
  db_installComponent _ := mret tt;
  db_hasFunction _ _ := mret true;
  db_createFunction _ _ _ := mret tt;
  db_nodes _ := mret ["10.0.0.1:" +:+ synced_marker];
  db_clusterUUID _ := mret "u1";
  db_functionOrder := collectorFunctions;
  db_after := true |}.

#[export] Instance pw_env : PitrEnv PW := {|
  pe_getObject n := fun w => (w, match pw_objs w !! n with Some d => Ok d | None => Err ErrObjectNotFound end);
  pe_putObject n d := modify (fun w => w <| pw_objs ::= <[n := d]> |>);
  pe_removeTmp _ := mret tt;
  pe_mkfifo _ := mret tt;
  pe_start _ _ := mret tt;
  pe_openPipe _ := mret tt;
  pe_upload l o := modify (fun w => w <| pw_objs ::= <[o := "log " +:+ l]> |> <| pw_uploads ::= fun u => u ++ [(l, o)] |>);
  pe_wait _ := mret tt;
  pe_closePipe _ := mret tt;
  pe_removePipe _ := mret tt;
  pe_writeFile f d := modify (fun w => w <| pw_files ::= <[f := d]> |>);
  pe_readFile f := gets (fun w => pw_files w !! f);
  pe_marshal _ := "cache";
  pe_unmarshal _ := Err (ErrNew "no decoder");
  pe_md5 s := s;
  pe_now _ := 0 |}.

#[export] Instance pw_laws : PitrLaws PW.
Proof.
  refine {| pl_view w := mkPView (pw_objs w) (pw_uploads w); pl_Sub a b := mem_subset a b = true |};
    try (intros; intros v w Hw; exact Hw).
  - intros n w w' d. simpl. destruct (pw_objs w !! n); by intros [= <- <-].
  - intros n w w'. simpl. by destruct (pw_objs w !! n).
  - intros h w w' rows. simpl. repeat case_bool_decide; simpl; intros [= <- <-]. done.
  - intros a b w w' r. simpl. by intros [= <- <-].
  - intros n d w w' r. simpl. intros [= <- <-]. destruct w. simpl. split_and!; [done| |].
    + intros n' Hn. by apply lookup_insert_ne.
    + intros _. apply lookup_insert_eq.
  - intros l o w w' r. simpl. intros [= <- <-]. destruct w. simpl. split_and!; [done| |].
    + intros n' Hn. by apply lookup_insert_ne.
    + intros _. rewrite lookup_insert_eq. eauto.
Defined.

#[export] Instance pw_rec : RecEnv PW := {|
  re_xbstream o f := lift o;
  re_setPassword := mret tt;
  re_startMysql _ := mret tt;
  re_mysqlbinlog _ o := _ ← lift o;
    modify (fun w => w <| pw_replayed ::= fun l => l ++ [match o with Ok c => c | _ => "" end] |>);
  re_closePipe := mret tt;
  re_waitMysql := mret tt;
  re_dropFunction _ _ := mret tt;
  re_uninstallComponent _ := mret tt;
  re_parseDate s := ParseInt64 s |}.

(** ** A cluster with three logs *)

Definition demo_collector : Collector := mkCollector "10.0.0.1" "gtid-cache" "u1".

Definition demo_pw : PW :=
  {| pw_rows := [("binlog.000001", 100, "No"); ("binlog.000002", 100, "No"); ("binlog.000003", 100, "No")];
     pw_sets := {["binlog.000001" := "u1:1-4"; "binlog.000002" := "u1:5-9"; "binlog.000003" := "u1:10-12"]};
     pw_first := {["binlog.000001" := "100"; "binlog.000002" := "200"; "binlog.000003" := "300"]};
     pw_broken := ∅;
     pw_objs := {["last-binlog-set-u1" := "u1:1-4"]};
     pw_uploads := []; pw_files := ∅; pw_replayed := [] |}.

Definition demo_start : CW PW := mkCW demo_pw "".
Definition demo_log : Binlog := mkBinlog "binlog.000002" 100 "No" "u1:5-9".

(** ** Point-in-time recovery on a concrete cluster

    The theorems about the collector and the recoverer, applied to runs in
    this world. *)

(** ** The collector *)

Definition demo_collected : CW PW := (CollectBinLogs demo_collector demo_start).1.
Definition demo_managed : CW PW := (manageBinlog demo_collector demo_log demo_start).1.

Lemma demo_collect_run : CollectBinLogs demo_collector demo_start = (demo_collected, Ok tt).
Proof. vm_compute. reflexivity. Qed.

Lemma demo_manage_run : manageBinlog demo_collector demo_log demo_start = (demo_managed, Ok tt).
Proof. vm_compute. reflexivity. Qed.


Lemma manageBinlog_order_witness :
  objs demo_managed !! last_set_name "u1:5-9" = Some "u1:5-9" /\
  (exists g', g' ∈ gtid_List "u1:5-9" /\ last_set_name "u1:5-9" = last_set_name g') /\
  exists ts num, let o := object_name (W := PW) ts num "u1:5-9" in
    is_Some (objs demo_managed !! o) /\ objs demo_managed !! (o +:+ gtidPostfix) = Some "u1:5-9".
Proof.
  split; [vm_compute; reflexivity|].
  apply (manageBinlog_order demo_collector demo_log demo_start demo_managed (Ok tt) "u1:5-9" demo_manage_run).
  vm_compute. discriminate.
Defined.

Lemma manageBinlog_resume_witness :
  cw_last demo_managed = "u1:5-9" /\
  forall w' set, lastGTIDSet (source "u1:5-9") (cw_w demo_managed) = (w', Ok set) -> set = "u1:5-9".
Proof.
  apply (manageBinlog_resume demo_collector demo_log demo_start demo_managed "u1:5-9" demo_manage_run).
  vm_compute. constructor.
Defined.

(** A cache that was written before the log existed, and a server that fails for
    the log and later recovers. *)
Definition demo_broken : PW := demo_pw <| pw_broken := {["binlog.000002"]} |>.
Definition demo_entry : gmap string string := {["binlog.000001" := "u1:1-4"]}.
Definition demo_logs : list Binlog :=
  [mkBinlog "binlog.000001" 100 "No" ""; mkBinlog "binlog.000002" 100 "No" ""; mkBinlog "binlog.000003" 100 "No" ""].

(** The first collection, on the server that fails, and the second one. *)
Definition sets_result (m : M PW (gmap string string * bool * list Binlog)) (w : PW) :
    gmap string string * bool * list Binlog :=
  match m w with (_, Ok x) => x | _ => (∅, false, []) end.
Definition demo_first := sets_result (sets_cached demo_collector demo_entry false demo_logs) demo_broken.
Definition demo_second := sets_result (sets_cached demo_collector demo_first.1.1 false demo_logs) demo_pw.

Lemma demo_keeps n : keeps (fun w => "binlog.000002" ∈ pw_broken w) (GetGTIDSet (W := PW) (co_host demo_collector) n).
Proof.
  intros w Hw. unfold GetGTIDSet, with_install, mbind, M_bind, try. cbn [db_gtidSet pw_db].
  destruct (bool_decide (n ∈ pw_broken w)); exact Hw.
Qed.

Lemma unreadable_binlog_is_lost_witness :
  bl_Name <$> removeEmptyBinlogs demo_second.2 = ["binlog.000001"; "binlog.000003"] /\
  "binlog.000002" ∉ bl_Name <$> removeEmptyBinlogs (drop 0 demo_second.2).
Proof.
  split; [vm_compute; reflexivity|].
  apply (unreadable_binlog_is_lost demo_collector (fun w => "binlog.000002" ∈ pw_broken w) demo_entry false demo_logs
    (mkBinlog "binlog.000002" 100 "No" "") demo_broken demo_broken demo_first.1.1 demo_first.1.2 demo_first.2
    demo_first.1.1 false demo_logs demo_pw demo_pw demo_second 0).
  - apply demo_keeps.
  - vm_compute. reflexivity.
  - intros w Hw. eexists _, _. split.
    + unfold GetGTIDSet, with_install, mbind, M_bind, try. cbn [db_gtidSet pw_db bl_Name].
      rewrite (bool_decide_eq_true_2 _ Hw). reflexivity.
    + reflexivity.
  - vm_compute. reflexivity.
  - right. left.
  - reflexivity.
  - done.
  - vm_compute. reflexivity.
Defined.

Lemma timeline_first_last_witness :
  timeline_content (fold_left timeline_content ["200"; "300"] "100") "400" = "100" +:+ nl +:+ "400".
Proof. apply timeline_first_last; [by split|done|by repeat constructor]. Defined.

(** ** The recoverer *)

Lemma binlog_time_object_name_witness :
  binlog_time (object_name (W := PW) (pretty 1700000000) "000007" "u1:1-4") = Ok 1700000000.
Proof. apply binlog_time_object_name. lia. Defined.

Lemma check_target_spec_witness :
  check_target ("u1" +:+ ":" +:+ pretty 1 +:+ "-" +:+ pretty 9) ("u1" +:+ ":" +:+ pretty 12) = Ok tt /\
  check_target ("u1" +:+ ":" +:+ pretty 1 +:+ "-" +:+ pretty 9) ("u1" +:+ ":" +:+ pretty 4)
  = Err (ErrNew "Can't restore to transaction before backup").
Proof. split; (etrans; [apply check_target_spec; (done || lia)|reflexivity]). Defined.

(** The storage of the world. *)
Definition demo_storage (objects : gmap string string) : Storage PW := {|
  st_ListObjects p := mret (sort_Strings (filter (fun n => HasPrefix n p = true) (map_to_list objects).*1));
  st_GetObject n := fun w => (w, match objects !! n with Some c => Ok (Ok c) | None => Err ErrObjectNotFound end) |}.

Definition demo_objects : gmap string string :=
  {["binlog_100_000001_a" := "log 1"; "binlog_100_000001_a-gtid-set" := "u1:1-4";
    "binlog_200_000002_b" := "log 2"; "binlog_200_000002_b-gtid-set" := "u1:5-9";
    "binlog_300_000003_c" := "log 3"; "binlog_300_000003_c-gtid-set" := "u1:10-12"]}.

Definition demo_recoverer : Recoverer := mkRecoverer "250" Date "pxc" "u1:1-7" "".


Definition demo_replayed : PW :=
  (replay (demo_storage demo_objects) "" (Some 250) ["binlog_100_000001_a"; "binlog_200_000002_b"; "binlog_300_000003_c"]
     demo_pw).1.

Lemma replay_in_time_witness : pw_replayed demo_replayed = ["log 1"; "log 2"].
Proof.
  rewrite (replay_in_time (demo_storage demo_objects) (fun n => demo_objects !! n) pw_replayed) with
    (flag := "") (end_time := Some 250) (w := demo_pw)
    (binlogs := ["binlog_100_000001_a"; "binlog_200_000002_b"; "binlog_300_000003_c"]).
  - vm_compute. reflexivity.
  - intros n w w' x. cbn [st_GetObject demo_storage]. destruct (demo_objects !! n); [|done]. intros [= <- <-]. eauto.
  - intros flag c w w' [= <-]. by destruct w.
  - repeat constructor; intros t t'; vm_compute; intros [= <-] [= <-]; discriminate.
  - repeat constructor.
  - vm_compute. reflexivity.
Defined.
