(* ===== verification/PitrStatus.v ===== *)
(** * Point-in-time recovery seen by the operator: [pkg/pxc/backup/pitr.go]

    The operator reads two files of the collector pod: the gap file marks the
    latest backup as not fit for point-in-time recovery, the timeline file sets
    its latest restorable time. *)

From S2P Require Import Prelude GoStrings ApiTypes Naming CollectorPod BackupTypes Collector CollectorSpec.

(** [exec] in the pod returns the standard output; a failed [exec] also has a
    standard error. *)
Class GapEnv (W : Type) := {
  ge_listBackups : string -> M W (list PerconaXtraDBClusterBackup);
  ge_getDeployment : NamespacedName -> M W unit;
  ge_collector :: CollectorPodEnv W;
  ge_getOptions : PerconaXtraDBCluster -> PerconaXtraDBClusterBackup -> M W string;
  ge_newStorage : string -> M W string;
  ge_putObject : string -> string -> M W unit;
  ge_getObject : string -> string -> M W unit;
  ge_statusUpdate : PerconaXtraDBClusterBackup -> M W unit }.

Definition ErrNoBackups : error := ErrVar "ErrNoBackups" "No backups found".
Definition BackupConditionPITRReady : string := "PITRReady".
Definition PITRNotReady : string := "pitr-not-ready".

(** [meta.FindStatusCondition] and [meta.SetStatusCondition] *)
Definition find_condition (t : string) (l : list (string * bool)) : option bool :=
  snd <$> (list_find (fun c => c.1 = t) l ≫= fun x => Some x.2).

Fixpoint set_condition (t : string) (v : bool) (l : list (string * bool)) : list (string * bool) :=
  match l with
  | [] => [(t, v)]
  | c :: l => if bool_decide (c.1 = t) then (t, v) :: l else c :: set_condition t v l
  end.

(** The loop of [getLatestSuccessfulBackup]. *)
Definition newer_backup (clusterName : string) (latest bcp : PerconaXtraDBClusterBackup) : PerconaXtraDBClusterBackup :=
  if negb (bool_decide (bsp_PXCCluster (bcp_Spec bcp) = clusterName)) ||
     negb (bool_decide (bst_State (bcp_Status bcp) = BackupSucceeded)) then latest
  else if bool_decide (meta_CreationTimestamp (bcp_Meta latest) < meta_CreationTimestamp (bcp_Meta bcp)) then bcp
  else latest.

(** It starts from the first item of the list, whatever that is. *)
Definition latest_of (clusterName : string) (items : list PerconaXtraDBClusterBackup) : res PerconaXtraDBClusterBackup :=
  match items with
  | [] => Err ErrNoBackups
  | first :: _ =>
      let latest := fold_left (newer_backup clusterName) items first in
      if bool_decide (bst_State (bcp_Status latest) = BackupSucceeded) then Ok latest else Err ErrNoBackups
  end.

(** The second line of the timeline file. *)
Definition timeline_latest (content : string) : res (option Z) :=
  match Split content nl with
  | _ :: latest :: _ => t ← wrap_res ("parse latest timeline " +:+ latest) (ParseInt64 latest); Ok (Some t)
  | _ => Ok None
  end.

Section pitr.
Context {W : Type} `{GapEnv W}.

Definition getLatestSuccessfulBackup (cr : PerconaXtraDBCluster) : M W PerconaXtraDBClusterBackup :=
  items ← wrap "get backup objects" (ge_listBackups (cluster_Namespace cr));
  lift (latest_of (cluster_Name cr) items).

Definition addPitrNotReadyFileToBackup (cr : PerconaXtraDBCluster) (backup : PerconaXtraDBClusterBackup) : M W unit :=
  opts ← wrap "failed to get storage options" (ge_getOptions cr backup);
  scli ← wrap "failed to create storage client" (ge_newStorage opts);
  wrap "put pitr-not-ready object"
    (ge_putObject scli (BackupName (bst_Destination (bcp_Status backup)) +:+ "." +:+ PITRNotReady)).

(** The latest backup, or [None] when there is none or the deployment of the
    collector is not there. *)
Definition mark_gap (cr : PerconaXtraDBCluster) (backup : PerconaXtraDBClusterBackup) (pod : string) : M W unit :=
  let backup := backup <| bcp_Status -> bst_Conditions ::= set_condition BackupConditionPITRReady false |> in
  _ ← wrap "add pitr-not-ready file" (addPitrNotReadyFileToBackup cr backup);
  _ ← wrap "update backup status" (ge_statusUpdate backup);
  r ← try (RemoveGapFile pod);
  match r with
  | inl e => if errors_Is e GapFileNotFound then mret tt else fail (ErrWrap "remove gap file" e)
  | inr _ => mret tt
  end.

Definition CheckPITRErrors (cr : PerconaXtraDBCluster) : M W unit :=
  if negb (PITREnabled cr) then mret tt else
  r ← try (getLatestSuccessfulBackup cr);
  match r with
  | inl e => if errors_Is e ErrNoBackups then mret tt else fail (ErrWrap "get latest successful backup" e)
  | inr backup =>
      if bool_decide (find_condition BackupConditionPITRReady (bst_Conditions (bcp_Status backup)) = Some false)
      then mret tt else
      d ← try (ge_getDeployment (mkNN (cluster_Namespace cr) (BinlogCollectorDeploymentName cr)));
      match d with
      | inl e => if IsNotFound e then mret tt else fail (ErrWrap "get binlog collector deployment" e)
      | inr _ =>
          pod ← wrap "get binlog collector pod" (GetPod cr);
          if negb (bool_decide (pod.2 = "Running")) then mret tt else
          out ← try (cp_exec pod.1 ("cat " +:+ GapDetected +:+ " || true"));
          match out with
          | inl e => if Contains (Error e) "container not found" then mret tt
                     else fail (ErrWrap ("exec binlog collector pod " +:+ pod.1) e)
          | inr missingGTIDSet =>
              if bool_decide (missingGTIDSet = "") then mret tt else mark_gap cr backup pod.1
          end
      end
  end.

Definition UpdatePITRTimeline (cr : PerconaXtraDBCluster) : M W unit :=
  if negb (PITREnabled cr) then mret tt else
  r ← try (getLatestSuccessfulBackup cr);
  match r with
  | inl e => if errors_Is e ErrNoBackups then mret tt else fail (ErrWrap "get latest successful backup" e)
  | inr backup =>
      d ← try (ge_getDeployment (mkNN (cluster_Namespace cr) (BinlogCollectorDeploymentName cr)));
      match d with
      | inl e => if IsNotFound e then mret tt else fail (ErrWrap "get binlog collector deployment" e)
      | inr _ =>
          pod ← wrap "get binlog collector pod" (GetPod cr);
          out ← wrap ("exec binlog collector pod " +:+ pod.1) (cp_exec pod.1 ("cat " +:+ TimelinePath +:+ " || true"));
          latest ← lift (timeline_latest out);
          match latest with
          | None => mret tt
          | Some t =>
              let latestTm := t * 1000000000 in
              if bool_decide (bst_LatestRestorableTime (bcp_Status backup) = Some latestTm) then mret tt
              else wrap "update backup status"
                     (ge_statusUpdate (backup <| bcp_Status -> bst_LatestRestorableTime := Some latestTm |>))
          end
      end
  end.
End pitr.

(** ** The latest backup *)

(** A successful backup of the cluster. *)
Definition eligible (clusterName : string) (b : PerconaXtraDBClusterBackup) : Prop :=
  bsp_PXCCluster (bcp_Spec b) = clusterName /\ bst_State (bcp_Status b) = BackupSucceeded.

Definition created (b : PerconaXtraDBClusterBackup) : Z := meta_CreationTimestamp (bcp_Meta b).

Lemma newer_backup_spec c l b :
  (newer_backup c l b = l /\ (eligible c b -> created b <= created l)) \/
  (newer_backup c l b = b /\ eligible c b /\ created l < created b).
Proof.
  unfold newer_backup, eligible, created. repeat case_bool_decide; simpl; naive_solver lia.
Qed.

Lemma newer_backup_fold c items first :
  let latest := fold_left (newer_backup c) items first in
  created first <= created latest /\ (latest = first \/ (latest ∈ items /\ eligible c latest)) /\
  forall b, b ∈ items -> eligible c b -> created b <= created latest.
Proof.
  revert first. induction items as [|x items IH]; intros first; cbn [fold_left].
  { split_and!; [done|by left|]. by intros b ?%elem_of_nil. }
  destruct (IH (newer_backup c first x)) as (Hle & Hin & Hmax).
  destruct (newer_backup_spec c first x) as [[E Hx]|(E & Hx & Hlt)]; rewrite E in *.
  - split_and!; [done| |].
    + destruct Hin as [|[? ?]]; [by left|right; split; [by right|done]].
    + intros b [-> |Hb]%elem_of_cons He; [specialize (Hx He); lia|by apply Hmax].
  - split_and!; [lia| |].
    + destruct Hin as [-> |[? ?]]; right; [split; [by left|done]|split; [by right|done]].
    + intros b [-> |Hb]%elem_of_cons He; [lia|by apply Hmax].
Qed.

(** When the first backup in the list is a successful one of the cluster,
    the result is the newest successful backup of the cluster. *)
Theorem latest_of_newest c first items b :
  eligible c first -> latest_of c (first :: items) = Ok b ->
  b ∈ first :: items /\ eligible c b /\ forall x, x ∈ first :: items -> eligible c x -> created x <= created b.
Proof.
  intros Hf E. pose proof (newer_backup_fold c (first :: items) first) as Hs. cbv zeta in Hs.
  unfold latest_of in E. revert E Hs. generalize (fold_left (newer_backup c) (first :: items) first). intros latest.
  case_bool_decide; [|done]. intros [= <-] (_ & Hin & Hmax). split_and!; [| |done].
  - destruct Hin as [-> |[? _]]; [by left|done].
  - destruct Hin as [-> |[_ ?]]; done.
Qed.

(** Otherwise the first item stands in for the backups of the cluster: a
    newer backup of another cluster is returned when it succeeded, and when it
    did not, the successful backups of the cluster are not found. *)
Theorem latest_of_first_item c first items :
  ~ eligible c first -> (forall x, x ∈ items -> eligible c x -> created x <= created first) ->
  latest_of c (first :: items) =
    if bool_decide (bst_State (bcp_Status first) = BackupSucceeded) then Ok first else Err ErrNoBackups.
Proof.
  intros Hf Hold. unfold latest_of.
  assert (forall l x, (forall y, y ∈ l -> eligible c y -> created y <= created x) ->
    fold_left (newer_backup c) l x = x) as Hstay.
  { induction l as [|y l IH]; intros x Hl; cbn [fold_left]; [done|].
    destruct (newer_backup_spec c x y) as [[-> _]|(_ & Hy & Hlt)].
    - apply IH. intros z Hz. apply Hl. by right.
    - specialize (Hl y ltac:(left) Hy). lia. }
  rewrite Hstay; [done|]. intros y [-> |Hy]%elem_of_cons He; [done|by apply Hold].
Qed.

(** ** The timeline *)

(** The operator reads from the timeline file the time stamp the collector
    wrote last. *)
Theorem timeline_latest_roundtrip first tss t :
  plain_line first -> first <> "" -> Forall plain_line tss -> 0 <= t < 2 ^ 63 ->
  timeline_latest (timeline_content (fold_left timeline_content tss first) (pretty t)) = Ok (Some t).
Proof.
  intros Hf He Hts Ht. assert (plain_line (pretty t)) as Hp by (split; apply pretty_no_char; done || lia).
  rewrite timeline_written by done. unfold timeline_latest, nl.
  rewrite Split_app_sep, Split_no_char by apply Hf || apply Hp. by rewrite ParseInt64_pretty.
Qed.
