(* ===== verification/PauseCluster.v ===== *)
(** * Pausing and unpausing a cluster: [pkg/k8s/cluster.go]

    A cluster is paused by a patch of its specification; then the operator waits
    until the database pods, and for a restore also all data volumes but the
    first, are gone. *)

From S2P Require Import Prelude GoStrings ApiTypes.

(** Pods and volume claims are listed by the labels of the database nodes, and
    appear by name. *)
Class PauseEnv (W : Type) := {
  pz_patchPause : NamespacedName -> bool -> M W unit;
  pz_listPods : PerconaXtraDBCluster -> M W (list string);
  pz_listPVCs : PerconaXtraDBCluster -> M W (list string);
  pz_deletePVC : NamespacedName -> M W unit;
  pz_sleepSecond : M W unit }.

Definition waitLimitSec : Z := 300.

Definition set_pause (b : bool) (cr : PerconaXtraDBCluster) : PerconaXtraDBCluster :=
  cr <| cluster_Spec -> spec_Pause := b |>.

Section pause.
Context {W : Type} `{PauseEnv W}.

(** The object comes back with the pause flag set, as the caller sees it. *)
Definition k8s_PauseCluster (cr : PerconaXtraDBCluster) : M W (bool * PerconaXtraDBCluster) :=
  _ ← (when (negb (spec_Pause (cluster_Spec cr))) do
         (_ ← wrap "shutdown pods" (pz_patchPause (meta_key (cluster_Meta cr)) true); pz_sleepSecond));
  let cr := set_pause true cr in
  pods ← wrap "get pods list" (pz_listPods cr);
  mret (bool_decide (pods = []), cr).

Definition k8s_UnpauseCluster (cr : PerconaXtraDBCluster) : M W (bool * PerconaXtraDBCluster) :=
  _ ← (when (spec_Pause (cluster_Spec cr)) do
         wrap "patch" (pz_patchPause (meta_key (cluster_Meta cr)) false));
  let cr := set_pause false cr in
  pods ← wrap "get pods list" (pz_listPods cr);
  pxc ← lift (deref (spec_PXC (cluster_Spec cr)));
  mret (bool_decide (Z.of_nat (length pods) = pod_Size (pxc_PodSpec pxc)), cr).

(** [for i := 0; i < limit; i++]: a listing per second, until [enough] of it. *)
Fixpoint wait_loop (msg : string) (list : M W (list string)) (enough : nat) (limit : nat) : M W unit :=
  match limit with
  | O => fail (ErrNew "exceeded wait limit")
  | S limit =>
      items ← wrap msg list;
      if bool_decide (length items = enough) then mret tt
      else _ ← pz_sleepSecond; wait_loop msg list enough limit
  end.

Definition waitForPodsShutdown (cr : PerconaXtraDBCluster) (gracePeriodSec : Z) : M W unit :=
  wait_loop "get pods list" (pz_listPods cr) 0 (Z.to_nat (waitLimitSec + gracePeriodSec)).

Definition waitForPVCShutdown (cr : PerconaXtraDBCluster) : M W unit :=
  wait_loop "get pvc list" (pz_listPVCs cr) 1 (Z.to_nat waitLimitSec).

Definition gracePeriod (cr : PerconaXtraDBCluster) : Z :=
  match spec_PXC (cluster_Spec cr) with
  | Some pxc => match pod_TerminationGracePeriodSeconds (pxc_PodSpec pxc) with
                | Some s => pod_Size (pxc_PodSpec pxc) * s
                | None => 0
                end
  | None => 0
  end.

Definition pvcNameTemplate (cr : PerconaXtraDBCluster) : string := "datadir-" +:+ cluster_Name cr +:+ "-pxc".

(** A claim that is kept: the volume of node 0, or one that is not ours. *)
Definition keep_pvc (cr : PerconaXtraDBCluster) (name : string) : bool :=
  bool_decide (name = pvcNameTemplate cr +:+ "-0") || negb (HasPrefix name (pvcNameTemplate cr)).

Definition PauseClusterWithWait (cr : PerconaXtraDBCluster) (deletePVC : bool) : M W unit :=
  _ ← wrap "shutdown pods" (pz_patchPause (meta_key (cluster_Meta cr)) true);
  let cr := set_pause true cr in
  _ ← wrap "shutdown pods" (waitForPodsShutdown cr (gracePeriod cr));
  if negb deletePVC then mret tt else
  pvcs ← wrap "get pvc list" (pz_listPVCs cr);
  _ ← for_each (fun name =>
        if keep_pvc cr name then mret tt
        else wrap "delete pvc" (pz_deletePVC (mkNN (cluster_Namespace cr) name))) pvcs;
  wrap "shutdown pvc" (waitForPVCShutdown cr).
End pause.

(** ** What a successful stop means *)

Section stopped.
Context {W : Type} `{PauseEnv W}.

(** A wait that ends well ends with the listing it waited for; in the time it is
    given there is a listing per second. *)
Lemma wait_loop_Ok msg list enough limit (w w' : W) :
  wait_loop msg list enough limit w = (w', Ok tt) ->
  exists w1 items, list w1 = (w', Ok items) /\ length items = enough.
Proof.
  revert w. induction limit as [|n IH]; intros w; cbn [wait_loop]; [done|].
  intros (w1 & items & E1%wrap_inv_Ok & E)%bind_inv_Ok. case_bool_decide as Hl.
  - injection E as <-. eauto.
  - apply bind_inv_Ok in E as (w2 & [] & _ & E). by eapply IH.
Qed.

Context (ticks : W -> nat) (deleted : W -> list NamespacedName).

(** Listing and patching neither delete a claim nor let time pass. *)
Class PauseLaws := {
  zl_patch n b : forall u d, keeps (fun w => ticks w = u /\ deleted w = d) (pz_patchPause n b);
  zl_pods cr : forall u d, keeps (fun w => ticks w = u /\ deleted w = d) (pz_listPods cr);
  zl_pvcs cr : forall u d, keeps (fun w => ticks w = u /\ deleted w = d) (pz_listPVCs cr);
  zl_sleep w w' r : pz_sleepSecond w = (w', r) -> ticks w' = S (ticks w) /\ deleted w' = deleted w;
  zl_delete n w w' r : pz_deletePVC n w = (w', r) ->
    ticks w' = ticks w /\ deleted w' = deleted w ++ (if is_ok r then [n] else []) }.
Context `{PauseLaws}.

Lemma keeps_run {A} (m : M W A) w w' r :
  (forall u d, keeps (fun w => ticks w = u /\ deleted w = d) m) -> m w = (w', r) ->
  ticks w' = ticks w /\ deleted w' = deleted w.
Proof. intros Hm E. specialize (Hm _ _ w (conj eq_refl eq_refl)). by rewrite E in Hm. Qed.

(** The time a wait takes is at most its limit, and all of it when the limit is
    exceeded. *)
Lemma wait_loop_ticks msg list enough limit w w' r :
  (forall u d, keeps (fun w => ticks w = u /\ deleted w = d) list) ->
  wait_loop msg list enough limit w = (w', r) ->
  (ticks w <= ticks w' <= ticks w + limit)%nat /\ deleted w' = deleted w.
Proof.
  intros Hlist. revert w. induction limit as [|n IH]; intros w; cbn [wait_loop].
  { intros [= <- <-]. split; [lia|done]. }
  unfold mbind at 1, M_bind at 1, wrap at 1. destruct (list w) as [w1 r1] eqn:E1.
  apply keeps_run in E1 as [Ht1 Hd1]; [|done]. destruct r1 as [items|e|]; simpl.
  2,3: intros [= <- <-]; split; [lia|done].
  case_bool_decide; [intros [= <- <-]; split; [lia|done]|].
  unfold mbind, M_bind. destruct (pz_sleepSecond w1) as [w2 r2] eqn:E2. apply zl_sleep in E2 as [Ht2 Hd2].
  destruct r2 as [[]|e|]; [|intros [= <- <-]; split; [lia|congruence]..].
  intros [Ht Hd]%IH. split; [lia|congruence].
Qed.

Lemma delete_pvcs cr names w w' r :
  for_each (fun name => if keep_pvc cr name then mret tt
    else wrap "delete pvc" (pz_deletePVC (mkNN (cluster_Namespace cr) name))) names w = (w', r) ->
  ticks w' = ticks w /\
  exists gone, deleted w' = deleted w ++ (mkNN (cluster_Namespace cr) <$> gone) /\
    (gone `sublist_of` filter (fun n => keep_pvc cr n = false) names) /\
    (r = Ok tt -> gone = filter (fun n => keep_pvc cr n = false) names).
Proof.
  revert w. induction names as [|n names IH]; intros w; cbn [for_each].
  { intros [= <- <-]. split; [done|]. exists []. by rewrite app_nil_r. }
  rewrite filter_cons. unfold mbind, M_bind. destruct (keep_pvc cr n) eqn:Hk.
  { rewrite decide_False by done. apply IH. }
  rewrite decide_True by done. unfold wrap. destruct (pz_deletePVC _ w) as [w1 r1] eqn:E1.
  apply zl_delete in E1 as [Ht1 Hd1]. destruct r1 as [[]|e|]; simpl in Hd1 |- *.
  2,3: intros [= <- <-]; split; [done|]; exists []; split_and!; [done|apply sublist_nil_l|done].
  intros (Ht & gone & Hd & Hs & Hok)%IH. split; [congruence|]. exists (n :: gone).
  rewrite Hd, Hd1, <- app_assoc, fmap_cons. split_and!; [done|by apply sublist_skip|]. intros Hr. by rewrite Hok.
Qed.

(** C22: stopping a cluster for a restore.  Whatever the outcome, the wait takes
    at most ten minutes and the grace period, and only claims with the data
    volume prefix of the cluster, never that of node 0, are deleted.  On success
    a listing, before anything was deleted, showed no database pod, every such claim
    listed right after it is deleted, and the last listing shows one claim. *)
Theorem PauseClusterWithWait_stops cr w w' r :
  PauseClusterWithWait cr true w = (w', r) ->
  (ticks w' <= ticks w + Z.to_nat (waitLimitSec + gracePeriod cr) + Z.to_nat waitLimitSec)%nat /\
  exists gone, deleted w' = deleted w ++ (mkNN (cluster_Namespace cr) <$> gone) /\
    (forall n, n ∈ gone -> HasPrefix n (pvcNameTemplate cr) = true /\ n <> pvcNameTemplate cr +:+ "-0") /\
    (r = Ok tt ->
      (exists w1 w2 w3 pvcs, pz_listPods (set_pause true cr) w1 = (w2, Ok []) /\ deleted w2 = deleted w /\
         pz_listPVCs (set_pause true cr) w2 = (w3, Ok pvcs) /\ gone = filter (fun n => keep_pvc cr n = false) pvcs) /\
      (exists w4 left, pz_listPVCs (set_pause true cr) w4 = (w', Ok [left]) /\ deleted w4 = deleted w')).
Proof.
  unfold PauseClusterWithWait. unfold mbind at 1, M_bind at 1, wrap at 1.
  destruct (pz_patchPause _ _ w) as [w1 r1] eqn:E1. apply keeps_run in E1 as [Ht1 Hd1]; [|intros; apply zl_patch].
  assert (forall w2 x, (ticks w2 <= ticks w + Z.to_nat (waitLimitSec + gracePeriod cr) + Z.to_nat waitLimitSec)%nat ->
    deleted w2 = deleted w -> x <> Ok tt -> (w2, x) = (w', r) ->
    (ticks w' <= ticks w + Z.to_nat (waitLimitSec + gracePeriod cr) + Z.to_nat waitLimitSec)%nat /\
    exists gone, deleted w' = deleted w ++ (mkNN (cluster_Namespace cr) <$> gone) /\
    (forall n, n ∈ gone -> HasPrefix n (pvcNameTemplate cr) = true /\ n <> pvcNameTemplate cr +:+ "-0") /\
    (r = Ok tt ->
      (exists w1 w2 w3 pvcs, pz_listPods (set_pause true cr) w1 = (w2, Ok []) /\ deleted w2 = deleted w /\
         pz_listPVCs (set_pause true cr) w2 = (w3, Ok pvcs) /\ gone = filter (fun n => keep_pvc cr n = false) pvcs) /\
      (exists w4 left, pz_listPVCs (set_pause true cr) w4 = (w', Ok [left]) /\ deleted w4 = deleted w'))) as Hstop.
  { intros w2 x Ht Hd Hx [= <- <-]. split; [done|]. exists []. rewrite app_nil_r.
    split_and!; [done|by intros n ?%elem_of_nil|done]. }
  destruct r1 as [[]|e|]; cbn [wrap_res]; [|apply Hstop; [lia|done|done]..].
  unfold mbind at 1, M_bind at 1, wrap at 1.
  destruct (waitForPodsShutdown _ _ w1) as [w2 r2] eqn:E2. pose proof E2 as Hpods.
  apply wait_loop_ticks in E2 as [Ht2 Hd2]; [|intros; apply zl_pods].
  change (gracePeriod (set_pause true cr)) with (gracePeriod cr) in Ht2.
  destruct r2 as [[]|e|]; cbn [wrap_res]; [|apply Hstop; [lia|congruence|done]..].
  apply wait_loop_Ok in Hpods as (wp & items & Hpods & Hlen). destruct items; [|done]. cbn [negb].
  unfold mbind at 1, M_bind at 1, wrap at 1. destruct (pz_listPVCs _ w2) as [w3 r3] eqn:E3. pose proof E3 as Hpvcs.
  apply keeps_run in E3 as [Ht3 Hd3]; [|intros; apply zl_pvcs].
  destruct r3 as [pvcs|e|]; cbn [wrap_res]; [|apply Hstop; [lia|congruence|done]..].
  unfold mbind, M_bind. destruct (for_each _ pvcs w3) as [w4 r4] eqn:E4.
  apply (delete_pvcs (set_pause true cr)) in E4 as (Ht4 & gone & Hd4 & Hsub & Hok).
  assert (deleted w4 = deleted w ++ (mkNN (cluster_Namespace cr) <$> gone)) as Hdel.
  { rewrite Hd4. change (cluster_Namespace (set_pause true cr)) with (cluster_Namespace cr). congruence. }
  assert (forall n, n ∈ gone -> HasPrefix n (pvcNameTemplate cr) = true /\ n <> pvcNameTemplate cr +:+ "-0") as Hours.
  { intros n Hn. eapply (elem_of_sublist) in Hn; [|exact Hsub]. apply list_elem_of_filter in Hn as [Hk _].
    unfold keep_pvc in Hk. apply orb_false_iff in Hk as [Hk1%bool_decide_eq_false Hk2%negb_false_iff]. done. }
  destruct r4 as [[]|e|].
  2,3: intros [= <- <-]; split; [lia|]; exists gone; split_and!; [done|done|done].
  unfold wrap. destruct (waitForPVCShutdown _ w4) as [w5 r5] eqn:E5. pose proof E5 as Hleft.
  apply wait_loop_ticks in E5 as [Ht5 Hd5]; [|intros; apply zl_pvcs].
  intros [= <- <-]. split; [lia|]. exists gone. split_and!; [congruence|done|].
  intros Hr5. destruct r5 as [[]|e|]; [|done..].
  apply wait_loop_Ok in Hleft as (wl & items & Hl & Hlen1). destruct items as [|x [|]]; [done| |done].
  assert (deleted wl = deleted w5) as Hdl.
  { pose proof Hl as Hk. apply keeps_run in Hk as [_ Hk]; [done|intros; apply zl_pvcs]. }
  split; [|by exists wl, x]. exists wp, w2, w3, pvcs. split_and!; [done|congruence|done|by apply Hok].
Qed.
End stopped.
