(* ===== verification/Restore.v ===== *)
(** * The restore controller: [pkg/controller/pxcrestore]

    A restore is a state machine in the status of a [PerconaXtraDBClusterRestore]
    object: stop the cluster, run the restore job, replay binary logs if asked
    to, prepare and start the cluster.  Every pass handles one state and writes
    the status when it returns. *)

From S2P Require Import Prelude GoStrings ApiTypes KubeApi Naming RestoreTypes ApiDefaults BackupTypes PitrStatus PauseCluster.

(** [batchv1.Job], with the secrets its containers refer to; a condition is its
    type, whether its status is true, and the message. *)
Record RJob := mkRJob {
  rj_Key : NamespacedName;
  rj_Finalizers : list string;
  rj_Conditions : list (JobConditionType * bool * string);
  rj_Secrets : list string }.

(** ** The world

    The API server, the job and pod templates ([rx_jobTemplate] is everything of
    [backup.RestoreJob] behind the check of the storage type, reduced to the
    secrets it refers to) and the storage. *)
Class RestoreEnv (W : Type) := {
  rx_getRestore : NamespacedName -> M W Restore;
  rx_listRestores : string -> M W (list Restore);
  rx_statusUpdate : Restore -> M W unit;
  rx_getCluster : NamespacedName -> M W PerconaXtraDBCluster;
  rx_updateCluster : PerconaXtraDBCluster -> M W unit;
  rx_getBackup : NamespacedName -> M W PerconaXtraDBClusterBackup;
  rx_getJob : NamespacedName -> M W RJob;
  rx_createJob : RJob -> M W unit;
  rx_updateJob : RJob -> M W unit;
  rx_getPodPhase : NamespacedName -> M W string;
  rx_createPod : NamespacedName -> M W string;
  rx_deletePod : NamespacedName -> M W unit;
  rx_getService : NamespacedName -> M W unit;
  rx_createService : NamespacedName -> M W unit;
  rx_deleteService : NamespacedName -> M W unit;
  rx_getSecret : NamespacedName -> M W unit;
  rx_listObjects : string -> string -> M W (list string);
  rx_initImage : PerconaXtraDBCluster -> M W string;
  rx_jobTemplate : Restore -> PerconaXtraDBClusterBackup -> PerconaXtraDBCluster -> string -> string -> bool ->
    res (list string);
  rx_prepareTemplate : Restore -> PerconaXtraDBClusterBackup -> PerconaXtraDBCluster -> string -> res unit;
  rx_restorePod : Restore -> string -> string -> PerconaXtraDBCluster -> string -> res NamespacedName;
  rx_setOwner : Restore -> NamespacedName -> res unit;
  rx_invalidateCache : PerconaXtraDBCluster -> M W unit;
  rx_now : W -> Z }.

(** The world and the object the pass works on. *)
Record RW (W : Type) := mkRW { rw_w : W; rw_cr : Restore }.
Arguments mkRW {W}.
Arguments rw_w {W}.
Arguments rw_cr {W}.

Definition onR {W A} (m : M W A) : M (RW W) A := fun s =>
  let '(w', r) := m (rw_w s) in (mkRW w' (rw_cr s), r).
Definition getRestore {W} : M (RW W) Restore := gets rw_cr.
Definition modRestore {W} (f : Restore -> Restore) : M (RW W) unit := modify (fun s => mkRW (rw_w s) (f (rw_cr s))).
Definition setState {W} (st : RestoreState) : M (RW W) unit := modRestore (fun cr => cr <| re_Status -> rst_State := st |>).
Definition setComments {W} (c : string) : M (RW W) unit :=
  modRestore (fun cr => cr <| re_Status -> rst_Comments := c |>).

(** [cr.Status.State = api.RestoreFailed; cr.Status.Comments = ...] *)
Definition markFailed {W} (comments : string) : M (RW W) unit :=
  _ ← setState RestoreFailed; setComments comments.

Inductive RResult := Requeue | Done.

Definition errWaitValidate : error := ErrVar "errWaitValidate" "wait for validation".
Definition errWaitInit : error := ErrVar "errWaitInit" "wait for init".

(** ** Helpers ([util.go]) *)

Fixpoint isJobFinished_go (name : string) (conds : list (JobConditionType * bool * string)) : res bool :=
  match conds with
  | [] => Ok false
  | (t, true, msg) :: conds =>
      match t with
      | JobComplete => Ok true
      | JobFailed => Err (ErrNew ("job " +:+ name +:+ " failed: " +:+ msg))
      | _ => isJobFinished_go name conds
      end
  | _ :: conds => isJobFinished_go name conds
  end.

Definition isJobFinished (j : RJob) : res bool := isJobFinished_go (nn_name (rj_Key j)) (rj_Conditions j).

Section restore.
Context {W : Type} `{ApiLibs} `{RetryLib} `{PauseEnv W} `{GapEnv W} `{RestoreEnv W} (serverVersion : option string).

Definition getBackup (cr : Restore) : M W PerconaXtraDBClusterBackup :=
  match rsp_BackupSource (re_Spec cr) with
  | Some src =>
      mret (mkBcp
        (mkMeta (meta_Name (re_Meta cr)) (meta_Namespace (re_Meta cr)) "" ∅ ∅ [] 0 0 None)
        (mkBcpSpec (rsp_PXCCluster (re_Spec cr)) (bst_StorageName src) None None None None None)
        (src <| bst_State := BackupSucceeded |> <| bst_CompletedAt := None |> <| bst_LastScheduled := None |>))
  | None =>
      bcp ← wrap ("get backup " +:+ rsp_BackupName (re_Spec cr))
              (rx_getBackup (mkNN (meta_Namespace (re_Meta cr)) (rsp_BackupName (re_Spec cr))));
      if negb (bool_decide (bst_State (bcp_Status bcp) = BackupSucceeded))
      then fail (ErrNew ("backup " +:+ meta_Name (bcp_Meta bcp) +:+ " didn't finished yet, current state: "
                         +:+ BackupState_string (bst_State (bcp_Status bcp))))
      else mret bcp
  end.

(** The stored state decides whether the completion time is set, and the object
    in memory is what is stored. *)
Definition setStatus : M (RW W) unit :=
  wrap "send update" (retry_on_conflict (
    cr ← getRestore;
    restore ← onR (rx_getRestore (re_key cr));
    _ ← (when bool_decide (rst_State (re_Status restore) = RestoreSucceeded) do
           (now ← onR (gets rx_now); modRestore (fun cr => cr <| re_Status -> rst_CompletedAt := Some now |>)));
    cr ← getRestore;
    onR (rx_statusUpdate (restore <| re_Status := re_Status cr |>)))).

Definition isOtherRestoreInProgress (cr : Restore) : M W (option Restore) :=
  items ← wrap "get restore jobs list" (rx_listRestores (meta_Namespace (re_Meta cr)));
  mret (snd <$> list_find (fun j =>
    rsp_PXCCluster (re_Spec j) = rsp_PXCCluster (re_Spec cr) /\
    meta_Name (re_Meta j) <> meta_Name (re_Meta cr) /\ unfinished (rst_State (re_Status j)) = true) items).

Definition isPITRReady (cluster : PerconaXtraDBCluster) (bcp : PerconaXtraDBClusterBackup) : M W bool :=
  if bool_decide (find_condition BackupConditionPITRReady (bst_Conditions (bcp_Status bcp)) = Some false)
  then mret false else
  opts ← wrap "failed to get storage options" (ge_getOptions cluster bcp);
  stg ← wrap "new storage" (ge_newStorage opts);
  r ← try (ge_getObject stg (BackupName (bst_Destination (bcp_Status bcp)) +:+ "." +:+ PITRNotReady));
  match r with
  | inr _ => mret false
  | inl e => if errors_Is e ErrObjectNotFound then mret true
             else fail (ErrWrap "get pitr-not-ready file from storage" e)
  end.

(** ** Restorers ([restorer.go]) *)

Record Restorer := mkRestorer {
  rr_Init : M W unit;
  rr_Job : res RJob;
  rr_PITRJob : res RJob;
  rr_Finalize : M W unit;
  rr_Validate : M W unit;
  rr_ValidateJob : RJob -> M W unit }.

(** [backup.RestoreJob] *)
Definition RestoreJob (cr : Restore) (bcp : PerconaXtraDBClusterBackup) (cluster : PerconaXtraDBCluster)
    (initImage destination : string) (pitr : bool) : res RJob :=
  _ ← match GetStorageType (bcp_Status bcp) (Some cluster) with
      | BackupStorageAzure => if bool_decide (bst_Azure (bcp_Status bcp) = None)
                              then Err (ErrNew "nil azure backup status storage") else Ok tt
      | BackupStorageS3 => if bool_decide (bst_S3 (bcp_Status bcp) = None)
                           then Err (ErrNew "nil s3 backup status storage") else Ok tt
      | BackupStorageFilesystem => Ok tt
      | StorageOther t => Err (ErrNew ("no storage type was specified in status, got: " +:+ t))
      end;
  secrets ← rx_jobTemplate cr bcp cluster initImage destination pitr;
  Ok (mkRJob (mkNN (meta_Namespace (re_Meta cr)) (RestoreJobName cr pitr)) [FinalizerKeepJob] [] secrets).

(** [backup.PrepareJob] *)
Definition PrepareJob (cr : Restore) (bcp : PerconaXtraDBClusterBackup) (cluster : PerconaXtraDBCluster)
    (initImage : string) : res RJob :=
  _ ← rx_prepareTemplate cr bcp cluster initImage;
  Ok (mkRJob (mkNN (meta_Namespace (re_Meta cr)) (PrepareJobName cr)) [FinalizerKeepJob] [] []).

(** The secrets that do not exist; other errors end the search. *)
Fixpoint missing_secrets (ns : string) (secrets : list string) : M W (list string) :=
  match secrets with
  | [] => mret []
  | s :: secrets =>
      r ← try (rx_getSecret (mkNN ns s));
      match r with
      | inr _ => missing_secrets ns secrets
      | inl e => if IsNotFound e then (l ← missing_secrets ns secrets; mret (s :: l)) else fail e
      end
  end.

Definition opts_ValidateJob (job : RJob) : M W unit :=
  l ← missing_secrets (nn_namespace (rj_Key job)) (filter (fun s => s <> "") (rj_Secrets job));
  if bool_decide (l = []) then mret tt
  else fail (ErrNew ("secrets " +:+ Join (sort_Strings (remove_dups l)) ", " +:+ " not found")).

(** The objects of the backup in a cloud storage are listed. *)
Definition cloud_Validate (msgs : string * string * string) (bcp : PerconaXtraDBClusterBackup)
    (cluster : PerconaXtraDBCluster) : M W unit :=
  let '(client_msg, list_msg, none_msg) := msgs in
  opts ← wrap "failed to get storage options" (ge_getOptions cluster bcp);
  cli ← wrap client_msg (ge_newStorage opts);
  objs ← wrap list_msg (rx_listObjects cli (BackupName (bst_Destination (bcp_Status bcp)) +:+ "/"));
  if bool_decide (objs = []) then fail (ErrNew none_msg) else mret tt.

(** [client.IgnoreNotFound] and [client.IgnoreAlreadyExists] *)
Definition ignoring (p : error -> bool) (m : M W unit) : M W unit :=
  r ← try m;
  match r with inl e => if p e then mret tt else fail e | inr _ => mret tt end.

Definition s3_restorer (cr : Restore) (bcp : PerconaXtraDBClusterBackup) (cluster : PerconaXtraDBCluster)
    (initImage : string) : Restorer := {|
  rr_Init := mret tt;
  rr_Finalize := mret tt;
  rr_Job := RestoreJob cr bcp cluster initImage (bst_Destination (bcp_Status bcp)) false;
  rr_PITRJob := RestoreJob cr bcp cluster initImage (bst_Destination (bcp_Status bcp)) true;
  rr_Validate := cloud_Validate ("failed to create s3 client", "failed to list objects", "backup not found") bcp cluster;
  rr_ValidateJob job :=
    s3 ← lift (deref (bst_S3 (bcp_Status bcp)));
    if bool_decide (s3_CredentialsSecret s3 = "") then mret tt else opts_ValidateJob job |}.

Definition azure_restorer (cr : Restore) (bcp : PerconaXtraDBClusterBackup) (cluster : PerconaXtraDBCluster)
    (initImage : string) : Restorer := {|
  rr_Init := mret tt;
  rr_Finalize := mret tt;
  rr_Job := RestoreJob cr bcp cluster initImage (bst_Destination (bcp_Status bcp)) false;
  rr_PITRJob := RestoreJob cr bcp cluster initImage (bst_Destination (bcp_Status bcp)) true;
  rr_Validate := cloud_Validate ("failed to create s3 client", "list blobs", "no backups found") bcp cluster;
  rr_ValidateJob := opts_ValidateJob |}.

Definition pvcRestoreSvcName (cr : Restore) : string :=
  "restore-src-" +:+ meta_Name (re_Meta cr) +:+ "-" +:+ rsp_PXCCluster (re_Spec cr).

Definition verify_name (n : NamespacedName) : NamespacedName := mkNN (nn_namespace n) (nn_name n +:+ "-verify").

Definition pvc_pod (cr : Restore) (bcp : PerconaXtraDBClusterBackup) (cluster : PerconaXtraDBCluster)
    (initImage : string) : res NamespacedName :=
  rx_restorePod cr (bst_StorageName (bcp_Status bcp)) (BackupName (bst_Destination (bcp_Status bcp))) cluster initImage.

Definition pvc_Validate cr bcp cluster initImage : M W unit :=
  pod ← lift (wrap_res "restore pod" (pvc_pod cr bcp cluster initImage));
  _ ← lift (rx_setOwner cr pod);
  r ← try (rx_getPodPhase (verify_name pod));
  match r with
  | inl e =>
      if IsNotFound e then _ ← wrap "failed to create pod" (rx_createPod (verify_name pod)); fail errWaitValidate
      else fail (ErrWrap "get pod status" e)
  | inr phase =>
      if bool_decide (phase = "Failed")
      then fail (ErrNew ("backup files not found on " +:+ bst_Destination (bcp_Status bcp)))
      else if bool_decide (phase = "Succeeded") then mret tt else fail errWaitValidate
  end.

(** The service and the pod are made anew when one of them is missing; the phase
    is that of the pod the server returned last. *)
Definition pvc_Init cr bcp cluster initImage : M W unit :=
  let svc := mkNN (meta_Namespace (re_Meta cr)) (pvcRestoreSvcName cr) in
  _ ← lift (rx_setOwner cr svc);
  pod ← lift (wrap_res "restore pod" (pvc_pod cr bcp cluster initImage));
  _ ← lift (rx_setOwner cr pod);
  s ← try (rx_getService svc);
  p ← try (rx_getPodPhase (mkNN (nn_namespace svc) (nn_name pod)));
  let absent {A} (r : error + A) := match r with inl e => IsNotFound e | inr _ => false end in
  let phase := match p with inr phase => phase | inl _ => "" end in
  phase ← (if absent s || absent p then
         (_ ← ignoring IsNotFound (rx_deleteService svc);
          _ ← ignoring IsNotFound (rx_deletePod pod);
          _ ← wrap "create service" (ignoring IsAlreadyExists (rx_createService svc));
          r ← try (rx_createPod pod);
          match r with
          | inr phase => mret phase
          | inl e => if IsAlreadyExists e then mret phase else fail (ErrWrap "create pod" e)
          end)
       else mret phase);
  if bool_decide (phase = "Running") then mret tt else fail errWaitInit.

Definition pvc_Finalize cr bcp cluster initImage : M W unit :=
  let svc := mkNN (meta_Namespace (re_Meta cr)) (pvcRestoreSvcName cr) in
  _ ← wrap "failed to delete pvc service" (ignoring IsNotFound (rx_deleteService svc));
  pod ← lift (pvc_pod cr bcp cluster initImage);
  _ ← wrap "failed to delete pvc pod" (ignoring IsNotFound (rx_deletePod pod));
  wrap "failed to delete pvc pod" (ignoring IsNotFound (rx_deletePod (verify_name pod))).

Definition pvc_restorer (cr : Restore) (bcp : PerconaXtraDBClusterBackup) (cluster : PerconaXtraDBCluster)
    (initImage : string) : Restorer := {|
  rr_Init := pvc_Init cr bcp cluster initImage;
  rr_Finalize := pvc_Finalize cr bcp cluster initImage;
  rr_Job := RestoreJob cr bcp cluster initImage "" false;
  rr_PITRJob := Err (ErrNew "pitr restore is not supported for pvc");
  rr_Validate := pvc_Validate cr bcp cluster initImage;
  rr_ValidateJob := opts_ValidateJob |}.

Definition getRestorer (cr : Restore) (bcp : PerconaXtraDBClusterBackup) (cluster : PerconaXtraDBCluster) : M W Restorer :=
  r ← try (rx_initImage cluster);
  match r with
  | inl _ => fail (ErrNew "failed to get init image")
  | inr initImage =>
      let prefix := StorageTypePrefix (bst_Destination (bcp_Status bcp)) in
      if bool_decide (prefix = PVCStoragePrefix) then mret (pvc_restorer cr bcp cluster initImage)
      else if bool_decide (prefix = AwsBlobStoragePrefix) then mret (s3_restorer cr bcp cluster initImage)
      else if bool_decide (prefix = AzureBlobStoragePrefix) then mret (azure_restorer cr bcp cluster initImage)
      else fail (ErrNew "unknown backup storage type")
  end.

(** ** The states ([controller.go]) *)

Definition validate (restorer : Restorer) (cr : Restore) : M W unit :=
  job ← lift (wrap_res "failed to create restore job" (rr_Job restorer));
  _ ← wrap "failed to validate job" (rr_ValidateJob restorer job);
  _ ← (when negb (bool_decide (rsp_PITR (re_Spec cr) = None)) do
         (job ← lift (wrap_res "failed to create pitr restore job" (rr_PITRJob restorer));
          wrap "failed to validate pitr job" (rr_ValidateJob restorer job)));
  wrap "failed to validate backup existence" (rr_Validate restorer).

Definition createRestoreJob (restorer : Restorer) (pitr : bool) : M W unit :=
  _ ← wrap "failed to init restore" (rr_Init restorer);
  job ← lift (wrap_res "failed to get restore job" (rr_Job restorer));
  job ← (if pitr then lift (wrap_res "failed to create pitr restore job" (rr_PITRJob restorer)) else mret job);
  wrap "create job" (ignoring IsAlreadyExists (rx_createJob job)).

Definition with_size_pxc (n : Z) (cl : PerconaXtraDBCluster) : res PerconaXtraDBCluster :=
  pxc ← deref (spec_PXC (cluster_Spec cl));
  Ok (cl <| cluster_Spec -> spec_PXC := Some (pxc <| pxc_PodSpec -> pod_Size := n |>) |>).
Definition with_size_proxysql (n : Z) (cl : PerconaXtraDBCluster) : PerconaXtraDBCluster :=
  cl <| cluster_Spec -> spec_ProxySQL ::= fmap (fun p => p <| ps_PodSpec -> pod_Size := n |>) |>.
Definition with_size_haproxy (n : Z) (cl : PerconaXtraDBCluster) : PerconaXtraDBCluster :=
  cl <| cluster_Spec -> spec_HAProxy ::= fmap (fun h => h <| ha_PodSpec -> pod_Size := n |>) |>.

(** [k8sretry.RetryOnConflict] around reading the cluster, changing it and
    writing it back. *)
Definition change_cluster (cluster : PerconaXtraDBCluster)
    (f : PerconaXtraDBCluster -> res PerconaXtraDBCluster) : M W unit :=
  wrap "update cluster" (retry_on_conflict (
    current ← wrap "get cluster" (rx_getCluster (meta_key (cluster_Meta cluster)));
    current ← lift (f current);
    rx_updateCluster current)).

(** The cluster as it was before the restore. *)
Definition restored_spec (st : RestoreStatus) (current : PerconaXtraDBCluster) : res PerconaXtraDBCluster :=
  current ← with_size_pxc (rst_PXCSize st) (set_pause false current);
  let current := current <| cluster_Spec -> spec_Unsafe := rst_Unsafe st |> in
  Ok (with_size_haproxy (rst_HAProxySize st) (with_size_proxysql (rst_ProxySQLSize st) current)).

(** One node for the replay of binary logs. *)
Definition pitr_spec (current : PerconaXtraDBCluster) : res PerconaXtraDBCluster :=
  current ← with_size_pxc 1 (set_pause false current);
  let current := current <| cluster_Spec -> spec_Unsafe ::=
                   fun u => mkUnsafe (unsafe_TLS u) true true (unsafe_BackupIfUnhealthy u) |> in
  Ok (with_size_haproxy 0 (with_size_proxysql 0 current)).

(** The cluster is paused, or has other sizes than it had before the restore. *)
Definition needs_update (st : RestoreStatus) (cluster : PerconaXtraDBCluster) : res bool :=
  let s := cluster_Spec cluster in
  let differs (old : Z) (now : option Z) :=
    match now with Some n => negb (bool_decide (old = 0)) && negb (bool_decide (old = n)) | None => false end in
  if spec_Pause s then Ok true else
  pxc ← (if bool_decide (rst_PXCSize st = 0) then Ok false
         else pxc ← deref (spec_PXC s); Ok (negb (bool_decide (pod_Size (pxc_PodSpec pxc) = rst_PXCSize st))));
  Ok (pxc ||
      differs (rst_HAProxySize st) ((pod_Size ∘ ha_PodSpec) <$> spec_HAProxy s) ||
      differs (rst_ProxySQLSize st) ((pod_Size ∘ ps_PodSpec) <$> spec_ProxySQL s)).

Definition reconcileStateStartCluster (restorer : Restorer) (cluster : PerconaXtraDBCluster) : M (RW W) RResult :=
  cr ← getRestore;
  upd ← lift (needs_update (re_Status cr) cluster);
  if upd : bool then
    _ ← onR (change_cluster cluster (restored_spec (re_Status cr)));
    mret Requeue
  else if bool_decide (cs_ObservedGeneration (cluster_Status cluster) = meta_Generation (cluster_Meta cluster)) &&
          bool_decide (app_Status (cs_PXC (cluster_Status cluster)) = AppStateReady) then
    _ ← wrap "failed to finalize restore" (onR (rr_Finalize restorer));
    _ ← setState RestoreSucceeded;
    mret Requeue
  else mret Requeue.

Definition record_sizes (cluster : PerconaXtraDBCluster) (st : RestoreStatus) : res RestoreStatus :=
  let s := cluster_Spec cluster in
  pxc ← deref (spec_PXC s);
  let st := st <| rst_PXCSize := pod_Size (pxc_PodSpec pxc) |> in
  let st := match spec_ProxySQL s with
            | Some p => st <| rst_ProxySQLSize := pod_Size (ps_PodSpec p) |> | None => st end in
  let st := match spec_HAProxy s with
            | Some h => st <| rst_HAProxySize := pod_Size (ha_PodSpec h) |> | None => st end in
  Ok (st <| rst_Unsafe := spec_Unsafe s |>).

(** The checks before point-in-time recovery: [false] when the backup is not fit
    for it. *)
Definition pitr_allowed (cr : Restore) (cluster : PerconaXtraDBCluster) (bcp : PerconaXtraDBClusterBackup) : M W bool :=
  if bool_decide (rsp_PITR (re_Spec cr) = None) then mret true else
  _ ← CheckPITRErrors cluster;
  if bool_decide (is_Some (meta_Annotations (re_Meta cr) !! AnnotationUnsafePITR)) then mret true
  else wrap "is pitr ready" (isPITRReady cluster bcp).

Definition reconcileStateNew (restorer : Restorer) (cluster : PerconaXtraDBCluster)
    (bcp : PerconaXtraDBClusterBackup) : M (RW W) RResult :=
  cr ← getRestore;
  ready ← onR (pitr_allowed cr cluster bcp);
  if negb ready then
    _ ← markFailed ("Backup doesn't guarantee consistent recovery with PITR. Annotate PerconaXtraDBClusterRestore with "
                    +:+ AnnotationUnsafePITR +:+ " to force it.");
    mret Done
  else
  r ← try (onR (validate restorer cr));
  match r with
  | inl e =>
      if errors_Is e errWaitValidate then mret Requeue
      else _ ← markFailed ("failed to validate restore job: " +:+ Error e); fail e
  | inr _ =>
      st ← lift (record_sizes cluster (re_Status cr));
      _ ← modRestore (fun cr => cr <| re_Status := st |>);
      _ ← setState RestoreStopCluster;
      mret Requeue
  end.

Definition reconcileStateStopCluster (restorer : Restorer) (cluster : PerconaXtraDBCluster) : M (RW W) RResult :=
  _ ← wrap ("stop cluster " +:+ cluster_Name cluster) (onR (PauseClusterWithWait cluster true));
  r ← try (onR (createRestoreJob restorer false));
  match r with
  | inl e =>
      if errors_Is e errWaitInit then mret Requeue
      else _ ← markFailed ("failed to run restore: " +:+ Error e); fail e
  | inr _ => _ ← setState RestoreRestore; mret Requeue
  end.

(** A job that is there: finished, not finished, or failed, which fails the
    restore. *)
Definition follow_job (job : RJob) : M (RW W) bool :=
  match isJobFinished job with
  | Err e => _ ← markFailed (Error e); fail e
  | r => lift r
  end.

(** [cluster.Spec.Backup.PITR.Enabled] and what follows the finished job. *)
Definition after_restore (restorer : Restorer) (cluster : PerconaXtraDBCluster) : M (RW W) RResult :=
  cr ← getRestore;
  b ← lift (deref (spec_Backup (cluster_Spec cluster)));
  _ ← (when (pitr_Enabled (bs_PITR b)) do (_ ← try (onR (rx_invalidateCache cluster)); mret tt));
  if bool_decide (rsp_PITR (re_Spec cr) = None) then
    c ← lift (CompareVersionWith cluster "1.18.0");
    _ ← setState (if bool_decide (0 <= c) then RestorePrepareCluster else RestoreStartCluster);
    mret Requeue
  else if spec_Pause (cluster_Spec cluster) then
    _ ← onR (change_cluster cluster pitr_spec); mret Requeue
  else if negb (bool_decide (cs_ObservedGeneration (cluster_Status cluster) = meta_Generation (cluster_Meta cluster))) ||
          negb (bool_decide (app_Status (cs_PXC (cluster_Status cluster)) = AppStateReady)) ||
          negb (bool_decide (app_Size (cs_ProxySQL (cluster_Status cluster)) = 0)) ||
          negb (bool_decide (app_Size (cs_HAProxy (cluster_Status cluster)) = 0))
  then mret Requeue
  else
    r ← try (onR (createRestoreJob restorer true));
    match r with
    | inl e => if errors_Is e errWaitInit then mret Requeue else fail (ErrWrap "run pitr" e)
    | inr _ => _ ← setState RestorePITR; mret Requeue
    end.

Definition reconcileStateRestore (restorer : Restorer) (cluster : PerconaXtraDBCluster) : M (RW W) RResult :=
  restorerJob ← lift (wrap_res "failed to create restore job" (rr_Job restorer));
  job ← wrap "failed to get restore job" (onR (rx_getJob (rj_Key restorerJob)));
  finished ← follow_job job;
  if negb finished then mret Requeue else after_restore restorer cluster.

Definition reconcileStatePITR (restorer : Restorer) : M (RW W) RResult :=
  restorerJob ← lift (wrap_res "failed to create restore job" (rr_PITRJob restorer));
  job ← wrap "failed to get pitr job" (onR (rx_getJob (rj_Key restorerJob)));
  finished ← follow_job job;
  if negb finished then mret Requeue
  else _ ← setState RestoreStartCluster; mret Requeue.

Definition reconcileStatePrepareCluster (bcp : PerconaXtraDBClusterBackup) (cluster : PerconaXtraDBCluster) :
    M (RW W) RResult :=
  cr ← getRestore;
  initImage ← wrap "get init image" (onR (rx_initImage cluster));
  job ← lift (wrap_res "prepare job" (PrepareJob cr bcp cluster initImage));
  r ← try (onR (rx_getJob (rj_Key job)));
  job ← match r with
        | inr stored => mret stored
        | inl e => if IsNotFound e then _ ← wrap "create prepare job" (onR (rx_createJob job)); mret job
                   else fail (ErrWrap "get prepare job" e)
        end;
  finished ← follow_job job;
  if negb finished then mret Requeue
  else _ ← setState RestoreStartCluster; mret Done.

(** [runJobFinalizers]: the jobs of a finished restore may go. *)
Definition drop_finalizer (name : NamespacedName) : M W unit :=
  retry_on_conflict (
    r ← try (rx_getJob name);
    match r with
    | inl e => if IsNotFound e then mret tt else fail (ErrWrap "failed to get job" e)
    | inr job =>
        if bool_decide (FinalizerKeepJob ∈ rj_Finalizers job)
        then rx_updateJob (job <| rj_Finalizers ::= filter (fun f => f <> FinalizerKeepJob) |>)
        else mret tt
    end).

Definition restore_runJobFinalizers (cr : Restore) : M W unit :=
  for_each (fun jobName => wrap "failed to remove keep-job finalizer"
              (drop_finalizer (mkNN (meta_Namespace (re_Meta cr)) jobName)))
    [RestoreJobName cr false; RestoreJobName cr true; PrepareJobName cr].

(** ** [Reconcile] *)

(** The switch over the state. *)
Definition reconcileState (restorer : Restorer) (cluster : PerconaXtraDBCluster)
    (bcp : PerconaXtraDBClusterBackup) : M (RW W) RResult :=
  cr ← getRestore;
  match rst_State (re_Status cr) with
  | RestoreStarting => reconcileStateNew restorer cluster bcp
  | RestoreStopCluster => reconcileStateStopCluster restorer cluster
  | RestoreRestore => reconcileStateRestore restorer cluster
  | RestorePITR => reconcileStatePITR restorer
  | RestorePrepareCluster => reconcileStatePrepareCluster bcp cluster
  | RestoreStartCluster => reconcileStateStartCluster restorer cluster
  | st => fail (ErrNew ("unknown state: " +:+ RestoreState_string st))
  end.

(** What follows the check for other restores. *)
Definition reconcileChecked : M (RW W) RResult :=
  cr ← getRestore;
  _ ← match restore_CheckNsetDefaults cr with
      | Err e => _ ← markFailed (Error e); fail e
      | r => lift r
      end;
  r ← try (onR (rx_getCluster (mkNN (meta_Namespace (re_Meta cr)) (rsp_PXCCluster (re_Spec cr)))));
  match r with
  | inl e =>
      _ ← (when (IsNotFound e) do markFailed (Error e));
      fail (ErrWrap ("get cluster " +:+ rsp_PXCCluster (re_Spec cr)) e)
  | inr cluster =>
      let '(cluster, c) := CheckNSetDefaults serverVersion cluster in
      match c with
      | Err e => _ ← markFailed (Error e); fail (ErrWrap "wrong PXC options" e)
      | Panic => panic
      | Ok _ =>
          r ← try (onR (getBackup cr));
          match r with
          | inl e => _ ← markFailed (Error e); fail (ErrWrap "get backup" e)
          | inr bcp =>
              restorer ← wrap "failed to get restorer" (onR (getRestorer cr bcp cluster));
              reconcileState restorer cluster bcp
          end
      end
  end.

(** A pass over a restore that is not finished. *)
Definition reconcileUnfinished : M (RW W) RResult :=
  cr ← getRestore;
  _ ← (when bool_decide (rst_State (re_Status cr) = RestoreNew) do setState RestoreStarting);
  cr ← getRestore;
  other ← wrap "failed to check if other restore is in progress" (onR (isOtherRestoreInProgress cr));
  match other with
  | Some o =>
      let e := ErrNew ("unable to continue, concurrent restore job " +:+ meta_Name (re_Meta o) +:+ " running now") in
      _ ← markFailed (Error e); fail e
  | None => reconcileChecked
  end.

Definition restore_Reconcile (request : NamespacedName) : M (RW W) RResult :=
  r ← try (onR (rx_getRestore request));
  match r with
  | inl e => if IsNotFound e then mret Requeue else fail e
  | inr cr =>
      _ ← modRestore (fun _ => cr);
      if negb (unfinished (rst_State (re_Status cr))) then
        _ ← wrap "run job finalizers" (onR (restore_runJobFinalizers cr)); mret Done
      else
        _ ← setComments "";
        with_defer reconcileUnfinished setStatus
  end.
End restore.
