(* ===== verification/RestoreSpec.v ===== *)
(** * What the restore controller guarantees

    Every pass moves a restore along the documented states, at most one restore
    of a cluster is under way, and a finished restore stays as it is. *)

From S2P Require Import Prelude GoStrings ApiTypes KubeApi Naming CollectorPod RestoreTypes ApiDefaults BackupTypes PitrStatus PauseCluster Restore.

(** ** The abstract state machine *)

Inductive rstep : RestoreState -> RestoreState -> Prop :=
| rstep_begin : rstep RestoreNew RestoreStarting
| rstep_stop : rstep RestoreStarting RestoreStopCluster
| rstep_restore : rstep RestoreStopCluster RestoreRestore
| rstep_pitr : rstep RestoreRestore RestorePITR
| rstep_prepare : rstep RestoreRestore RestorePrepareCluster
| rstep_start_old : rstep RestoreRestore RestoreStartCluster
| rstep_start_pitr : rstep RestorePITR RestoreStartCluster
| rstep_start : rstep RestorePrepareCluster RestoreStartCluster
| rstep_success : rstep RestoreStartCluster RestoreSucceeded
| rstep_fail st : unfinished st = true -> rstep st RestoreFailed.

(** The cluster has been touched: behind the checks and not finished. *)
Definition started (st : RestoreState) : bool :=
  match st with
  | RestoreStopCluster | RestoreRestore | RestorePITR | RestorePrepareCluster | RestoreStartCluster => true
  | _ => false
  end.

Lemma rstep_unfinished a b : rstep a b -> unfinished a = true.
Proof. by destruct 1. Qed.

Lemma rtc_finished a b : rtc rstep a b -> unfinished a = false -> b = a.
Proof. intros [?|? ? ? Hs%rstep_unfinished _] Hf; [done|congruence]. Qed.

(** The check for a running restore sees every restore that has begun to
    change the cluster, except one that prepares the cluster. *)
Theorem isRestoreRunning_misses_prepare {W} (listRestores : string -> M W (list Restore)) name ns (w w' : W) l :
  listRestores ns w = (w', Ok l) ->
  isRestoreRunning listRestores name ns w = (w', Ok (bool_decide (Exists (fun r => rsp_PXCCluster (re_Spec r) = name /\
    started (rst_State (re_Status r)) = true /\ rst_State (re_Status r) <> RestorePrepareCluster) l))).
Proof.
  intros Hl. unfold isRestoreRunning. rewrite (bind_Ok _ _ _ w' l) by (unfold wrap; by rewrite Hl).
  unfold mret, M_ret. do 2 f_equal. apply bool_decide_ext. rewrite !Exists_exists.
  split; intros (r & Hr & Hc & Hs); exists r; (split; [done|]); revert Hs;
    unfold restore_running, started; destruct (rst_State (re_Status r)); naive_solver.
Qed.

(** ** What the controller relies on *)

Definition untouched {W A} (restores : W -> gmap NamespacedName Restore) (m : M W A) : Prop :=
  forall s0, keeps (fun w => restores w = s0) m.

Class RestoreLaws (W : Type) `{PauseEnv W} `{GapEnv W} `{RestoreEnv W} := {
  rl_restores : W -> gmap NamespacedName Restore;
  rl_keys w n r : rl_restores w !! n = Some r -> re_key r = n;
  rl_getRestore n w w' r : rx_getRestore n w = (w', Ok r) -> rl_restores w !! n = Some r;
  rl_getRestore_quiet n : untouched rl_restores (rx_getRestore n);
  rl_listRestores ns w w' l : rx_listRestores ns w = (w', Ok l) ->
    forall r, r ∈ l <-> rl_restores w !! re_key r = Some r /\ nn_namespace (re_key r) = ns;
  rl_listRestores_quiet ns : untouched rl_restores (rx_listRestores ns);
  rl_statusUpdate r w w' x : rx_statusUpdate r w = (w', x) ->
    match x with
    | Ok _ => exists old, rl_restores w !! re_key r = Some old /\
        rl_restores w' = <[re_key r := old <| re_Status := re_Status r |>]> (rl_restores w)
    | _ => rl_restores w' = rl_restores w
    end;
  rl_getCluster n : untouched rl_restores (rx_getCluster n);
  rl_updateCluster c : untouched rl_restores (rx_updateCluster c);
  rl_getBackup n : untouched rl_restores (rx_getBackup n);
  rl_getJob n : untouched rl_restores (rx_getJob n);
  rl_createJob j : untouched rl_restores (rx_createJob j);
  rl_updateJob j : untouched rl_restores (rx_updateJob j);
  rl_getPodPhase n : untouched rl_restores (rx_getPodPhase n);
  rl_createPod n : untouched rl_restores (rx_createPod n);
  rl_deletePod n : untouched rl_restores (rx_deletePod n);
  rl_getService n : untouched rl_restores (rx_getService n);
  rl_createService n : untouched rl_restores (rx_createService n);
  rl_deleteService n : untouched rl_restores (rx_deleteService n);
  rl_getSecret n : untouched rl_restores (rx_getSecret n);
  rl_listObjects h p : untouched rl_restores (rx_listObjects h p);
  rl_initImage c : untouched rl_restores (rx_initImage c);
  rl_invalidateCache c : untouched rl_restores (rx_invalidateCache c);
  rl_patchPause n b : untouched rl_restores (pz_patchPause n b);
  rl_listPods c : untouched rl_restores (pz_listPods c);
  rl_listPVCs c : untouched rl_restores (pz_listPVCs c);
  rl_deletePVC n : untouched rl_restores (pz_deletePVC n);
  rl_sleep : untouched rl_restores pz_sleepSecond;
  rl_listBackups ns : untouched rl_restores (ge_listBackups ns);
  rl_getDeployment n : untouched rl_restores (ge_getDeployment n);
  rl_collectorPods c : untouched rl_restores (cp_listPods c);
  rl_exec p c : untouched rl_restores (cp_exec p c);
  rl_getOptions c b : untouched rl_restores (ge_getOptions c b);
  rl_newStorage o : untouched rl_restores (ge_newStorage o);
  rl_putObject h n : untouched rl_restores (ge_putObject h n);
  rl_getObject h n : untouched rl_restores (ge_getObject h n);
  rl_backupStatus b : untouched rl_restores (ge_statusUpdate b) }.

(** Steps through a program of calls that leave the restores alone. *)
Ltac untouched_tac :=
  repeat first
    [ keeps_step
    | apply keeps_retry_conflict
    | solve [apply rl_getRestore_quiet | apply rl_listRestores_quiet | apply rl_getCluster | apply rl_updateCluster
      | apply rl_getBackup | apply rl_getJob | apply rl_createJob | apply rl_updateJob | apply rl_getPodPhase
      | apply rl_createPod | apply rl_deletePod | apply rl_getService | apply rl_createService | apply rl_deleteService
      | apply rl_getSecret | apply rl_listObjects | apply rl_initImage | apply rl_invalidateCache | apply rl_patchPause
      | apply rl_listPods | apply rl_listPVCs | apply rl_deletePVC | apply rl_sleep | apply rl_listBackups
      | apply rl_getDeployment | apply rl_collectorPods | apply rl_exec | apply rl_getOptions | apply rl_newStorage
      | apply rl_putObject | apply rl_getObject | apply rl_backupStatus] ].

Section quiet.
Context {W : Type} `{ApiLibs} `{RetryLib} `{RestoreLaws W}.

Lemma quiet_wait msg list enough limit :
  untouched rl_restores list -> untouched rl_restores (wait_loop (W := W) msg list enough limit).
Proof.
  intros Hl s0. induction limit as [|n IH]; cbn [wait_loop]; repeat first [apply IH | apply Hl | keeps_step | apply rl_sleep].
Qed.

Lemma quiet_PauseClusterWithWait c b : untouched rl_restores (PauseClusterWithWait (W := W) c b).
Proof.
  intros s0. unfold PauseClusterWithWait, waitForPodsShutdown, waitForPVCShutdown.
  repeat first [apply quiet_wait; intros ?; (apply rl_listPods || apply rl_listPVCs) | untouched_tac].
Qed.

Lemma quiet_CheckPITRErrors c : untouched rl_restores (CheckPITRErrors (W := W) c).
Proof.
  intros s0. unfold CheckPITRErrors, getLatestSuccessfulBackup, GetPod, mark_gap, addPitrNotReadyFileToBackup, RemoveGapFile.
  untouched_tac.
Qed.

Lemma quiet_pitr_allowed cr c b : untouched rl_restores (pitr_allowed (W := W) cr c b).
Proof.
  intros s0. unfold pitr_allowed, isPITRReady.
  repeat first [apply quiet_CheckPITRErrors | keeps_step | untouched_tac].
Qed.

(** All operations of a restorer leave the restores alone. *)
Definition quiet_restorer (r : Restorer (W := W)) : Prop :=
  untouched rl_restores (rr_Init r) /\ untouched rl_restores (rr_Finalize r) /\
  untouched rl_restores (rr_Validate r) /\ forall j, untouched rl_restores (rr_ValidateJob r j).

Lemma quiet_opts_ValidateJob j : untouched rl_restores (opts_ValidateJob (W := W) j).
Proof.
  intros s0. unfold opts_ValidateJob. apply keeps_bind; [|intros l; untouched_tac].
  induction (filter _ _) as [|x l IH]; cbn [missing_secrets]; repeat first [apply IH | keeps_step | untouched_tac].
Qed.

Lemma quiet_getRestorer cr bcp c (w w' : W) r :
  getRestorer cr bcp c w = (w', Ok r) -> quiet_restorer r.
Proof.
  unfold getRestorer. intros (w1 & x & _ & E)%bind_inv_Ok. destruct x as [e|img]; [done|].
  repeat case_bool_decide; simplify_eq/=; injection E as <- <-; unfold quiet_restorer; split_and!; cbn;
    intros; try apply quiet_opts_ValidateJob; intros s0;
    unfold pvc_Init, pvc_Finalize, pvc_Validate, cloud_Validate, ignoring;
    repeat first [apply quiet_opts_ValidateJob | keeps_step | untouched_tac].
Qed.
End quiet.

(** ** One pass *)

Section pass.
Context {W : Type} `{ApiLibs} `{RetryLib} `{RestoreLaws W} (serverVersion : option string).
Context (s0 : gmap NamespacedName Restore) (cr0 : Restore).

(** The stored restores are [s0], and the object in memory differs from [cr0] in
    its status only, and there not in the completion time. *)
Definition frame (s : RW W) : Prop :=
  rl_restores (rw_w s) = s0 /\ re_Meta (rw_cr s) = re_Meta cr0 /\ re_Spec (rw_cr s) = re_Spec cr0 /\
  rst_CompletedAt (re_Status (rw_cr s)) = rst_CompletedAt (re_Status cr0).

Definition state_of (s : RW W) : RestoreState := rst_State (re_Status (rw_cr s)).

(** In state [X], or one step further. *)
Definition at_state (X : RestoreState) (s : RW W) : Prop := frame s /\ state_of s = X.
Definition near (X : RestoreState) (s : RW W) : Prop := frame s /\ (state_of s = X \/ rstep X (state_of s)).

Lemma at_near X s : at_state X s -> near X s.
Proof. intros [? ?]. split; [done|by left]. Qed.

Lemma onR_same {A} (m : M W A) s : untouched rl_restores m ->
  rl_restores (rw_w (onR m s).1) = rl_restores (rw_w s) /\ rw_cr (onR m s).1 = rw_cr s.
Proof. intros Hm. unfold onR. specialize (Hm _ (rw_w s) eq_refl). by destruct (m (rw_w s)). Qed.

Lemma near_onR {A} X (m : M W A) : untouched rl_restores m -> keeps (near X) (onR m).
Proof.
  intros Hm s Hs. destruct (onR_same m s Hm) as [Hs1 Hs2]. unfold near, frame, state_of in *. by rewrite Hs1, Hs2.
Qed.

Lemma at_onR {A} X (m : M W A) : untouched rl_restores m -> keeps (at_state X) (onR m).
Proof.
  intros Hm s Hs. destruct (onR_same m s Hm) as [Hs1 Hs2]. unfold at_state, frame, state_of in *. by rewrite Hs1, Hs2.
Qed.

Lemma near_setState X Y : rstep X Y -> keeps (near X) (setState Y).
Proof. intros HY [w cr] [(? & ? & ? & ?) _]. split; [done|by right]. Qed.

Lemma near_setComments X c : keeps (near X) (setComments c).
Proof. by intros [w cr] [(? & ? & ? & ?) ?]. Qed.

Lemma near_markFailed X c : unfinished X = true -> keeps (near X) (markFailed c).
Proof. intros HX. apply keeps_bind; [apply near_setState; by constructor|intros []; apply near_setComments]. Qed.

Lemma near_getRestore X : keeps (near X) getRestore.
Proof. apply keeps_gets. Qed.

Ltac near_tac := repeat first [keeps_step | apply near_getRestore | apply near_setComments
  | apply near_setState; by constructor | apply near_markFailed; done].

Lemma near_follow_job X job : unfinished X = true -> keeps (near X) (follow_job job).
Proof. intros HX. unfold follow_job. near_tac. Qed.

Lemma near_change_cluster X c f : keeps (near X) (onR (change_cluster c f)).
Proof. apply near_onR. intros s. unfold change_cluster. untouched_tac. Qed.

Lemma quiet_createRestoreJob r b : quiet_restorer r -> untouched rl_restores (createRestoreJob (W := W) r b).
Proof.
  intros (Hi & _) s. unfold createRestoreJob, ignoring. repeat first [apply Hi | untouched_tac].
Qed.

Lemma near_StartCluster r c : quiet_restorer r -> keeps (near RestoreStartCluster) (reconcileStateStartCluster r c).
Proof.
  intros (_ & Hf & _). unfold reconcileStateStartCluster.
  repeat first [apply near_change_cluster | apply near_onR, Hf | near_tac].
Qed.

Lemma near_StopCluster r c : quiet_restorer r -> keeps (near RestoreStopCluster) (reconcileStateStopCluster r c).
Proof.
  intros Hr. unfold reconcileStateStopCluster.
  repeat first [apply near_onR, quiet_PauseClusterWithWait | apply near_onR, quiet_createRestoreJob, Hr | near_tac].
Qed.

Lemma near_Restore r c : quiet_restorer r -> keeps (near RestoreRestore) (reconcileStateRestore r c).
Proof.
  intros Hr. unfold reconcileStateRestore, after_restore.
  repeat first [apply near_onR, rl_getJob | apply near_follow_job; done | apply near_onR, rl_invalidateCache
    | apply near_change_cluster | apply near_onR, quiet_createRestoreJob, Hr | near_tac].
  apply near_setState. case_bool_decide; constructor.
Qed.

Lemma near_PITR r : keeps (near RestorePITR) (reconcileStatePITR r).
Proof.
  unfold reconcileStatePITR. repeat first [apply near_onR, rl_getJob | apply near_follow_job; done | near_tac].
Qed.

Lemma near_Prepare b c : keeps (near RestorePrepareCluster) (reconcileStatePrepareCluster b c).
Proof.
  unfold reconcileStatePrepareCluster.
  repeat first [apply near_onR, rl_getJob | apply near_onR, rl_initImage | apply near_onR, rl_createJob
    | apply near_follow_job; done | near_tac].
Qed.

Lemma record_sizes_Ok c st st' : record_sizes c st = Ok st' ->
  rst_State st' = rst_State st /\ rst_CompletedAt st' = rst_CompletedAt st.
Proof.
  unfold record_sizes. destruct (spec_PXC (cluster_Spec c)); simpl; [|done].
  intros [= <-]. destruct st, (spec_ProxySQL (cluster_Spec c)), (spec_HAProxy (cluster_Spec c)); done.
Qed.

Lemma near_New r c b : quiet_restorer r ->
  triple (at_state RestoreStarting) (reconcileStateNew r c b) (fun _ => near RestoreStarting) (near RestoreStarting).
Proof.
  intros Hr. unfold reconcileStateNew.
  eapply triple_bind; [apply (triple_gets _ _ (fun cr s => at_state RestoreStarting s /\ cr = rw_cr s)); done|].
  intros cr. apply (triple_pre _ (fun s => (rst_State (re_Status cr) = RestoreStarting /\
    rst_CompletedAt (re_Status cr) = rst_CompletedAt (re_Status cr0)) /\ at_state RestoreStarting s)).
  2: { intros s [Hs ->]. split; [|done]. by destruct Hs as [(?&?&?&?) ?]. }
  apply triple_pure. intros [Hcr Hca].
  eapply (triple_pre _ (near RestoreStarting)); [|apply at_near].
  apply triple_keeps.
  apply keeps_bind; [apply near_onR, quiet_pitr_allowed|intros ready].
  destruct (negb ready); [near_tac|].
  apply keeps_bind.
  - apply keeps_try, near_onR. destruct Hr as (_ & _ & Hv & Hvj). intros s. unfold validate.
    repeat first [apply Hv | apply Hvj | untouched_tac].
  - intros [e|[]]; [near_tac|].
    destruct (record_sizes c (re_Status cr)) as [st|e|] eqn:Est; [|by intros ? ?..].
    apply record_sizes_Ok in Est as [Hst Hct].
    intros s Hs. revert s Hs. change (keeps (near RestoreStarting)
      (_ ← modRestore (fun cr => cr <| re_Status := st |>); _ ← setState RestoreStopCluster; mret Requeue)).
    apply keeps_bind; [|intros []; near_tac].
    intros [w [mt sp st1]] [(? & ? & ? & ?) _]. unfold near, frame, state_of. cbn in *.
    split; [split_and!; try done; exact (eq_trans Hct Hca)|left; exact (eq_trans Hst Hcr)].
Qed.


Lemma near_reconcileState X r c b : quiet_restorer r ->
  triple (at_state X) (reconcileState r c b) (fun _ => near X) (near X).
Proof.
  intros Hr. unfold reconcileState.
  eapply triple_bind; [apply (triple_gets _ _ (fun cr s => rst_State (re_Status cr) = X /\ at_state X s));
    by intros s [? <-]|].
  intros cr. apply triple_pure. intros ->.
  destruct X; try (apply triple_fail; apply at_near); try by apply near_New.
  all: eapply triple_pre; [apply triple_keeps|apply at_near].
  - by apply near_StopCluster.
  - by apply near_Restore.
  - by apply near_StartCluster.
  - apply near_PITR.
  - apply near_Prepare.
Qed.

Lemma at_getRestorer X cr b c :
  triple (at_state X) (wrap "failed to get restorer" (onR (getRestorer cr b c)))
    (fun r s => quiet_restorer r /\ at_state X s) (at_state X).
Proof.
  apply triple_wrap, triple_of_run. intros s s' x Hs Hx.
  assert (untouched rl_restores (getRestorer (W := W) cr b c)) as Hq.
  { intros s1. unfold getRestorer. repeat first [keeps_step | untouched_tac]. }
  pose proof (at_onR X _ Hq s Hs) as Hs'. rewrite Hx in Hs'. simpl in Hs'.
  destruct x as [r|e|]; try done. split; [|done].
  unfold onR in Hx. destruct (getRestorer cr b c (rw_w s)) as [w1 r1] eqn:E. injection Hx as _ ->.
  by eapply quiet_getRestorer.
Qed.

Lemma near_failed {A} X c e (R : A -> RW W -> Prop) : unfinished X = true ->
  triple (at_state X) (_ ← markFailed c; fail e) R (near X).
Proof.
  intros HX. eapply triple_pre; [|apply at_near].
  eapply triple_seq; [by apply triple_keeps, near_markFailed|]. intros []. by apply triple_fail.
Qed.

Lemma near_reconcileChecked X : unfinished X = true ->
  triple (at_state X) (reconcileChecked serverVersion) (fun _ => near X) (near X).
Proof.
  intros HX. unfold reconcileChecked.
  eapply triple_bind; [apply (triple_gets _ _ (fun _ => at_state X)); done|]. intros cr.
  eapply (triple_seq _ _ _ _ (at_state X)).
  { destruct (restore_CheckNsetDefaults cr) as [[]|e|]; [|by apply near_failed|];
      (apply triple_lift; [done|apply at_near]). }
  intros _. eapply triple_seq.
  { eapply triple_post; [apply triple_keeps, keeps_try, at_onR, rl_getCluster|done|apply at_near]. }
  intros [e|cl].
  { destruct (IsNotFound e); [by apply near_failed|].
    eapply triple_seq; [by apply (triple_ret _ _ (fun _ => at_state X))|].
    intros []. apply triple_fail, at_near. }
  destruct (CheckNSetDefaults serverVersion cl) as [cl' [?|e|]]; [|by apply near_failed|apply triple_panic, at_near].
  eapply triple_seq.
  { eapply triple_post; [apply triple_keeps, keeps_try, at_onR|done|apply at_near].
    intros s. unfold getBackup. untouched_tac. }
  intros [e|bcp]; [by apply near_failed|].
  eapply triple_bind; [eapply triple_post; [apply at_getRestorer|done|apply at_near]|].
  intros r. apply triple_pure. apply near_reconcileState.
Qed.

(** No other restore of the cluster of [cr0] is under way. *)
Definition no_other : Prop :=
  forall n r, s0 !! n = Some r -> nn_namespace n = meta_Namespace (re_Meta cr0) ->
    rsp_PXCCluster (re_Spec r) = rsp_PXCCluster (re_Spec cr0) -> unfinished (rst_State (re_Status r)) = true ->
    n = re_key cr0.

(** Where a pass over a restore in state [X] ends. *)
Definition ended (X : RestoreState) (s : RW W) : Prop :=
  frame s /\ rtc rstep X (state_of s) /\ (started (state_of s) = true -> started X = true \/ no_other).

Lemma isOther_none cr (w w' : W) : rl_restores w = s0 -> re_Meta cr = re_Meta cr0 -> re_Spec cr = re_Spec cr0 ->
  isOtherRestoreInProgress cr w = (w', Ok None) -> no_other.
Proof.
  intros Hw Hm Hsp Hi. unfold isOtherRestoreInProgress in Hi.
  apply bind_inv_Ok in Hi as (w1 & items & Hl & Hf). apply wrap_inv_Ok in Hl. injection Hf as _ Hf.
  apply fmap_None, list_find_None in Hf. rewrite Forall_forall in Hf.
  intros n r Hn Hns Hc Hu. pose proof (rl_keys _ _ _ ltac:(by rewrite Hw)) as Hk.
  destruct (decide (meta_Name (re_Meta r) = meta_Name (re_Meta cr0))) as [Heq|Hne].
  - subst n. unfold re_key, meta_key in *. simpl in Hns. congruence.
  - exfalso. apply (Hf r).
    + apply (rl_listRestores _ _ _ _ Hl). rewrite Hw, Hk, Hm. done.
    + rewrite Hsp, Hm. done.
Qed.

(** The state a pass works in. *)
Definition entered (X : RestoreState) : RestoreState :=
  if bool_decide (X = RestoreNew) then RestoreStarting else X.

Lemma entered_rtc X : rtc rstep X (entered X).
Proof. unfold entered. case_bool_decide as E; [rewrite E; apply rtc_once; constructor|done]. Qed.

Lemma entered_started X : started (entered X) = true -> started X = true.
Proof. unfold entered. by case_bool_decide. Qed.

Lemma entered_unfinished X : unfinished X = true -> unfinished (entered X) = true.
Proof. unfold entered. by case_bool_decide. Qed.

Lemma at_ended X s : at_state (entered X) s -> ended X s.
Proof.
  intros [Hf Hs]. split_and!; [done|rewrite Hs; apply entered_rtc|].
  rewrite Hs. intros Hst. left. by apply entered_started.
Qed.

Lemma near_ended X s : no_other -> near (entered X) s -> ended X s.
Proof.
  intros Hno [Hf Hs]. split_and!; [done| |by right].
  etrans; [apply entered_rtc|]. destruct Hs as [->|Hs]; [done|by apply rtc_once].
Qed.

Lemma concurrent_fails {A} X c e (R : A -> RW W -> Prop) : unfinished X = true ->
  triple (at_state (entered X)) (_ ← markFailed c; fail e) R (ended X).
Proof.
  intros HX s [(? & ? & ? & ?) Hs]. destruct s as [w cr1]. split_and!; try done.
  etrans; [apply entered_rtc|]. apply rtc_once. constructor. by apply entered_unfinished.
Qed.

Lemma ended_reconcileUnfinished X : unfinished X = true ->
  triple (at_state X) (reconcileUnfinished serverVersion) (fun _ => ended X) (ended X).
Proof.
  intros HX. unfold reconcileUnfinished.
  eapply triple_bind; [apply (triple_gets _ _ (fun cr s => rst_State (re_Status cr) = X /\ at_state X s));
    by intros s [? <-]|].
  intros cr. apply triple_pure. intros ->.
  eapply triple_seq.
  { instantiate (1 := at_state (entered X)). unfold entered. case_bool_decide; [|by apply triple_ret].
    apply triple_modify. by intros [w cr1] [(? & ? & ? & ?) _]. }
  intros _. eapply triple_bind.
  { apply (triple_gets _ _ (fun cr1 s => (re_Meta cr1 = re_Meta cr0 /\ re_Spec cr1 = re_Spec cr0) /\
      at_state (entered X) s)). by intros s [(? & ? & ? & ?) ?]. }
  intros cr1. apply triple_pure. intros [Hm Hsp].
  eapply triple_bind.
  { apply triple_wrap, (triple_of_run _ _ (fun o s => (o = None -> no_other) /\ at_state (entered X) s)).
    intros s s' x Hs Hx.
    assert (untouched rl_restores (isOtherRestoreInProgress (W := W) cr1)) as Hq.
    { intros s1. unfold isOtherRestoreInProgress. untouched_tac. }
    pose proof (at_onR (entered X) _ Hq s Hs) as Hs'. rewrite Hx in Hs'. simpl in Hs'.
    destruct x as [o|e|]; try by apply at_ended. split; [|done]. intros ->.
    unfold onR in Hx. destruct (isOtherRestoreInProgress cr1 (rw_w s)) as [w1 r1] eqn:E. injection Hx as _ ->.
    eapply isOther_none; [apply Hs|done..|exact E]. }
  intros [o|]; apply triple_pure; intros Hno.
  - by apply concurrent_fails.
  - eapply triple_post; [by apply near_reconcileChecked, entered_unfinished|..]; intros; apply near_ended; auto.
Qed.

(** The status of a restore that was not finished is stored as it is in memory,
    or not at all. *)
Lemma setStatus_stores X : s0 !! re_key cr0 = Some cr0 -> unfinished (rst_State (re_Status cr0)) = true ->
  triple (ended X) setStatus
    (fun _ s => exists s1 : RW W, ended X s1 /\
       rl_restores (rw_w s) = <[re_key cr0 := cr0 <| re_Status := re_Status (rw_cr s1) |>]> s0)
    (ended X).
Proof.
  intros Hcr0 Hu. apply triple_wrap, triple_retry_conflict; [|done].
  eapply triple_bind; [apply (triple_gets _ _ (fun cr s => re_key cr = re_key cr0 /\ ended X s))|].
  { intros s Hs. split; [|done]. destruct Hs as [(_ & Hm & _) _]. unfold re_key. by rewrite Hm. }
  intros cr. apply triple_pure. intros Hk.
  eapply triple_bind.
  { apply (triple_of_run _ _ (fun r s => r = cr0 /\ ended X s)). intros s s' x Hs Hx.
    destruct (onR_same (rx_getRestore (re_key cr)) s (rl_getRestore_quiet _)) as [Hs1 Hs2]. rewrite Hx in Hs1, Hs2.
    assert (ended X s') as Hs'.
    { unfold ended, frame, state_of in *. simpl in *. by rewrite Hs1, Hs2. }
    destruct x as [r|e|]; try done. split; [|done].
    unfold onR in Hx. destruct (rx_getRestore (re_key cr) (rw_w s)) as [w1 r1] eqn:E. injection Hx as _ ->.
    apply rl_getRestore in E. destruct Hs as [(Hw & _) _]. rewrite Hw, Hk in E. congruence. }
  intros r. apply triple_pure. intros ->.
  eapply (triple_seq _ _ _ _ (ended X)).
  { case_bool_decide as E; [|by apply triple_ret]. by rewrite E in Hu. }
  intros _. eapply triple_bind; [apply (triple_gets _ _ (fun cr1 s => cr1 = rw_cr s /\ ended X s)); done|].
  intros cr1. apply triple_of_run. intros s s' x [-> Hs] Hx.
  unfold onR in Hx. destruct (rx_statusUpdate _ (rw_w s)) as [w1 r1] eqn:E. injection Hx as <- <-.
  pose proof (rl_statusUpdate _ _ _ _ E) as Hup. destruct Hs as [(Hw & Hf) Hr].
  destruct r1 as [?|e|]; [|split; [split; [by rewrite <- Hw|done]|done]..].
  exists s. split; [done|]. destruct Hup as (old & Ho & Hst).
  change (re_key _) with (re_key cr0) in Ho. rewrite Hw, Hcr0 in Ho. injection Ho as <-. by rewrite <- Hw.
Qed.

End pass.

(** ** The cluster after a restore *)

(** The parts of two clusters a restore saves and puts back are the same. *)
Definition same_sizes (c c' : PerconaXtraDBCluster) : Prop :=
  ((pod_Size ∘ pxc_PodSpec) <$> spec_PXC (cluster_Spec c)) = ((pod_Size ∘ pxc_PodSpec) <$> spec_PXC (cluster_Spec c')) /\
  ((pod_Size ∘ ha_PodSpec) <$> spec_HAProxy (cluster_Spec c)) = ((pod_Size ∘ ha_PodSpec) <$> spec_HAProxy (cluster_Spec c')) /\
  ((pod_Size ∘ ps_PodSpec) <$> spec_ProxySQL (cluster_Spec c)) = ((pod_Size ∘ ps_PodSpec) <$> spec_ProxySQL (cluster_Spec c')) /\
  spec_Unsafe (cluster_Spec c) = spec_Unsafe (cluster_Spec c').


(** ** Passes over the stored restores *)

Section system.
Context {W : Type} `{ApiLibs} `{RetryLib} `{RestoreLaws W} (serverVersion : option string).

Definition restore_state (r : Restore) : RestoreState := rst_State (re_Status r).

(** What a pass does to the stored restores: nothing, or the status of the
    restore it was called for moves. *)
Inductive pass_effect (request : NamespacedName) (s0 : gmap NamespacedName Restore) :
    gmap NamespacedName Restore -> Prop :=
| effect_none : pass_effect request s0 s0
| effect_move cr st :
    s0 !! request = Some cr -> re_key cr = request -> rtc rstep (restore_state cr) (rst_State st) ->
    rst_CompletedAt st = rst_CompletedAt (re_Status cr) ->
    (started (rst_State st) = true -> started (restore_state cr) = true \/ no_other s0 cr) ->
    pass_effect request s0 (<[request := cr <| re_Status := st |>]> s0).

Lemma reconcile_effect request (s s' : RW W) r :
  restore_Reconcile serverVersion request s = (s', r) ->
  pass_effect request (rl_restores (rw_w s)) (rl_restores (rw_w s')).
Proof.
  intros Hp. set (s0 := rl_restores (rw_w s)).
  assert (triple (fun x => x = s) (restore_Reconcile serverVersion request)
            (fun _ x => pass_effect request s0 (rl_restores (rw_w x)))
            (fun x => pass_effect request s0 (rl_restores (rw_w x)))) as Ht.
  2: { pose proof (triple_run _ _ _ _ _ _ _ Ht eq_refl Hp) as Hr. by destruct r. }
  clear Hp s' r. unfold restore_Reconcile.
  eapply triple_bind.
  { apply triple_try_any, (triple_of_run _ _ (fun cr x => s0 !! request = Some cr /\ rl_restores (rw_w x) = s0)
      (fun x => pass_effect request s0 (rl_restores (rw_w x)))).
    intros w w' x -> Hx.
    destruct (onR_same (rx_getRestore request) s (rl_getRestore_quiet _)) as [Hs1 _]. rewrite Hx in Hs1.
    simpl in Hs1. destruct x as [cr|e|]; [|rewrite Hs1; constructor..]. split; [|done].
    unfold onR in Hx. destruct (rx_getRestore request (rw_w s)) as [w1 r1] eqn:E. injection Hx as _ ->.
    by apply rl_getRestore in E. }
  intros [e|cr]; [case_match; [by apply triple_ret|by apply triple_fail]|].
  apply triple_pure. intros Hcr.
  assert (re_key cr = request) as Hk by exact (rl_keys _ _ _ Hcr).
  eapply triple_bind.
  { apply (triple_modify _ _ (fun _ x => at_state s0 cr (restore_state cr) x)). intros w Hw. done. }
  intros []. destruct (unfinished (rst_State (re_Status cr))) eqn:Hu; cbn [negb].
  - eapply triple_seq; [apply (triple_modify _ _ (fun _ => at_state s0 cr (restore_state cr)))|].
    { by intros [w cr1] [(? & ? & ? & ?) ?]. }
    intros _. eapply triple_defer; [by apply ended_reconcileUnfinished|].
    eapply triple_post; [apply setStatus_stores; [by rewrite Hk|done]|..].
    + intros _ x (s1 & (Hf & Hrtc & Hst) & ->). rewrite Hk.
      apply effect_move; [done|done|exact Hrtc|by destruct Hf as (_ & _ & _ & ?)|exact Hst].
    + intros x [(-> & _) _]. constructor.
  - eapply triple_seq.
    + eapply triple_post; [apply triple_wrap, triple_keeps, (at_onR s0 cr (restore_state cr))|done|].
      * intros s1. unfold restore_runJobFinalizers, drop_finalizer. untouched_tac.
      * intros x [(-> & _) _]. constructor.
    + intros []. apply triple_ret. intros x [(-> & _) _]. constructor.
Qed.

(** ** The abstract machine on all restores *)

(** The states of all restores, which is what a user sees of them. *)
Definition restore_states (w : W) : gmap NamespacedName RestoreState := restore_state <$> rl_restores w.

(** One restore takes one step. *)
Definition store_step (request : NamespacedName) (m m' : gmap NamespacedName RestoreState) : Prop :=
  exists a b, m !! request = Some a /\ rstep a b /\ m' = <[request := b]> m.

Lemma store_steps request m a b : m !! request = Some a -> rtc rstep a b ->
  rtc (store_step request) m (<[request := b]> m).
Proof.
  intros Hm Hab. revert m Hm. induction Hab as [a|a c b Hac Hcb IH]; intros m Hm.
  - by rewrite insert_id.
  - eapply rtc_l; [by exists a, c|]. rewrite <- (insert_insert_eq m request b c).
    apply IH. apply lookup_insert_eq.
Qed.

(** C9: A pass of the restore controller implements the abstract state machine:
    it moves the restore it is called for along the documented states, in one
    state or through several, leaves every other restore as it is, and a finished
    restore too. *)
Theorem restore_refines request (s s' : RW W) r :
  restore_Reconcile serverVersion request s = (s', r) ->
  rtc (store_step request) (restore_states (rw_w s)) (restore_states (rw_w s')) /\
  (forall n, n <> request -> rl_restores (rw_w s') !! n = rl_restores (rw_w s) !! n) /\
  (forall cr, rl_restores (rw_w s) !! request = Some cr -> unfinished (restore_state cr) = false ->
    restore_states (rw_w s') = restore_states (rw_w s)).
Proof.
  intros Hp%reconcile_effect. unfold restore_states.
  inversion Hp as [Heq|cr st Hcr Hk Hst Hca Hx Heq]; [done|]. split_and!.
  - rewrite fmap_insert. eapply store_steps; [|exact Hst]. by rewrite lookup_fmap, Hcr.
  - intros n Hn. by apply lookup_insert_ne.
  - intros cr' Hcr' Hfin. rewrite Hcr in Hcr'. injection Hcr' as <-.
    pose proof (rtc_finished _ _ Hst Hfin) as Hsame.
    rewrite fmap_insert. apply insert_id. rewrite lookup_fmap, Hcr. simpl. by rewrite <- Hsame.
Qed.

(** ** Runs of the controller

    Passes alternate with what users and other controllers do: restores are
    created, without a status, and deleted, everything else changes freely. *)
Inductive restore_run : W -> W -> Prop :=
| run_pass w request cr s' r :
    restore_Reconcile serverVersion request (mkRW w cr) = (s', r) -> restore_run w (rw_w s')
| run_others w w' :
    (forall n r', rl_restores w' !! n = Some r' ->
      (exists r, rl_restores w !! n = Some r /\ re_Status r' = re_Status r /\
         rsp_PXCCluster (re_Spec r') = rsp_PXCCluster (re_Spec r)) \/
      (restore_state r' = RestoreNew /\ rst_CompletedAt (re_Status r') = None)) ->
    restore_run w w'.

(** At most one restore of a cluster is behind its checks and not finished. *)
Definition exclusive (w : W) : Prop :=
  forall n1 n2 r1 r2, rl_restores w !! n1 = Some r1 -> rl_restores w !! n2 = Some r2 ->
    nn_namespace n1 = nn_namespace n2 -> rsp_PXCCluster (re_Spec r1) = rsp_PXCCluster (re_Spec r2) ->
    started (restore_state r1) = true -> started (restore_state r2) = true -> n1 = n2.

Lemma started_unfinished st : started st = true -> unfinished st = true.
Proof. by destruct st. Qed.

Lemma exclusive_move s0 request cr st n r :
  s0 !! request = Some cr -> re_key cr = request ->
  (forall n1 r1, s0 !! n1 = Some r1 -> nn_namespace n1 = nn_namespace request ->
     rsp_PXCCluster (re_Spec r1) = rsp_PXCCluster (re_Spec cr) -> started (restore_state r1) = true ->
     started (restore_state cr) = true -> n1 = request) ->
  (started (rst_State st) = true -> started (restore_state cr) = true \/ no_other s0 cr) ->
  s0 !! n = Some r -> nn_namespace n = nn_namespace request ->
  rsp_PXCCluster (re_Spec r) = rsp_PXCCluster (re_Spec cr) ->
  started (restore_state r) = true -> started (rst_State st) = true -> n = request.
Proof.
  intros Hcr Hk Hex Hst Hn Hns Hc Hs1 Hs2. destruct (Hst Hs2) as [Hcs|Hno]; [by eapply Hex|].
  rewrite <- Hk. eapply Hno; [exact Hn| |done|by apply started_unfinished]. by rewrite Hns, <- Hk.
Qed.

Lemma exclusive_step w w' : restore_run w w' -> exclusive w -> exclusive w'.
Proof.
  intros Hr Hex. destruct Hr as [w request cr0 s' r Hp|w w' Henv].
  - apply reconcile_effect in Hp. simpl in Hp. unfold exclusive in *.
    inversion Hp as [Heq|cr st Hcr Hk Hst Hca Hx Heq]; [done|].
    intros n1 n2 r1 r2 Hn1 Hn2 Hns Hc Hs1 Hs2.
    destruct (decide (n1 = request)) as [->|Hne1], (decide (n2 = request)) as [->|Hne2]; [done|..].
    + rewrite lookup_insert_eq in Hn1. injection Hn1 as <-. rewrite lookup_insert_ne in Hn2 by done.
      symmetry. eapply (exclusive_move _ request cr st n2 r2 Hcr Hk); [|exact Hx|done|done|done|done|exact Hs1].
      intros. by eapply Hex.
    + rewrite lookup_insert_eq in Hn2. injection Hn2 as <-. rewrite lookup_insert_ne in Hn1 by done.
      eapply (exclusive_move _ request cr st n1 r1 Hcr Hk); [|exact Hx|done|done|done|done|exact Hs2].
      intros. by eapply Hex.
    + rewrite lookup_insert_ne in Hn1, Hn2 by done. by eapply Hex.
  - intros n1 n2 r1 r2 Hn1 Hn2 Hns Hc Hs1 Hs2. unfold restore_state in *.
    destruct (Henv n1 r1 Hn1) as [(q1 & Hq1 & E1 & F1)|[E1 _]]; [|by rewrite E1 in Hs1].
    destruct (Henv n2 r2 Hn2) as [(q2 & Hq2 & E2 & F2)|[E2 _]]; [|by rewrite E2 in Hs2].
    rewrite E1 in Hs1. rewrite E2 in Hs2. eapply (Hex n1 n2 q1 q2); unfold restore_state; congruence.
Qed.

(** C8: Mutual exclusion of restores: in every run of the controller, however its
    passes alternate with restores being created and deleted, at most one restore
    of a cluster is past its checks and not finished, so two restores never stop
    the cluster or run their jobs at the same time. *)
Theorem restore_mutual_exclusion (w w' : W) :
  rtc restore_run w w' -> exclusive w -> exclusive w'.
Proof. induction 1 as [|w1 w2 w3 Hr _ IH]; eauto using exclusive_step. Qed.

(** No restore ever gets a completion time, a succeeded one included: the
    status is written with a time only when the stored state is already
    [Succeeded], and a restore whose stored state is that is never written
    again. *)
Theorem restore_never_completed_at (w w' : W) :
  rtc restore_run w w' ->
  map_Forall (fun _ r => rst_CompletedAt (re_Status r) = None) (rl_restores w) ->
  map_Forall (fun _ r => rst_CompletedAt (re_Status r) = None) (rl_restores w').
Proof.
  induction 1 as [|w1 w2 w3 Hr _ IH]; [done|]. intros Hw. apply IH. clear IH w3.
  destruct Hr as [w request cr0 s' r Hp|w w' Henv].
  - apply reconcile_effect in Hp. simpl in Hp.
    inversion Hp as [Heq|cr st Hcr Hk Hst Hca Hx Heq]; [done|].
    apply map_Forall_insert_2; [|done]. exact (eq_trans Hca (Hw _ _ Hcr)).
  - intros n r' Hn. destruct (Henv n r' Hn) as [(r & Hr & -> & _)|[_ ?]]; [|done]. exact (Hw _ _ Hr).
Qed.

Lemma unfinished_other (w1 w2 : W) cr o : started (restore_state cr) = true ->
  isOtherRestoreInProgress cr w1 = (w2, Ok (Some o)) ->
  let msg := "unable to continue, concurrent restore job " +:+ meta_Name (re_Meta o) +:+ " running now" in
  reconcileUnfinished serverVersion (mkRW w1 cr) =
    (mkRW w2 (cr <| re_Status -> rst_State := RestoreFailed |> <| re_Status -> rst_Comments := msg |>), Err (ErrNew msg)).
Proof.
  intros Hs Hi msg. unfold reconcileUnfinished.
  rewrite (bind_Ok _ _ _ (mkRW w1 cr) cr) by done.
  rewrite bool_decide_eq_false_2 by (intros E; unfold restore_state in Hs; by rewrite E in Hs).
  rewrite (bind_Ok _ _ _ (mkRW w1 cr) tt) by done.
  rewrite (bind_Ok _ _ _ (mkRW w1 cr) cr) by done.
  by rewrite (bind_Ok _ _ _ (mkRW w2 cr) (Some o)) by (unfold wrap, onR; simpl; by rewrite Hi).
Qed.

(** A restore under way is failed as soon as another restore of its cluster is
    created: the next pass over it does nothing but store [Failed], so the cluster
    it has stopped is left stopped and the jobs are left running. *)
Theorem concurrent_restore_fails request (w w1 w2 : W) cr0 cr l o :
  rx_getRestore request w = (w1, Ok cr) -> started (restore_state cr) = true ->
  rx_listRestores (meta_Namespace (re_Meta cr)) w1 = (w2, Ok l) ->
  o ∈ l -> rsp_PXCCluster (re_Spec o) = rsp_PXCCluster (re_Spec cr) ->
  meta_Name (re_Meta o) <> meta_Name (re_Meta cr) -> restore_state o = RestoreNew ->
  exists msg, restore_Reconcile serverVersion request (mkRW w cr0) =
    ((setStatus (mkRW w2 (cr <| re_Status -> rst_State := RestoreFailed |>
                             <| re_Status -> rst_Comments := msg |>))).1, Err (ErrNew msg)).
Proof.
  intros Hg Hs Hl Ho Hc Hn Hst.
  assert (exists o', isOtherRestoreInProgress (W := W) (cr <| re_Status -> rst_Comments := "" |>) w1 = (w2, Ok (Some o')))
    as (o' & Hi).
  { unfold isOtherRestoreInProgress. rewrite (bind_Ok _ _ _ w2 l).
    2: { unfold wrap. change (meta_Namespace _) with (meta_Namespace (re_Meta cr)). by rewrite Hl. }
    destruct (list_find _ l) as [[i o']|] eqn:Ef; [by exists o'|].
    apply list_find_None in Ef. rewrite Forall_forall in Ef. destruct (Ef o Ho). unfold restore_state in Hst.
    rewrite Hst. destruct cr; done. }
  exists ("unable to continue, concurrent restore job " +:+ meta_Name (re_Meta o') +:+ " running now").
  unfold restore_Reconcile. erewrite bind_Ok; [|unfold try, onR; simpl; by rewrite Hg]. simpl.
  unfold restore_state in Hs. rewrite (started_unfinished _ Hs). simpl.
  rewrite (bind_Ok _ _ _ (mkRW w1 cr) tt) by done.
  rewrite (bind_Ok _ _ _ (mkRW w1 (cr <| re_Status -> rst_Comments := "" |>)) tt) by done.
  unfold with_defer. rewrite (unfinished_other w1 w2 _ o'); [|by destruct cr as [? ? []]|done].
  by destruct cr as [? ? []].
Qed.
End system.
