(* ===== verification/RestoreWitness.v ===== *)
(** * A concrete world for restores

    An API server with a database that starts and stops at once and jobs that
    finish at once: an instance of every interface of the restore controller. *)

From S2P Require Import Prelude GoStrings ApiTypes KubeApi KubeMem Naming CollectorPod RestoreTypes ApiDefaults BackupTypes BackupMem Collector CollectorSpec PitrStatus PauseCluster Restore RestoreSpec.

(** The newest entry of [rm_restores] for a key is the stored object. *)
Record RMem := mkRMem {
  rm_restores : list Restore;
  rm_clusters : gmap NamespacedName PerconaXtraDBCluster;
  rm_backups : gmap NamespacedName PerconaXtraDBClusterBackup;
  rm_jobs : gmap NamespacedName RJob;
  rm_pods : list string;
  rm_pvcs : list string;
  rm_ticks : nat;
  rm_deleted : list NamespacedName;
  rm_objects : list string }.

Definition rm_store (w : RMem) : gmap NamespacedName Restore :=
  list_to_map ((fun r => (re_key r, r)) <$> rm_restores w).

Definition rm_get {O} (sel : RMem -> gmap NamespacedName O) (n : NamespacedName) : M RMem O := fun w =>
  match sel w !! n with Some o => (w, Ok o) | None => (w, Err not_found) end.

(** The database controller at work: an unpaused cluster is ready. *)
Definition rm_settle (c : PerconaXtraDBCluster) : PerconaXtraDBCluster :=
  c <| cluster_Status -> cs_HAProxy -> app_Size :=
       match spec_HAProxy (cluster_Spec c) with Some h => pod_Size (ha_PodSpec h) | None => 0 end |>.

#[export] Instance RMem_pause : PauseEnv RMem := {|
  pz_patchPause n b := fun w =>
    match rm_clusters w !! n with
    | Some c => (w <| rm_clusters ::= <[n := set_pause b c]> |> <| rm_pods ::= fun p => if b then [] else p |>, Ok tt)
    | None => (w, Err not_found)
    end;
  pz_listPods _ := gets rm_pods;
  pz_listPVCs _ := gets rm_pvcs;
  pz_deletePVC n := modify (fun w => w <| rm_pvcs ::= filter (fun p => p <> nn_name n) |>
                                       <| rm_deleted ::= fun l => l ++ [n] |>);
  pz_sleepSecond := modify (fun w => w <| rm_ticks ::= S |>) |}.

#[export] Instance RMem_gap : GapEnv RMem := {|
  ge_listBackups ns := gets (fun w => (map_to_list (rm_backups w)).*2);
  ge_getDeployment _ := mret tt;
  ge_collector := {| cp_listPods _ := mret []; cp_exec _ _ := mret ""; cp_stderr _ := "" |};
  ge_getOptions _ _ := mret "options";
  ge_newStorage _ := mret "bucket";
  ge_putObject _ o := modify (fun w => w <| rm_objects ::= cons o |>);
  ge_getObject _ o := fun w => if bool_decide (o ∈ rm_objects w) then (w, Ok tt) else (w, Err ErrObjectNotFound);
  ge_statusUpdate b := modify (fun w => w <| rm_backups ::= <[bcp_key b := b]> |>) |}.

#[export] Instance RMem_env : RestoreEnv RMem := {|
  rx_getRestore := rm_get rm_store;
  rx_listRestores ns := gets (fun w => filter (fun r => nn_namespace (re_key r) = ns) (map_to_list (rm_store w)).*2);
  rx_statusUpdate r := fun w =>
    match rm_store w !! re_key r with
    | Some old => (w <| rm_restores ::= cons (old <| re_Status := re_Status r |>) |>, Ok tt)
    | None => (w, Err not_found)
    end;
  rx_getCluster := rm_get rm_clusters;
  rx_updateCluster c := modify (fun w =>
    w <| rm_clusters ::= <[meta_key (cluster_Meta c) := rm_settle c]> |> <| rm_pods := ["c1-pxc-0"] |>);
  rx_getBackup := rm_get rm_backups;
  rx_getJob := rm_get rm_jobs;
  rx_createJob j := modify (fun w =>
    w <| rm_jobs ::= <[rj_Key j := j <| rj_Conditions := [(JobComplete, true, "")] |>]> |>);
  rx_updateJob j := modify (fun w => w <| rm_jobs ::= <[rj_Key j := j]> |>);
  rx_getPodPhase _ := mret "Running";
  rx_createPod _ := mret "Running";
  rx_deletePod _ := mret tt;
  rx_getService _ := mret tt;
  rx_createService _ := mret tt;
  rx_deleteService _ := mret tt;
  rx_getSecret n := mret tt;
  rx_listObjects _ p := gets (fun w => filter (fun o => HasPrefix o p = true) (rm_objects w));
  rx_initImage _ := mret "init";
  rx_jobTemplate _ _ _ _ _ _ := Ok ["s3-secret"];
  rx_prepareTemplate _ _ _ _ := Ok tt;
  rx_restorePod _ _ _ _ _ := Ok (mkNN "ns" "restore-src");
  rx_setOwner _ _ := Ok tt;
  rx_invalidateCache _ := mret tt;
  rx_now w := Z.of_nat (rm_ticks w) |}.

Lemma rm_store_key w n r : rm_store w !! n = Some r -> re_key r = n.
Proof.
  intros Hr%elem_of_list_to_map_2%list_elem_of_fmap. destruct Hr as (x & E & _). congruence.
Qed.

Lemma rm_store_cons w r : rm_store (w <| rm_restores ::= cons r |>) = <[re_key r := r]> (rm_store w).
Proof. by destruct w. Qed.

Lemma rm_get_run {O} (sel : RMem -> gmap NamespacedName O) n w w' r :
  rm_get sel n w = (w', r) -> w' = w /\ forall o, r = Ok o -> sel w !! n = Some o.
Proof. unfold rm_get. destruct (sel w !! n); intros [= <- <-]; naive_solver. Qed.

Lemma rm_get_untouched {O} (sel : RMem -> gmap NamespacedName O) n : untouched rm_store (rm_get sel n).
Proof. intros s0 w Hw. destruct (rm_get sel n w) as [w' r] eqn:E. by apply rm_get_run in E as [-> _]. Qed.

#[export] Instance RMem_laws : RestoreLaws RMem.
Proof.
  refine {| rl_restores := rm_store |}; try (intros; solve [apply rm_get_untouched | intros s0 w Hw; exact Hw
    | intros s0 w Hw; by destruct w | intros s0 w Hw; cbn; case_match; by destruct w]).
  - apply rm_store_key.
  - intros n w w' r E. apply rm_get_run in E as [_ Ho]. by apply Ho.
  - intros ns w w' l [= <- <-] r. rewrite list_elem_of_filter, list_elem_of_fmap. split.
    + intros (Hns & [k r'] & Hk & Hin). simpl in Hk. subst r'. apply elem_of_map_to_list in Hin.
      split; [|done]. by rewrite (rm_store_key _ _ _ Hin).
    + intros [Hr Hns]. split; [done|]. exists (re_key r, r). split; [done|]. by apply elem_of_map_to_list.
  - intros r w w' x. cbn. destruct (rm_store w !! re_key r) as [old|] eqn:E; intros [= <- <-]; [|done].
    exists old. split; [done|]. rewrite rm_store_cons. f_equal.
    rewrite <- (rm_store_key _ _ _ E). by destruct old.
Defined.

(** ** Restores on a concrete cluster

    A restore from its creation to its success, and the theorems about restores,
    pauses and point-in-time status applied to it. *)

#[local] Existing Instance demo_libs.
#[local] Instance restore_retry : RetryLib := loop_retry 4.

Definition demo_restore (name : string) (st : RestoreState) : Restore :=
  mkRestore (demo_meta name "") (mkRestoreSpec "c1" "b1" None None (mkResources ∅ ∅) None)
    (mkRestoreStatus st "" None None 0 0 0 (mkUnsafe false false false false)).

Definition done_backup : PerconaXtraDBClusterBackup :=
  (demo_bcp "b1" "b" "s3") <| bcp_Status -> bst_State := BackupSucceeded |>
    <| bcp_Status -> bst_Destination := "s3://bucket/b1" |> <| bcp_Status -> bst_StorageType := BackupStorageS3 |>
    <| bcp_Status -> bst_S3 := Some demo_s3 |>.

Definition restore_world (rs : list Restore) : RMem :=
  mkRMem rs {[ mkNN "ns" "c1" := demo_cluster None ]} {[ mkNN "ns" "b1" := done_backup ]} ∅
    ["c1-pxc-0"; "c1-pxc-1"; "c1-pxc-2"] ["datadir-c1-pxc-0"; "datadir-c1-pxc-1"; "datadir-c1-pxc-2"] 0 []
    ["b1/data"; "b1/md5"].

Definition pass (w : RMem) : RMem :=
  rw_w (restore_Reconcile None (mkNN "ns" "r1") (mkRW w (demo_restore "" RestoreNew))).1.

Fixpoint passes (n : nat) (w : RMem) : list (option RestoreState) :=
  match n with
  | O => []
  | S n => let w := pass w in (restore_state <$> rm_store w !! mkNN "ns" "r1") :: passes n w
  end.

Example restore_runs :
  passes 8 (restore_world [demo_restore "r1" RestoreNew]) =
  Some <$> [RestoreStopCluster; RestoreRestore; RestorePrepareCluster; RestorePrepareCluster; RestoreStartCluster;
            RestoreStartCluster; RestoreSucceeded; RestoreSucceeded].
Proof. vm_compute. reflexivity. Qed.

(** ** The theorems at work *)

Definition at_pass (n : nat) (w : RMem) : RMem := Nat.iter n pass w.
Definition world_one : RMem := restore_world [demo_restore "r1" RestoreNew].
Definition r1 : NamespacedName := mkNN "ns" "r1".
Definition r2 : NamespacedName := mkNN "ns" "r2".

Lemma pass_run w : restore_Reconcile None r1 (mkRW w (demo_restore "" RestoreNew)) =
  (mkRW (pass w) (rw_cr (restore_Reconcile None r1 (mkRW w (demo_restore "" RestoreNew))).1),
   (restore_Reconcile None r1 (mkRW w (demo_restore "" RestoreNew))).2).
Proof. unfold pass, r1. by destruct (restore_Reconcile None _ _) as [[] ?]. Qed.

Lemma pass_restore_run w : restore_run None w (pass w).
Proof. exact (run_pass None w r1 _ _ _ (pass_run w)). Qed.

Lemma passes_run n w : rtc (restore_run None) w (at_pass n w).
Proof. induction n as [|n IH]; [done|]. eapply rtc_r; [exact IH|apply pass_restore_run]. Qed.

Lemma restore_refines_witness :
  restore_states (at_pass 1 world_one) !! r1 = Some RestoreStopCluster /\
  rtc (store_step r1) (restore_states world_one) (restore_states (at_pass 1 world_one)).
Proof.
  split; [vm_compute; reflexivity|].
  exact (proj1 (restore_refines None r1 _ _ _ (pass_run world_one))).
Defined.

(** A second restore is created while the first is under way, and both are handled. *)
Definition world_two : RMem := (at_pass 2 world_one) <| rm_restores ::= cons (demo_restore "r2" RestoreNew) |>.
Definition after_r2 : RMem := rw_w (restore_Reconcile None r2 (mkRW world_two (demo_restore "" RestoreNew))).1.

Lemma two_run : rtc (restore_run None) world_one after_r2.
Proof.
  etrans; [apply (passes_run 2)|]. eapply rtc_l.
  - apply (run_others None _ world_two). intros n r. change (rl_restores world_two) with (rm_store world_two).
    unfold world_two. rewrite rm_store_cons. intros [[<- <-]|[_ Hr]]%lookup_insert_Some.
    + right. done.
    + left. exists r. split; [exact Hr|split; reflexivity].
  - apply rtc_once. unfold after_r2.
    destruct (restore_Reconcile None r2 (mkRW world_two (demo_restore "" RestoreNew))) as [s x] eqn:E.
    exact (run_pass None _ _ _ _ _ E).
Qed.

Lemma world_one_store n r : rl_restores world_one !! n = Some r -> n = r1 /\ r = demo_restore "r1" RestoreNew.
Proof.
  change (rl_restores world_one) with (<[r1 := demo_restore "r1" RestoreNew]> (∅ : gmap NamespacedName Restore)).
  by intros [[<- <-]|[_ Hr]]%lookup_insert_Some.
Qed.

Lemma restore_mutual_exclusion_witness :
  restore_states after_r2 !! r1 = Some RestoreRestore /\ restore_states after_r2 !! r2 = Some RestoreFailed /\
  exclusive after_r2.
Proof.
  split_and!; [vm_compute; reflexivity..|].
  apply (restore_mutual_exclusion None _ _ two_run).
  intros n1 n2 q1 q2 [-> ->]%world_one_store [-> ->]%world_one_store. done.
Defined.

Lemma restore_never_completed_at_witness :
  restore_states (at_pass 7 world_one) !! r1 = Some RestoreSucceeded /\
  map_Forall (fun _ r => rst_CompletedAt (re_Status r) = None) (rl_restores (at_pass 7 world_one)).
Proof.
  split; [vm_compute; reflexivity|]. apply (restore_never_completed_at None _ _ (passes_run 7 world_one)).
  intros n r [-> ->]%world_one_store. done.
Defined.

Definition stored (n : NamespacedName) (w : RMem) : Restore := default (demo_restore "" RestoreNew) (rm_store w !! n).

(** The first restore is failed, and its cluster stays paused. *)
Lemma concurrent_restore_fails_witness :
  restore_states (pass world_two) !! r1 = Some RestoreFailed /\
  (spec_Pause ∘ cluster_Spec) <$> rm_clusters (pass world_two) !! mkNN "ns" "c1" = Some true /\
  exists msg, restore_Reconcile None r1 (mkRW world_two (demo_restore "" RestoreNew)) =
    ((setStatus (mkRW world_two ((stored r1 world_two) <| re_Status -> rst_State := RestoreFailed |>
                             <| re_Status -> rst_Comments := msg |>))).1, Err (ErrNew msg)).
Proof.
  split_and!; [vm_compute; reflexivity..|].
  apply (concurrent_restore_fails None r1 world_two world_two world_two _ (stored r1 world_two)
    (filter (fun r => nn_namespace (re_key r) = "ns") (map_to_list (rm_store world_two)).*2) (demo_restore "r2" RestoreNew));
    try (vm_compute; reflexivity); try (vm_compute; discriminate).
  apply list_elem_of_filter. split; [done|]. apply list_elem_of_fmap. exists (r2, demo_restore "r2" RestoreNew).
  split; [done|]. apply elem_of_map_to_list. vm_compute. reflexivity.
Defined.

(** A restore that prepares the cluster is under way, but does not count. *)
Lemma isRestoreRunning_misses_prepare_witness :
  restore_states (at_pass 3 world_one) !! r1 = Some RestorePrepareCluster /\ started RestorePrepareCluster = true /\
  (isRestoreRunning rx_listRestores "c1" "ns" (restore_world [demo_restore "r1" RestorePrepareCluster])).2 = Ok false.
Proof.
  split; [vm_compute; reflexivity|]. split; [reflexivity|].
  assert (rx_listRestores "ns" (restore_world [demo_restore "r1" RestorePrepareCluster]) =
    (restore_world [demo_restore "r1" RestorePrepareCluster], Ok [demo_restore "r1" RestorePrepareCluster])) as Hl
    by (vm_compute; reflexivity).
  rewrite (isRestoreRunning_misses_prepare rx_listRestores "c1" "ns" _ _ _ Hl). cbn [snd].
  rewrite bool_decide_eq_false_2; [reflexivity|]. intros Hex. apply Exists_exists in Hex as (r & Hr & _ & _ & Hne).
  apply list_elem_of_singleton in Hr. subst r. by apply Hne.
Defined.

(** ** Sizes, pauses and point-in-time status *)

Definition sized : RestoreStatus :=
  match record_sizes (demo_cluster None) (re_Status (demo_restore "r1" RestoreStarting)) with Ok st => st | _ =>
    re_Status (demo_restore "r1" RestoreStarting) end.
Definition cut_down : PerconaXtraDBCluster :=
  match pitr_spec (set_pause true (demo_cluster None)) with Ok c => c | _ => demo_cluster None end.


#[local] Instance RMem_pause_laws : PauseLaws rm_ticks rm_deleted.
Proof.
  split; simpl.
  - intros n b u d w Hw. simpl. case_match; by destruct w.
  - by intros cr u d w Hw.
  - by intros cr u d w Hw.
  - intros w w' r [= <- <-]. by destruct w.
  - intros n w w' r [= <- <-]. by destruct w.
Qed.

Definition paused : RMem := (PauseClusterWithWait (demo_cluster None) true world_one).1.

Lemma PauseClusterWithWait_stops_witness :
  rm_deleted paused = [mkNN "ns" "datadir-c1-pxc-1"; mkNN "ns" "datadir-c1-pxc-2"] /\
  (rm_ticks paused <= 600)%nat.
Proof.
  split; [vm_compute; reflexivity|].
  exact (proj1 (PauseClusterWithWait_stops rm_ticks rm_deleted (demo_cluster None) world_one paused
    (PauseClusterWithWait (demo_cluster None) true world_one).2 (surjective_pairing _))).
Defined.

Definition backup_of (name cluster : string) (st : PXCBackupState) (created : Z) : PerconaXtraDBClusterBackup :=
  (demo_bcp name name "s3") <| bcp_Spec -> bsp_PXCCluster := cluster |> <| bcp_Status -> bst_State := st |>
    <| bcp_Meta -> meta_CreationTimestamp := created |>.

Definition own_old : PerconaXtraDBClusterBackup := backup_of "b1" "c1" BackupSucceeded 1.
Definition own_new : PerconaXtraDBClusterBackup := backup_of "b2" "c1" BackupSucceeded 5.
Definition own_failed : PerconaXtraDBClusterBackup := backup_of "b3" "c1" BackupFailed 7.
Definition foreign : PerconaXtraDBClusterBackup := backup_of "x1" "c2" BackupSucceeded 9.

Lemma latest_of_newest_witness :
  latest_of "c1" [own_old; foreign; own_failed; own_new] = Ok own_new /\
  forall x, x ∈ [own_old; foreign; own_failed; own_new] -> eligible "c1" x -> created x <= created own_new.
Proof.
  split; [vm_compute; reflexivity|].
  apply (latest_of_newest "c1" own_old [foreign; own_failed; own_new] own_new); [done|vm_compute; reflexivity].
Defined.

(** With another cluster's backup first in the list, that backup is taken. *)
Lemma latest_of_first_item_witness :
  latest_of "c1" [foreign; own_old; own_new] = Ok foreign.
Proof.
  apply (latest_of_first_item "c1" foreign [own_old; own_new]).
  - intros [E _]. vm_compute in E. discriminate E.
  - intros x Hx _. unfold created. repeat (apply elem_of_cons in Hx as [->|Hx]; [vm_compute; discriminate|]).
    by apply not_elem_of_nil in Hx.
Defined.

Lemma timeline_latest_roundtrip_witness :
  timeline_latest (timeline_content (fold_left timeline_content ["20"; "30"] "10") (pretty 40)) = Ok (Some 40).
Proof.
  apply (timeline_latest_roundtrip "10" ["20"; "30"] 40); [done|done| |lia].
  repeat constructor.
Defined.
