(* ===== verification/SmartUpdate.v ===== *)
(** * Smart update: [pkg/controller/pxc/upgrade.go] and [pkg/pxc/pxc.go]

    When the statefulset of the database has a new revision, the operator
    restarts the pods itself, one after the other, and the primary last: it
    deletes a pod and waits until it is back, synchronised and known to the
    proxy before it goes on. *)

From S2P Require Import Prelude GoStrings ApiTypes KubeApi Naming RestoreTypes ClusterStatus.

(** ** Objects *)

(** [corev1.Pod]: containers with readiness and the reason they wait for; of the
    conditions those of type [PodScheduled] are kept, each with whether its
    status is false, when it changed and its message. *)
Record UPod := mkUPod {
  up_Name : string;
  up_Namespace : string;
  up_IP : string;
  up_Revision : string;
  up_Phase : string;
  up_Containers : list (string * bool * option string);
  up_Scheduled : list (bool * Z * string);
  up_Ready : bool }.

Definition up_key (p : UPod) : NamespacedName := mkNN (up_Namespace p) (up_Name p).
Definition zero_pod : UPod := mkUPod "" "" "" "" "" [] [] false.

(** [appsv1.StatefulSet] *)
Record USts := mkUSts {
  us_Name : string;
  us_Namespace : string;
  us_UpdateRevision : string;
  us_Replicas : Z }.

(** Conversion to [int32] wraps around. *)
Definition int32 (z : Z) : Z := (z + 2 ^ 31) mod 2 ^ 32 - 2 ^ 31.

Definition PodFQDN (pod : string) (sts : USts) : string := pod +:+ "." +:+ us_Name sts +:+ "." +:+ us_Namespace sts.

(** [strconv.Atoi(pod.Name[len(sts.Name)+1:])]: the slice panics when the name is
    too short. *)
Definition getPodOrderInSts (sts : USts) (pod : UPod) : res Z :=
  let n := S (String.length (us_Name sts)) in
  if bool_decide (String.length (up_Name pod) < n)%nat then Panic
  else Atoi (String.substring n (String.length (up_Name pod) - n) (up_Name pod)).

Definition NoProxyDetectedError : error :=
  ErrVar "NoProxyDetectedError" "can't detect enabled proxy, please enable HAProxy or ProxySQL".
Definition queries_ErrNotFound : error := ErrVar "queries.ErrNotFound" "not found".

(** The API server, the databases behind [pkg/pxc/queries] (a connection is a
    string), the reader of MySQL configurations, and the clock: [sm_ticks d n]
    is how often a ticker of period [d] fires before a timer of [n] seconds
    wins. *)
Class SmartEnv (W : Type) := {
  sm_sleepSecond : M W unit;
  sm_getSts : NamespacedName -> M W USts;
  sm_listPods : PerconaXtraDBCluster -> M W (list UPod);
  sm_getPod : NamespacedName -> M W UPod;
  sm_deletePod : NamespacedName -> M W unit;
  sm_listBackups : string -> M W (list PerconaXtraDBClusterBackup);
  sm_connect : string -> string -> string -> Z -> M W string;
  sm_Hostname : string -> M W string;
  sm_PrimaryHost : string -> M W string;
  sm_PresentInHostgroup : string -> string -> string -> M W bool;
  sm_InstanceStatus : string -> string -> M W (list string);
  sm_WsrepState : string -> M W string;
  sm_ConfigHasKey : PerconaXtraDBCluster -> string -> string -> res bool;
  sm_ticks : Z -> Z -> W -> nat;
  sm_now : W -> Z }.

(** ** Retries *)

Section retry.
Context {S : Type} (ticks : Z -> Z -> S -> nat).

Fixpoint retry_ticks (n : nat) (f : M S bool) : M S unit :=
  match n with
  | O => fail (ErrNew "reach pod wait limit")
  | Datatypes.S n =>
      fdone ← f;
      if fdone : bool then mret tt else retry_ticks n f
  end.

(** [retry]: at once, and then with every tick until the timer wins. *)
Definition retry (every limit : Z) (f : M S bool) : M S unit :=
  fdone ← f;
  if fdone : bool then mret tt else
  n ← gets (ticks every limit);
  retry_ticks n f.
End retry.

Section smart.
Context {W : Type} `{SmartEnv W} `{StatusEnv W} `{RetryLib} `{VersionLib}.

Definition isBackupRunning (cr : PerconaXtraDBCluster) : M W bool :=
  r ← try (sm_listBackups (cluster_Namespace cr));
  match r with
  | inl e => if IsNotFound e then mret false else fail (ErrWrap "failed to get backup object" e)
  | inr l => mret (bool_decide (Exists (fun b => bsp_PXCCluster (bcp_Spec b) = cluster_Name cr /\
               (bst_State (bcp_Status b) = BackupRunning \/ bst_State (bcp_Status b) = BackupStarting)) l))
  end.

(** ** The primary ([pxc.go]) *)

Definition internal_secret (cr : PerconaXtraDBCluster) : res string :=
  c ← CompareVersionWith cr "1.6.0";
  Ok (if bool_decide (0 <= c) then "internal-" +:+ cluster_Name cr else spec_SecretsName (cluster_Spec cr)).

(** The loop over the attempts to connect: one more than there are proxies, with
    a second between them. *)
Fixpoint connect_retry (n : nat) (secrets user host : string) (port : Z) : M W string :=
  match n with
  | O => sm_connect secrets user host port
  | S n =>
      r ← try (sm_connect secrets user host port);
      match r with
      | inr db => mret db
      | inl _ => _ ← sm_sleepSecond; connect_retry n secrets user host port
      end
  end.

Definition connect_proxy (size : Z) (secrets user host : string) (port : Z) : M W string :=
  if bool_decide (size < 0)
  then (r ← try (sm_connect secrets user host port); mret (match r with inr db => db | inl _ => "" end))
  else connect_retry (Z.to_nat size) secrets user host port.

Definition GetProxyConnection (cr : PerconaXtraDBCluster) : M W string :=
  target ←
    (if ProxySQLEnabled cr then
       p ← lift (deref (spec_ProxySQL (cluster_Spec cr)));
       mret ("proxyadmin", cluster_Name cr +:+ "-proxysql-unready." +:+ cluster_Namespace cr, 6032, pod_Size (ps_PodSpec p))
     else if HAProxyEnabled cr then
       h ← lift (deref (spec_HAProxy (cluster_Spec cr)));
       hasKey ← lift (wrap_res "check if config has proxy_protocol_networks key"
                  (sm_ConfigHasKey cr "mysqld" "proxy_protocol_networks"));
       port ← lift (if hasKey : bool then (c ← CompareVersionWith cr "1.6.0"; Ok (if bool_decide (0 <= c) then 33062 else 3306))
                    else Ok 3306);
       mret ("monitor", cluster_Name cr +:+ "-haproxy." +:+ cluster_Namespace cr, port, pod_Size (ha_PodSpec h))
     else fail NoProxyDetectedError);
  let '(user, host, port, size) := target in
  secrets ← lift (internal_secret cr);
  connect_proxy size secrets user host port.

Definition waitAndGetFirstReadyPodFQDN (cr : PerconaXtraDBCluster) : M W string :=
  pods ← wrap "get pod list" (sm_listPods cr);
  pxc ← lift (deref (spec_PXC (cluster_Spec cr)));
  match filter (fun p => up_Ready p = true) pods with
  | [] => fail (ErrNew "no ready pxc pods")
  | p :: ps =>
      if negb (bool_decide (Z.of_nat (length (p :: ps)) = pod_Size (pxc_PodSpec pxc)))
      then fail (ErrNew "waiting for all pxc pods to be ready")
      else mret (PodFQDN (up_Name p) (mkUSts (cluster_Name cr +:+ "-pxc") (cluster_Namespace cr) "" 0))
  end.

Definition GetPrimaryPod (cr : PerconaXtraDBCluster) : M W string :=
  r ← try (GetProxyConnection cr);
  match r with
  | inr conn => if HAProxyEnabled cr then sm_Hostname conn else sm_PrimaryHost conn
  | inl e =>
      if errors_Is e NoProxyDetectedError then
        pxc ← lift (deref (spec_PXC (cluster_Spec cr)));
        if bool_decide (pod_Size (pxc_PodSpec pxc) = 1)
        then wrap "failed to get first ready pod" (waitAndGetFirstReadyPodFQDN cr)
        else fail (ErrWrap "failed to get proxy connection" e)
      else fail (ErrWrap "failed to get proxy connection" e)
  end.

(** ** Waiting for a pod ([upgrade.go]) *)

(** The first reason of a waiting database container that ends the wait. *)
Definition fatal_waiting (p : UPod) : option string :=
  snd <$> (list_find (fun r => r ∈ ["ImagePullBackOff"; "ErrImagePull"; "CrashLoopBackOff"])
    (omap (fun c => if bool_decide (c.1.1 = "pxc") then c.2 else None) (up_Containers p))).

Definition pxc_ready (p : UPod) : bool :=
  default false (last (c ← up_Containers p; if bool_decide (c.1.1 = "pxc") then [c.1.2] else [])).

(** A scheduling condition that has been false for more than two minutes. *)
Definition unscheduled (now : Z) (p : UPod) : option string :=
  snd <$> (list_find (fun c => c.1.1 = true /\ 120 < now - c.1.2) (up_Scheduled p) ≫= fun x => Some x.2).

(** The pass and the pod it waits for, as it was last seen. *)
Definition onPod {A} (m : M (VW W) A) : M (VW W * UPod) A := fun s =>
  let '(v, r) := m s.1 in ((v, s.2), r).

(** A pod that is not found keeps the state it was last seen in. *)
Definition fetch_pod : M (VW W * UPod) UPod :=
  pod ← gets snd;
  r ← try (onPod (onV (sm_getPod (up_key pod))));
  match r with
  | inr pod' => _ ← modify (fun s => (s.1, pod')); mret pod'
  | inl e => if IsNotFound e then mret pod else fail (ErrWrap "fetch pod" e)
  end.

(** The status of the cluster is updated in every turn. *)
Definition refresh_status : M (VW W) unit :=
  cr ← getCr;
  cr' ← onV (updateStatus cr true None);
  setCr cr'.

Definition pod_restarted (updateRevision : string) : M (VW W * UPod) bool :=
  pod ← fetch_pod;
  _ ← wrap "update status" (onPod refresh_status);
  match fatal_waiting pod with
  | Some reason => fail (ErrNew ("pod " +:+ up_Name pod +:+ " is in " +:+ reason +:+ " state"))
  | None =>
      now ← gets (fun s => sm_now (vw_w s.1));
      match unscheduled now pod with
      | Some msg => fail (ErrNew ("pod " +:+ up_Name pod +:+ " is not scheduled: " +:+ msg))
      | None =>
          if bool_decide (up_Phase pod = "Failed")
          then fail (ErrNew ("pod " +:+ up_Name pod +:+ " is in failed phase"))
          else mret (bool_decide (up_Phase pod = "Running") && bool_decide (up_Revision pod = updateRevision) &&
                     pxc_ready pod)
      end
  end.

Definition waitPodRestart (updateRevision : string) (pod : UPod) (waitLimit : Z) : M (VW W) unit := fun v =>
  let '(s, r) := retry (fun d n s => sm_ticks d n (vw_w s.1)) 10 waitLimit
                   (pod_restarted updateRevision) (v, pod) in (s.1, r).

(** A wait for something the database says. *)
Definition wait_query (waitLimit : Z) (q : M W bool) : M (VW W) unit :=
  retry (fun d n s => sm_ticks d n (vw_w s)) 10 waitLimit (onV q).

Definition waitPXCSynced (cr : PerconaXtraDBCluster) (host : string) (waitLimit : Z) : M (VW W) unit :=
  c ← lift (CompareVersionWith cr "1.6.0");
  let port := if bool_decide (0 <= c) then 33062 else 3306 in
  secrets ← lift (internal_secret cr);
  db ← wrap "failed to access PXC database" (onV (sm_connect secrets "root" host port));
  wait_query waitLimit (
    state ← wrap "failed to get wsrep local state" (sm_WsrepState db);
    mret (bool_decide (state = "Synced"))).

Definition waitHostgroups (cr : PerconaXtraDBCluster) (sts : USts) (pod : UPod) (waitLimit : Z) : M (VW W) unit :=
  if negb (spec_ProxySQLEnabled (cluster_Spec cr)) then mret tt else
  db ← wrap "connect to proxy" (onV (GetProxyConnection cr));
  podIdx ← lift (wrap_res "get pod index from name" (getPodOrderInSts sts pod));
  let hostgroup := if bool_decide (podIdx = 0) then "11" else "10" in
  wait_query waitLimit (
    r ← try (sm_PresentInHostgroup db (PodFQDN (up_Name pod) sts) hostgroup);
    match r with
    | inr present => mret present
    | inl e => if errors_Is e queries_ErrNotFound then mret false
               else fail (ErrWrap "failed to get hostgroup status" e)
    end).

Definition waitUntilOnline (cr : PerconaXtraDBCluster) (sts : USts) (pod : UPod) (waitLimit : Z) : M (VW W) unit :=
  if negb (spec_ProxySQLEnabled (cluster_Spec cr)) then mret tt else
  db ← wrap "failed to get proxySQL db" (onV (GetProxyConnection cr));
  wait_query waitLimit (
    r ← try (sm_InstanceStatus db (PodFQDN (up_Name pod) sts));
    match r with
    | inr statuses => mret (bool_decide (Forall (fun st => st = "ONLINE") statuses))
    | inl e => if bool_decide (e = queries_ErrNotFound) then mret true else fail (ErrWrap "failed to get status" e)
    end).

(** ** Restarting the pods *)

Definition applyNWait (cr : PerconaXtraDBCluster) (sts : USts) (pod : UPod) (waitLimit : Z) : M (VW W) unit :=
  _ ← (if bool_decide (up_Revision pod = us_UpdateRevision sts) then mret tt
       else wrap "failed to delete pod" (onV (sm_deletePod (up_key pod))));
  match getPodOrderInSts sts pod with
  | Panic => panic
  | Err _ => fail (ErrNew ("compute pod order err, sfs name: " +:+ us_Name sts +:+ ", pod name: " +:+ up_Name pod))
  | Ok order =>
      if bool_decide (us_Replicas sts <= int32 order) then mret tt else
      _ ← wrap "failed to wait pod" (waitPodRestart (us_UpdateRevision sts) pod waitLimit);
      _ ← wrap "failed to wait pxc sync" (waitPXCSynced cr (PodFQDN (up_Name pod) sts) waitLimit);
      _ ← wrap "failed to wait hostgroups status" (waitHostgroups cr sts pod waitLimit);
      wrap "failed to wait pxc status" (waitUntilOnline cr sts pod waitLimit)
  end.

(** The loop over the pods: the primary is left for the end. *)
Fixpoint update_secondaries (cr : PerconaXtraDBCluster) (sts : USts) (primary : string) (waitLimit : Z)
    (pods : list UPod) (primaryPod : UPod) : M (VW W) UPod :=
  match pods with
  | [] => mret primaryPod
  | pod :: pods =>
      if HasPrefix primary (PodFQDN (up_Name pod) sts)
      then update_secondaries cr sts primary waitLimit pods pod
      else _ ← wrap "failed to apply changes" (applyNWait cr sts pod waitLimit);
           update_secondaries cr sts primary waitLimit pods primaryPod
  end.

Definition wait_limit (pxc : PodSpec) : Z :=
  let initial := pr_InitialDelaySeconds (pod_LivenessProbes pxc) in
  if negb (bool_decide (initial = 300)) then initial
  else default (2 * 60 * 60) (pod_LivenessInitialDelaySeconds pxc).

(** The primary under its full name, when a pod goes by that name or address. *)
Definition full_primary (primary : string) (sts : USts) (pods : list UPod) : string :=
  match list_find (fun p => up_IP p = primary \/ up_Name p = primary) pods with
  | Some (_, p) => PodFQDN (up_Name p) sts
  | None => primary
  end.

(** [sort.Slice] by descending names *)
Definition name_ge (p q : UPod) : Prop := String.le (up_Name q) (up_Name p).
#[local] Instance name_ge_dec p q : Decision (name_ge p q) := ltac:(unfold name_ge; apply _).
Definition sort_pods (pods : list UPod) : list UPod := merge_sort name_ge pods.

Definition proxies_ready (cr : PerconaXtraDBCluster) : bool :=
  (negb (HAProxyEnabled cr) || bool_decide (app_Status (cs_HAProxy (cluster_Status cr)) = AppStateReady)) &&
  (negb (ProxySQLEnabled cr) || bool_decide (app_Status (cs_ProxySQL (cluster_Status cr)) = AppStateReady)).

Definition smartUpdate (component : string) : M (VW W) unit :=
  cr ← getCr;
  if negb (bool_decide (component = "pxc")) || spec_Pause (cluster_Spec cr) || negb (proxies_ready cr) then mret tt else
  _ ← onV sm_sleepSecond;
  sts ← wrap "failed to get current sfs" (onV (sm_getSts (mkNN (cluster_Namespace cr) (cluster_Name cr +:+ "-pxc"))));
  pods ← wrap "get pod list" (onV (sm_listPods cr));
  if bool_decide (Forall (fun p => up_Revision p = us_UpdateRevision sts) pods) then mret tt else
  running ← try (onV (isBackupRunning cr));
  match running with
  | inl _ | inr true => mret tt
  | inr false =>
      primary ← wrap "get primary pod" (onV (GetPrimaryPod cr));
      let primary := full_primary primary sts pods in
      pxc ← lift (deref (spec_PXC (cluster_Spec cr)));
      let waitLimit := wait_limit (pxc_PodSpec pxc) in
      primaryPod ← update_secondaries cr sts primary waitLimit (sort_pods pods) zero_pod;
      wrap "failed to apply changes" (applyNWait cr sts primaryPod waitLimit)
  end.
End smart.
