(* ===== verification/Queries.v ===== *)
(** * Queries: [pkg/pxc/queries/queries.go]

    The statements the cluster controller sends to the database and to ProxySQL.
    [QueryEnv] adds to [MysqlEnv] what this package uses of [database/sql]: the
    ping, and results with the names of their columns and the error that ended the
    iteration over the rows. *)

From S2P Require Import Prelude GoStrings ApiTypes Secrets MysqlUsers SmartUpdate.

Class QueryEnv (W : Type) := {
  qe_Ping : DB -> M W unit;
  qe_Query : DB -> string -> list string -> M W (list string * list Row * option error) }.

Inductive ReplicationStatus := ReplicationStatusActive | ReplicationStatusError | ReplicationStatusNotInitiated.
#[export] Instance ReplicationStatus_eq_dec : EqDecision ReplicationStatus.
Proof. solve_decision. Defined.

Record ReplicationChannelSource := mkChannelSource {
  rs_Name : string;
  rs_Host : string;
  rs_Port : Z;
  rs_Weight : Z }.

#[export] Instance ReplicationChannelSource_eq_dec : EqDecision ReplicationChannelSource.
Proof. solve_decision. Defined.

Record ReplicationConfig := mkReplicationConfig {
  rc_Source : ReplicationChannelSource;
  rc_SourceRetryCount : Z;
  rc_SourceConnectRetry : Z;
  rc_SSL : bool;
  rc_SSLSkipVerify : bool;
  rc_CA : string }.

Definition writerID : Z := 11.

(** ** Statements *)

Definition sql_channels : string := "SELECT DISTINCT(Channel_name) from replication_asynchronous_connection_failover".
Definition sql_sources : string :=
  nl +:+ "        SELECT host," +:+ nl +:+ "               port," +:+ nl +:+ "               weight" +:+ nl +:+
  "        FROM   replication_asynchronous_connection_failover" +:+ nl +:+ "        WHERE  channel_name = ?" +:+ nl +:+ "    ".
Definition sql_add_source : string := "SELECT asynchronous_connection_failover_add_source(?, ?, ?, null, ?)".
Definition sql_delete_source : string := "SELECT asynchronous_connection_failover_delete_source(?, ?, ?, null)".
Definition sql_stop_channel : string := "STOP REPLICA FOR CHANNEL ?".
Definition sql_start_channel : string := "START REPLICA FOR CHANNEL ?".
Definition sql_stop_all : string := "STOP REPLICA".
Definition sql_status : string := "SHOW REPLICA STATUS FOR CHANNEL ?".
Definition sql_stop_io : string := "STOP REPLICA IO_THREAD FOR CHANNEL ?".
Definition sql_source_password : string := "CHANGE REPLICATION SOURCE TO SOURCE_PASSWORD=? FOR CHANNEL ?".
Definition sql_start_io : string := "START REPLICA IO_THREAD FOR CHANNEL ?".
Definition sql_public_key : string := "CHANGE REPLICATION SOURCE TO GET_SOURCE_PUBLIC_KEY=1 FOR CHANNEL ?".
Definition sql_change_source : string :=
  Join (map (fun l => l +:+ nl)
    [""; "	CHANGE REPLICATION SOURCE TO"; "		SOURCE_USER='replication',"; "		SOURCE_PASSWORD=?,"; "		SOURCE_HOST=?,";
     "		SOURCE_PORT=?,"; "		SOURCE_CONNECTION_AUTO_FAILOVER=1,"; "		SOURCE_AUTO_POSITION=1,"; "		SOURCE_RETRY_COUNT=?,";
     "		SOURCE_CONNECT_RETRY=?,"; "		SOURCE_SSL=?,"; "		SOURCE_SSL_CA=?,"; "		SOURCE_SSL_VERIFY_SERVER_CERT=?";
     "		FOR CHANNEL ?"]) "".
Definition sql_readonly_on : string := "SET GLOBAL READ_ONLY=1".
Definition sql_readonly_off : string := "SET GLOBAL READ_ONLY=0".
Definition sql_readonly : string := "select @@read_only".

(** ** Scanning rows *)

Fixpoint scan_rows {A} (scan : Row -> res A) (rows : list Row) : res (list A) :=
  match rows with
  | [] => Ok []
  | r :: rows => x ← scan r; l ← scan_rows scan rows; Ok (x :: l)
  end.

Definition scan_int (r : option string) : res Z :=
  match r with Some s => match parse_Z s with Some z => Ok z | None => Err scan_error end | None => Err scan_error end.

Definition scan_source (r : Row) : res ReplicationChannelSource :=
  match r with
  | [Some host; port; weight] => p ← scan_int port; w ← scan_int weight; Ok (mkChannelSource "" host p w)
  | _ => Err scan_error
  end.

(** [QueryRow(...).Scan(&x)] for one string, one number, and the second of two
    strings. *)
Definition scan_one_int (r : Row) : res Z := match r with [x] => scan_int x | _ => Err scan_error end.
Definition scan_value (r : Row) : res string := match r with [Some _; Some v] => Ok v | _ => Err scan_error end.

(** A query that may return no rows, which is [ErrNoRows]. *)
Definition on_error {W A} (is_it : error -> bool) (e' : error) (m : M W A) : M W A :=
  r ← try m;
  match r with
  | inr x => mret x
  | inl e => if is_it e then fail e' else fail e
  end.
Definition on_no_rows {W A} (e' : error) (m : M W A) : M W A := on_error (fun e => errors_Is e ErrNoRows) e' m.
Definition if_no_rows {W A} (e' : error) (m : M W A) : M W A := on_error (fun e => bool_decide (e = ErrNoRows)) e' m.

Section queries.
Context {W : Type} `{SecretClient W} `{MysqlEnv W} `{QueryEnv W}.

Definition New (namespace secretName user host : string) (port timeout : Z) : M W DB :=
  secretObj ← sc_get (mkNN namespace secretName);
  let db := mkDB user (data_get secretObj user) (host +:+ ":" +:+ pretty port) timeout in
  _ ← lift (my_Open db);
  _ ← qe_Ping db;
  mret db.

Definition row1 {A} (scan : Row -> res A) (db : DB) (query : string) (args : list string) : M W A :=
  r ← my_QueryRow db query args;
  lift (scan r).

(** ** Replication *)

Definition CurrentReplicationChannels (db : DB) : M W (list string) :=
  r ← try (qe_Query db sql_channels []);
  match r with
  | inl e => if errors_Is e ErrNoRows then mret [] else fail (ErrWrap "select current replication channels" e)
  | inr (_, rows, _) => lift (wrap_res "scan channel name" (scan_rows scan_string rows))
  end.

(** One statement of a transaction that is rolled back when it fails. *)
Definition tx_step (db : DB) (query : string) (args : list string) (rolled back : string) : M W unit :=
  r ← try (my_TxExec db query args);
  match r with
  | inr _ => mret tt
  | inl e =>
      rb ← try (my_Rollback db);
      fail (ErrWrap (match rb with inl _ => rolled | inr _ => back end) e)
  end.

Definition ChangeChannelPassword (db : DB) (channel password : string) : M W unit :=
  _ ← wrap "start transaction for updating channel password" (my_Begin db);
  _ ← tx_step db sql_stop_io [channel] ("rollback STOP REPLICA IO_THREAD FOR CHANNEL " +:+ channel)
        ("stop replication IO thread for channel " +:+ channel);
  _ ← tx_step db sql_source_password [password; channel] ("rollback CHANGE SOURCE_PASSWORD FOR CHANNEL " +:+ channel)
        ("change master password for channel " +:+ channel);
  _ ← tx_step db sql_start_io [channel] ("rollback START REPLICA IO_THREAD FOR CHANNEL " +:+ channel)
        ("start io thread for channel " +:+ channel);
  my_Commit db.

(** The first row by the names of its columns; a NULL is empty. *)
Definition ShowReplicaStatus (db : DB) (channel : string) : M W (gmap string string) :=
  out ← qe_Query db sql_status [channel];
  match out with
  | (_, [], _) => mret ∅
  | (columns, row :: _, _) =>
      if bool_decide (length row = length columns)
      then mret (list_to_map (reverse (zip columns (map (default "") row))))
      else fail scan_error
  end.

Definition status_of (m : gmap string string) : ReplicationStatus :=
  let get k := default "" (m !! k) in
  if bool_decide (get "Replica_IO_Running" = "Yes" /\ get "Replica_SQL_Running" = "Yes") then ReplicationStatusActive
  else if bool_decide (get "Replica_IO_Running" = "No" /\ get "Replica_SQL_Running" = "No" /\ get "Last_Errno" = "0")
  then ReplicationStatusNotInitiated
  else ReplicationStatusError.

Definition HasSuffix (s p : string) : bool := bool_decide (is_Some (strip_suffix p s)).

Definition GetReplicationStatus (db : DB) (channel : string) : M W ReplicationStatus :=
  r ← try (ShowReplicaStatus db channel);
  match r with
  | inl e => if HasSuffix (Error e) "does not exist." || errors_Is e ErrNoRows then mret ReplicationStatusNotInitiated
             else fail (ErrWrap "get current replica status" e)
  | inr m => mret (status_of m)
  end.

Definition StopAllReplication (db : DB) : M W unit := wrap "failed to stop replication" (my_Exec db sql_stop_all []).

Definition AddReplicationSource (db : DB) (name host : string) (port weight : Z) : M W unit :=
  wrap "add replication source" (my_Exec db sql_add_source [name; host; pretty port; pretty weight]).

Definition ReplicationChannelSources (db : DB) (channelName : string) : M W (list ReplicationChannelSource) :=
  r ← try (qe_Query db sql_sources [channelName]);
  match r with
  | inl e => if errors_Is e ErrNoRows then fail queries_ErrNotFound else fail (ErrWrap "get replication channels" e)
  | inr (_, rows, _) => lift (wrap_res "read replication channel info" (scan_rows scan_source rows))
  end.

Definition StopReplication (db : DB) (name : string) : M W unit :=
  wrap ("stop replication for channel " +:+ name) (my_Exec db sql_stop_channel [name]).

Definition EnableReadonly (db : DB) : M W unit := wrap "set global read_only param to 1" (my_Exec db sql_readonly_on []).
Definition DisableReadonly (db : DB) : M W unit := wrap "set global read_only param to 0" (my_Exec db sql_readonly_off []).

Definition IsReadonly (db : DB) : M W bool :=
  n ← wrap "select global read_only param" (row1 scan_one_int db sql_readonly []);
  mret (bool_decide (n = 1)).

Definition bit (b : bool) : string := if b then "1" else "0".

Definition StartReplication (db : DB) (replicaPass : string) (config : ReplicationConfig) (shouldGetMasterKey : bool) : M W unit :=
  let name := rs_Name (rc_Source config) in
  let ca := if rc_SSL config then rc_CA config else "" in
  _ ← wrap ("change source for channel " +:+ name) (my_Exec db sql_change_source
        [replicaPass; rs_Host (rc_Source config); pretty (rs_Port (rc_Source config)); pretty (rc_SourceRetryCount config);
         pretty (rc_SourceConnectRetry config); bit (rc_SSL config); ca; bit (negb (rc_SSLSkipVerify config)); name]);
  _ ← when shouldGetMasterKey do
        wrap ("change replication source to GET_SOURCE_PUBLIC_KEY for channel " +:+ name) (my_Exec db sql_public_key [name]);
  wrap ("start replica for source " +:+ name) (my_Exec db sql_start_channel [name]).

Definition DeleteReplicationSource (db : DB) (name host : string) (port : Z) : M W unit :=
  wrap ("delete replication source " +:+ name) (my_Exec db sql_delete_source [name; host; pretty port]).

(** ** ProxySQL and the state of the database *)

Definition ProxySQLInstanceStatus (db : DB) (host : string) : M W (list string) :=
  r ← try (qe_Query db "SELECT status FROM mysql_servers WHERE hostname LIKE ?;" [host +:+ "%"]);
  match r with
  | inl e => if errors_Is e ErrNoRows then fail queries_ErrNotFound else fail e
  | inr (_, rows, _) => lift (scan_rows scan_string rows)
  end.

Definition PresentInHostgroup (db : DB) (host hostgroup : string) : M W bool :=
  n ← on_no_rows queries_ErrNotFound (row1 scan_one_int db
        "SELECT COUNT(*) FROM runtime_mysql_servers WHERE hostgroup_id=? AND hostname LIKE ?" [hostgroup; host +:+ "%"]);
  mret (bool_decide (1 <= n)).

Definition PrimaryHost (db : DB) : M W string :=
  on_no_rows queries_ErrNotFound
    (row1 scan_string db "SELECT hostname FROM runtime_mysql_servers WHERE hostgroup_id = ?" [pretty writerID]).

Definition NonPrimaryHostsProxySQL (db : DB) : M W (list string) :=
  out ← qe_Query db ("SELECT DISTINCT hostname FROM runtime_mysql_servers WHERE hostgroup_id != ? AND status = 'ONLINE' AND hostname NOT IN " +:+
          "(SELECT hostname FROM runtime_mysql_servers WHERE hostgroup_id = ? AND status = 'ONLINE');") [pretty writerID; pretty writerID];
  match out with
  | (_, rows, err) =>
      hosts ← lift (wrap_res "failed to scan row" (scan_rows scan_string rows));
      match err with
      | Some e => fail (ErrWrap "failed to get rows" e)
      | None => mret hosts
      end
  end.

Definition Hostname (db : DB) : M W string :=
  on_no_rows queries_ErrNotFound (row1 scan_string db "SELECT @@hostname hostname" []).

Definition not_a_variable : error := ErrNew "variable was not found".

Definition WsrepLocalStateComment (db : DB) : M W string :=
  if_no_rows not_a_variable (row1 scan_value db "SHOW GLOBAL STATUS LIKE 'wsrep_local_state_comment'" []).
Definition Version (db : DB) : M W string := if_no_rows not_a_variable (row1 scan_string db "select @@VERSION;" []).
Definition ReadVariable (db : DB) (variable : string) : M W string :=
  if_no_rows not_a_variable (row1 scan_value db "SHOW VARIABLES LIKE ?" [variable]).
End queries.
