(* ===== verification/Replication.v ===== *)
(** * Replication between clusters: [pkg/controller/pxc/replication.go]

    A cluster that replicates from another one has its channels on the primary pod:
    the operator keeps the sources of each channel in the failover table of the
    database, starts and stops the channels, sets the read-only mode of the pods
    and labels the pod that replicates. *)

From S2P Require Import Prelude GoStrings ApiTypes KubeApi Naming Secrets MysqlUsers Users ClusterStatus SmartUpdate Queries.

(** [corev1.Pod] *)
Record RPod := mkRPod {
  rp_Name : string;
  rp_Namespace : string;
  rp_IP : string;
  rp_Labels : gmap string string;
  rp_Conditions : list (string * string) }.

Definition rp_key (p : RPod) : NamespacedName := mkNN (rp_Namespace p) (rp_Name p).

(** [k8s.IsPodReady]: conditions are pairs of a type and a status. *)
Definition IsPodReady (p : RPod) : bool := bool_decide (("Ready", "True") ∈ rp_Conditions p).

(** Pods by the labels of the database's statefulset, updates of pods, and the
    order in which Go goes over the keys of a map. *)
Class ReplEnv (W : Type) := {
  rx_listPods : PerconaXtraDBCluster -> M W (list RPod);
  rx_updatePod : RPod -> M W unit;
  rx_order : gset string -> W -> list string }.

Definition replicationPodLabel : string := "percona.com/replicationPod".
Definition minReplicationVersion : string := "8.0.23-14.1".

Definition has_label (p : RPod) : bool := bool_decide (is_Some (rp_Labels p !! replicationPodLabel)).
Definition unlabel (p : RPod) : RPod := p <| rp_Labels ::= delete replicationPodLabel |>.

(** ** The configuration in the status *)

Definition no_config : ReplicationChannelConfig := mkChannelConfig 0 0 false false "".

Definition currentReplicaConfig (name : string) (status : option (list ReplicationChannelStatus)) : ReplicationChannelConfig :=
  match status with
  | None => no_config
  | Some channels =>
      match list_find (fun v => rcs_Name v = name) channels with
      | Some (_, v) => rcs_Config v
      | None => no_config
      end
  end.

Definition set_channel (status : ReplicationChannelStatus) (channels : option (list ReplicationChannelStatus)) :
    list ReplicationChannelStatus :=
  match channels with
  | None => [status]
  | Some l =>
      match list_find (fun v => rcs_Name v = rcs_Name status) l with
      | Some (k, _) => <[k := status]> l
      | None => l ++ [status]
      end
  end.

Definition setReplicationChannelStatus (cr : PerconaXtraDBCluster) (channel : ReplicationChannel) : res PerconaXtraDBCluster :=
  config ← deref (ch_Config channel);
  Ok (cr <| cluster_Status -> cs_PXCReplication ::= fun l => Some (set_channel (mkChannelStatus (ch_Name channel) config) l) |>).

(** ** Sources *)

Definition source_map (old : list ReplicationChannelSource) : gmap string ReplicationChannelSource :=
  foldl (fun m s => <[rs_Host s := s]> m) ∅ old.

Fixpoint sources_differ (new : list ReplicationSource) (oldSrc : gmap string ReplicationChannelSource) : bool :=
  match new with
  | [] => bool_decide (0 < size oldSrc)%nat
  | v :: new =>
      match oldSrc !! src_Host v with
      | None => true
      | Some o =>
          if bool_decide (rs_Port o <> src_Port v \/ rs_Weight o <> src_Weight v) then true
          else sources_differ new (delete (src_Host v) oldSrc)
      end
  end.

Definition isSourcesChanged (new : list ReplicationSource) (old : list ReplicationChannelSource) : bool :=
  if negb (bool_decide (length new = length old)) then true else sources_differ new (source_map old).

(** [maxWeightSrc]: the first source, or each next one whose weight exceeds
    [maxWeight], which stays zero. *)
Definition maxWeight : Z := 0.
Definition maxWeightSrc (first : ReplicationSource) (sources : list ReplicationSource) : ReplicationSource :=
  foldl (fun best src => if bool_decide (maxWeight < src_Weight src) then src else best) first sources.

Section replication.
Context {W : Type} `{SecretClient W} `{MysqlEnv W} `{QueryEnv W} `{ReplEnv W} `{SmartEnv W} `{StatusEnv W} `{RetryLib} `{VersionLib}.

(** The connection to a pod: as the operator user, on the admin port. *)
Definition pod_db (cr : PerconaXtraDBCluster) (pod : string) : M W DB :=
  pxc ← lift (deref (spec_PXC (cluster_Spec cr)));
  New (cluster_Namespace cr) (internalSecretsPrefix +:+ cluster_Name cr) Operator
    (pod +:+ "." +:+ cluster_Name cr +:+ "-pxc." +:+ cluster_Namespace cr) 33062
    (pr_TimeoutSeconds (pod_ReadinessProbes (pxc_PodSpec pxc))).

Definition handleReplicaPasswordChange (db : DB) (newPass : string) : M W unit :=
  channels ← wrap "get current replication channels" (CurrentReplicationChannels db);
  for_each (fun channel => wrap ("change password for channel " +:+ channel) (ChangeChannelPassword db channel newPass)) channels.

Definition is_replica (channels : list ReplicationChannel) : bool :=
  match channels with c :: _ => negb (ch_IsSource c) | [] => false end.

(** The connections stay open until the loop over the pods is done. *)
Fixpoint check_pods (cr : PerconaXtraDBCluster) (isReplica : bool) (pods : list RPod) : M W unit :=
  match pods with
  | [] => mret tt
  | pod :: pods =>
      db ← wrap ("connect to pod " +:+ rp_Name pod) (pod_db cr (rp_Name pod));
      with_defer (
        readonly ← wrap "check readonly status" (IsReadonly db);
        _ ← (if (isReplica && readonly) || (negb isReplica && negb readonly) then mret tt
             else wrap "enable or disable readonly mode"
                    (_ ← when (isReplica && negb readonly) do EnableReadonly db;
                     when (negb isReplica && readonly) do DisableReadonly db));
        check_pods cr isReplica pods) (my_Close db)
  end.

Definition checkReadonlyStatus (channels : list ReplicationChannel) (pods : list RPod) (cr : PerconaXtraDBCluster) : M W unit :=
  check_pods cr (is_replica channels) pods.

(** A list of sources; that there is none is no error. *)
Definition sources_or_none (msg : string) (db : DB) (channel : string) : M W (list ReplicationChannelSource) :=
  r ← try (ReplicationChannelSources db channel);
  match r with
  | inr l => mret l
  | inl e => if bool_decide (e = queries_ErrNotFound) then mret [] else fail (ErrWrap msg e)
  end.

Definition removeChannel (db : DB) (channel : string) : M W unit :=
  r ← try (StopReplication db channel);
  _ ← match r with
      | inl e => if Contains (Error e) "Error 3074" then mret tt
                 else fail (ErrWrap ("stop replication for channel " +:+ channel) e)
      | inr _ => mret tt
      end;
  srcList ← sources_or_none ("get src list for outdated channel " +:+ channel) db channel;
  for_each (fun v => wrap ("delete replication source for outdated channel " +:+ channel)
                       (DeleteReplicationSource db channel (rs_Host v) (rs_Port v))) srcList.

Definition outdated_channels (dbChannels : list string) (current : list ReplicationChannel) : gset string :=
  list_to_set dbChannels ∖ list_to_set (map ch_Name (filter (fun c => ch_IsSource c = false) current)).

Definition removeOutdatedChannels (db : DB) (currentChannels : list ReplicationChannel) : M W unit :=
  dbChannels ← wrap "get current replication channels" (CurrentReplicationChannels db);
  order ← gets (rx_order (outdated_channels dbChannels currentChannels));
  for_each (removeChannel db) order.

(** The sources are replaced and the channel is started. *)
Definition restartChannel (db : DB) (channel : ReplicationChannel) (currentSources : list ReplicationChannelSource)
    (status : ReplicationStatus) (replicaPW : string) (shouldGetMasterKey : bool) : M W unit :=
  let name := ch_Name channel in
  _ ← when (bool_decide (status = ReplicationStatusActive)) do
        wrap ("stop replication for channel " +:+ name) (StopReplication db name);
  _ ← for_each (fun src => wrap ("delete replication source for channel " +:+ name)
                             (DeleteReplicationSource db name (rs_Host src) (rs_Port src))) currentSources;
  first ← lift (deref (head (ch_SourcesList channel)));
  _ ← for_each (fun src => wrap ("add replication source for channel " +:+ name)
                             (AddReplicationSource db name (src_Host src) (src_Port src) (src_Weight src))) (ch_SourcesList channel);
  config ← lift (deref (ch_Config channel));
  let src := maxWeightSrc first (ch_SourcesList channel) in
  StartReplication db replicaPW
    (mkReplicationConfig (mkChannelSource name (src_Host src) (src_Port src) 0) (cc_SourceRetryCount config)
       (cc_SourceConnectRetry config) (cc_SSL config) (cc_SSLSkipVerify config) (cc_CA config)) shouldGetMasterKey.

Definition manageReplicationChannel (db : DB) (channel : ReplicationChannel) (currConf : ReplicationChannelConfig)
    (replicaPW : string) (shouldGetMasterKey : bool) : M W unit :=
  let name := ch_Name channel in
  currentSources ← sources_or_none ("get current replication sources for channel " +:+ name) db name;
  status ← wrap "failed to check replication status" (GetReplicationStatus db name);
  let restart := restartChannel db channel currentSources status replicaPW shouldGetMasterKey in
  if isSourcesChanged (ch_SourcesList channel) currentSources then restart else
  match status with
  | ReplicationStatusError =>
      _ ← wrap "failed to get replica status" (ShowReplicaStatus db name); mret tt
  | ReplicationStatusActive =>
      config ← lift (deref (ch_Config channel));
      if bool_decide (config = currConf) then mret tt else restart
  | ReplicationStatusNotInitiated => restart
  end.

Definition deleteReplicaLabels (pods : list RPod) : M W unit :=
  for_each (fun pod =>
    when (has_label pod) do wrap "failed to remove replication label from pod" (rx_updatePod (unlabel pod))) pods.

(** ** The pass *)

Definition is_primary (cr : PerconaXtraDBCluster) (primary : string) (pod : RPod) : bool :=
  bool_decide (rp_IP pod = primary) || bool_decide (rp_Name pod = primary) ||
  HasPrefix primary (rp_Name pod +:+ "." +:+ cluster_Name cr +:+ "-pxc." +:+ cluster_Namespace cr).

(** Replication stops on the pods that are not the primary. *)
Definition demote (cr : PerconaXtraDBCluster) (primaryPod pod : RPod) : M W unit :=
  if bool_decide (rp_Name pod = rp_Name primaryPod) || negb (has_label pod) then mret tt else
  db ← wrap ("failed to connect to pod " +:+ rp_Name pod) (pod_db cr (rp_Name pod));
  r ← try (StopAllReplication db);
  _ ← try (my_Close db);
  _ ← match r with inl e => fail (ErrWrap ("stop replication on pod " +:+ rp_Name pod) e) | inr _ => mret tt end;
  wrap "failed to remove primary label from secondary pod" (rx_updatePod (unlabel pod)).

(** [primaryPod.Labels[...] = "true"]; an assignment to a nil map would panic, but a
    pod found by its labels has some. *)
Definition promote (primaryPod : RPod) : M W unit :=
  when (negb (has_label primaryPod)) do
    wrap "add label to main replica pod" (rx_updatePod (primaryPod <| rp_Labels ::= <[replicationPodLabel := "true"]> |>)).

Definition CompareMySQLVersion (cr : PerconaXtraDBCluster) (ver : string) : res Z :=
  let v := app_Version (cs_PXC (cluster_Status cr)) in
  if ver_valid v then Ok (ver_compare v ver) else Panic.

(** The channels in turn; the status of each is noted in the cluster object. *)
Fixpoint manage_channels (db : DB) (replicaPW : string) (key : bool) (channels : list ReplicationChannel) : M (VW W) unit :=
  match channels with
  | [] => mret tt
  | channel :: channels =>
      _ ← (if ch_IsSource channel then mret tt else
           cr ← getCr;
           let currConf := currentReplicaConfig (ch_Name channel) (cs_PXCReplication (cluster_Status cr)) in
           _ ← wrap ("manage replication channel " +:+ ch_Name channel)
                 (onV (manageReplicationChannel db channel currConf replicaPW key));
           cr ← lift (setReplicationChannelStatus cr channel);
           setCr cr);
      manage_channels db replicaPW key channels
  end.

(** What follows when the cluster is a replica. *)
Definition run_replica (db : DB) (primaryPod : RPod) (podList : list RPod) (channels : list ReplicationChannel)
    (replicaPassUpdated : bool) : M (VW W) unit :=
  cr ← getCr;
  _ ← onV (for_each (demote cr primaryPod) podList);
  _ ← onV (promote primaryPod);
  secret ← wrap "get secrets" (onV (sc_get (mkNN (cluster_Namespace cr) (internalSecretsPrefix +:+ cluster_Name cr))));
  let replicaPW := data_get secret Replication in
  _ ← when replicaPassUpdated do
        wrap "failed to change replication password" (onV (handleReplicaPasswordChange db replicaPW));
  c ← lift (CompareMySQLVersion cr "8.4.0");
  let authPluginVar := if bool_decide (0 <= c) then "authentication_policy" else "default_authentication_plugin" in
  authPlugin ← wrap ("failed to get " +:+ authPluginVar +:+ " variable value") (onV (ReadVariable db authPluginVar));
  _ ← manage_channels db replicaPW (Contains authPlugin "caching_sha2_password") channels;
  cr ← getCr;
  cr ← onV (updateStatus cr false None);
  setCr cr.

Definition reconcileReplication (replicaPassUpdated : bool) : M (VW W) unit :=
  cr ← getCr;
  if bool_decide (app_Ready (cs_PXC (cluster_Status cr)) < 1) || spec_Pause (cluster_Spec cr) then mret tt else
  got ← try (onV (rx_listPods cr));
  match got with
  | inl e => if IsNotFound e then mret tt else fail (ErrWrap "get pod list" e)
  | inr listRaw =>
      let podList := filter (fun p => IsPodReady p = true) listRaw in
      primary ← wrap "get primary pxc pod" (onV (GetPrimaryPod cr));
      match list_find (fun p => is_primary cr primary p = true) podList with
      | None => mret tt
      | Some (_, primaryPod) =>
          db ← wrap ("failed to connect to pod " +:+ rp_Name primaryPod) (onV (pod_db cr (rp_Name primaryPod)));
          with_defer (
            dbVer ← wrap "failed to get current db version" (onV (Version db));
            if negb (ver_valid dbVer) then panic else
            if bool_decide (ver_compare dbVer minReplicationVersion < 0) then mret tt else
            pxc ← lift (deref (spec_PXC (cluster_Spec cr)));
            let channels := pxc_ReplicationChannels pxc in
            _ ← wrap "remove outdated replication channels" (onV (removeOutdatedChannels db channels));
            _ ← wrap "failed to ensure cluster readonly status" (onV (checkReadonlyStatus channels podList cr));
            if negb (is_replica channels) then onV (deleteReplicaLabels podList)
            else run_replica db primaryPod podList channels replicaPassUpdated) (onV (my_Close db))
      end
  end.
End replication.
