(* ===== verification/Version.v ===== *)
(** * Versions: [pkg/controller/pxc/version.go] and [vs.go]

    The version service tells which images a cluster should run; a cron job asks
    it, writes the images into the specification and the versions into the status.
    The version of the running database is read from the database itself. *)

From S2P Require Import Prelude GoStrings ApiTypes KubeApi Naming Secrets MysqlUsers Users ClusterStatus ApiDefaults BackupController SmartUpdate Queries Replication.

(** ** Data *)

Record DepVersion := mkDepVersion {
  PXCImage : string;
  PXCVersion : string;
  BackupImage : string;
  BackupVersion : string;
  ProxySqlImage : string;
  ProxySqlVersion : string;
  HAProxyImage : string;
  HAProxyVersion : string;
  PMMImage : string;
  PMMVersion : string;
  LogCollectorVersion : string;
  LogCollectorImage : string }.

Definition no_versions : DepVersion := mkDepVersion "" "" "" "" "" "" "" "" "" "" "" "".

Record versionMeta := mkVersionMeta {
  vm_Apply : string;
  vm_PXCVersion : string;
  vm_KubeVersion : string;
  vm_Platform : string;
  vm_PMMVersion : string;
  vm_BackupVersion : string;
  vm_ProxySQLVersion : string;
  vm_HAProxyVersion : string;
  vm_LogCollectorVersion : string;
  vm_CRUID : string;
  vm_ClusterWideEnabled : bool;
  vm_UserManagementEnabled : bool }.

(** The matrix of an answer: for each product the versions with their images. *)
Record VersionMatrix := mkMatrix {
  mx_Pxc : gmap string string;
  mx_Backup : gmap string string;
  mx_Pmm : gmap string string;
  mx_Proxysql : gmap string string;
  mx_Haproxy : gmap string string;
  mx_LogCollector : gmap string string }.

(** The generated client of the version service: a request (host, path and scheme
    of the endpoint, the metadata and the version of the operator) and the matrices
    of the answer. [url.Parse] gives the three parts of an endpoint.  Further: the
    environment variables, the version of Kubernetes, patches of the cluster
    object (answered with the object as it is stored), the pause after an update, the order of the keys of a map, and which strings are cron schedules. *)
Class VersionEnv (W : Type) := {
  vx_Apply : string * string * string -> versionMeta -> string -> M W (list VersionMatrix);
  vx_url : string -> res (string * string * string);
  vx_env : string -> W -> option string;
  vx_kube : string;
  vx_patchCluster : PerconaXtraDBCluster -> PerconaXtraDBCluster -> M W PerconaXtraDBCluster;
  vx_sleepSecond : M W unit;
  vx_keys : gmap string string -> W -> list string;
  vx_cron_valid : string -> bool }.

Definition UpgradeStrategyNever : string := "never".

Definition versionUpgradeEnabled (cr : PerconaXtraDBCluster) : bool :=
  let a := ToLower (up_Apply (spec_UpgradeOptions (cluster_Spec cr))) in
  negb (bool_decide (a = UpgradeStrategyNever)) && negb (bool_decide (a = UpgradeStrategyDisabled)).

(** ** The answer of the service *)

Definition getVersion (versions : gmap string string) : res string :=
  match map_to_list versions with
  | [(k, _)] => Ok k
  | _ => Err (ErrNew "response has multiple or zero versions")
  end.

(** The loop over the keys, in the order Go takes them: the last key with a prefix
    wins. *)
Definition last_with (prefix : string) (keys : list string) : string :=
  foldl (fun acc k => if HasPrefix k prefix then k else acc) "" keys.

Definition getPMMVersion (versions : gmap string string) (keys : list string) (isPMM3 : bool) : res string :=
  if bool_decide (size versions = 0%nat) then Err (ErrNew "response has zero versions") else
  if bool_decide (2 < size versions)%nat then Err (ErrNew "response has more than 2 versions") else
  let pmm3Version := last_with "3." keys in
  let pmm2Version := last_with "2." keys in
  if isPMM3 then
    if bool_decide (pmm3Version = "") then Err (ErrNew "pmm3 is configured, but no pmm3 version exists") else Ok pmm3Version
  else if bool_decide (pmm2Version = "") then Err (ErrNew "no recognizable PMM version found") else Ok pmm2Version.

Definition image_of (versions : gmap string string) (v : string) : string := default "" (versions !! v).

Definition dep_version (m : VersionMatrix) (pmmKeys : list string) (isPMM3 : bool) : res DepVersion :=
  pxcVersion ← wrap_res "get pxc version" (getVersion (mx_Pxc m));
  backupVersion ← wrap_res "get backup version" (getVersion (mx_Backup m));
  pmmVersion ← wrap_res "get pmm version" (getPMMVersion (mx_Pmm m) pmmKeys isPMM3);
  proxySqlVersion ← wrap_res "get proxysql version" (getVersion (mx_Proxysql m));
  haproxyVersion ← wrap_res "haproxy version" (getVersion (mx_Haproxy m));
  logCollectorVersion ← wrap_res "get logcollector version" (getVersion (mx_LogCollector m));
  Ok (mkDepVersion (image_of (mx_Pxc m) pxcVersion) pxcVersion (image_of (mx_Backup m) backupVersion) backupVersion
        (image_of (mx_Proxysql m) proxySqlVersion) proxySqlVersion (image_of (mx_Haproxy m) haproxyVersion) haproxyVersion
        (image_of (mx_Pmm m) pmmVersion) pmmVersion logCollectorVersion (image_of (mx_LogCollector m) logCollectorVersion)).

Section version.
Context {W : Type} `{VersionEnv W} `{SecretClient W} `{MysqlEnv W} `{QueryEnv W} `{ReplEnv W} `{StatusEnv W} `{RetryLib} `{VersionLib}.

(** ** Telemetry and endpoints *)

Definition telemetryEnabled : M W bool :=
  v ← gets (vx_env "DISABLE_TELEMETRY");
  mret (match v with Some value => negb (bool_decide (value = "true")) | None => true end).

(** [os.Getenv]: a variable that is not set reads as empty. *)
Definition GetDefaultVersionServiceEndpoint : M W string :=
  v ← gets (vx_env "PERCONA_VS_FALLBACK_URI");
  mret (match v with Some e => if bool_decide (e = "") then DefaultVersionServiceEndpoint else e | None => DefaultVersionServiceEndpoint end).

Definition getVersionMeta (cr : PerconaXtraDBCluster) : M W versionMeta :=
  ns ← gets (vx_env "WATCH_NAMESPACE");
  match ns with
  | None => fail (ErrWrap "get WATCH_NAMESPACE env variable" (ErrNew "WATCH_NAMESPACE must be set"))
  | Some watchNs =>
      let st := cluster_Status cr in
      mret (mkVersionMeta (up_Apply (spec_UpgradeOptions (cluster_Spec cr))) (app_Version (cs_PXC st)) vx_kube
              (spec_Platform (cluster_Spec cr)) (comp_Version (cs_PMM st)) (comp_Version (cs_Backup st))
              (app_Version (cs_ProxySQL st)) (app_Version (cs_HAProxy st)) (comp_Version (cs_LogCollector st))
              (meta_UID (cluster_Meta cr))
              (bool_decide (watchNs = "") || bool_decide (1 < length (Split watchNs ","))%nat)
              (negb (bool_decide (spec_Users (cluster_Spec cr) = []))))
  end.

(** [GetExactVersion] of the client; an answer without a matrix is an error. *)
Definition GetExactVersion (cr : PerconaXtraDBCluster) (endpoint : string) (vm : versionMeta) (isPMM3 : bool) : M W DepVersion :=
  endpoint ← (if Contains endpoint "https://check.percona.com/versions" then GetDefaultVersionServiceEndpoint else mret endpoint);
  url ← lift (vx_url endpoint);
  versions ← vx_Apply url vm (spec_CRVersion (cluster_Spec cr));
  if negb (versionUpgradeEnabled cr) then mret no_versions else
  match versions with
  | [] => fail (ErrNew "empty versions response")
  | m :: _ => keys ← gets (vx_keys (mx_Pmm m)); lift (dep_version m keys isPMM3)
  end.

Definition isPMM3Configured (cr : PerconaXtraDBCluster) : M W bool :=
  r ← try (sc_get (mkNN (cluster_Namespace cr) ("internal-" +:+ cluster_Name cr)));
  match r with
  | inl e => if IsNotFound e then mret false else fail (ErrWrap "get internal secret for determining if pmm3 is configured" e)
  | inr s => mret (bool_decide (data_get s PMMServerToken <> ""))
  end.

Definition getNewVersions (cr : PerconaXtraDBCluster) : M W DepVersion :=
  vm ← wrap "build version metadata" (getVersionMeta cr);
  endpoint ← GetDefaultVersionServiceEndpoint;
  isPMM3 ← wrap "get PMM3 config" (isPMM3Configured cr);
  telemetry ← telemetryEnabled;
  let own := up_VersionServiceEndpoint (spec_UpgradeOptions (cluster_Spec cr)) in
  if telemetry && (negb (versionUpgradeEnabled cr) || negb (bool_decide (own = endpoint))) then
    _ ← try (GetExactVersion cr endpoint vm isPMM3);
    mret no_versions
  else wrap "failed to check version" (GetExactVersion cr own vm isPMM3).

(** ** Applying versions *)

Definition set_pxc_image (i : string) (s : PerconaXtraDBClusterSpec) : PerconaXtraDBClusterSpec :=
  s <| spec_PXC ::= fmap (fun p => p <| pxc_PodSpec -> pod_Image := i |>) |>.
Definition set_backup_image (i : string) (s : PerconaXtraDBClusterSpec) : PerconaXtraDBClusterSpec :=
  s <| spec_Backup ::= fmap (fun b => b <| bs_Image := i |>) |>.
Definition set_pmm_image (i : string) (s : PerconaXtraDBClusterSpec) : PerconaXtraDBClusterSpec :=
  s <| spec_PMM ::= fmap (fun p => if pmm_Enabled p then p <| pmm_Image := i |> else p) |>.
Definition set_proxysql_image (i : string) (s : PerconaXtraDBClusterSpec) : PerconaXtraDBClusterSpec :=
  s <| spec_ProxySQL ::= fmap (fun p => if pod_Enabled (ps_PodSpec p) then p <| ps_PodSpec -> pod_Image := i |> else p) |>.
Definition set_haproxy_image (i : string) (s : PerconaXtraDBClusterSpec) : PerconaXtraDBClusterSpec :=
  s <| spec_HAProxy ::= fmap (fun p => if pod_Enabled (ha_PodSpec p) then p <| ha_PodSpec -> pod_Image := i |> else p) |>.
Definition set_logcollector_image (i : string) (s : PerconaXtraDBClusterSpec) : PerconaXtraDBClusterSpec :=
  s <| spec_LogCollector ::= fmap (fun l => if lc_Enabled l then l <| lc_Image := i |> else l) |>.

(** An image that is the same is left alone, which makes no difference. *)
Definition with_images (v : DepVersion) (s : PerconaXtraDBClusterSpec) : PerconaXtraDBClusterSpec :=
  set_logcollector_image (LogCollectorImage v) (set_haproxy_image (HAProxyImage v) (set_proxysql_image (ProxySqlImage v)
    (set_pmm_image (PMMImage v) (set_backup_image (BackupImage v) (set_pxc_image (PXCImage v) s))))).

Definition with_versions (v : DepVersion) (st : PerconaXtraDBClusterStatus) : PerconaXtraDBClusterStatus :=
  st <| cs_ProxySQL -> app_Version := ProxySqlVersion v |> <| cs_HAProxy -> app_Version := HAProxyVersion v |>
     <| cs_PMM -> comp_Version := PMMVersion v |> <| cs_Backup -> comp_Version := BackupVersion v |>
     <| cs_PXC -> app_Version := PXCVersion v |> <| cs_PXC -> app_Image := PXCImage v |>
     <| cs_LogCollector -> comp_Version := LogCollectorVersion v |>.

Definition write_status (cr : PerconaXtraDBCluster) : M W unit :=
  retry_on_conflict (
    c ← sx_getCluster (meta_key (cluster_Meta cr));
    sx_statusUpdate (c <| cluster_Status := cluster_Status cr |>)).

(** The object in memory changes as it goes. *)
Definition ensurePXCVersion : M (VW W) unit :=
  cr ← getCr;
  let st := cluster_Status cr in
  if negb (bool_decide (cs_Status st = AppStateReady)) && negb (bool_decide (app_Version (cs_PXC st) = ""))
  then fail (ErrNew "cluster is not ready") else
  if negb (versionUpgradeEnabled cr) then mret tt else
  newVersion ← wrap "failed to get new versions" (onV (getNewVersions cr));
  let new := cr <| cluster_Spec ::= with_images newVersion |> in
  _ ← setCr new;
  _ ← wrap "failed to update CR" (onV (vx_patchCluster cr new));
  let new := new <| cluster_Status ::= with_versions newVersion |> in
  _ ← setCr new;
  _ ← wrap "failed to update CR status" (onV (write_status new));
  onV vx_sleepSecond.

(** ** The version of the database *)

Fixpoint first_version (cr : PerconaXtraDBCluster) (secrets : string) (port timeout : Z) (pods : list RPod) : M W string :=
  match pods with
  | [] => fail (ErrNew "failed to reach any pod")
  | pod :: pods =>
      if negb (IsPodReady pod) then first_version cr secrets port timeout pods else
      r ← try (New (cluster_Namespace cr) secrets Root
                 (rp_Name pod +:+ "." +:+ cluster_Name cr +:+ "-pxc." +:+ cluster_Namespace cr) port timeout);
      match r with
      | inl _ => first_version cr secrets port timeout pods
      | inr db =>
          with_defer (
            v ← try (Version db);
            match v with
            | inl _ => first_version cr secrets port timeout pods
            | inr v => mret v
            end) (my_Close db)
      end
  end.

Definition mysqlVersion (cr : PerconaXtraDBCluster) : M W string :=
  let st := cluster_Status cr in
  if bool_decide (app_Ready (cs_PXC st) < 1) then fail versionNotReadyErr else
  if negb (bool_decide (cs_ObservedGeneration st = meta_Generation (cluster_Meta cr))) then fail versionNotReadyErr else
  pxc ← lift (deref (spec_PXC (cluster_Spec cr)));
  if bool_decide (app_Image (cs_PXC st) = pod_Image (pxc_PodSpec pxc)) then fail versionNotReadyErr else
  inProgress ← wrap "check pxc upgrade progress" (upgradeInProgress cr "pxc");
  if inProgress : bool then fail versionNotReadyErr else
  pods ← wrap "get pod list" (rx_listPods cr);
  c ← lift (CompareVersionWith cr "1.6.0");
  let new := bool_decide (0 <= c) in
  first_version cr (if new then "internal-" +:+ cluster_Name cr else spec_SecretsName (cluster_Spec cr))
    (if new then 33062 else 3306) (pr_TimeoutSeconds (pod_ReadinessProbes (pxc_PodSpec pxc))) pods.

Definition fetchVersionFromPXC : M (VW W) unit :=
  cr ← getCr;
  if negb (bool_decide (app_Status (cs_PXC (cluster_Status cr)) = AppStateReady)) then mret tt else
  r ← try (onV (mysqlVersion cr));
  match r with
  | inl e => if errors_Is e versionNotReadyErr then mret tt else fail e
  | inr v =>
      pxc ← lift (deref (spec_PXC (cluster_Spec cr)));
      let new := cr <| cluster_Status -> cs_PXC -> app_Version := v |>
                    <| cluster_Status -> cs_PXC -> app_Image := pod_Image (pxc_PodSpec pxc) |> in
      _ ← setCr new;
      wrap "failed to update CR" (onV (write_status new))
  end.

Definition setCRVersion (operatorVersion : string) : M (VW W) unit :=
  cr ← getCr;
  if negb (bool_decide (spec_CRVersion (cluster_Spec cr) = "")) then mret tt else
  let new := cr <| cluster_Spec -> spec_CRVersion := operatorVersion |> in
  _ ← setCr new;
  stored ← wrap "patch CR" (onV (vx_patchCluster cr new));
  setCr stored.
End version.

(** ** The cron jobs of the version service: [pkg/controller/pxc/version.go]

    A cluster has at most one job that sends telemetry and one that ensures its
    version.  Two runs of the second kind always have a pass of the controller
    between them: a run sets the flag [updateSync], which a pass clears. *)

Record Schedule := mkSchedule { sched_ID : Z; sched_CronSchedule : string }.

(** What an entry of the scheduler runs, for the cluster it was added for. *)
Inductive VersionJob :=
| TelemetryJob (cluster : NamespacedName) (jobName : string)
| EnsureVersionJob (cluster : NamespacedName) (jobName : string).

Record VersionCrons := mkVersionCrons {
  vc_entries : gmap Z VersionJob;
  vc_next : Z;
  vc_jobs : gmap string Schedule }.

(** The world, the registry of the jobs, and the flags [updateSync] that are set to
    [updateWait], by the name of the cluster. *)
Record JW (W : Type) := mkJW { jw_w : W; jw_crons : VersionCrons; jw_wait : gset NamespacedName }.
Arguments mkJW {W}.
Arguments jw_w {W}.
Arguments jw_crons {W}.
Arguments jw_wait {W}.

Definition versionJobName (cr : PerconaXtraDBCluster) : string :=
  "ensure-version/" +:+ cluster_Namespace cr +:+ "/" +:+ cluster_Name cr.
Definition telemetryJobName (cr : PerconaXtraDBCluster) : string :=
  "telemetry/" +:+ cluster_Namespace cr +:+ "/" +:+ cluster_Name cr.

Definition deleteCronJob (jobName : string) (c : VersionCrons) : VersionCrons :=
  match vc_jobs c !! jobName with
  | None => c
  | Some job => mkVersionCrons (delete (sched_ID job) (vc_entries c)) (vc_next c) (delete jobName (vc_jobs c))
  end.

Section jobs.
Context {W : Type} `{VersionEnv W} `{SecretClient W} `{MysqlEnv W} `{QueryEnv W} `{ReplEnv W} `{StatusEnv W} `{RandEnv W}
  `{RetryLib} `{VersionLib} `{ApiLibs}.

Definition onJ {A} (m : M W A) : M (JW W) A := fun s =>
  let '(w', r) := m (jw_w s) in (mkJW w' (jw_crons s) (jw_wait s), r).
Definition getJobs : M (JW W) VersionCrons := gets jw_crons.
Definition modJobs (f : VersionCrons -> VersionCrons) : M (JW W) unit :=
  modify (fun s => mkJW (jw_w s) (f (jw_crons s)) (jw_wait s)).

Definition AddVersionJob (spec : string) (e : VersionJob) : M (JW W) Z :=
  if negb (vx_cron_valid spec) then fail (ErrNew "failed to parse cron schedule") else
  c ← getJobs;
  _ ← modJobs (fun c => mkVersionCrons (<[vc_next c := e]> (vc_entries c)) (vc_next c + 1) (vc_jobs c));
  mret (vc_next c).

Definition store_job (jn : string) (id : Z) (sch : string) : M (JW W) unit :=
  modJobs (fun c => mkVersionCrons (vc_entries c) (vc_next c) (<[jn := mkSchedule id sch]> (vc_jobs c))).

Definition scheduleTelemetryRequests (cr : PerconaXtraDBCluster) : M (JW W) unit :=
  let jn := telemetryJobName cr in
  c ← getJobs;
  let old := vc_jobs c !! jn in
  telemetry ← onJ telemetryEnabled;
  if negb (telemetry : bool) then modJobs (deleteCronJob jn) else
  found ← onJ (gets (vx_env "TELEMETRY_SCHEDULE"));
  sch ← match found with
        | Some sch => mret sch
        | None => n ← onJ (rand_Intn 60); mret (pretty n +:+ " * * * *")
        end;
  if bool_decide (is_Some old) && bool_decide (found = None) then mret tt else
  if bool_decide (is_Some found) && bool_decide (default "" (sched_CronSchedule <$> old) = sch) then mret tt else
  _ ← modJobs (deleteCronJob jn);
  id ← AddVersionJob sch (TelemetryJob (meta_key (cluster_Meta cr)) jn);
  _ ← store_job jn id sch;
  _ ← try (onJ (getNewVersions cr));
  mret tt.

Definition scheduleEnsurePXCVersion (cr : PerconaXtraDBCluster) : M (JW W) unit :=
  let jn := versionJobName cr in
  let sch := up_Schedule (spec_UpgradeOptions (cluster_Spec cr)) in
  c ← getJobs;
  let old := vc_jobs c !! jn in
  telemetry ← onJ telemetryEnabled;
  if bool_decide (sch = "") || negb (versionUpgradeEnabled cr || telemetry) then modJobs (deleteCronJob jn) else
  if bool_decide (sched_CronSchedule <$> old = Some sch) then mret tt else
  _ ← modJobs (deleteCronJob jn);
  id ← AddVersionJob sch (EnsureVersionJob (meta_key (cluster_Meta cr)) jn);
  store_job jn id sch.

(** ** What a job does *)

(** The cluster as the API server has it, with defaults; [None]: nothing to do. *)
Definition load_cluster (serverVersion : option string) (n : NamespacedName) (jn : string) : M (JW W) (option PerconaXtraDBCluster) :=
  r ← try (onJ (sx_getCluster n));
  match r with
  | inl e => _ ← when (IsNotFound e) do modJobs (deleteCronJob jn); mret None
  | inr cr =>
      if negb (bool_decide (cs_Status (cluster_Status cr) = AppStateReady)) then mret None else
      match CheckNSetDefaults serverVersion cr with
      | (cr, Ok _) => mret (Some cr)
      | (_, Err _) => mret None
      | (_, Panic) => panic
      end
  end.

Definition ensure_version (cr : PerconaXtraDBCluster) : M W unit := fun w =>
  let '(s, r) := ensurePXCVersion (mkVW w cr) in (vw_w s, r).

Definition run_job (serverVersion : option string) (e : VersionJob) : M (JW W) unit :=
  match e with
  | TelemetryJob n jn =>
      cr ← load_cluster serverVersion n jn;
      match cr with
      | None => mret tt
      | Some cr => _ ← try (onJ (getNewVersions cr)); mret tt
      end
  | EnsureVersionJob n jn =>
      waiting ← gets jw_wait;
      if bool_decide (n ∈ waiting) then mret tt else
      _ ← modify (fun s => mkJW (jw_w s) (jw_crons s) ({[n]} ∪ jw_wait s));
      cr ← load_cluster serverVersion n jn;
      match cr with
      | None => mret tt
      | Some cr => _ ← try (onJ (ensure_version cr)); mret tt
      end
  end.

(** [defer atomic.StoreInt32(l.updateSync, updateDone)] of a pass. *)
Definition pass_done (n : NamespacedName) : M (JW W) unit :=
  modify (fun s => mkJW (jw_w s) (jw_crons s) (jw_wait s ∖ {[n]})).
End jobs.
