(* ===== verification/VersionSpec.v ===== *)
(** * Versions: proofs

    Which images a version update writes, what the choice of the PMM version
    depends on, and the registry of the cron jobs. *)

From S2P Require Import Prelude GoStrings ApiTypes KubeApi Secrets MysqlUsers Users ClusterStatus ApiDefaults Queries Replication Version.

(** ** Versions in an answer *)

Lemma getVersion_Ok m v : getVersion m = Ok v -> exists image, m = {[ v := image ]}.
Proof.
  unfold getVersion. destruct (map_to_list m) as [|[k i] [|? ?]] eqn:E; intros [= <-]. exists i.
  by rewrite <- (list_to_map_to_list m), E.
Qed.

Lemma last_with_spec p keys : last_with p keys = "" \/ last_with p keys ∈ keys /\ HasPrefix (last_with p keys) p = true.
Proof.
  unfold last_with. induction keys as [|k keys IH] using rev_ind; [by left|]. rewrite foldl_app. simpl.
  destruct (HasPrefix k p) eqn:Hk; [right; split; [set_solver|done]|]. destruct IH as [?|[? ?]]; [by left|right]. split; [set_solver|done].
Qed.

Lemma last_with_found p keys k : k ∈ keys -> HasPrefix k p = true -> p <> "" -> last_with p keys <> "".
Proof.
  intros Hin Hk Hp. unfold last_with. induction keys as [|x keys IH] using rev_ind; [by apply elem_of_nil in Hin|].
  rewrite foldl_app. simpl. destruct (HasPrefix x p) eqn:Hx.
  - intros ->. destruct p; done.
  - apply IH. apply elem_of_app in Hin as [?|Hin%list_elem_of_singleton]; [done|]. congruence.
Qed.

(** The PMM version follows the configuration: of the versions in the answer,
    which are one or two, a cluster with a PMM 3 token gets one of the 3 series and
    any other cluster one of the 2 series, and an answer that has one is never
    refused; when the answer has one version of each series, the choice does not
    depend on the order in which Go visits the map. *)
Theorem getPMMVersion_spec (versions : gmap string string) (keys : list string) (isPMM3 : bool) :
  keys ≡ₚ (map_to_list versions).*1 -> (0 < size versions <= 2)%nat ->
  let series := if isPMM3 then "3." else "2." in
  match getPMMVersion versions keys isPMM3 with
  | Ok v => is_Some (versions !! v) /\ HasPrefix v series = true
  | Err _ => forall v, is_Some (versions !! v) -> HasPrefix v series = false
  | Panic => False
  end /\
  (forall keys' v v', keys' ≡ₚ keys ->
     (forall x y, is_Some (versions !! x) -> is_Some (versions !! y) -> HasPrefix x series = true -> HasPrefix y series = true -> x = y) ->
     getPMMVersion versions keys isPMM3 = Ok v -> getPMMVersion versions keys' isPMM3 = Ok v' -> v' = v).
Proof.
  intros Hkeys Hsize series.
  assert (forall v ks, ks ≡ₚ keys -> v ∈ ks <-> is_Some (versions !! v)) as Hin.
  { intros v ks ->. rewrite Hkeys, list_elem_of_fmap. split.
    - intros ([k i] & -> & Hi%elem_of_map_to_list). by exists i.
    - intros [i Hi]. exists (v, i). split; [done|]. by apply elem_of_map_to_list. }
  assert (forall ks, ks ≡ₚ keys -> match getPMMVersion versions ks isPMM3 with
    | Ok v => is_Some (versions !! v) /\ HasPrefix v series = true
    | Err _ => forall v, is_Some (versions !! v) -> HasPrefix v series = false
    | Panic => False end) as Hget.
  { intros ks Hks. unfold getPMMVersion. rewrite !bool_decide_eq_false_2 by lia.
    assert (forall p, p <> "" -> last_with p ks = "" -> forall v, is_Some (versions !! v) -> HasPrefix v p = false) as Hnone.
    { intros p Hp He v Hv%(Hin v ks Hks). destruct (HasPrefix v p) eqn:E; [|done]. by eapply last_with_found in E. }
    assert (forall p, last_with p ks <> "" -> is_Some (versions !! last_with p ks) /\ HasPrefix (last_with p ks) p = true) as Hsome.
    { intros p Hp. destruct (last_with_spec p ks) as [?|[Hl ?]]; [done|]. split; [by apply (Hin _ ks Hks)|done]. }
    subst series. destruct isPMM3; case_bool_decide; auto. }
  split; [by apply Hget|]. intros keys' v v' Hk Huniq Hv Hv'.
  pose proof (Hget keys ltac:(done)) as Hg. rewrite Hv in Hg. pose proof (Hget keys' Hk) as Hg'. rewrite Hv' in Hg'.
  destruct Hg, Hg'. by apply Huniq.
Qed.

(** ** A version update *)

Section update.
Context {W : Type} `{VersionEnv W} `{SecretClient W} `{StatusEnv W} `{RetryLib}.

(** Environment variables stay as they are. *)
Hypothesis env_get : forall n (w w' : W) r, sc_get n w = (w', r) -> forall k, vx_env k w' = vx_env k w.

Definition telemetry_on (w : W) : Prop := vx_env "DISABLE_TELEMETRY" w <> Some "true".
Definition default_endpoint (w : W) : string :=
  match vx_env "PERCONA_VS_FALLBACK_URI" w with
  | Some e => if bool_decide (e = "") then DefaultVersionServiceEndpoint else e
  | None => DefaultVersionServiceEndpoint
  end.
Definition own_endpoint (cr : PerconaXtraDBCluster) : string := up_VersionServiceEndpoint (spec_UpgradeOptions (cluster_Spec cr)).

Lemma telemetryEnabled_run (w w' : W) b : telemetryEnabled w = (w', Ok b) -> w' = w /\ (b = true <-> telemetry_on w).
Proof.
  unfold telemetryEnabled, gets, mbind, M_bind, mret, M_ret. intros [= <- <-]. split; [done|]. unfold telemetry_on.
  destruct (vx_env _ w) as [v|]; [|done]. rewrite negb_true_iff, bool_decide_eq_false. split; congruence.
Qed.

(** The two cases of [getNewVersions]. *)
Lemma getNewVersions_run cr (w w' : W) dv : getNewVersions cr w = (w', Ok dv) ->
  (telemetry_on w /\ (versionUpgradeEnabled cr = false \/ own_endpoint cr <> default_endpoint w) -> dv = no_versions) /\
  (~ telemetry_on w \/ versionUpgradeEnabled cr = true /\ own_endpoint cr = default_endpoint w ->
   exists w1 vm isPMM3, getVersionMeta cr w = (w, Ok vm) /\ isPMM3Configured cr w = (w1, Ok isPMM3) /\
     (forall k, vx_env k w1 = vx_env k w) /\ GetExactVersion cr (own_endpoint cr) vm isPMM3 w1 = (w', Ok dv)).
Proof.
  unfold getNewVersions. intros Hrun. apply bind_inv_Ok in Hrun as (w1 & vm & Hg1%wrap_inv_Ok & Hrun).
  assert (w1 = w) as -> by (unfold getVersionMeta, mbind, M_bind, gets in Hg1; destruct (vx_env "WATCH_NAMESPACE" w); [by injection Hg1 as <- _|done]).
  apply bind_inv_Ok in Hrun as (w2 & endpoint & Hg2 & Hrun).
  assert (w2 = w /\ endpoint = default_endpoint w) as [-> ->] by (unfold GetDefaultVersionServiceEndpoint, mbind, M_bind, gets, mret, M_ret in Hg2; by injection Hg2 as <- <-).
  apply bind_inv_Ok in Hrun as (w3 & pmm3 & Hg3%wrap_inv_Ok & Hrun).
  assert (forall k, vx_env k w3 = vx_env k w) as Henv.
  { unfold isPMM3Configured, mbind, M_bind, try in Hg3. destruct (sc_get _ w) as [wx rx] eqn:Ex. pose proof (env_get _ _ _ _ Ex) as He.
    destruct rx as [s|e|]; [|destruct (IsNotFound e)|]; try done; by injection Hg3 as <- _. }
  apply bind_inv_Ok in Hrun as (w4 & tel & Hg4 & Hrun). apply telemetryEnabled_run in Hg4 as [-> Htel].
  unfold telemetry_on in *. rewrite Henv in Htel. fold (own_endpoint cr) in Hrun.
  destruct (tel && _) eqn:Eb.
  - apply bind_inv_Ok in Hrun as (w5 & x & _ & Hrun). unfold mret, M_ret in Hrun. injection Hrun as <- <-. split; [done|].
    apply andb_true_iff in Eb as [-> Hor]. intros [Hno|[Hen Heq]]; [tauto|]. rewrite Hen in Hor. simpl in Hor.
    rewrite bool_decide_eq_true_2 in Hor by done. done.
  - apply wrap_inv_Ok in Hrun. split; [|intros _; by eexists _, _, _].
    intros [Hon Hor]. apply Htel in Hon as ->. simpl in Eb. apply orb_false_iff in Eb as [E1%negb_false_iff E2%negb_false_iff].
    apply bool_decide_eq_true in E2. destruct Hor; congruence.
Qed.

(** What a successful update leaves in memory. *)
Lemma ensurePXCVersion_run (s s' : VW W) : ensurePXCVersion s = (s', Ok tt) -> versionUpgradeEnabled (vw_cr s) = true ->
  exists w1 dv, getNewVersions (vw_cr s) (vw_w s) = (w1, Ok dv) /\
    vw_cr s' = (vw_cr s) <| cluster_Spec ::= with_images dv |> <| cluster_Status ::= with_versions dv |>.
Proof.
  unfold ensurePXCVersion. intros Hrun Hen. apply bind_inv_Ok in Hrun as (s1 & cr & Hg1 & Hrun).
  unfold getCr, gets in Hg1. injection Hg1 as <- <-. destruct (_ && _); [done|]. rewrite Hen in Hrun. cbn [negb] in Hrun.
  apply bind_inv_Ok in Hrun as (s2 & dv & Hg2%wrap_inv_Ok & Hrun). unfold onV in Hg2.
  destruct (getNewVersions _ _) as [w1 r1] eqn:E1. injection Hg2 as <- ->. exists w1, dv. split; [done|].
  assert (forall A (m : M W A) (x x' : VW W) a, onV m x = (x', Ok a) -> vw_cr x' = vw_cr x) as HonV.
  { intros A m x x' a. unfold onV. destruct (m (vw_w x)). by intros [= <- _]. }
  apply bind_inv_Ok in Hrun as (s3 & [] & Hg3 & Hrun). unfold setCr, modify in Hg3. injection Hg3 as <-.
  apply bind_inv_Ok in Hrun as (s4 & stored & Hg4%wrap_inv_Ok & Hrun). apply bind_inv_Ok in Hrun as (s5 & [] & Hg5 & Hrun).
  unfold setCr, modify in Hg5. injection Hg5 as <-.
  apply bind_inv_Ok in Hrun as (s6 & [] & Hg6%wrap_inv_Ok & Hrun). apply HonV in Hg6, Hrun. rewrite Hrun, Hg6. done.
Qed.

Definition pxc_image (cr : PerconaXtraDBCluster) : option string := (fun p => pod_Image (pxc_PodSpec p)) <$> spec_PXC (cluster_Spec cr).

Lemma with_images_pxc dv s : spec_PXC (with_images dv s) = (fun p => p <| pxc_PodSpec -> pod_Image := PXCImage dv |>) <$> spec_PXC s.
Proof. destruct s. reflexivity. Qed.

Lemma updated_pxc_image cr dv : spec_PXC (cluster_Spec cr) <> None ->
  pxc_image (cr <| cluster_Spec ::= with_images dv |> <| cluster_Status ::= with_versions dv |>) = Some (PXCImage dv).
Proof.
  intros Hpxc. unfold pxc_image. replace (spec_PXC (cluster_Spec _)) with (spec_PXC (with_images dv (cluster_Spec cr))) by (by destruct cr).
  rewrite with_images_pxc. destruct (spec_PXC (cluster_Spec cr)) as [[? ? ? []]|]; done.
Qed.

(** With an own endpoint of the version service and telemetry, which is on by
    default, an automatic update erases the images.  The request only goes to the
    default endpoint, as telemetry; its answer is dropped, and the update writes the
    empty versions: the image of the database becomes the empty string, and so does
    its version in the status. *)
Theorem own_endpoint_erases_images (s s' : VW W) :
  telemetry_on (vw_w s) -> versionUpgradeEnabled (vw_cr s) = true ->
  own_endpoint (vw_cr s) <> default_endpoint (vw_w s) -> spec_PXC (cluster_Spec (vw_cr s)) <> None ->
  ensurePXCVersion s = (s', Ok tt) ->
  pxc_image (vw_cr s') = Some "" /\ app_Version (cs_PXC (cluster_Status (vw_cr s'))) = "".
Proof.
  intros Htel Hen Hown Hpxc Hrun. apply ensurePXCVersion_run in Hrun as (w1 & dv & Hget & ->); [|done].
  apply getNewVersions_run in Hget as [Hno _]. rewrite (Hno (conj Htel (or_intror Hown))). split.
  - by rewrite updated_pxc_image.
  - by destruct (vw_cr s) as [? ? [[] [] [] ? ? ? ? ? ? ? ? [] [] []]].
Qed.

(** Where the request goes: an endpoint of the old check service is replaced. *)
Definition asked_endpoint (cr : PerconaXtraDBCluster) (w : W) : string :=
  if Contains (own_endpoint cr) "https://check.percona.com/versions" then default_endpoint w else own_endpoint cr.

(** The versions of an answer are those of its first matrix, with their images. *)
Lemma dep_version_Ok m keys isPMM3 dv : dep_version m keys isPMM3 = Ok dv ->
  mx_Pxc m = {[ PXCVersion dv := PXCImage dv ]} /\ mx_Backup m = {[ BackupVersion dv := BackupImage dv ]} /\
  mx_Proxysql m = {[ ProxySqlVersion dv := ProxySqlImage dv ]} /\ mx_Haproxy m = {[ HAProxyVersion dv := HAProxyImage dv ]} /\
  mx_LogCollector m = {[ LogCollectorVersion dv := LogCollectorImage dv ]} /\
  getPMMVersion (mx_Pmm m) keys isPMM3 = Ok (PMMVersion dv) /\ PMMImage dv = image_of (mx_Pmm m) (PMMVersion dv).
Proof.
  unfold dep_version. destruct (getVersion (mx_Pxc m)) as [v1| |] eqn:E1; [|done..]. simpl.
  destruct (getVersion (mx_Backup m)) as [v2| |] eqn:E2; [|done..]. simpl. destruct (getPMMVersion _ _ _) as [v3| |] eqn:E3; [|done..]. simpl.
  destruct (getVersion (mx_Proxysql m)) as [v4| |] eqn:E4; [|done..]. simpl. destruct (getVersion (mx_Haproxy m)) as [v5| |] eqn:E5; [|done..]. simpl.
  destruct (getVersion (mx_LogCollector m)) as [v6| |] eqn:E6; [|done..]. simpl. intros [= <-]. simpl.
  apply getVersion_Ok in E1 as [i1 ->], E2 as [i2 ->], E4 as [i4 ->], E5 as [i5 ->], E6 as [i6 ->].
  unfold image_of. by rewrite !lookup_singleton_eq.
Qed.

Lemma GetExactVersion_run cr vm isPMM3 (w w' : W) dv : versionUpgradeEnabled cr = true ->
  GetExactVersion cr (own_endpoint cr) vm isPMM3 w = (w', Ok dv) ->
  exists url m rest, vx_url (asked_endpoint cr w) = Ok url /\ vx_Apply url vm (spec_CRVersion (cluster_Spec cr)) w = (w', Ok (m :: rest)) /\
    dep_version m (vx_keys (mx_Pmm m) w') isPMM3 = Ok dv.
Proof.
  intros Hen. unfold GetExactVersion. intros (w1 & endpoint & He & (w2 & url & Hu & (w3 & versions & Happly & Hrun)%bind_inv_Ok)%bind_inv_Ok)%bind_inv_Ok.
  assert (w1 = w /\ endpoint = asked_endpoint cr w) as [-> ->].
  { unfold asked_endpoint. destruct (Contains _ _); [|by injection He as <- <-].
    unfold GetDefaultVersionServiceEndpoint, mbind, M_bind, gets, mret, M_ret in He. by injection He as <- <-. }
  unfold lift in Hu. injection Hu as <- Hu. rewrite Hen in Hrun. cbn [negb] in Hrun. destruct versions as [|m rest]; [done|].
  apply bind_inv_Ok in Hrun as (w4 & keys & Hk & Hrun). unfold gets in Hk. injection Hk as <- <-. unfold lift in Hrun. injection Hrun as <- Hdep.
  by exists url, m, rest.
Qed.

End update.

(** ** The registry of the jobs *)

Definition job_of (e : VersionJob) : string := match e with TelemetryJob _ jn | EnsureVersionJob _ jn => jn end.

(** The entries of the scheduler are just the registered jobs. *)
Record jobs_ok (c : VersionCrons) : Prop := {
  jo_entry jn s : vc_jobs c !! jn = Some s -> exists e, vc_entries c !! sched_ID s = Some e /\ job_of e = jn;
  jo_job id e : vc_entries c !! id = Some e -> id < vc_next c /\ exists s, vc_jobs c !! job_of e = Some s /\ sched_ID s = id }.

Lemma delete_job_ok jn c : jobs_ok c -> jobs_ok (deleteCronJob jn c) /\ vc_jobs (deleteCronJob jn c) !! jn = None.
Proof.
  intros [He Hj]. unfold deleteCronJob. destruct (vc_jobs c !! jn) as [job|] eqn:E; [|done]. simpl.
  split; [split; simpl|apply lookup_delete_eq].
  - intros jn' s Hs. apply lookup_delete_Some in Hs as [Hne Hs]. destruct (He jn' s Hs) as (e & Hid & Hn). exists e. split; [|done].
    rewrite lookup_delete_ne; [done|]. intros Heq. destruct (He jn job E) as (e' & Hid' & Hn'). congruence.
  - intros id e Hid. apply lookup_delete_Some in Hid as [Hne Hid]. destruct (Hj id e Hid) as (? & s & Hs & Hsid). split; [done|].
    exists s. split; [|done]. rewrite lookup_delete_ne; [done|]. intros Heq. rewrite <- Heq, E in Hs. injection Hs as ->. done.
Qed.

Lemma add_job_ok e sch c : jobs_ok c -> vc_jobs c !! job_of e = None ->
  jobs_ok (mkVersionCrons (<[vc_next c := e]> (vc_entries c)) (vc_next c + 1) (<[job_of e := mkSchedule (vc_next c) sch]> (vc_jobs c))).
Proof.
  intros [He Hj] Hnone. split; simpl.
  - intros jn s [[<- <-]|[Hne Hs]]%lookup_insert_Some; [exists e; by rewrite lookup_insert_eq|].
    destruct (He jn s Hs) as (e' & Hid & Hn). exists e'. split; [|done]. rewrite lookup_insert_ne; [done|].
    apply Hj in Hid as [? _]. lia.
  - intros id e' [[<- <-]|[Hne Hid]]%lookup_insert_Some; [split; [lia|]; exists (mkSchedule (vc_next c) sch); by rewrite lookup_insert_eq|].
    destruct (Hj id e' Hid) as (? & s & Hs & Hsid). split; [lia|]. exists s. split; [|done]. rewrite lookup_insert_ne; [done|]. congruence.
Qed.

Section jobs.
Context {W : Type} `{VersionEnv W} `{SecretClient W} `{MysqlEnv W} `{QueryEnv W} `{ReplEnv W} `{StatusEnv W} `{RandEnv W}
  `{RetryLib} `{VersionLib} `{ApiLibs}.

Definition registry_ok (s : JW W) : Prop := jobs_ok (jw_crons s).

Lemma keeps_onJ {A} (m : M W A) : keeps registry_ok (onJ m).
Proof. intros s Hs. unfold onJ. by destruct (m (jw_w s)). Qed.
Lemma version_keeps_delete jn : keeps registry_ok (modJobs (W := W) (deleteCronJob jn)).
Proof. intros s Hs. by apply delete_job_ok. Qed.

(** A job is replaced: the old one goes, the new one is added under its name. *)
Lemma keeps_replace e sch (rest : M (JW W) unit) : keeps registry_ok rest ->
  keeps registry_ok (_ ← modJobs (W := W) (deleteCronJob (job_of e)); id ← AddVersionJob sch e; _ ← store_job (job_of e) id sch; rest).
Proof.
  intros Hrest s Hs. destruct (delete_job_ok (job_of e) _ Hs) as [Hok Hnone].
  unfold modJobs, modify, AddVersionJob, store_job, getJobs, gets. unfold mbind at 1 2, M_bind at 1 2.
  destruct (negb _); [done|]. apply Hrest. unfold registry_ok. simpl. by apply add_job_ok.
Qed.

Lemma keeps_load sv n jn : keeps registry_ok (load_cluster (W := W) sv n jn).
Proof.
  unfold load_cluster. apply keeps_bind; [apply keeps_try, keeps_onJ|]. intros [e|cr].
  - apply keeps_bind; [destruct (IsNotFound e); [apply version_keeps_delete|apply keeps_ret]|intros []; apply keeps_ret].
  - destruct (negb _); [apply keeps_ret|]. destruct (CheckNSetDefaults sv cr) as [cr' []]; keeps_solve.
Qed.

Lemma keeps_telemetry cr : keeps registry_ok (scheduleTelemetryRequests (W := W) cr).
Proof.
  unfold scheduleTelemetryRequests. apply keeps_bind; [apply keeps_gets|intros c]. apply keeps_bind; [apply keeps_onJ|intros tel].
  destruct (negb tel); [apply version_keeps_delete|]. apply keeps_bind; [apply keeps_onJ|intros found].
  apply keeps_bind; [destruct found; [apply keeps_ret|apply keeps_bind; [apply keeps_onJ|intros; apply keeps_ret]]|intros sch].
  destruct (_ && _); [apply keeps_ret|]. destruct (_ && _); [apply keeps_ret|].
  apply (keeps_replace (TelemetryJob (meta_key (cluster_Meta cr)) (telemetryJobName cr)) sch).
  apply keeps_bind; [apply keeps_try, keeps_onJ|intros; apply keeps_ret].
Qed.

Lemma keeps_ensure cr : keeps registry_ok (scheduleEnsurePXCVersion (W := W) cr).
Proof.
  unfold scheduleEnsurePXCVersion. apply keeps_bind; [apply keeps_gets|intros c]. apply keeps_bind; [apply keeps_onJ|intros tel].
  destruct (_ || _); [apply version_keeps_delete|]. case_bool_decide; [apply keeps_ret|].
  intros s Hs. pose proof (keeps_replace (EnsureVersionJob (meta_key (cluster_Meta cr)) (versionJobName cr))
    (up_Schedule (spec_UpgradeOptions (cluster_Spec cr))) (mret tt) (keeps_ret _ _) s Hs) as Hk.
  revert Hk. unfold modJobs, modify, AddVersionJob, store_job, getJobs, gets, mbind, M_bind. simpl. by destruct (negb _).
Qed.

Lemma keeps_run_job sv e : keeps registry_ok (run_job (W := W) sv e).
Proof.
  destruct e as [n jn|n jn]; simpl.
  - apply keeps_bind; [apply keeps_load|]. intros [cr|]; [|apply keeps_ret].
    apply keeps_bind; [apply keeps_try, keeps_onJ|intros; apply keeps_ret].
  - apply keeps_bind; [apply keeps_gets|intros wt]. case_bool_decide; [apply keeps_ret|].
    apply keeps_bind; [by intros s Hs|intros _]. apply keeps_bind; [apply keeps_load|]. intros [cr|]; [|apply keeps_ret].
    apply keeps_bind; [apply keeps_try, keeps_onJ|intros; apply keeps_ret].
Qed.

(** The scheduler never runs a job twice.  Whatever a pass schedules and whatever
    the jobs themselves do, however they end, each entry of the scheduler is the one
    registered under the name of its job, and each registered job has its entry: a
    changed schedule leaves no entry behind. *)
Theorem version_jobs_registered (cr : PerconaXtraDBCluster) sv e :
  keeps registry_ok (scheduleTelemetryRequests (W := W) cr) /\ keeps registry_ok (scheduleEnsurePXCVersion (W := W) cr) /\
  keeps registry_ok (run_job (W := W) sv e).
Proof. split_and!; [apply keeps_telemetry|apply keeps_ensure|apply keeps_run_job]. Qed.

(** A second version job of a cluster does nothing until a pass is done. *)
Theorem version_job_waits_for_pass sv n jn jn' (s s' : JW W) :
  run_job sv (EnsureVersionJob n jn) s = (s', Ok tt) -> run_job sv (EnsureVersionJob n jn') s' = (s', Ok tt).
Proof.
  intros Hrun. assert (n ∈ jw_wait s') as Hin.
  { cbn [run_job] in Hrun. apply bind_inv_Ok in Hrun as (s1 & wt & Hg1 & Hrun). unfold gets in Hg1. injection Hg1 as <- <-.
    case_bool_decide as Hw; [unfold mret, M_ret in Hrun; by injection Hrun as <-|].
    assert (forall A (m : M W A), keeps (fun x => n ∈ jw_wait x) (onJ m)) as HJ by (intros A m x Hx; unfold onJ; by destruct (m (jw_w x))).
    assert (keeps (fun x => n ∈ jw_wait x) (load_cluster (W := W) sv n jn)) as HL.
    { unfold load_cluster. apply keeps_bind; [apply keeps_try, HJ|]. intros [e|cr].
      - apply keeps_bind; [destruct (IsNotFound e); [by intros x|apply keeps_ret]|intros []; apply keeps_ret].
      - destruct (negb _); [apply keeps_ret|]. destruct (CheckNSetDefaults sv cr) as [cr' []]; keeps_solve. }
    apply bind_inv_Ok in Hrun as (s2 & u & Hg2 & Hrun). unfold modify in Hg2. injection Hg2 as <- <-.
    match type of Hrun with ?m _ = _ => assert (keeps (fun x => n ∈ jw_wait x) m) as Hk end.
    { apply keeps_bind; [exact HL|]. intros [cr|]; [|apply keeps_ret]. apply keeps_bind; [apply keeps_try, HJ|intros; apply keeps_ret]. }
    specialize (Hk (mkJW (jw_w s) (jw_crons s) ({[n]} ∪ jw_wait s)) ltac:(simpl; set_solver)). by rewrite Hrun in Hk. }
  cbn [run_job]. unfold gets, mbind, M_bind. by rewrite bool_decide_eq_true_2.
Qed.
End jobs.
