(* ===== verification/Services.v ===== *)
(** * Services: [pkg/pxc/service.go], [controller.go] and [replication.go]

    The services of a cluster, and how the controller creates and updates them.  The
    annotations of a service are the map of the custom resource itself: what the
    controller writes into them shows in the object in memory, and in the services
    that are built from it afterwards.  (A map that is empty is taken to be nil, as
    it is when the field is left out; a nil map is replaced, not shared.) *)

From S2P Require Import Prelude GoStrings ApiTypes KubeApi Naming RestoreTypes SmartUpdate.

Record ServicePort := mkPort { sp_Name : string; sp_Port : Z; sp_TargetPort : option Z }.

Record ServiceSpec := mkServiceSpec {
  sv_Type : string;
  sv_Ports : list ServicePort;
  sv_Selector : gmap string string;
  sv_SourceRanges : list string;
  sv_LoadBalancerIP : string;
  sv_LoadBalancerClass : option string;
  sv_ClusterIP : string;
  sv_ExternalTrafficPolicy : string;
  sv_InternalTrafficPolicy : option string;
  sv_PublishNotReady : bool;
  sv_HealthCheckNodePort : Z }.

(** [corev1.Service], with the UIDs of its owners. *)
Record Service := mkService {
  svc_Name : string;
  svc_Namespace : string;
  svc_Labels : gmap string string;
  svc_Annotations : gmap string string;
  svc_Owners : list string;
  svc_Spec : ServiceSpec }.

Definition svc_key (s : Service) : NamespacedName := mkNN (svc_Namespace s) (svc_Name s).

Definition ClusterIP : string := "ClusterIP".
Definition NodePort : string := "NodePort".
Definition LoadBalancer : string := "LoadBalancer".
Definition ClusterIPNone : string := "None".

Definition plain_spec (ports : list ServicePort) (selector : gmap string string) : ServiceSpec :=
  mkServiceSpec "" ports selector [] "" None "" "" None false 0.

(** ** Services of the cluster ([service.go]) *)

Definition LabelsPXC (cr : PerconaXtraDBCluster) : gmap string string := componentLabels cr "pxc".
Definition LabelsProxySQL (cr : PerconaXtraDBCluster) : gmap string string := componentLabels cr "proxysql".
Definition LabelsHAProxy (cr : PerconaXtraDBCluster) : gmap string string := componentLabels cr "haproxy".

(** [fillServiceLabels]: labels that are there stay. *)
Definition fillServiceLabels (labels serviceLabels : gmap string string) : gmap string string := labels ∪ serviceLabels.

Definition tolerate_unready : string := "service.alpha.kubernetes.io/tolerate-unready-endpoints".
Definition headlessServiceAnnotation : string := "percona.com/headless-service".

Definition GetLoadBalancerClass (e : ServiceExpose) : option (option string) :=
  if negb (bool_decide (exp_Type e = LoadBalancer)) then None
  else if bool_decide (exp_LoadBalancerClass e = Some "") then None else Some (exp_LoadBalancerClass e).

(** [naming.selector] *)
Definition old_selector (cr : PerconaXtraDBCluster) (component : string) : gmap string string :=
  {[ "app.kubernetes.io/name" := "percona-xtradb-cluster"; "app.kubernetes.io/instance" := cluster_Name cr;
     "app.kubernetes.io/component" := component ]}.

Section templates.
Context `{VersionLib}.

Definition from_version (cr : PerconaXtraDBCluster) (v : string) : res bool := c ← CompareVersionWith cr v; Ok (bool_decide (0 <= c)).

Definition selector (cr : PerconaXtraDBCluster) (component : string) : res (gmap string string) :=
  old ← before_1_16 cr;
  Ok (if old : bool then old_selector cr component else componentLabels cr component).

Definition LabelsExternalService (cr : PerconaXtraDBCluster) : res (gmap string string) := selector cr "external-service".

(** The ports of the two headless services of the database. *)
Definition pxc_ports (cr : PerconaXtraDBCluster) : res (list ServicePort) :=
  b6 ← from_version cr "1.6.0";
  b9 ← from_version cr "1.9.0";
  Ok ([mkPort "mysql" 3306 None] ++ (if b6 : bool then [mkPort "mysql-admin" 33062 None] else []) ++
      (if b9 : bool then [mkPort "mysqlx" 33060 None] else [])).

(** From 1.14.0 on the annotations are those of the custom resource. *)
Definition expose_meta (cr : PerconaXtraDBCluster) (svc : Service) : res Service :=
  b14 ← from_version cr "1.14.0";
  Ok (match spec_PXC (cluster_Spec cr) with
      | Some pxc => if b14 : bool
                    then svc <| svc_Annotations := exp_Annotations (pxc_Expose pxc) |>
                             <| svc_Labels ::= fun l => fillServiceLabels l (exp_Labels (pxc_Expose pxc)) |>
                    else svc
      | None => svc
      end).

Definition NewServicePXC (cr : PerconaXtraDBCluster) : res Service :=
  sel ← selector cr "pxc";
  ports ← pxc_ports cr;
  expose_meta cr (mkService (cluster_Name cr +:+ "-pxc") (cluster_Namespace cr) (LabelsPXC cr) ∅ []
    ((plain_spec ports sel) <| sv_ClusterIP := ClusterIPNone |>)).

(** The annotation for unready pods became a field in 1.10.0. *)
Definition unready_meta (cr : PerconaXtraDBCluster) (svc : Service) : res Service :=
  b10 ← from_version cr "1.10.0";
  Ok (if b10 : bool then svc <| svc_Spec -> sv_PublishNotReady := true |> <| svc_Annotations ::= delete tolerate_unready |> else svc).

Definition NewServicePXCUnready (cr : PerconaXtraDBCluster) : res Service :=
  sel ← selector cr "pxc";
  ports ← pxc_ports cr;
  svc ← unready_meta cr (mkService (cluster_Name cr +:+ "-pxc-unready") (cluster_Namespace cr) (LabelsPXC cr)
          {[ tolerate_unready := "true" ]} [] ((plain_spec ports sel) <| sv_ClusterIP := ClusterIPNone |>));
  expose_meta cr svc.

Definition NewServiceProxySQLUnready (cr : PerconaXtraDBCluster) : res Service :=
  sel ← selector cr "proxysql";
  b6 ← from_version cr "1.6.0";
  let ports := [mkPort "mysql" 3306 None; mkPort "proxyadm" 6032 None] ++ (if b6 : bool then [mkPort "mysql-admin" 33062 None] else []) in
  unready_meta cr (mkService (cluster_Name cr +:+ "-proxysql-unready") (cluster_Namespace cr) (LabelsProxySQL cr)
    {[ tolerate_unready := "true" ]} [] ((plain_spec ports sel) <| sv_ClusterIP := ClusterIPNone |>)).

(** What the services of the proxies have in common: the type, the traffic policies
    and the headless mode follow the way the service is exposed; without a proxy in
    the specification the defaults remain. *)
Definition exposed_type (e : option ServiceExpose) : string :=
  match e with Some e => if bool_decide (exp_Type e = "") then ClusterIP else exp_Type e | None => ClusterIP end.

Definition or_policy (policy : option string) : string :=
  match policy with Some p => if bool_decide (p = "") then "Cluster" else p | None => "Cluster" end.

Definition expose_spec (e : option ServiceExpose) (b18 : bool) (ranges : list string) (spec : ServiceSpec) : ServiceSpec :=
  let t := exposed_type e in
  spec <| sv_Type := t |> <| sv_SourceRanges := ranges |>
    <| sv_LoadBalancerIP := match e with Some e => exp_LoadBalancerIP e | None => "" end |>
    <| sv_ExternalTrafficPolicy := if bool_decide (t = LoadBalancer \/ t = NodePort)
                                   then or_policy (exp_ExternalTrafficPolicy <$> e) else "" |>
    <| sv_InternalTrafficPolicy := if bool_decide (t = LoadBalancer \/ t = NodePort \/ t = ClusterIP)
                                   then Some (or_policy (exp_InternalTrafficPolicy <$> e)) else None |>
    <| sv_ClusterIP := match e with
                       | Some e => if bool_decide (exp_Annotations e !! headlessServiceAnnotation = Some "true" /\ t = ClusterIP)
                                   then ClusterIPNone else ""
                       | None => ""
                       end |>
    <| sv_LoadBalancerClass := match e with
                               | Some e => if b18 then default None (GetLoadBalancerClass e) else None
                               | None => None
                               end |>.

Definition proxy_service (cr : PerconaXtraDBCluster) (name : string) (labels : gmap string string) (e : option ServiceExpose)
    (b18 : bool) (ranges : list string) (ports : list ServicePort) (sel : gmap string string) : Service :=
  mkService name (cluster_Namespace cr)
    (match e with Some e => fillServiceLabels labels (exp_Labels e) | None => labels end)
    (match e with Some e => exp_Annotations e | None => ∅ end) []
    (expose_spec e b18 ranges (plain_spec ports sel)).

Definition ranges_of (e : option ServiceExpose) : list string :=
  match e with Some e => exp_LoadBalancerSourceRanges e | None => [] end.

Definition NewServiceProxySQL (cr : PerconaXtraDBCluster) : res Service :=
  sel ← selector cr "proxysql";
  b17 ← from_version cr "1.17.0";
  b18 ← from_version cr "1.18.0";
  let e := ps_Expose <$> spec_ProxySQL (cluster_Spec cr) in
  Ok (proxy_service cr (cluster_Name cr +:+ "-proxysql") (LabelsProxySQL cr) e b18 (ranges_of e)
        ([mkPort "mysql" 3306 None; mkPort "mysql-admin" 33062 None] ++ (if b17 : bool then [mkPort "stats" 6070 None] else [])) sel).

Definition NewServiceHAProxy (cr : PerconaXtraDBCluster) : res Service :=
  sel ← selector cr "haproxy";
  b17 ← from_version cr "1.17.0";
  b18 ← from_version cr "1.18.0";
  let e := ha_ExposePrimary <$> spec_HAProxy (cluster_Spec cr) in
  Ok (proxy_service cr (cluster_Name cr +:+ "-haproxy") (LabelsHAProxy cr) e b18 (ranges_of e)
        ([mkPort "mysql" 3306 (Some 3306); mkPort "proxy-protocol" 3309 (Some 3309); mkPort "mysql-admin" 33062 (Some 33062);
          mkPort "mysqlx" 33060 (Some 33060)] ++ (if b17 : bool then [mkPort "stats" 8404 (Some 8404)] else [])) sel).

(** The missing way to expose the replicas is filled in, in the object in memory;
    a load balancer without source ranges has those of the primary. *)
Definition default_replicas (cr : PerconaXtraDBCluster) : PerconaXtraDBCluster :=
  cr <| cluster_Spec -> spec_HAProxy ::= fmap (fun h => match ha_ExposeReplicas h with
       | Some _ => h
       | None => h <| ha_ExposeReplicas := Some (mkExpose true "" None [] ∅ ∅ "" "" "") |>
       end) |>.

Definition NewServiceHAProxyReplicas (cr : PerconaXtraDBCluster) : res (PerconaXtraDBCluster * Service) :=
  let cr := default_replicas cr in
  sel ← selector cr "haproxy";
  b18 ← from_version cr "1.18.0";
  let e := h ← spec_HAProxy (cluster_Spec cr); ha_ExposeReplicas h in
  let ranges := match spec_HAProxy (cluster_Spec cr), e with
                | Some h, Some e =>
                    if negb (bool_decide (exp_LoadBalancerSourceRanges e = [])) then exp_LoadBalancerSourceRanges e
                    else if bool_decide (exp_Type e = LoadBalancer) then exp_LoadBalancerSourceRanges (ha_ExposePrimary h) else []
                | _, _ => []
                end in
  Ok (cr, proxy_service cr (cluster_Name cr +:+ "-haproxy-replicas") (LabelsHAProxy cr) e b18 ranges
            [mkPort "mysql-replicas" 3306 (Some 3307)] sel).

(** The service of one pod ([replication.go]). *)
Definition traffic_policy (p : string) : string := if bool_decide (p = "Local" \/ p = "Cluster") then p else "Cluster".

Definition NewExposedPXCService (svcName : string) (cr : PerconaXtraDBCluster) : res Service :=
  pxc ← deref (spec_PXC (cluster_Spec cr));
  let e := pxc_Expose pxc in
  labels ← LabelsExternalService cr;
  b18 ← from_version cr "1.18.0";
  let t := exp_Type e in
  Ok (mkService svcName (cluster_Namespace cr) labels (exp_Annotations e) []
        ((plain_spec [mkPort "mysql" 3306 None] {[ "statefulset.kubernetes.io/pod-name" := svcName ]})
           <| sv_SourceRanges := exp_LoadBalancerSourceRanges e |>
           <| sv_ExternalTrafficPolicy := if bool_decide (t = NodePort \/ t = LoadBalancer)
                                          then traffic_policy (exp_ExternalTrafficPolicy e) else "" |>
           <| sv_InternalTrafficPolicy := if bool_decide (t = NodePort \/ t = LoadBalancer \/ t = ClusterIP)
                                          then Some (traffic_policy (exp_InternalTrafficPolicy e)) else None |>
           <| sv_Type := if bool_decide (t = NodePort \/ t = LoadBalancer) then t else ClusterIP |>
           <| sv_LoadBalancerClass := if b18 : bool then default None (GetLoadBalancerClass e) else None |>)).
End templates.

(** ** Creating, updating and removing services: [controller.go], [replication.go]

    An object is written when the hash of its specification, which an annotation of
    the stored object has, or its annotations and labels differ. *)

(** The API server's services; [sv_hash] is the encoding of a specification
    ([json.Marshal], then base64), [sv_ownerRef] what [k8s.OwnerRef] needs. *)
Class ServiceEnv (W : Type) := {
  sv_get : NamespacedName -> M W Service;
  sv_create : Service -> M W unit;
  sv_update : Service -> M W unit;
  sv_delete : NamespacedName -> M W unit;
  sv_list : string -> gmap string string -> M W (list Service);
  sv_hash : ServiceSpec -> res string;
  sv_ownerRef : PerconaXtraDBCluster -> res string;
  sv_listRestores : string -> M W (list Restore) }.

Definition last_config_hash : string := "percona.com/last-config-hash".

(** ** Maps *)

(** [mergeMaps]: what [x] has stays. *)
Definition mergeMaps (x y : gmap string string) : gmap string string := x ∪ y.

Definition compareMaps (x y : gmap string string) : bool :=
  bool_decide (size x = size y) && bool_decide (map_Forall (fun k v => y !! k = Some v) x).

Definition isObjectMetaEqual (a b : Service) : bool :=
  compareMaps (svc_Annotations a) (svc_Annotations b) && compareMaps (svc_Labels a) (svc_Labels b).

(** The loop over the names to ignore: a value the old object has is taken over. *)
Definition take_ignored (names : list string) (new old : gmap string string) : gmap string string :=
  foldl (fun m k => match old !! k with Some v => <[k := v]> m | None => m end) new names.

Definition setIgnoredAnnotationsAndLabels (cr : PerconaXtraDBCluster) (obj old : Service) : Service :=
  obj <| svc_Annotations ::= fun m => take_ignored (spec_IgnoreAnnotations (cluster_Spec cr)) m (svc_Annotations old) |>
      <| svc_Labels ::= fun m => take_ignored (spec_IgnoreLabels (cluster_Spec cr)) m (svc_Labels old) |>.

Section services.
Context {W : Type} `{ServiceEnv W} `{SmartEnv W} `{VersionLib}.

(** [createOrUpdate] on a service; the object comes back as it was sent. *)
Definition createOrUpdate (svc : Service) : M W Service :=
  let svc := svc <| svc_Annotations ::= delete last_config_hash |> in
  hash ← lift (wrap_res "calculate object hash" (sv_hash (svc_Spec svc)));
  let svc := svc <| svc_Annotations ::= <[last_config_hash := hash]> |> in
  got ← try (sv_get (svc_key svc));
  match got with
  | inl e => if IsNotFound e then _ ← sv_create svc; mret svc else fail (ErrWrap "get object" e)
  | inr old =>
      if negb (bool_decide (default "" (svc_Annotations old !! last_config_hash) = hash)) || negb (isObjectMetaEqual svc old) then
        let svc := svc <| svc_Spec -> sv_ClusterIP := sv_ClusterIP (svc_Spec old) |> in
        let svc := if bool_decide (sv_Type (svc_Spec svc) = LoadBalancer)
                   then svc <| svc_Spec -> sv_HealthCheckNodePort := sv_HealthCheckNodePort (svc_Spec old) |> else svc in
        _ ← sv_update svc; mret svc
      else mret svc
  end.

Definition createOrUpdateService (cr : PerconaXtraDBCluster) (svc : Service) (saveOldMeta : bool) : M W Service :=
  owner ← lift (wrap_res "set controller reference" (sv_ownerRef cr));
  let svc := svc <| svc_Owners ::= fun l => l ++ [owner] |> in
  if negb saveOldMeta && bool_decide (spec_IgnoreAnnotations (cluster_Spec cr) = []) && bool_decide (spec_IgnoreLabels (cluster_Spec cr) = [])
  then createOrUpdate svc else
  got ← try (sv_get (svc_key svc));
  match got with
  | inl e => if IsNotFound e then createOrUpdate svc else fail (ErrWrap "get object" e)
  | inr old =>
      let svc := if saveOldMeta
                 then svc <| svc_Annotations ::= fun m => mergeMaps m (svc_Annotations old) |>
                          <| svc_Labels ::= fun m => mergeMaps m (svc_Labels old) |>
                 else svc in
      createOrUpdate (setIgnoredAnnotationsAndLabels cr svc old)
  end.

Definition deleteServices (svcs : list Service) : M W unit :=
  for_each (fun s =>
    got ← try (sv_get (svc_key s));
    match got with
    | inl e => if IsNotFound e then mret tt else fail (ErrWrap ("get service: " +:+ svc_Name s) e)
    | inr _ => wrap ("delete service: " +:+ svc_Name s) (sv_delete (svc_key s))
    end) svcs.

(** ** The annotations that are shared with the custom resource *)

(** A map that is not nil is changed in place. *)
Definition shared (before after : gmap string string) : gmap string string := if bool_decide (before = ∅) then before else after.

Definition share_pxc (after : Service) (cr : PerconaXtraDBCluster) : PerconaXtraDBCluster :=
  cr <| cluster_Spec -> spec_PXC ::= fmap (fun p =>
          p <| pxc_Expose -> exp_Annotations := shared (exp_Annotations (pxc_Expose p)) (svc_Annotations after) |>) |>.
Definition share_haproxy (after : Service) (cr : PerconaXtraDBCluster) : PerconaXtraDBCluster :=
  cr <| cluster_Spec -> spec_HAProxy ::= fmap (fun h =>
          h <| ha_ExposePrimary -> exp_Annotations := shared (exp_Annotations (ha_ExposePrimary h)) (svc_Annotations after) |>) |>.
Definition share_replicas (after : Service) (cr : PerconaXtraDBCluster) : PerconaXtraDBCluster :=
  cr <| cluster_Spec -> spec_HAProxy ::= fmap (fun h => h <| ha_ExposeReplicas ::= fmap (fun e =>
          e <| exp_Annotations := shared (exp_Annotations e) (svc_Annotations after) |>) |>) |>.
Definition share_proxysql (after : Service) (cr : PerconaXtraDBCluster) : PerconaXtraDBCluster :=
  cr <| cluster_Spec -> spec_ProxySQL ::= fmap (fun p =>
          p <| ps_Expose -> exp_Annotations := shared (exp_Annotations (ps_Expose p)) (svc_Annotations after) |>) |>.

(** A service built from the object in memory is created or updated. *)
Definition put_service (new : PerconaXtraDBCluster -> res Service) (save : bool) (share : Service -> PerconaXtraDBCluster -> PerconaXtraDBCluster) :
    M (VW W) unit :=
  cr ← getCr;
  svc ← lift (new cr);
  sent ← onV (createOrUpdateService cr svc save);
  setCr (share sent cr).

(** ** Services of the pods *)

Definition pod_service_name (cr : PerconaXtraDBCluster) (i : Z) : string := cluster_Name cr +:+ "-pxc-" +:+ pretty i.

Definition no_annotations (cr : PerconaXtraDBCluster) : bool :=
  match spec_PXC (cluster_Spec cr) with Some p => bool_decide (exp_Annotations (pxc_Expose p) = ∅) | None => true end.

Definition removeOutdatedServices (cr : PerconaXtraDBCluster) : M W unit :=
  svc ← lift (NewExposedPXCService "" cr);
  pxc ← lift (deref (spec_PXC (cluster_Spec cr)));
  let svcNames := map (pod_service_name cr) (seqZ 0 (pod_Size (pxc_PodSpec pxc))) in
  l ← wrap "failed to list external services" (sv_list (cluster_Namespace cr) (svc_Labels svc));
  for_each (fun service => if bool_decide (svc_Name service ∈ svcNames) then mret tt
                           else wrap ("failed to delete service " +:+ svc_Name service) (sv_delete (svc_key service))) l.

Definition ensurePxcPodServices : M (VW W) unit :=
  cr ← getCr;
  if spec_Pause (cluster_Spec cr) then mret tt else
  running ← wrap "failed to check if backup is running" (onV (isBackupRunning cr));
  if running : bool then mret tt else
  restoring ← wrap "failed to check if restore is running" (onV (isRestoreRunning sv_listRestores (cluster_Name cr) (cluster_Namespace cr)));
  if restoring : bool then mret tt else
  pxc ← lift (deref (spec_PXC (cluster_Spec cr)));
  _ ← for_each (fun i =>
        cr ← getCr;
        wrap "failed to ensure pxc service"
          (put_service (NewExposedPXCService (pod_service_name cr i)) (no_annotations cr) share_pxc))
        (seqZ 0 (pod_Size (pxc_PodSpec pxc)));
  cr ← getCr;
  onV (removeOutdatedServices cr).

Definition removePxcPodServices (cr : PerconaXtraDBCluster) : M W unit :=
  if spec_Pause (cluster_Spec cr) then mret tt else
  svc ← lift (NewExposedPXCService "" cr);
  got ← try (sv_list (cluster_Namespace cr) (svc_Labels svc));
  match got with
  | inl e => if IsNotFound e then mret tt else fail (ErrWrap "failed to list external services" e)
  | inr l => for_each (fun service => wrap "failed to delete external service" (sv_delete (svc_key service))) l
  end.

(** The two headless services of the database, as a pass updates them. *)
Definition pxc_services : M (VW W) unit :=
  cr ← getCr;
  b14 ← lift (from_version cr "1.14.0");
  pxc ← lift (deref (spec_PXC (cluster_Spec cr)));
  let save := if b14 : bool then bool_decide (exp_Labels (pxc_Expose pxc) = ∅) && bool_decide (exp_Annotations (pxc_Expose pxc) = ∅) else true in
  let share := if b14 then share_pxc else fun _ cr => cr in
  _ ← wrap "PXC service upgrade error" (put_service NewServicePXC save share);
  wrap "PXC service upgrade error" (put_service NewServicePXCUnready true share).
End services.
