(* ===== verification/ServicesSpec.v ===== *)
(** * Services: proofs

    What the API server does with services, which metadata a service ends up with,
    that a second update writes nothing, and what the shared annotations cause. *)

From S2P Require Import Prelude GoStrings ApiTypes KubeApi Naming RestoreTypes SmartUpdate Services.

Class ServicesView (W : Type) := services : W -> gmap NamespacedName Service.

(** The server keeps annotations and labels as they are sent; it fills in parts of
    the specification. *)
Definition same_meta (s s' : Service) : Prop :=
  svc_key s' = svc_key s /\ svc_Annotations s' = svc_Annotations s /\ svc_Labels s' = svc_Labels s.

Class ServiceLaws (W : Type) `{ServicesView W} `{ServiceEnv W} := {
  vl_get n w w' r : sv_get n w = (w', r) -> services w' = services w /\
    match r with
    | Ok s => services w !! n = Some s /\ svc_key s = n
    | Err e => IsNotFound e = true -> services w !! n = None
    | Panic => False
    end;
  vl_create s w w' : sv_create s w = (w', Ok tt) -> exists s', same_meta s s' /\ services w' = <[svc_key s := s']> (services w);
  vl_update s w w' : sv_update s w = (w', Ok tt) -> exists s', same_meta s s' /\ services w' = <[svc_key s := s']> (services w);
  vl_delete n w w' : sv_delete n w = (w', Ok tt) -> services w' = delete n (services w);
  vl_list ns ls w w' l : sv_list ns ls w = (w', Ok l) -> services w' = services w /\
    forall s, services w !! svc_key s = Some s -> svc_Namespace s = ns -> ls ⊆ svc_Labels s -> s ∈ l }.

(** ** Maps *)

Lemma compareMaps_eq x y : compareMaps x y = true <-> x = y.
Proof.
  unfold compareMaps. rewrite andb_true_iff, !bool_decide_eq_true. split.
  - intros [Hs Hf]. symmetry. symmetry. apply map_subseteq_size_eq; [|lia]. apply map_subseteq_spec. intros k v Hk.
    by apply Hf in Hk.
  - intros ->. split; [done|]. by intros k v.
Qed.

Lemma take_ignored_lookup names new old k :
  take_ignored names new old !! k =
    if bool_decide (k ∈ names) then match old !! k with Some v => Some v | None => new !! k end else new !! k.
Proof.
  unfold take_ignored. revert new. induction names as [|n names IH]; intros new; [done|]. cbn [foldl]. rewrite IH.
  destruct (decide (k = n)) as [->|Hne].
  - rewrite (bool_decide_eq_true_2 (n ∈ n :: names)) by by left. destruct (old !! n) as [v|] eqn:E.
    + rewrite lookup_insert_eq. by case_bool_decide.
    + by case_bool_decide.
  - assert ((match old !! n with Some v => <[n := v]> new | None => new end) !! k = new !! k) as ->
      by (destruct (old !! n); [by rewrite lookup_insert_ne|done]).
    destruct (decide (k ∈ names)).
    + rewrite !bool_decide_eq_true_2; [done|by right|done].
    + rewrite !bool_decide_eq_false_2; [done|set_solver|done].
Qed.

Section update.
Context {W : Type} `{ServiceLaws W}.

(** What [createOrUpdate] leaves on the server and returns. *)
Lemma createOrUpdate_run svc (w w' : W) sent : createOrUpdate svc w = (w', Ok sent) ->
  exists hash s', sv_hash (svc_Spec svc) = Ok hash /\ services w' !! svc_key svc = Some s' /\
    svc_Annotations s' = <[last_config_hash := hash]> (svc_Annotations svc) /\ svc_Labels s' = svc_Labels svc /\
    svc_Annotations sent = svc_Annotations s' /\ (forall n, n <> svc_key svc -> services w' !! n = services w !! n).
Proof.
  unfold createOrUpdate. intros Hrun. apply bind_inv_Ok in Hrun as (w1 & hash & Hg1 & Hrun). unfold lift in Hg1. injection Hg1 as <- Hh.
  assert (sv_hash (svc_Spec svc) = Ok hash) as Hhash by (destruct svc; simpl in Hh; by destruct (sv_hash _)).
  set (s1 := _ <| svc_Annotations ::= <[last_config_hash := hash]> |>) in Hrun.
  assert (svc_key s1 = svc_key svc /\ svc_Annotations s1 = <[last_config_hash := hash]> (svc_Annotations svc) /\ svc_Labels s1 = svc_Labels svc)
    as (Hk & Ha & Hl).
  { subst s1. destruct svc. split_and!; [done| |done]. simpl. by rewrite insert_delete_eq. }
  clearbody s1. exists hash. apply bind_inv_Ok in Hrun as (w2 & got & Hg2 & Hrun).
  apply try_inv_Ok in Hg2 as [(old & -> & Hg2)|(e & -> & Hg2)]; apply vl_get in Hg2 as [Hv Hg].
  - destruct Hg as [Hold Hko]. destruct (_ || _) eqn:Eb.
    + set (s2 := if bool_decide _ then _ else _) in Hrun. apply bind_inv_Ok in Hrun as (w3 & [] & Hg3 & Hrun).
      unfold mret, M_ret in Hrun. injection Hrun as <- <-. apply vl_update in Hg3 as (s' & (Hk' & Ha' & Hl') & Hw).
      assert (svc_key s2 = svc_key svc /\ svc_Annotations s2 = svc_Annotations s1 /\ svc_Labels s2 = svc_Labels s1) as (Hk2 & Ha2 & Hl2).
      { subst s2. destruct s1; rewrite <- Hk; case_bool_decide; done. }
      exists s'. rewrite Hw, Hk2, lookup_insert_eq. split_and!; [done|done|congruence|congruence|congruence|].
      intros n Hn. by rewrite lookup_insert_ne, Hv.
    + unfold mret, M_ret in Hrun. injection Hrun as <- <-. apply orb_false_iff in Eb as [_ Eb%negb_false_iff].
      unfold isObjectMetaEqual in Eb. apply andb_true_iff in Eb as [Ea%compareMaps_eq El%compareMaps_eq].
      exists old. rewrite Hv, <- Hk. split_and!; [done|done|congruence|congruence|congruence|done].
  - destruct (IsNotFound e) eqn:En; [|done]. apply bind_inv_Ok in Hrun as (w3 & [] & Hg3 & Hrun).
    unfold mret, M_ret in Hrun. injection Hrun as <- <-. apply vl_create in Hg3 as (s' & (Hk' & Ha' & Hl') & Hw).
    exists s'. rewrite Hw, Hk, lookup_insert_eq. split_and!; [done|done|congruence|congruence|congruence|].
    intros n Hn. by rewrite lookup_insert_ne, Hv.
Qed.

(** An update that has succeeded is not repeated: the same object, built anew,
    finds the hash of its specification and its metadata on the server, and nothing
    is written, whatever the server filled in. *)
Theorem createOrUpdate_idempotent svc (w w1 w2 : W) sent r :
  createOrUpdate svc w = (w1, Ok sent) -> createOrUpdate svc w1 = (w2, r) -> services w2 = services w1.
Proof.
  intros Hrun1 Hrun2. apply createOrUpdate_run in Hrun1 as (hash & s' & Hhash & Hs' & Ha & Hl & _).
  unfold createOrUpdate, mbind, M_bind, lift in Hrun2.
  assert (sv_hash (svc_Spec (svc <| svc_Annotations ::= delete last_config_hash |>)) = Ok hash) as Hh by (by destruct svc).
  rewrite Hh in Hrun2. cbn [wrap_res] in Hrun2. unfold try in Hrun2.
  set (s1 := _ <| svc_Annotations ::= <[last_config_hash := hash]> |>) in Hrun2.
  assert (svc_key s1 = svc_key svc /\ svc_Annotations s1 = svc_Annotations s' /\ svc_Labels s1 = svc_Labels s') as (Hk & Ha1 & Hl1).
  { subst s1. rewrite Ha, Hl. destruct svc. split_and!; [done| |done]. simpl. by rewrite insert_delete_eq. }
  clearbody s1. rewrite Hk in Hrun2. destruct (sv_get _ w1) as [w3 r3] eqn:E. apply vl_get in E as [Hv Hg].
  destruct r3 as [old|e|]; [|destruct (IsNotFound e) eqn:En|done].
  - assert (old = s') as -> by naive_solver. rewrite Ha, lookup_insert_eq in Hrun2. simpl in Hrun2.
    rewrite bool_decide_eq_true_2 in Hrun2 by done. simpl in Hrun2.
    assert (isObjectMetaEqual s1 s' = true) as Heq by (unfold isObjectMetaEqual; rewrite Ha1, Hl1; apply andb_true_iff; by split; apply compareMaps_eq).
    rewrite Heq in Hrun2. by injection Hrun2 as <- <-.
  - rewrite (Hg eq_refl) in Hs'. done.
  - by injection Hrun2 as <- <-.
Qed.

(** What an entry of the metadata becomes: an entry the user wants to be left alone keeps
    the value it has on the server; with [save], entries that only the server has stay. *)
Definition merged (ignore : list string) (save : bool) (new : gmap string string) (old : option (gmap string string)) (k : string) : option string :=
  match old with
  | None => new !! k
  | Some old =>
      match (if bool_decide (k ∈ ignore) then old !! k else None) with
      | Some v => Some v
      | None => if save then match new !! k with Some v => Some v | None => old !! k end else new !! k
      end
  end.

Lemma merged_lookup ignore (save : bool) new old k :
  take_ignored ignore (if save then mergeMaps new old else new) old !! k = merged ignore save new (Some old) k.
Proof.
  rewrite take_ignored_lookup. unfold merged, mergeMaps. destruct save.
  - rewrite lookup_union. case_bool_decide; destruct (old !! k), (new !! k); done.
  - case_bool_decide; by destruct (old !! k).
Qed.

(** The metadata of a service after an update: every label and annotation (other than
    the hash the operator keeps there) is the one of the specification, unless its name is one
    to be ignored and the server has a value for it, or the old metadata is to be saved and
    the specification has none. *)
Theorem createOrUpdateService_meta cr svc save (w w' : W) sent :
  createOrUpdateService cr svc save w = (w', Ok sent) ->
  let old := services w !! svc_key svc in
  exists s', services w' !! svc_key svc = Some s' /\ (forall n, n <> svc_key svc -> services w' !! n = services w !! n) /\
    (forall k, k <> last_config_hash ->
       svc_Annotations s' !! k = merged (spec_IgnoreAnnotations (cluster_Spec cr)) save (svc_Annotations svc) (svc_Annotations <$> old) k) /\
    (forall k, svc_Labels s' !! k = merged (spec_IgnoreLabels (cluster_Spec cr)) save (svc_Labels svc) (svc_Labels <$> old) k).
Proof.
  unfold createOrUpdateService. intros (w0 & owner & Hg0 & Hrun)%bind_inv_Ok. unfold lift in Hg0. injection Hg0 as <- _.
  set (svc1 := svc <| svc_Owners ::= _ |>) in Hrun.
  assert (svc_key svc1 = svc_key svc /\ svc_Annotations svc1 = svc_Annotations svc /\ svc_Labels svc1 = svc_Labels svc) as (Hk & Ha & Hl) by (by destruct svc).
  clearbody svc1. cbv zeta. set (old := services w !! svc_key svc).
  assert (forall w0 svc2, services w0 = services w -> svc_key svc2 = svc_key svc ->
    (forall k, svc_Annotations svc2 !! k = merged (spec_IgnoreAnnotations (cluster_Spec cr)) save (svc_Annotations svc) (svc_Annotations <$> old) k) ->
    (forall k, svc_Labels svc2 !! k = merged (spec_IgnoreLabels (cluster_Spec cr)) save (svc_Labels svc) (svc_Labels <$> old) k) ->
    createOrUpdate svc2 w0 = (w', Ok sent) ->
    exists s', services w' !! svc_key svc = Some s' /\ (forall n, n <> svc_key svc -> services w' !! n = services w !! n) /\
    (forall k, k <> last_config_hash ->
       svc_Annotations s' !! k = merged (spec_IgnoreAnnotations (cluster_Spec cr)) save (svc_Annotations svc) (svc_Annotations <$> old) k) /\
    (forall k, svc_Labels s' !! k = merged (spec_IgnoreLabels (cluster_Spec cr)) save (svc_Labels svc) (svc_Labels <$> old) k)) as Hfin.
  { intros w0 svc2 Hw Hk2 Ha2 Hl2 Hc. apply createOrUpdate_run in Hc as (hash & s' & _ & Hs & Has & Hls & _ & Hoth). rewrite Hk2 in *.
    exists s'. split_and!; [done|by intros n Hn; rewrite Hoth, Hw| |by intros k; rewrite Hls].
    intros k Hkh. by rewrite Has, lookup_insert_ne. }
  destruct (negb save && _ && _) eqn:Eb.
  - apply andb_true_iff in Eb as [[Es%negb_true_iff Ea%bool_decide_eq_true]%andb_true_iff El%bool_decide_eq_true].
    apply (Hfin w svc1); [done|done| | |done].
    + intros k. rewrite Ha. unfold merged. destruct (svc_Annotations <$> old); [|done]. by rewrite Ea, Es.
    + intros k. rewrite Hl. unfold merged. destruct (svc_Labels <$> old); [|done]. by rewrite El, Es.
  - apply bind_inv_Ok in Hrun as (w1 & got & Hg & Hrun). rewrite Hk in Hg.
    apply try_inv_Ok in Hg as [(o & -> & [Hv [Ho _]]%vl_get)|(e & -> & [Hv Hn]%vl_get)].
    + subst old. rewrite Ho. rewrite Ho in Hfin. eapply (Hfin w1); [done| | | |exact Hrun].
      * rewrite <- Hk. by destruct svc1, save.
      * intros k. change (svc_Annotations <$> Some o) with (Some (svc_Annotations o)). rewrite <- Ha, <- merged_lookup. by destruct svc1, save.
      * intros k. change (svc_Labels <$> Some o) with (Some (svc_Labels o)). rewrite <- Hl, <- merged_lookup. by destruct svc1, save.
    + destruct (IsNotFound e); [|done]. subst old. rewrite (Hn eq_refl) in *. eapply (Hfin w1); [done|done| | |exact Hrun]; intros k; simpl; congruence.
Qed.
End update.
