(* ===== verification/Tls.v ===== *)
(** * Certificates: [pkg/controller/pxc/tls.go], [pkg/pxctls/pxctls.go]

    The certificates of a cluster come from cert-manager or are issued by the operator
    itself, and are kept in two secrets.  Turning TLS on or off is a state machine whose
    state is a condition of the cluster's status. *)

From S2P Require Import Prelude GoStrings ApiTypes KubeApi Naming Secrets RestoreTypes ClusterStatus ApiDefaults ScheduledBackups PauseCluster Services Deletion.

(** [fmt.Errorf("msg: %v", err)] keeps the text of an error only. *)
Definition errorf (msg : string) (e : error) : error := ErrNew (msg +:+ ": " +:+ Error e).
Definition errorf_res {A} (msg : string) (r : res A) : res A := match r with Err e => Err (errorf msg e) | _ => r end.
Definition wrapf {W A} (msg : string) (m : M W A) : M W A := fun w => let '(w', r) := m w in (w', errorf_res msg r).

(** ** Issuing a certificate *)

(** [x509.Certificate], as a template. *)
Record CertTemplate := mkCertTemplate {
  ct_SerialNumber : Z;
  ct_Organization : string;
  ct_NotBefore : Z;
  ct_NotAfter : Z;
  ct_KeyUsage : list string;
  ct_ExtKeyUsage : list string;
  ct_DNSNames : list string;
  ct_IsCA : bool }.

(** [crypto/rsa], [crypto/x509] and [encoding/pem]; keys are strings, [tl_public] is the
    public half of one; the clock, and when the operator started. *)
Class TlsLib (W : Type) := {
  tl_GenerateKey : Z -> M W string;
  tl_public : string -> string;
  tl_CreateCertificate : CertTemplate -> CertTemplate -> string -> string -> M W string;
  tl_pem : string -> string -> res string;
  tl_pkcs1 : string -> string;
  tl_now : W -> Z;
  tl_operatorStartTime : Z }.

Section issue.
Context {W : Type} `{TlsLib W} `{RandEnv W}.

Definition caValidityNotAfter (is1200 : bool) (notBefore : Z) : Z :=
  (if is1200 then notBefore else tl_operatorStartTime) + DefaultCAValidity.
Definition certValidityNotAfter (is1200 : bool) (notBefore : Z) : Z :=
  (if is1200 then notBefore else tl_operatorStartTime) + DefaultCertValidity.

Definition both_auth : list string := ["ServerAuth"; "ClientAuth"].

Definition ca_template (serial now : Z) (is1120 : bool) : CertTemplate :=
  mkCertTemplate serial "Root CA" now (caValidityNotAfter is1120 now) ["CertSign"] both_auth [] true.

Definition tls_template (serial now : Z) (hosts : list string) (is1190 is1120 : bool) : CertTemplate :=
  mkCertTemplate serial "PXC" now (if is1190 then certValidityNotAfter is1120 now else caValidityNotAfter is1120 now)
    ["DigitalSignature"; "KeyEncipherment"] both_auth hosts false.

(** [Issue]: the CA's certificate, the server's, and the server's private key. *)
Definition Issue (hosts : list string) (is1190 is1120 : bool) : M W (string * string * string) :=
  priv ← wrapf "generate rsa key" (tl_GenerateKey 2048);
  serial ← wrapf "generate serial number for root" (rand_Int (2 ^ 128));
  now ← gets tl_now;
  let ca := ca_template serial now is1120 in
  der ← wrapf "generate CA certificate" (tl_CreateCertificate ca ca (tl_public priv) priv);
  cert ← lift (errorf_res "encode CA certificate" (tl_pem "CERTIFICATE" der));
  serial ← wrapf "generate serial number for client" (rand_Int (2 ^ 128));
  let tls := tls_template serial now hosts is1190 is1120 in
  clientKey ← wrapf "generate client key" (tl_GenerateKey 2048);
  tlsDer ← tl_CreateCertificate tls ca (tl_public clientKey) priv;
  tlsCert ← lift (errorf_res "encode TLS  certificate" (tl_pem "CERTIFICATE" tlsDer));
  privKey ← lift (errorf_res "encode RSA private key" (tl_pem "RSA PRIVATE KEY" (tl_pkcs1 clientKey)));
  mret (cert, tlsCert, privKey).
End issue.

(** ** Objects *)

(** [cm.Issuer]: self-signed, or with the secret of a CA. *)
Record Issuer := mkIssuer {
  is_Key : NamespacedName;
  is_Labels : gmap string string;
  is_CA : option string }.

(** [cm.Certificate] *)
Record Certificate := mkCertificate {
  ce_Key : NamespacedName;
  ce_Labels : gmap string string;
  ce_SecretName : string;
  ce_CommonName : string;
  ce_DNSNames : list string;
  ce_IsCA : bool;
  ce_IssuerRef : IssuerRef;
  ce_Duration : option Z;
  ce_RenewBefore : option Z }.

(** [corev1.Secret] of type TLS. *)
Record TlsSecret := mkTlsSecret {
  ts_Key : NamespacedName;
  ts_Labels : gmap string string;
  ts_CaCrt : string;
  ts_TlsCrt : string;
  ts_TlsKey : string }.

(** Writes to the API server, and the ticker of [waitForCerts]: how often it fires
    before the timer, and the time until it does. *)
Class TlsEnv (W : Type) := {
  te_createIssuer : Issuer -> M W unit;
  te_createCertificate : Certificate -> M W unit;
  te_createSecret : TlsSecret -> M W unit;
  te_patchUnsafeTLS : NamespacedName -> bool -> M W unit;
  te_ticks : W -> nat;
  te_tick : M W unit }.

Definition key_of (cr : PerconaXtraDBCluster) (name : string) : NamespacedName := mkNN (cluster_Namespace cr) name.

(** [if err != nil && !IsAlreadyExists(err) { return ... }] *)
Definition or_exists {S} (msg : string) (m : M S unit) : M S unit :=
  r ← try m;
  match r with
  | inl e => if IsAlreadyExists e then mret tt else fail (errorf msg e)
  | inr _ => mret tt
  end.

(** ** Names in the certificates *)

Definition sans (cr : PerconaXtraDBCluster) : list string :=
  match spec_TLS (cluster_Spec cr) with Some t => tls_SANs t | None => [] end.

Definition proxyHosts (cr : PerconaXtraDBCluster) : list string :=
  let n := cluster_Name cr in
  [n +:+ "-pxc"; n +:+ "-proxysql"; "*." +:+ n +:+ "-pxc"; "*." +:+ n +:+ "-proxysql"] ++ sans cr.

Definition pxcHosts (cr : PerconaXtraDBCluster) : list string :=
  let n := cluster_Name cr in
  let ns := cluster_Namespace cr in
  [n +:+ "-pxc"; "*." +:+ n +:+ "-pxc"; n +:+ "-haproxy-replicas." +:+ ns +:+ ".svc.cluster.local";
   n +:+ "-haproxy-replicas." +:+ ns; n +:+ "-haproxy-replicas"; n +:+ "-haproxy." +:+ ns +:+ ".svc.cluster.local";
   n +:+ "-haproxy." +:+ ns; n +:+ "-haproxy"] ++ sans cr.

Section tls.
Context {W : Type} `{ObjEnv W} `{SchedEnv W} `{PauseEnv W} `{TlsEnv W} `{TlsLib W} `{RandEnv W} `{StatusEnv W} `{VersionLib}.

(** From 1.16.0 on the objects carry the labels of the cluster. *)
Definition cluster_labels (cr : PerconaXtraDBCluster) : res (gmap string string) :=
  b16 ← from_version cr "1.16.0";
  Ok (if b16 : bool then LabelsCluster cr else ∅).

(** ** Waiting for cert-manager *)

Fixpoint count_secrets (namespace : string) (names : list string) : M W nat :=
  match names with
  | [] => mret 0%nat
  | n :: names =>
      got ← try (oe_get KSecret (mkNN namespace n));
      match got with
      | inl e => if IsNotFound e then count_secrets namespace names else fail e
      | inr _ => c ← count_secrets namespace names; mret (S c)
      end
  end.

Fixpoint wait_certs (ticks : nat) (namespace : string) (secretsList : list string) : M W unit :=
  match ticks with
  | O => fail (ErrNew "timeout: can't get tls certificates from certmanager")
  | S ticks =>
      _ ← te_tick;
      c ← count_secrets namespace secretsList;
      if bool_decide (c = length secretsList) then mret tt else wait_certs ticks namespace secretsList
  end.

Definition waitForCerts (namespace : string) (secretsList : list string) : M W unit :=
  n ← gets te_ticks;
  wait_certs n namespace secretsList.

(** ** With cert-manager *)

Definition createIssuer (cr : PerconaXtraDBCluster) (issuer caCertSecret : string) : M W unit :=
  ls ← lift (cluster_labels cr);
  or_exists "create issuer"
    (te_createIssuer (mkIssuer (key_of cr issuer) ls (if bool_decide (caCertSecret = "") then None else Some caCertSecret))).

Definition issuer_conf (cr : PerconaXtraDBCluster) : option IssuerRef :=
  match spec_TLS (cluster_Spec cr) with Some t => tls_IssuerConf t | None => None end.

Definition tls_duration (field : TLSSpec -> option Z) (dflt : Z) (cr : PerconaXtraDBCluster) : Z :=
  match spec_TLS (cluster_Spec cr) with Some t => default dflt (field t) | None => dflt end.

(** The operator's own CA, and the issuer that signs with it. *)
Definition create_ca (cr : PerconaXtraDBCluster) (issuerName : string) : M W unit :=
  let caIssuerName := cluster_Name cr +:+ "-pxc-ca-issuer" in
  let caName := cluster_Name cr +:+ "-ca-cert" in
  _ ← createIssuer cr caIssuerName "";
  ls ← lift (cluster_labels cr);
  _ ← or_exists "create CA certificate" (te_createCertificate
        (mkCertificate (key_of cr caName) ls caName (cluster_Name cr +:+ "-ca") [] true (mkIssuerRef caIssuerName "Issuer" "")
           (Some (tls_duration tls_CADuration DefaultCAValidity cr)) (Some DefaultRenewBefore)));
  _ ← waitForCerts (cluster_Namespace cr) [caName];
  createIssuer cr issuerName caName.

(** A server's certificate. *)
Definition kube_cert (cr : PerconaXtraDBCluster) (name secret cn : string) (hosts : list string) (issuer : IssuerRef) : res Certificate :=
  ls ← cluster_labels cr;
  b19 ← from_version cr "1.19.0";
  Ok (mkCertificate (key_of cr name) ls secret cn hosts false issuer
        (if b19 : bool then Some (tls_duration tls_Duration DefaultCertValidity cr) else None) None).

Definition createSSLByCertManager (cr : PerconaXtraDBCluster) : M W unit :=
  pxc ← lift (deref (spec_PXC (cluster_Spec cr)));
  let ssl := pod_SSLSecretName (pxc_PodSpec pxc) in
  let internal := pod_SSLInternalSecretName (pxc_PodSpec pxc) in
  let n := cluster_Name cr in
  issuer ← match issuer_conf cr with
           | Some conf => mret conf
           | None => _ ← create_ca cr (n +:+ "-pxc-issuer"); mret (mkIssuerRef (n +:+ "-pxc-issuer") "Issuer" "")
           end;
  cert ← lift (kube_cert cr (n +:+ "-ssl") ssl (n +:+ "-proxysql") (proxyHosts cr) issuer);
  _ ← or_exists "create certificate" (te_createCertificate cert);
  if bool_decide (ssl = internal) then waitForCerts (cluster_Namespace cr) [ssl] else
  cert ← lift (kube_cert cr (n +:+ "-ssl-internal") internal (n +:+ "-pxc") (pxcHosts cr) issuer);
  _ ← or_exists "create internal certificate" (te_createCertificate cert);
  waitForCerts (cluster_Namespace cr) [ssl; internal].

(** ** Without cert-manager *)

Definition issue_secret (cr : PerconaXtraDBCluster) (hosts : list string) (name issueMsg createMsg : string) : M W unit :=
  b19 ← lift (from_version cr "1.19.0");
  b20 ← lift (from_version cr "1.20.0");
  c ← wrapf issueMsg (Issue hosts b19 b20);
  ls ← lift (cluster_labels cr);
  or_exists createMsg (te_createSecret (mkTlsSecret (key_of cr name) ls c.1.1 c.1.2 c.2)).

Definition createSSLManualy (cr : PerconaXtraDBCluster) : M W unit :=
  pxc ← lift (deref (spec_PXC (cluster_Spec cr)));
  _ ← issue_secret cr (proxyHosts cr) (pod_SSLSecretName (pxc_PodSpec pxc)) "create proxy certificate" "create TLS secret";
  issue_secret cr (pxcHosts cr) (pod_SSLInternalSecretName (pxc_PodSpec pxc)) "create pxc certificate" "create TLS internal secret".

(** ** Turning TLS on and off *)

(** [k8s.PauseCluster] and [k8s.UnpauseCluster] on the object of the pass. *)
Definition pause_cluster : M (VW W) bool :=
  cr ← getCr;
  _ ← (when (negb (spec_Pause (cluster_Spec cr))) do
         (_ ← wrap "shutdown pods" (onV (pz_patchPause (meta_key (cluster_Meta cr)) true)); onV pz_sleepSecond));
  _ ← setCr (set_pause true cr);
  pods ← wrap "get pods list" (onV (pz_listPods (set_pause true cr)));
  mret (bool_decide (pods = [])).

Definition unpause_cluster : M (VW W) bool :=
  cr ← getCr;
  _ ← (when (spec_Pause (cluster_Spec cr)) do wrap "patch" (onV (pz_patchPause (meta_key (cluster_Meta cr)) false)));
  _ ← setCr (set_pause false cr);
  pods ← wrap "get pods list" (onV (pz_listPods (set_pause false cr)));
  pxc ← lift (deref (spec_PXC (cluster_Spec cr)));
  mret (bool_decide (Z.of_nat (length pods) = pod_Size (pxc_PodSpec pxc))).

Definition ConditionTLSStateEnabled : string := "enabled".
Definition ConditionTLSStateDisabled : string := "disabled".

Definition GetConditionTLSState (cr : PerconaXtraDBCluster) : res string :=
  tls ← deref (spec_TLS (cluster_Spec cr));
  en ← deref (tls_Enabled tls);
  Ok (if en : bool then ConditionTLSStateEnabled else ConditionTLSStateDisabled).

(** Assignments through the pointer [FindCondition] returned: the first condition of
    the type. *)
Fixpoint set_condition (t : AppState) (status : string) (now : Z) (conds : list ClusterCondition) : list ClusterCondition :=
  match conds with
  | [] => []
  | c :: conds =>
      if bool_decide (cond_Type c = t) then (c <| cond_Status := status |> <| cond_LastTransitionTime := now |>) :: conds
      else c :: set_condition t status now conds
  end.

Definition updCr (f : PerconaXtraDBCluster -> PerconaXtraDBCluster) : M (VW W) unit :=
  cr ← getCr; setCr (f cr).

(** The pods are gone: certificates go, the flag is patched, the cluster starts again,
    and the condition is moved on. *)
Definition finish_toggle (old : string) : M (VW W) unit :=
  cr ← getCr;
  _ ← (if bool_decide (old = ConditionTLSStateEnabled) then wrap "failed to delete tls secrets" (onV (deleteCerts cr))
       else if bool_decide (old = ConditionTLSStateDisabled) then mret tt
       else fail (ErrNew ("unknown value for tls condition status: " +:+ old)));
  tls ← lift (deref (spec_TLS (cluster_Spec cr)));
  en ← lift (deref (tls_Enabled tls));
  _ ← updCr (fun cr => cr <| cluster_Spec -> spec_Unsafe -> unsafe_TLS := negb en |>);
  _ ← wrap "failed to patch cr" (onV (te_patchUnsafeTLS (meta_key (cluster_Meta cr)) (negb en)));
  _ ← wrap "failed to start cluster" unpause_cluster;
  cr ← getCr;
  state ← lift (GetConditionTLSState cr);
  now ← onV (gets (truncate_second ∘ sx_now));
  updCr (fun cr => cr <| cluster_Status -> cs_Conditions ::= set_condition ConditionTLS state now |>).

Definition reconcileTLSToggle : M (VW W) unit :=
  cr ← getCr;
  b16 ← lift (from_version cr "1.16.0");
  if negb b16 then mret tt else
  match FindCondition ConditionTLS (cluster_Status cr) with
  | None =>
      state ← lift (GetConditionTLSState cr);
      now ← onV (gets (truncate_second ∘ sx_now));
      updCr (fun cr => cr <| cluster_Status ::= AddCondition (mkCondition state ConditionTLS now "" "") |>)
  | Some condition =>
      state ← lift (GetConditionTLSState cr);
      if bool_decide (cond_Status condition = state) then mret tt else
      paused ← wrap "failed to pause cluster" pause_cluster;
      if negb paused then mret tt else finish_toggle (cond_Status condition)
  end.

Definition reconcileSSL : M (VW W) unit :=
  _ ← wrap "reconcile tls toggle" reconcileTLSToggle;
  cr ← getCr;
  en ← lift (TLSEnabled (cluster_Spec cr));
  if negb en then mret tt else
  pxc ← lift (deref (spec_PXC (cluster_Spec cr)));
  secret ← onV (try (oe_get KSecret (key_of cr (pod_SSLSecretName (pxc_PodSpec pxc)))));
  internal ← onV (try (oe_get KSecret (key_of cr (pod_SSLInternalSecretName (pxc_PodSpec pxc)))));
  match secret, internal with
  | inr _, inr _ => mret tt
  | _, _ =>
      _ ← match secret with inl e => if IsNotFound e then mret tt else fail (errorf "get secret" e) | inr _ => mret tt end;
      _ ← match internal with inl e => if IsNotFound e then mret tt else fail (errorf "get internal secret" e) | inr _ => mret tt end;
      if match secret with inr o => negb (IsControlledBy o cr) | inl _ => false end then mret tt else
      r ← try (onV (createSSLByCertManager cr));
      match r with
      | inr _ => mret tt
      | inl e =>
          if bool_decide (is_Some (issuer_conf cr)) then fail (ErrWrap "create ssl with cert manager" e)
          else wrapf "create ssl internally" (onV (createSSLManualy cr))
      end
  end.
End tls.
