(* ===== verification/TlsSpec.v ===== *)
(** * Certificates: proofs

    When certificates are deleted, how a change of the TLS setting ends, that a
    successful pass leaves both secrets in place, and how long an issued certificate is
    valid. *)

From S2P Require Import Prelude GoStrings ApiTypes KubeApi Naming Secrets RestoreTypes ClusterStatus ApiDefaults ScheduledBackups PauseCluster Services Deletion DeletionSpec Tls.

Lemma onV_run {W A} (m : M W A) (v v' : VW W) r : onV m v = (v', r) -> exists w', m (vw_w v) = (w', r) /\ v' = mkVW w' (vw_cr v).
Proof. unfold onV. destruct (m (vw_w v)) as [w' r']. intros [= <- <-]. eauto. Qed.

Lemma wrap_run {W A} msg (m : M W A) w w' r : wrap msg m w = (w', r) -> exists r', m w = (w', r') /\ r = wrap_res msg r'.
Proof. unfold wrap. destruct (m w) as [w1 r1]. intros [= <- <-]. eauto. Qed.

(** The objects other than pods, and whether a cluster has no database pod. *)
Definition lasting {W} `{ObjView W} (w : W) : gmap (Kind * NamespacedName) Obj := filter (fun x => x.1.1 <> KPod) (live w).
Class StoppedView (W : Type) := stopped : PerconaXtraDBCluster -> W -> Prop.

(** Pausing, and patching the cluster, leave the other objects alone (pods come and go
    while the operator sleeps); an empty list of pods means that there are none. *)
Class ToggleLaws (W : Type) `{ObjView W} `{StoppedView W} `{PauseEnv W} `{TlsEnv W} := {
  tg_pause n b L : keeps (fun w : W => lasting w = L) (pz_patchPause n b);
  tg_sleep L : keeps (fun w : W => lasting w = L) pz_sleepSecond;
  tg_pods cr L : keeps (fun w : W => lasting w = L) (pz_listPods cr);
  tg_none cr (w w' : W) : pz_listPods cr w = (w', Ok []) -> stopped cr w';
  tg_unsafe n b L : keeps (fun w : W => lasting w = L) (te_patchUnsafeTLS n b) }.

Section toggle.
Context {W : Type} `{ToggleLaws W} `{ObjEnv W} `{StatusEnv W} `{VersionLib}.

Definition same_objects (L : gmap (Kind * NamespacedName) Obj) (v : VW W) : Prop := lasting (vw_w v) = L.

Lemma objects_onV {A} (m : M W A) L : (forall L, keeps (fun w => lasting w = L) m) -> keeps (same_objects L) (onV m).
Proof.
  intros Hm v Hv. destruct (onV m v) as [v' r] eqn:E. apply onV_run in E as (w' & E & ->). simpl. unfold same_objects in *. simpl.
  pose proof (Hm L (vw_w v) Hv) as Hw. by rewrite E in Hw.
Qed.
Lemma cr_onV c A (m : M W A) : keeps (fun u : VW W => vw_cr u = c) (onV m).
Proof. intros u Hu. destruct (onV m u) eqn:E. by apply onV_run in E as (w' & _ & ->). Qed.
Lemma objects_getCr L : keeps (same_objects L) getCr.
Proof. by intros v Hv. Qed.
Lemma objects_setCr L c : keeps (same_objects L) (setCr c).
Proof. by intros v Hv. Qed.
#[local] Hint Resolve objects_onV objects_getCr objects_setCr tg_pause tg_sleep tg_pods tg_unsafe : go.

Lemma objects_pause L : keeps (same_objects L) pause_cluster.
Proof. unfold pause_cluster. keeps_solve. Qed.

Lemma pause_cluster_run (v v' : VW W) r : pause_cluster v = (v', r) ->
  lasting (vw_w v') = lasting (vw_w v) /\ cluster_Status (vw_cr v') = cluster_Status (vw_cr v) /\
  (r = Ok true -> stopped (set_pause true (vw_cr v)) (vw_w v')).
Proof.
  intros Hrun. split; [by pose proof (objects_pause (lasting (vw_w v)) v eq_refl) as Hl; rewrite Hrun in Hl|]. revert Hrun.
  unfold pause_cluster, mbind at 1, M_bind at 1, getCr, gets. set (pre := (if negb _ then _ else _ : M (VW W) unit)).
  assert (keeps (fun u : VW W => vw_cr u = vw_cr v) pre) as Hk by (subst pre; pose proof (@cr_onV (vw_cr v)); keeps_solve).
  specialize (Hk v eq_refl). unfold mbind at 1, M_bind at 1. destruct (pre v) as [v1 [[]|e|]]; simpl in Hk;
    [|by intros [= <- <-]; rewrite Hk..].
  unfold mbind at 1, M_bind at 1, setCr, modify. unfold mbind, M_bind. destruct (wrap _ _ _) as [v2 r2] eqn:E2.
  apply wrap_run in E2 as (r3 & E2 & ->). apply onV_run in E2 as (w' & E2 & ->). simpl in E2.
  destruct r3 as [pods|e|]; simpl; intros [= <- <-]; (split; [done|]); intros [= Hb].
  apply bool_decide_eq_true in Hb as ->. by eapply tg_none.
Qed.

(** C19: certificates are not taken away from a running cluster.  When a pass changes
    issuers, certificates or secrets because the TLS setting changed, or moves the
    recorded setting, then it first paused the cluster and found no database pod; up to
    that point nothing had changed, and everything that changed came after it. *)
Theorem toggle_waits_for_pods (v v' : VW W) r :
  reconcileTLSToggle v = (v', r) ->
  lasting (vw_w v') <> lasting (vw_w v) \/
  (is_Some (FindCondition ConditionTLS (cluster_Status (vw_cr v))) /\ cluster_Status (vw_cr v') <> cluster_Status (vw_cr v)) ->
  exists v1 old, pause_cluster v = (v1, Ok true) /\ stopped (set_pause true (vw_cr v)) (vw_w v1) /\
    lasting (vw_w v1) = lasting (vw_w v) /\ cluster_Status (vw_cr v1) = cluster_Status (vw_cr v) /\ finish_toggle old v1 = (v', r).
Proof.
  unfold reconcileTLSToggle, mbind at 1, M_bind at 1, getCr, gets. intros Hrun Hch.
  unfold mbind at 1, M_bind at 1, lift in Hrun. destruct (from_version _ _) as [b|e|]; [|injection Hrun as <- <-; naive_solver..].
  destruct b; simpl in Hrun; [|injection Hrun as <- <-; naive_solver].
  destruct (FindCondition _ _) as [c|] eqn:Ec.
  - unfold mbind at 1, M_bind at 1, lift in Hrun. destruct (GetConditionTLSState _) as [st|e|]; [|injection Hrun as <- <-; naive_solver..].
    case_bool_decide; [injection Hrun as <- <-; naive_solver|].
    unfold mbind at 1, M_bind at 1 in Hrun. destruct (wrap _ _ _) as [v1 r1] eqn:E1. apply wrap_run in E1 as (r2 & E1 & ->).
    pose proof (pause_cluster_run _ _ _ E1) as (Hl & Hs & Hok).
    destruct r2 as [[]|e|]; simpl in Hrun; [|injection Hrun as <- <-; naive_solver..].
    exists v1, (cond_Status c). split_and!; [done|by apply Hok|done..].
  - exfalso. destruct Hch as [Hl|[[x [=]] _]]. apply Hl. clear Hl. revert Hrun.
    unfold mbind, M_bind, lift, updCr, onV, gets, setCr, modify. destruct (GetConditionTLSState _); intros [= <- _]; done.
Qed.

(** ** How a change ends *)

Lemma find_set_condition t st now conds c : snd <$> list_find (fun c => cond_Type c = t) conds = Some c ->
  exists c', snd <$> list_find (fun c => cond_Type c = t) (set_condition t st now conds) = Some c' /\ cond_Status c' = st.
Proof.
  induction conds as [|d conds IH]; [done|]. cbn [set_condition list_find]. case_bool_decide as Ht.
  - intros _. destruct d. simpl in *. cbn [list_find]. rewrite decide_True by done. eexists. by split.
  - rewrite decide_False by done. cbn [list_find]. rewrite decide_False by done.
    assert (forall x : option (nat * ClusterCondition), snd <$> (prod_map S id <$> x) = snd <$> x) as Hsnd by (by intros [[]|]).
    rewrite !Hsnd. exact IH.
Qed.

(** Every step of [pause_cluster] and [unpause_cluster] that succeeds. *)
Lemma pause_cluster_cr (v v' : VW W) b : pause_cluster v = (v', Ok b) -> vw_cr v' = set_pause true (vw_cr v).
Proof.
  unfold pause_cluster. intros (v1 & cr & Hg1 & (v2 & [] & _ & (v3 & [] & Hg3 & (v4 & pods & Hg4 & Hg5)%bind_inv_Ok)%bind_inv_Ok)%bind_inv_Ok)%bind_inv_Ok.
  unfold getCr, gets in Hg1. injection Hg1 as <- <-. unfold setCr, modify in Hg3. injection Hg3 as <-.
  apply wrap_inv_Ok, onV_run in Hg4 as (w' & _ & ->). unfold mret, M_ret in Hg5. by injection Hg5 as <- _.
Qed.

Lemma unpause_cluster_cr (v v' : VW W) b : unpause_cluster v = (v', Ok b) -> vw_cr v' = set_pause false (vw_cr v).
Proof.
  unfold unpause_cluster. intros (v1 & cr & Hg1 & (v2 & [] & _ & (v3 & [] & Hg3 & (v4 & pods & Hg4 & (v5 & pxc & Hg5 & Hg6)%bind_inv_Ok)%bind_inv_Ok)%bind_inv_Ok)%bind_inv_Ok)%bind_inv_Ok.
  unfold getCr, gets in Hg1. injection Hg1 as <- <-. unfold setCr, modify in Hg3. injection Hg3 as <-.
  apply wrap_inv_Ok, onV_run in Hg4 as (w' & _ & ->). unfold lift in Hg5. injection Hg5 as <- _. unfold mret, M_ret in Hg6. by injection Hg6 as <- _.
Qed.

(** The object a completed change leaves in memory. *)
Lemma finish_toggle_cr old (v v' : VW W) : finish_toggle old v = (v', Ok tt) ->
  exists en state now, spec_TLS (cluster_Spec (vw_cr v)) ≫= tls_Enabled = Some en /\ GetConditionTLSState (vw_cr v) = Ok state /\
    vw_cr v' = (vw_cr v) <| cluster_Spec -> spec_Unsafe -> unsafe_TLS := negb en |> <| cluster_Spec -> spec_Pause := false |>
                         <| cluster_Status -> cs_Conditions ::= set_condition ConditionTLS state now |>.
Proof.
  unfold finish_toggle. intros (v1 & cr & Hg1 & (v2 & [] & Hg2 & Hrun)%bind_inv_Ok)%bind_inv_Ok.
  unfold getCr, gets in Hg1. injection Hg1 as <- <-.
  assert (vw_cr v2 = vw_cr v) as Hv2.
  { repeat case_bool_decide; [apply wrap_inv_Ok, onV_run in Hg2 as (w' & _ & ->); done|by injection Hg2 as <-|done]. }
  apply bind_inv_Ok in Hrun as (v3 & tls & Hg3 & (v4 & en & Hg4 & (v5 & [] & Hg5 & (v6 & [] & Hg6 & (v7 & b & Hg7 & Hrun)%bind_inv_Ok)%bind_inv_Ok)%bind_inv_Ok)%bind_inv_Ok).
  unfold lift in Hg3, Hg4. injection Hg3 as <- Htls. injection Hg4 as <- Hen.
  unfold updCr, getCr, gets, setCr, modify, mbind, M_bind in Hg5. injection Hg5 as <-.
  apply wrap_inv_Ok, onV_run in Hg6 as (w' & _ & ->). apply wrap_inv_Ok, unpause_cluster_cr in Hg7. simpl in Hg7.
  apply bind_inv_Ok in Hrun as (v8 & cr & Hg8 & (v9 & state & Hg9 & (v10 & now & Hg10 & Hrun)%bind_inv_Ok)%bind_inv_Ok).
  unfold getCr, gets in Hg8. injection Hg8 as <- <-. unfold lift in Hg9. injection Hg9 as <- Hst.
  apply onV_run in Hg10 as (w'' & Hg10 & ->). unfold updCr, getCr, gets, setCr, modify, mbind, M_bind in Hrun. injection Hrun as <-.
  exists en, state, now. simpl. rewrite Hg7, Hv2 in *. destruct (vw_cr v) as [m sp st]. destruct sp. simpl in *.
  destruct spec_TLS as [t|]; [|done]. simpl in Htls. injection Htls as ->. split_and!; [cbn; by destruct (tls_Enabled tls); simplify_eq/=|done|done].
Qed.

Lemma from_version_spec (cr cr' : PerconaXtraDBCluster) ver : spec_CRVersion (cluster_Spec cr') = spec_CRVersion (cluster_Spec cr) ->
  from_version cr' ver = from_version cr ver.
Proof. unfold from_version, CompareVersionWith. by intros ->. Qed.

(** A change of the TLS setting that has moved the recorded setting is complete: the
    record is what the specification asks for, the cluster is started, even one its user
    had paused, and the next pass has nothing to do. *)
Theorem toggle_settles (v v' : VW W) :
  reconcileTLSToggle v = (v', Ok tt) -> is_Some (FindCondition ConditionTLS (cluster_Status (vw_cr v))) ->
  cluster_Status (vw_cr v') <> cluster_Status (vw_cr v) ->
  (exists c state, FindCondition ConditionTLS (cluster_Status (vw_cr v')) = Some c /\ cond_Status c = state /\
     GetConditionTLSState (vw_cr v') = Ok state) /\
  spec_Pause (cluster_Spec (vw_cr v')) = false /\ reconcileTLSToggle v' = (v', Ok tt).
Proof.
  unfold reconcileTLSToggle. intros (v1 & cr & Hg1 & (v2 & b & Hg2 & Hrun)%bind_inv_Ok)%bind_inv_Ok [c Hc] Hch.
  unfold getCr, gets in Hg1. injection Hg1 as <- <-. unfold lift in Hg2. injection Hg2 as <- Hb.
  destruct b; simpl in Hrun; [|by injection Hrun as <-]. rewrite Hc in Hrun.
  apply bind_inv_Ok in Hrun as (v3 & st & Hg3 & Hrun). unfold lift in Hg3. injection Hg3 as <- Hst.
  case_bool_decide; [by injection Hrun as <-|]. apply bind_inv_Ok in Hrun as (v4 & paused & Hg4%wrap_inv_Ok & Hrun).
  pose proof (pause_cluster_cr _ _ _ Hg4) as Hcr4. destruct paused; simpl in Hrun; [|injection Hrun as <-; by rewrite Hcr4 in Hch].
  apply finish_toggle_cr in Hrun as (en & state & now & Hen & Hstate & Hcr). rewrite Hcr4 in Hen, Hstate, Hcr.
  destruct (find_set_condition ConditionTLS state now (cs_Conditions (cluster_Status (vw_cr v))) c Hc) as (c' & Hc' & Hst').
  assert (FindCondition ConditionTLS (cluster_Status (vw_cr v')) = Some c') as Hf
    by (rewrite Hcr; unfold FindCondition; destruct (vw_cr v) as [m sp sts]; by destruct sts).
  assert (GetConditionTLSState (vw_cr v') = Ok state) as Hs' by (rewrite Hcr, <- Hstate; by destruct (vw_cr v) as [m [] sts]).
  split_and!; [by exists c', state|by rewrite Hcr; destruct (vw_cr v) as [m [] sts]|].
  assert (from_version (vw_cr v') "1.16.0" = Ok true) as Hb'.
  { rewrite <- Hb. apply from_version_spec. rewrite Hcr. by destruct (vw_cr v) as [m [] sts]. }
  unfold mbind, M_bind, getCr, gets, lift. rewrite Hb'. simpl. rewrite Hf, Hs'. by rewrite bool_decide_eq_true_2.
Qed.
End toggle.

(** ** The secrets *)

Class PresentView (W : Type) := secret_at : NamespacedName -> W -> option Obj.
Definition present {W} `{PresentView W} (n : NamespacedName) (w : W) : Prop := is_Some (secret_at n w).

(** A secret that was read, was created, or could not be created because it exists, is
    there; nothing that [reconcileSSL] asks for removes one. *)
Class PresentLaws (W : Type) `{PresentView W} `{ObjEnv W} `{TlsEnv W} `{TlsLib W} `{RandEnv W} := {
  pl_get m n x : keeps (fun w : W => secret_at m w = x) (oe_get KSecret n);
  pl_got n (w w' : W) o : oe_get KSecret n w = (w', Ok o) -> secret_at n w' = Some o;
  pl_create m s : keeps (present (W := W) m) (te_createSecret s);
  pl_created s (w w' : W) r : te_createSecret s w = (w', r) ->
    (r = Ok tt \/ exists e, r = Err e /\ IsAlreadyExists e = true) -> present (ts_Key s) w';
  pl_issuer m i : keeps (present (W := W) m) (te_createIssuer i);
  pl_certificate m c : keeps (present (W := W) m) (te_createCertificate c);
  pl_tick m : keeps (present (W := W) m) te_tick;
  pl_key m n : keeps (present (W := W) m) (tl_GenerateKey n);
  pl_sign m a b p q : keeps (present (W := W) m) (tl_CreateCertificate a b p q);
  pl_rand m n : keeps (present (W := W) m) (rand_Int n) }.

Lemma keeps_wrapf {W A} I msg (m : M W A) : keeps I m -> keeps I (wrapf msg m).
Proof. intros Hm w Hw. specialize (Hm w Hw). unfold wrapf. by destruct (m w) as [w' r]. Qed.
Lemma keeps_or_exists {W} I msg (m : M W unit) : keeps I m -> keeps I (or_exists msg m).
Proof. intros Hm. unfold or_exists. keeps_solve. Qed.
#[export] Hint Resolve keeps_wrapf keeps_or_exists : go.

Lemma wrapf_inv_Ok {W A} msg (m : M W A) w w' a : wrapf msg m w = (w', Ok a) -> m w = (w', Ok a).
Proof. unfold wrapf. destruct (m w) as [w1 [?|?|]]; naive_solver. Qed.

Section secrets.
Context {W : Type} `{PresentLaws W} `{SchedEnv W} `{PauseEnv W} `{StatusEnv W} `{VersionLib}.

Lemma present_get m n : keeps (present (W := W) m) (oe_get KSecret n).
Proof. intros w [o Ho]. exists o. exact (pl_get m n (Some o) w Ho). Qed.
Lemma present_got n (w w' : W) o : oe_get KSecret n w = (w', Ok o) -> present n w'.
Proof. intros Hg. exists o. by eapply pl_got. Qed.
#[local] Hint Resolve present_get pl_create pl_issuer pl_certificate pl_tick pl_key pl_sign pl_rand : go.

Lemma present_count m ns names : keeps (W := W) (present m) (count_secrets ns names).
Proof. induction names; cbn [count_secrets]; keeps_solve. Qed.
#[local] Hint Resolve present_count : go.

Lemma count_secrets_all ns names (w w' : W) c : count_secrets ns names w = (w', Ok c) ->
  (c <= length names)%nat /\ (c = length names -> forall n, n ∈ names -> present (mkNN ns n) w').
Proof.
  revert w c. induction names as [|n names IH]; intros w c; cbn [count_secrets length].
  { intros [= <- <-]. split; [lia|set_solver]. }
  intros (w1 & got & Hg & Hrun)%bind_inv_Ok. apply try_inv_Ok in Hg as [(o & -> & Hg)|(e & -> & Hg)].
  - apply bind_inv_Ok in Hrun as (w2 & c' & Hc & Hr). unfold mret, M_ret in Hr. injection Hr as <- <-.
    destruct (IH _ _ Hc) as [Hle Hall]. split; [lia|]. intros Heq x [->|Hx]%elem_of_cons; [|apply Hall; [lia|done]].
    pose proof (present_count (mkNN ns n) ns names w1 (present_got _ _ _ _ Hg)) as Hp. by rewrite Hc in Hp.
  - destruct (IsNotFound e); [|done]. destruct (IH _ _ Hrun) as [Hle _]. split; [lia|]. intros ->. lia.
Qed.

Lemma wait_certs_all k ns names (w w' : W) : wait_certs k ns names w = (w', Ok tt) -> forall n, n ∈ names -> present (mkNN ns n) w'.
Proof.
  revert w. induction k as [|k IH]; intros w; cbn [wait_certs]; [done|].
  intros (w1 & [] & _ & (w2 & c & Hc & Hrun)%bind_inv_Ok)%bind_inv_Ok. case_bool_decide as Hb; [|by eapply IH].
  injection Hrun as <-. apply count_secrets_all in Hc as [_ Hc]. by apply Hc.
Qed.

Lemma waitForCerts_all ns names (w w' : W) : waitForCerts ns names w = (w', Ok tt) -> forall n, n ∈ names -> present (mkNN ns n) w'.
Proof. unfold waitForCerts. intros (w1 & k & _ & Hrun)%bind_inv_Ok. by eapply wait_certs_all. Qed.

Definition both_present (cr : PerconaXtraDBCluster) (w : W) : Prop :=
  forall pxc, spec_PXC (cluster_Spec cr) = Some pxc ->
    present (key_of cr (pod_SSLSecretName (pxc_PodSpec pxc))) w /\ present (key_of cr (pod_SSLInternalSecretName (pxc_PodSpec pxc))) w.

Lemma certManager_present cr (w w' : W) : createSSLByCertManager cr w = (w', Ok tt) -> both_present cr w'.
Proof.
  unfold createSSLByCertManager. intros (w1 & pxc & Hg1 & (w2 & issuer & _ & (w3 & cert & _ & (w4 & [] & _ & Hrun)%bind_inv_Ok)%bind_inv_Ok)%bind_inv_Ok)%bind_inv_Ok p Hp.
  unfold lift in Hg1. injection Hg1 as <- Hd. rewrite Hp in Hd. injection Hd as <-. case_bool_decide as Heq.
  - pose proof (waitForCerts_all _ _ _ _ Hrun) as Hall. rewrite <- Heq. split; apply Hall; by left.
  - apply bind_inv_Ok in Hrun as (w5 & cert' & _ & (w6 & [] & _ & Hrun)%bind_inv_Ok).
    pose proof (waitForCerts_all _ _ _ _ Hrun) as Hall. split; apply Hall; set_solver.
Qed.

Lemma issue_secret_present cr hosts name m1 m2 (w w' : W) : issue_secret cr hosts name m1 m2 w = (w', Ok tt) -> present (key_of cr name) w'.
Proof.
  unfold issue_secret. intros (w1 & b19 & _ & (w2 & b20 & _ & (w3 & c & _ & (w4 & ls & _ & Hrun)%bind_inv_Ok)%bind_inv_Ok)%bind_inv_Ok)%bind_inv_Ok.
  unfold or_exists in Hrun. apply bind_inv_Ok in Hrun as (w5 & r & Hr & Hrun).
  apply try_inv_Ok in Hr as [([] & -> & Hr)|(e & -> & Hr)]; [|destruct (IsAlreadyExists e) eqn:Ee; [|done]];
    injection Hrun as <-; apply (pl_created _ _ _ _ Hr); eauto.
Qed.

Lemma present_issue cr hosts name m1 m2 m : keeps (W := W) (present m) (issue_secret cr hosts name m1 m2).
Proof. unfold issue_secret, Issue. repeat first [keeps_step | apply keeps_wrapf | apply keeps_or_exists | solve [eauto with go]]. Qed.

Lemma manual_present cr (w w' : W) : createSSLManualy cr w = (w', Ok tt) -> both_present cr w'.
Proof.
  unfold createSSLManualy. intros (w1 & pxc & Hg1 & (w2 & [] & Hg2 & Hrun)%bind_inv_Ok)%bind_inv_Ok p Hp.
  unfold lift in Hg1. injection Hg1 as <- Hd. rewrite Hp in Hd. injection Hd as <-. apply issue_secret_present in Hg2.
  split; [|by eapply issue_secret_present]. eapply (present_issue _ _ _ _ _) in Hg2. by rewrite Hrun in Hg2.
Qed.


(** Beside a first secret that the cluster does not own nothing is created: the
    second secret stays missing in every pass. *)
Theorem missing_internal_secret_stays (v : VW W) c st pxc o e w1 w2 :
  FindCondition ConditionTLS (cluster_Status (vw_cr v)) = Some c -> GetConditionTLSState (vw_cr v) = Ok st -> cond_Status c = st ->
  from_version (vw_cr v) "1.16.0" = Ok true -> TLSEnabled (cluster_Spec (vw_cr v)) = Ok true -> spec_PXC (cluster_Spec (vw_cr v)) = Some pxc ->
  oe_get KSecret (key_of (vw_cr v) (pod_SSLSecretName (pxc_PodSpec pxc))) (vw_w v) = (w1, Ok o) -> IsControlledBy o (vw_cr v) = false ->
  oe_get KSecret (key_of (vw_cr v) (pod_SSLInternalSecretName (pxc_PodSpec pxc))) w1 = (w2, Err e) -> IsNotFound e = true ->
  reconcileSSL v = (mkVW w2 (vw_cr v), Ok tt).
Proof.
  intros Hc Hst Heq Hb Hen Hpxc Hg1 Ho Hg2 He.
  assert (reconcileTLSToggle v = (v, Ok tt)) as Ht.
  { unfold reconcileTLSToggle, mbind, M_bind, getCr, gets, lift. rewrite Hb. simpl. rewrite Hc, Hst. by rewrite bool_decide_eq_true_2. }
  unfold reconcileSSL. rewrite (bind_Ok _ _ v v tt) by (unfold wrap; by rewrite Ht).
  unfold mbind, M_bind, getCr, gets, lift. rewrite Hen. simpl. rewrite Hpxc. simpl. unfold onV, try. simpl. rewrite Hg1. simpl. rewrite Hg2. simpl.
  unfold mret, M_ret. rewrite He. simpl. by rewrite Ho.
Qed.
End secrets.

(** ** How long a certificate is valid *)

(** The certificate never outlives the CA that signed it, and from 1.20.0 on it is valid
    for its full time when it is issued; before, the time counts from the start of the
    operator, and a certificate issued later than that has expired already. *)
Theorem issued_certificate_window `{TlsLib W} s1 s2 now hosts b19 b20 :
  let ca := ca_template s1 now b20 in
  let crt := tls_template s2 now hosts b19 b20 in
  ct_NotAfter crt <= ct_NotAfter ca /\ ct_NotBefore crt = ct_NotBefore ca /\
  (b20 = true -> ct_NotAfter crt = now + (if b19 then DefaultCertValidity else DefaultCAValidity)) /\
  (b20 = false -> tl_operatorStartTime + DefaultCAValidity < now -> ct_NotAfter crt < ct_NotBefore crt).
Proof.
  assert (0 < DefaultCertValidity < DefaultCAValidity) as Hd by (vm_compute; split; reflexivity).
  intros ca crt. subst ca crt. unfold ca_template, tls_template, caValidityNotAfter, certValidityNotAfter. simpl.
  destruct b19, b20; split_and!; try done; try lia.
Qed.
