(* ===== verification/ReplicationSpec.v ===== *)
(** * Replication: proofs

    What the database does with the statements, which sources a channel has after
    a pass, and when the sources count as changed. *)

From S2P Require Import Prelude GoStrings ApiTypes Secrets MysqlUsers Users ClusterStatus Naming SmartUpdate Queries Replication.

(** ** Sources as a map *)

Definition listed (l : list ReplicationSource) : gmap (string * Z) Z :=
  list_to_map (map (fun s => ((src_Host s, src_Port s), src_Weight s)) l).
Definition found (l : list ReplicationChannelSource) : gmap (string * Z) Z :=
  list_to_map (map (fun s => ((rs_Host s, rs_Port s), rs_Weight s)) l).

Definition as_source (o : ReplicationChannelSource) : ReplicationSource := mkSource (rs_Host o) (rs_Port o) (rs_Weight o).

Lemma size_list_to_set_le (l : list string) : (size (list_to_set l : gset string) <= length l)%nat.
Proof.
  induction l as [|x l IH]; [done|]. rewrite list_to_set_cons, size_union_alt, size_singleton. simpl.
  pose proof (subseteq_size (list_to_set l ∖ {[x]} : gset string) (list_to_set l) ltac:(set_solver)). lia.
Qed.

Lemma size_list_to_set_NoDup (l : list string) : size (list_to_set l : gset string) = length l -> NoDup l.
Proof.
  induction l as [|x l IH]; [constructor|]. simpl. pose proof (size_list_to_set_le l) as Hle.
  destruct (decide (x ∈ l)) as [Hin|Hin].
  - rewrite subseteq_union_1_L by (apply singleton_subseteq_l; by apply elem_of_list_to_set). lia.
  - rewrite size_union by (apply disjoint_singleton_l; by rewrite elem_of_list_to_set). rewrite size_singleton.
    intros Hs. constructor; [done|]. apply IH. lia.
Qed.

Lemma source_map_dom old : dom (source_map old) = list_to_set (map rs_Host old).
Proof.
  unfold source_map. assert (forall m : gmap string ReplicationChannelSource, dom (foldl (fun m s => <[rs_Host s := s]> m) m old) = dom m ∪ list_to_set (map rs_Host old)) as Hgen.
  { induction old as [|s old IH]; intros m; simpl; [set_solver|]. rewrite IH, dom_insert_L. set_solver. }
  rewrite Hgen, dom_empty_L. set_solver.
Qed.

Lemma source_map_in old h o : source_map old !! h = Some o -> o ∈ old /\ rs_Host o = h.
Proof.
  unfold source_map. assert (forall m : gmap string ReplicationChannelSource, foldl (fun m s => <[rs_Host s := s]> m) m old !! h = Some o ->
    m !! h = Some o \/ o ∈ old /\ rs_Host o = h) as Hgen.
  { induction old as [|s old IH]; intros m; simpl; [by left|]. intros [Hm|[Ho Hh]]%IH; [|right; split; [by right|done]].
    apply lookup_insert_Some in Hm as [[Hh ->]|[_ Hm]]; [right; split; [by left|done]|by left]. }
  intros [Hm|?]%Hgen; [by rewrite lookup_empty in Hm|done].
Qed.

Lemma sources_differ_false new : forall m, sources_differ new m = false ->
  NoDup (map src_Host new) /\ dom m = list_to_set (map src_Host new) /\
  forall v, v ∈ new -> exists o, m !! src_Host v = Some o /\ rs_Port o = src_Port v /\ rs_Weight o = src_Weight v.
Proof.
  induction new as [|v new IH]; intros m; simpl.
  { intros Hm. apply bool_decide_eq_false in Hm. split_and!; [constructor| |by intros v Hv%elem_of_nil].
    apply dom_empty_iff_L, map_size_empty_iff. lia. }
  destruct (m !! src_Host v) as [o|] eqn:Ho; [|done]. case_bool_decide as Hd; [done|].
  intros (Hnd & Hdom & Hv)%IH. rewrite dom_delete_L in Hdom.
  assert (src_Host v ∉ map src_Host new) as Hni.
  { rewrite <- (elem_of_list_to_set (C := gset string)), <- Hdom. set_solver. }
  split_and!; [by constructor| |].
  - rewrite <- Hdom. assert (src_Host v ∈ dom m) by (by apply elem_of_dom_2 in Ho).
    by rewrite union_comm_L, difference_union_L, union_comm_L, subseteq_union_1_L by set_solver.
  - intros x [->|Hx]%elem_of_cons; [exists o; split_and!; [done|lia..]|].
    destruct (Hv x Hx) as (o' & Ho' & ?). exists o'. split; [|done]. by apply lookup_delete_Some in Ho' as [_ ?].
Qed.

(** [isSourcesChanged] is [false] only when the two lists have the same sources,
    and no two sources of the list share a host. *)
Lemma isSourcesChanged_false new old : isSourcesChanged new old = false ->
  listed new = found old /\ NoDup (map src_Host new).
Proof.
  unfold isSourcesChanged. case_bool_decide as Hlen; [|done]. simpl. intros (Hnd & Hdom & Hv)%sources_differ_false.
  split; [|done].
  assert (NoDup (map rs_Host old)) as Hndo.
  { apply size_list_to_set_NoDup. rewrite <- source_map_dom, Hdom, size_list_to_set by done. rewrite !length_map. done. }
  assert (forall o, o ∈ old -> source_map old !! rs_Host o = Some o) as Hold.
  { intros o Ho. assert (is_Some (source_map old !! rs_Host o)) as [o' Ho'].
    { apply elem_of_dom. rewrite source_map_dom. apply elem_of_list_to_set. by apply list_elem_of_fmap_2. }
    rewrite Ho'. f_equal. apply source_map_in in Ho' as [Hin Hh]. apply list_elem_of_lookup in Ho as [i Hi], Hin as [j Hj].
    assert (j = i) as -> by (apply (NoDup_lookup _ j i (rs_Host o) Hndo); rewrite list_lookup_fmap; [rewrite Hj|rewrite Hi]; simpl; congruence).
    congruence. }
  assert (forall (A : Type) (f : A -> (string * Z) * Z) (l : list A), NoDup (map (fun x => (f x).1.1) l) -> NoDup (map f l).*1) as Hkeys.
  { intros A f l. rewrite <- list_fmap_compose. intros Hl.
    apply (NoDup_fmap_1 fst). by rewrite <- list_fmap_compose. }
  apply map_eq. intros [h p]. apply option_eq. intros wt. unfold listed, found.
  rewrite <- !elem_of_list_to_map by (by apply Hkeys). rewrite !list_elem_of_fmap. split.
  - intros (v & [= -> -> ->] & Hin). destruct (Hv v Hin) as (o & Ho & Hp & Hw). apply source_map_in in Ho as [Ho Hh].
    exists o. split; [congruence|done].
  - intros (o & [= -> -> ->] & Hin). apply Hold in Hin as Hm.
    assert (rs_Host o ∈ map src_Host new) as Hh by (rewrite <- (elem_of_list_to_set (C := gset string)), <- Hdom; by apply elem_of_dom_2 in Hm).
    apply list_elem_of_fmap in Hh as (v & Hh & Hvin). exists v. split; [|done].
    destruct (Hv v Hvin) as (o' & Ho' & Hp & Hw). rewrite <- Hh, Hm in Ho'. injection Ho' as <-. congruence.
Qed.

Lemma sources_differ_intro new : forall m,
  NoDup (map src_Host new) -> dom m = list_to_set (map src_Host new) ->
  (forall v, v ∈ new -> exists o, m !! src_Host v = Some o /\ rs_Port o = src_Port v /\ rs_Weight o = src_Weight v) ->
  sources_differ new m = false.
Proof.
  induction new as [|v new IH]; intros m Hnd Hdom Hv; simpl.
  { apply bool_decide_eq_false. apply dom_empty_iff_L in Hdom. rewrite Hdom, map_size_empty. lia. }
  apply NoDup_cons in Hnd as [Hni Hnd]. destruct (Hv v ltac:(by left)) as (o & -> & Hp & Hw).
  rewrite bool_decide_eq_false_2 by lia. apply IH; [done|..].
  - rewrite dom_delete_L, Hdom. simpl. rewrite <- (elem_of_list_to_set (C := gset string)) in Hni. set_solver.
  - intros x Hx. destruct (Hv x ltac:(by right)) as (o' & Ho' & ?). exists o'. split; [|done].
    rewrite lookup_delete_ne; [done|]. intros E. apply Hni. rewrite E. by apply list_elem_of_fmap_2.
Qed.

Lemma keyed_NoDup {A} (f : A -> (string * Z) * Z) (l : list A) : NoDup (map (fun x => (f x).1.1) l) -> NoDup (map f l).*1.
Proof. intros Hl. apply (NoDup_fmap_1 fst). rewrite <- !list_fmap_compose. exact Hl. Qed.

Lemma isSourcesChanged_exact new old :
  NoDup (map (fun o => (rs_Host o, rs_Port o)) old) ->
  isSourcesChanged new old = false <-> NoDup (map src_Host new) /\ listed new = found old.
Proof.
  intros Hko. split; [by intros [? ?]%isSourcesChanged_false|]. intros [Hnd Heq].
  pose proof (keyed_NoDup (fun s => ((src_Host s, src_Port s), src_Weight s)) new Hnd) as Hkn.
  assert (NoDup (map (fun s => ((rs_Host s, rs_Port s), rs_Weight s)) old).*1) as Hko' by (rewrite <- list_fmap_compose; exact Hko).
  assert (forall s, s ∈ new -> exists o, o ∈ old /\ rs_Host o = src_Host s /\ rs_Port o = src_Port s /\ rs_Weight o = src_Weight s) as Hno.
  { intros s Hs. assert (found old !! (src_Host s, src_Port s) = Some (src_Weight s)) as Hf.
    { rewrite <- Heq. apply elem_of_list_to_map; [exact Hkn|]. by apply list_elem_of_fmap; exists s. }
    apply elem_of_list_to_map in Hf; [|exact Hko']. apply list_elem_of_fmap in Hf as (o & [= -> -> ->] & Ho). by exists o. }
  assert (forall o, o ∈ old -> exists s, s ∈ new /\ rs_Host o = src_Host s /\ rs_Port o = src_Port s /\ rs_Weight o = src_Weight s) as Hon.
  { intros o Ho. assert (listed new !! (rs_Host o, rs_Port o) = Some (rs_Weight o)) as Hf.
    { rewrite Heq. apply elem_of_list_to_map; [exact Hko'|]. by apply list_elem_of_fmap; exists o. }
    apply elem_of_list_to_map in Hf; [|exact Hkn]. apply list_elem_of_fmap in Hf as (s & [= -> -> ->] & Hs). by exists s. }
  assert (length new = length old) as Hlen.
  { apply (f_equal size) in Heq. unfold listed, found in Heq. rewrite !map_size_list_to_map in Heq by done.
    by rewrite !length_map in Heq. }
  unfold isSourcesChanged. rewrite bool_decide_eq_true_2 by done. simpl. apply sources_differ_intro; [done|..].
  - rewrite source_map_dom. apply set_eq. intros h. rewrite !elem_of_list_to_set, !list_elem_of_fmap. split.
    + intros (o & -> & Ho). destruct (Hon o Ho) as (s & ? & ? & _). by exists s.
    + intros (s & -> & Hs). destruct (Hno s Hs) as (o & ? & ? & _). by exists o.
  - intros s Hs. destruct (Hno s Hs) as (o & Ho & Hh & _ & _).
    assert (is_Some (source_map old !! src_Host s)) as [o' Ho'].
    { apply elem_of_dom. rewrite source_map_dom. apply elem_of_list_to_set. rewrite <- Hh. by apply list_elem_of_fmap_2. }
    exists o'. split; [done|]. apply source_map_in in Ho' as [Hin Hh']. destruct (Hon o' Hin) as (s' & Hs' & E & ? & ?).
    assert (s' = s) as -> by (apply list_elem_of_lookup in Hs as [i Hi], Hs' as [j Hj];
      assert (j = i) as -> by (apply (NoDup_lookup _ j i (src_Host s) Hnd); rewrite list_lookup_fmap; [rewrite Hj|rewrite Hi]; simpl; congruence); congruence).
    done.
Qed.

(** C34: the comparison of sources is exact when every source has a host of its own,
    and otherwise useless.  Against the rows of the failover table, the sources
    count as unchanged just when hosts, ports and weights agree and no two sources
    of the channel share a host: a channel with two ports of one host is restarted
    in every pass. *)
Theorem isSourcesChanged_iff new old :
  NoDup (map (fun o => (rs_Host o, rs_Port o)) old) ->
  isSourcesChanged new old = false <-> NoDup (map src_Host new) /\ listed new = found old.
Proof. apply isSourcesChanged_exact. Qed.

Lemma isSourcesChanged_iff_witness :
  isSourcesChanged [mkSource "a" 3306 10; mkSource "b" 3306 20]
    [mkChannelSource "" "b" 3306 20; mkChannelSource "" "a" 3306 10] = false /\
  isSourcesChanged [mkSource "a" 3306 10; mkSource "a" 3307 20]
    [mkChannelSource "" "a" 3306 10; mkChannelSource "" "a" 3307 20] = true.
Proof.
  split.
  - apply isSourcesChanged_iff; [apply (bool_decide_unpack _); vm_compute; exact I|].
    split; [apply (bool_decide_unpack _); vm_compute; exact I|vm_compute; reflexivity].
  - apply not_false_iff_true. intros [Hnd _]%isSourcesChanged_iff; [|apply (bool_decide_unpack _); vm_compute; exact I].
    apply NoDup_cons in Hnd as [Hnd _]. apply Hnd. by left.
Defined.

(** ** The source that is started *)

(** The weight does not choose the source.  The channel starts with the last
    source whose weight is positive (and with the first one when there is none),
    however large the weights before it are: the running maximum is never
    updated. *)
Theorem maxWeightSrc_is_last first sources :
  maxWeightSrc first sources = default first (last (filter (fun s => 0 < src_Weight s) sources)).
Proof.
  unfold maxWeightSrc, maxWeight. revert first. induction sources as [|s l IH] using rev_ind; intros first; [done|].
  rewrite foldl_app, filter_app. simpl. rewrite IH, filter_cons, filter_nil. case_bool_decide.
  - rewrite decide_True by done. by rewrite last_snoc.
  - rewrite decide_False by done. by rewrite app_nil_r.
Qed.

Example heavy_source_ignored : src_Host (maxWeightSrc (mkSource "heavy" 3306 100) [mkSource "heavy" 3306 100; mkSource "light" 3306 1]) = "light".
Proof. reflexivity. Qed.

(** ** What the database does

    The failover table of each database, by address and channel, and the read-only
    modes. *)
Record RView := mkRView {
  rv_table : gmap (string * string) (gmap (string * Z) Z);
  rv_readonly : gmap string bool }.

Class ReplView (W : Type) := repl_view : W -> RView.

Definition sources (v : RView) (addr ch : string) : gmap (string * Z) Z := default ∅ (rv_table v !! (addr, ch)).

Definition same_tables (addr : string) (v v' : RView) : Prop := forall ch, sources v' addr ch = sources v addr ch.

(** The table of one channel is set to [f] of what it was. *)
Definition changes (addr ch : string) (f : gmap (string * Z) Z -> gmap (string * Z) Z) (v v' : RView) : Prop :=
  rv_readonly v' = rv_readonly v /\ sources v' addr ch = f (sources v addr ch) /\
  forall ch', ch' <> ch -> sources v' addr ch' = sources v addr ch'.

Definition channel_statements : list string := [sql_stop_channel; sql_start_channel; sql_change_source; sql_public_key].

(** What a statement that succeeded has done; nothing is said about a source that
    is added twice. *)
Definition repl_effect (addr q : string) (args : list string) (v v' : RView) : Prop :=
  (q = sql_add_source -> forall ch h p wt, args = [ch; h; pretty p; pretty wt] -> sources v addr ch !! (h, p) = None ->
     changes addr ch <[(h, p) := wt]> v v') /\
  (q = sql_delete_source -> forall ch h p, args = [ch; h; pretty p] -> changes addr ch (delete (h, p)) v v') /\
  (q ∈ channel_statements -> same_tables addr v v' /\ rv_readonly v' = rv_readonly v) /\
  (q = sql_readonly_on -> rv_readonly v' = <[addr := true]> (rv_readonly v)) /\
  (q = sql_readonly_off -> rv_readonly v' = <[addr := false]> (rv_readonly v)).

Definition source_row (x : (string * Z) * Z) : Row := [Some x.1.1; Some (pretty x.1.2); Some (pretty x.2)].

Class ReplLaws (W : Type) `{ReplView W} `{SecretClient W} `{MysqlEnv W} `{QueryEnv W} `{ReplEnv W} := {
  rl_Exec db q args w w' : my_Exec db q args w = (w', Ok tt) -> repl_effect (db_Addr db) q args (repl_view w) (repl_view w');
  rl_Exec_failed_stop db ch w w' e : my_Exec db sql_stop_channel [ch] w = (w', Err e) ->
    same_tables (db_Addr db) (repl_view w) (repl_view w') /\ rv_readonly (repl_view w') = rv_readonly (repl_view w);
  rl_Query db q args w w' r : qe_Query db q args w = (w', r) -> repl_view w' = repl_view w;
  rl_QueryRow db q args w w' r : my_QueryRow db q args w = (w', r) -> repl_view w' = repl_view w;
  rl_sources db ch w w' cols rows : qe_Query db sql_sources [ch] w = (w', Ok (cols, rows, None)) ->
    exists l, rows = map source_row l /\ NoDup l.*1 /\ list_to_map l = sources (repl_view w) (db_Addr db) ch /\
      Forall (fun x => 0 <= x.1.2 /\ 0 <= x.2) l;
  rl_no_rows db ch w w' e : qe_Query db sql_sources [ch] w = (w', Err e) -> errors_Is e ErrNoRows = true ->
    sources (repl_view w) (db_Addr db) ch = ∅;
  rl_channels db w w' cols rows : qe_Query db sql_channels [] w = (w', Ok (cols, rows, None)) ->
    exists l, rows = map (fun c => [Some c]) l /\ forall c, c ∈ l <-> sources (repl_view w) (db_Addr db) c <> ∅;
  rl_no_channels db w w' e : qe_Query db sql_channels [] w = (w', Err e) -> errors_Is e ErrNoRows = true ->
    forall c, sources (repl_view w) (db_Addr db) c = ∅;
  rl_readonly db w w' row : my_QueryRow db sql_readonly [] w = (w', Ok row) ->
    exists b, rv_readonly (repl_view w) !! db_Addr db = Some b /\ row = [Some (bit b)];
  rl_get n w w' r : sc_get n w = (w', r) -> repl_view w' = repl_view w;
  rl_Ping db w w' r : qe_Ping db w = (w', r) -> repl_view w' = repl_view w;
  rl_Close db w w' r : my_Close db w = (w', r) -> repl_view w' = repl_view w;
  rl_order s w : rx_order s w ≡ₚ elements s }.

(** No result of a query is cut short: the code does not ask for the error that
    ends the iteration. *)
Definition complete_rows (W : Type) `{QueryEnv W} : Prop :=
  forall db q args (w w' : W) out, q ∈ [sql_sources; sql_channels] -> qe_Query db q args w = (w', Ok out) -> out.2 = None.

Section channel.
Context {W : Type} `{ReplLaws W} (Hrows : complete_rows W).
Implicit Types (w : W).

Lemma scan_sources_rows l : Forall (fun x : (string * Z) * Z => 0 <= x.1.2 /\ 0 <= x.2) l ->
  scan_rows scan_source (map source_row l) = Ok (map (fun x => mkChannelSource "" x.1.1 x.1.2 x.2) l).
Proof.
  induction 1 as [|[[h p] wt] l [Hp Hw] _ IH]; [done|]. cbn [map scan_rows scan_source source_row scan_int fst snd].
  simpl in Hp, Hw. rewrite !parse_Z_pretty by done. unfold mbind, res_bind in *. by rewrite IH.
Qed.

Lemma sources_run msg db ch w w' l : sources_or_none msg db ch w = (w', Ok l) ->
  repl_view w' = repl_view w /\ found l = sources (repl_view w) (db_Addr db) ch /\ NoDup (map (fun o => (rs_Host o, rs_Port o)) l).
Proof.
  unfold sources_or_none. intros Hrun. apply bind_inv_Ok in Hrun as (w1 & r & Htry & Hrun).
  unfold try, ReplicationChannelSources, mbind at 1, M_bind at 1, try in Htry.
  destruct (qe_Query db sql_sources [ch] w) as [w2 out] eqn:Eq. pose proof (rl_Query _ _ _ _ _ _ Eq) as Hv.
  destruct out as [[[cols rows] err]|e|]; [| |done].
  - assert (err = None) as -> by (by apply (Hrows db sql_sources [ch] w w2 _ ltac:(set_solver) Eq)).
    apply rl_sources in Eq as (l0 & -> & Hnd & Hm & Hpos). unfold lift in Htry. rewrite scan_sources_rows in Htry by done.
    simpl in Htry. injection Htry as <- <-. unfold mret, M_ret in Hrun. injection Hrun as <- <-. split; [done|].
    unfold found. rewrite <- !list_fmap_compose. split.
    + rewrite <- Hm. f_equal. rewrite <- (list_fmap_id l0) at 2. apply list_fmap_ext. by intros i [[? ?] ?] _.
    + replace ((fun o => (rs_Host o, rs_Port o)) ∘ (fun x : (string * Z) * Z => mkChannelSource "" x.1.1 x.1.2 x.2) <$> l0) with l0.*1; [done|].
      apply list_fmap_ext. by intros i [[? ?] ?] _.
  - destruct (errors_Is e ErrNoRows) eqn:En; unfold fail in Htry; injection Htry as <- <-.
    + apply rl_no_rows in Eq; [|done]. simpl in Hrun. unfold mret, M_ret in Hrun. injection Hrun as <- <-.
      split_and!; [done|done|constructor].
    + rewrite bool_decide_eq_false_2 in Hrun by done. discriminate Hrun.
Qed.

Lemma show_run db ch w w' r : ShowReplicaStatus db ch w = (w', r) -> repl_view w' = repl_view w.
Proof.
  unfold ShowReplicaStatus, mbind, M_bind. destruct (qe_Query _ _ _ w) as [w1 out] eqn:Eq. apply rl_Query in Eq.
  destruct out as [[[cols [|row rows]] err]|e|]; [|case_bool_decide|..]; by intros [= <- _].
Qed.

Lemma status_run db ch w w' r : GetReplicationStatus db ch w = (w', r) -> repl_view w' = repl_view w.
Proof.
  unfold GetReplicationStatus, mbind, M_bind, try. destruct (ShowReplicaStatus db ch w) as [w1 out] eqn:E. apply show_run in E.
  destruct out as [m|e|]; [|destruct (_ || _)|]; by intros [= <- _].
Qed.

Lemma delete_all db ch msg l : forall w w',
  for_each (fun src => wrap msg (DeleteReplicationSource db ch (rs_Host src) (rs_Port src))) l w = (w', Ok tt) ->
  changes (db_Addr db) ch (fun m => foldl (fun m o => delete (rs_Host o, rs_Port o) m) m l) (repl_view w) (repl_view w').
Proof.
  induction l as [|o l IH]; intros w w' Hrun; simpl in Hrun.
  { unfold mret, M_ret in Hrun. by injection Hrun as <-. }
  apply bind_inv_Ok in Hrun as (w1 & [] & Hg1 & Hrun). apply IH in Hrun as (Hr & Hs & Ho).
  unfold DeleteReplicationSource in Hg1. do 2 apply wrap_inv_Ok in Hg1. apply rl_Exec in Hg1 as (_ & Hg1 & _).
  destruct (Hg1 eq_refl _ _ _ eq_refl) as (Hr1 & Hs1 & Ho1). split_and!; [congruence| |].
  - rewrite Hs, Hs1. done.
  - intros ch' Hch. rewrite Ho, Ho1; done.
Qed.

Lemma found_deleted l : forall m, dom (m : gmap (string * Z) Z) ⊆ list_to_set (map (fun o => (rs_Host o, rs_Port o)) l) ->
  foldl (fun m o => delete (rs_Host o, rs_Port o) m) m l = ∅.
Proof.
  induction l as [|o l IH]; intros m Hm; simpl.
  { apply dom_empty_iff_L. set_solver. }
  apply IH. rewrite dom_delete_L. simpl in Hm. set_solver.
Qed.

Lemma add_all db ch msg l : forall w w',
  NoDup (map (fun s => (src_Host s, src_Port s)) l) ->
  (forall s, s ∈ l -> sources (repl_view w) (db_Addr db) ch !! (src_Host s, src_Port s) = None) ->
  for_each (fun src => wrap msg (AddReplicationSource db ch (src_Host src) (src_Port src) (src_Weight src))) l w = (w', Ok tt) ->
  changes (db_Addr db) ch (fun m => listed l ∪ m) (repl_view w) (repl_view w').
Proof.
  induction l as [|s l IH]; intros w w' Hnd Hnone Hrun; simpl in Hrun.
  { unfold mret, M_ret in Hrun. injection Hrun as <-. split_and!; [done| |done]. unfold listed. simpl. by rewrite (left_id_L ∅ (∪)). }
  apply NoDup_cons in Hnd as [Hni Hnd]. apply bind_inv_Ok in Hrun as (w1 & [] & Hg1 & Hrun).
  unfold AddReplicationSource in Hg1. do 2 apply wrap_inv_Ok in Hg1. apply rl_Exec in Hg1 as (Hg1 & _).
  destruct (Hg1 eq_refl _ _ _ _ eq_refl (Hnone s ltac:(by left))) as (Hr1 & Hs1 & Ho1).
  apply IH in Hrun as (Hr & Hs & Ho); [|done|].
  - split_and!; [congruence| |intros ch' Hch; by rewrite Ho, Ho1].
    rewrite Hs, Hs1. unfold listed. simpl.
    rewrite <- insert_union_l, <- insert_union_r; [done|]. apply not_elem_of_list_to_map_1. by rewrite <- list_fmap_compose.
  - intros x Hx. rewrite Hs1, lookup_insert_ne; [apply Hnone; by right|]. intros E. apply Hni. rewrite E.
    by apply (list_elem_of_fmap_2 (fun s => (src_Host s, src_Port s))).
Qed.

Lemma channel_statement db q args w w' : q ∈ channel_statements -> my_Exec db q args w = (w', Ok tt) ->
  same_tables (db_Addr db) (repl_view w) (repl_view w').
Proof. intros Hq Hx. apply rl_Exec in Hx as (_ & _ & Hc & _). by apply Hc. Qed.

Lemma stop_run db name w w' : StopReplication db name w = (w', Ok tt) -> same_tables (db_Addr db) (repl_view w) (repl_view w').
Proof. intros Hx%wrap_inv_Ok. eapply channel_statement; [|exact Hx]. by left. Qed.

Lemma start_run db pw c key w w' : StartReplication db pw c key w = (w', Ok tt) -> same_tables (db_Addr db) (repl_view w) (repl_view w').
Proof.
  unfold StartReplication. intros Hrun. apply bind_inv_Ok in Hrun as (w1 & [] & Hg1%wrap_inv_Ok & Hrun).
  apply bind_inv_Ok in Hrun as (w2 & [] & Hg2 & Hg3%wrap_inv_Ok).
  apply channel_statement in Hg1; [|set_solver]. apply channel_statement in Hg3; [|set_solver].
  assert (same_tables (db_Addr db) (repl_view w1) (repl_view w2)) as Hg2'.
  { destruct key; [apply wrap_inv_Ok in Hg2; by apply channel_statement in Hg2; [|set_solver]|].
    unfold mret, M_ret in Hg2. by injection Hg2 as <-. }
  intros ch. by rewrite (Hg3 ch), (Hg2' ch), (Hg1 ch).
Qed.

Lemma restart_run db channel currentSources status pw key w w' :
  NoDup (map (fun s => (src_Host s, src_Port s)) (ch_SourcesList channel)) ->
  found currentSources = sources (repl_view w) (db_Addr db) (ch_Name channel) ->
  restartChannel db channel currentSources status pw key w = (w', Ok tt) ->
  sources (repl_view w') (db_Addr db) (ch_Name channel) = listed (ch_SourcesList channel) /\
  forall ch', ch' <> ch_Name channel -> sources (repl_view w') (db_Addr db) ch' = sources (repl_view w) (db_Addr db) ch'.
Proof.
  intros Hnd Hfound Hrun. unfold restartChannel in Hrun.
  apply bind_inv_Ok in Hrun as (w1 & [] & Hg1 & Hrun). apply bind_inv_Ok in Hrun as (w2 & [] & Hg2 & Hrun).
  apply bind_inv_Ok in Hrun as (w3 & first & Hg3 & Hrun). apply bind_inv_Ok in Hrun as (w4 & [] & Hg4 & Hrun).
  apply bind_inv_Ok in Hrun as (w5 & config & Hg5 & Hrun). unfold lift in Hg3, Hg5. injection Hg3 as <- _. injection Hg5 as <- _.
  assert (same_tables (db_Addr db) (repl_view w) (repl_view w1)) as Hs1.
  { case_bool_decide; [by apply wrap_inv_Ok, stop_run in Hg1|]. unfold mret, M_ret in Hg1. by injection Hg1 as <-. }
  apply delete_all in Hg2 as (_ & Hs2 & Ho2). apply start_run in Hrun as Hs5. rewrite Hs1 in Hs2.
  rewrite found_deleted in Hs2.
  2:{ rewrite <- Hfound. unfold found. rewrite dom_list_to_map_L, <- list_fmap_compose. done. }
  apply add_all in Hg4 as (_ & Hs4 & Ho4); [|done|].
  - split.
    + by rewrite Hs5, Hs4, Hs2, (right_id_L ∅ (∪)).
    + intros ch' Hch. by rewrite Hs5, Ho4, Ho2, Hs1.
  - intros s _. rewrite Hs2. apply lookup_empty.
Qed.


Lemma removeChannel_run db ch w w' : removeChannel db ch w = (w', Ok tt) ->
  sources (repl_view w') (db_Addr db) ch = ∅ /\
  forall ch', ch' <> ch -> sources (repl_view w') (db_Addr db) ch' = sources (repl_view w) (db_Addr db) ch'.
Proof.
  unfold removeChannel. intros Hrun. apply bind_inv_Ok in Hrun as (w1 & r & Hg1 & Hrun).
  apply bind_inv_Ok in Hrun as (w2 & [] & Hg2 & Hrun). apply bind_inv_Ok in Hrun as (w3 & l & Hg3 & Hrun).
  assert (same_tables (db_Addr db) (repl_view w) (repl_view w1) /\ w2 = w1) as [Hs1 ->].
  { apply try_inv_Ok in Hg1 as [([] & -> & Hg1)|(e & -> & Hg1)].
    - unfold mret, M_ret in Hg2. injection Hg2 as <-. split; [by eapply stop_run|done].
    - unfold StopReplication, wrap in Hg1. destruct (my_Exec _ _ _ w) as [wx rx] eqn:Ex. destruct rx; try done.
      injection Hg1 as <- <-. apply rl_Exec_failed_stop in Ex as [? _]. split; [done|].
      destruct (Contains _ _); [|done]. unfold mret, M_ret in Hg2. by injection Hg2 as <-. }
  apply sources_run in Hg3 as (Hv & Hf & _). apply delete_all in Hrun as (_ & Hs & Ho).
  split.
  - rewrite Hs, Hv, <- Hf. apply found_deleted. unfold found. rewrite dom_list_to_map_L, <- list_fmap_compose. done.
  - intros ch' Hch. by rewrite Ho, Hv, Hs1.
Qed.

Lemma remove_all db l : forall w w', for_each (removeChannel db) l w = (w', Ok tt) ->
  forall c, sources (repl_view w') (db_Addr db) c = if bool_decide (c ∈ l) then ∅ else sources (repl_view w) (db_Addr db) c.
Proof.
  induction l as [|ch l IH]; intros w w' Hrun c; simpl in Hrun.
  { unfold mret, M_ret in Hrun. by injection Hrun as <-. }
  apply bind_inv_Ok in Hrun as (w1 & [] & Hg1 & Hrun). apply removeChannel_run in Hg1 as [He Ho]. rewrite (IH _ _ Hrun c).
  destruct (decide (c ∈ l)) as [Hin|Hin].
  - rewrite !bool_decide_eq_true_2; [done|by right|done].
  - rewrite (bool_decide_eq_false_2 (c ∈ l)) by done. destruct (decide (c = ch)) as [->|Hne].
    + rewrite bool_decide_eq_true_2 by by left. done.
    + rewrite bool_decide_eq_false_2 by set_solver. by apply Ho.
Qed.

(** Channels that are not in the specification any more lose their sources, and
    the channels of the specification keep them: after [removeOutdatedChannels]
    without an error, the failover table has the sources it had for each channel in
    which this cluster is a replica, and none for any other channel. *)
Theorem removeOutdatedChannels_exact db current w w' :
  removeOutdatedChannels db current w = (w', Ok tt) ->
  forall c, sources (repl_view w') (db_Addr db) c =
    if bool_decide (c ∈ map ch_Name (filter (fun ch => ch_IsSource ch = false) current))
    then sources (repl_view w) (db_Addr db) c else ∅.
Proof.
  unfold removeOutdatedChannels. intros Hrun. apply bind_inv_Ok in Hrun as (w1 & l & Hg1%wrap_inv_Ok & Hrun).
  apply bind_inv_Ok in Hrun as (w2 & order & Hg2 & Hrun). unfold gets in Hg2. injection Hg2 as <- <-.
  assert (repl_view w1 = repl_view w /\ forall c, c ∈ l <-> sources (repl_view w) (db_Addr db) c <> ∅) as [Hv Hl].
  { unfold CurrentReplicationChannels, mbind, M_bind, try in Hg1.
    destruct (qe_Query db sql_channels [] w) as [wx out] eqn:Eq. pose proof (rl_Query _ _ _ _ _ _ Eq) as Hv.
    destruct out as [[[cols rows] err]|e|]; [| |done].
    - assert (err = None) as -> by (by apply (Hrows db sql_channels [] w wx _ ltac:(set_solver) Eq)).
      apply rl_channels in Eq as (l0 & -> & Hl0). unfold lift in Hg1. injection Hg1 as <- Hg1. split; [done|].
      assert (scan_rows scan_string (map (fun c => [Some c]) l0) = Ok l0) as Hscan
        by (clear; induction l0 as [|c l0 IH]; [done|]; simpl; by rewrite IH).
      rewrite Hscan in Hg1. simpl in Hg1. by injection Hg1 as <-.
    - destruct (errors_Is e ErrNoRows) eqn:En; [|done]. unfold mret, M_ret in Hg1. injection Hg1 as <- <-. split; [done|].
      intros c. rewrite (rl_no_channels db w wx e Eq En c). split; [by intros ?%elem_of_nil|done]. }
  intros c. rewrite (remove_all _ _ _ _ Hrun c), Hv.
  assert (c ∈ rx_order (outdated_channels l current) w1 <-> c ∈ outdated_channels l current) as Hord.
  { rewrite (rl_order _ w1). apply elem_of_elements. }
  unfold outdated_channels in *. set (wanted := map ch_Name _) in *. rewrite elem_of_difference, !elem_of_list_to_set, Hl in Hord.
  case_bool_decide as Hc; case_bool_decide as Hw; try done; [tauto|].
  destruct (decide (sources (repl_view w) (db_Addr db) c = ∅)); [done|]. tauto.
Qed.
End channel.

Section readonly.
Context {W : Type} `{ReplLaws W}.

Definition pod_addr (cr : PerconaXtraDBCluster) (pod : string) : string :=
  pod +:+ "." +:+ cluster_Name cr +:+ "-pxc." +:+ cluster_Namespace cr +:+ ":33062".

Lemma pod_db_run cr pod (w w' : W) db : pod_db cr pod w = (w', Ok db) ->
  repl_view w' = repl_view w /\ db_Addr db = pod_addr cr pod.
Proof.
  unfold pod_db, New. intros Hrun. apply bind_inv_Ok in Hrun as (w1 & pxc & Hg1 & Hrun). unfold lift in Hg1. injection Hg1 as <- _.
  apply bind_inv_Ok in Hrun as (w2 & s & Hg2%rl_get & Hrun). apply bind_inv_Ok in Hrun as (w3 & u & Hg3 & Hrun).
  unfold lift in Hg3. injection Hg3 as <- _. apply bind_inv_Ok in Hrun as (w4 & u' & Hg4%rl_Ping & Hrun).
  unfold mret, M_ret in Hrun. injection Hrun as <- <-. split; [congruence|]. simpl. unfold pod_addr. rewrite <- !str_app_assoc. done.
Qed.

Lemma pod_addr_inj cr p1 p2 : pod_addr cr p1 = pod_addr cr p2 -> p1 = p2.
Proof. intros [? _]%str_app_inj_r; done. Qed.

Lemma readonly_run db (w w' : W) b : IsReadonly db w = (w', Ok b) ->
  repl_view w' = repl_view w /\ rv_readonly (repl_view w) !! db_Addr db = Some b.
Proof.
  unfold IsReadonly, row1. intros Hrun. apply bind_inv_Ok in Hrun as (w1 & n & Hg1%wrap_inv_Ok & Hrun).
  apply bind_inv_Ok in Hg1 as (w2 & row & Hg1 & Hg2). unfold lift in Hg2. injection Hg2 as <- Hn.
  unfold mret, M_ret in Hrun. injection Hrun as <- <-. pose proof (rl_QueryRow _ _ _ _ _ _ Hg1) as Hv.
  apply rl_readonly in Hg1 as (b & Hb & ->). split; [done|]. rewrite Hb. by destruct b; simpl in Hn; injection Hn as <-.
Qed.

Lemma defer_inv_Ok {A} (m : M W A) d w w' a : with_defer m d w = (w', Ok a) -> exists w1, m w = (w1, Ok a) /\ (d w1).1 = w'.
Proof.
  unfold with_defer. destruct (m w) as [w1 r]. destruct (d w1) as [w2 r2] eqn:Ed. simpl.
  intros Hx. exists w1. rewrite Ed. by injection Hx as <- ->.
Qed.

(** The other pods, and those that come later, keep their mode. *)
Lemma check_pods_run cr isReplica pods : forall w w', NoDup (map rp_Name pods) ->
  check_pods cr isReplica pods w = (w', Ok tt) ->
  (forall p, p ∈ pods -> rv_readonly (repl_view w') !! pod_addr cr (rp_Name p) = Some isReplica) /\
  (forall a, a ∉ map (pod_addr cr ∘ rp_Name) pods -> rv_readonly (repl_view w') !! a = rv_readonly (repl_view w) !! a).
Proof.
  induction pods as [|pod pods IH]; intros w w' Hnd Hrun; simpl in Hrun.
  { unfold mret, M_ret in Hrun. injection Hrun as <-. split; [by intros p Hp%elem_of_nil|done]. }
  apply NoDup_cons in Hnd as [Hni Hnd]. apply bind_inv_Ok in Hrun as (w1 & db & Hg1%wrap_inv_Ok & Hrun).
  apply pod_db_run in Hg1 as [Hv1 Haddr]. apply defer_inv_Ok in Hrun as (w2 & Hrun & Hclose).
  assert (repl_view w' = repl_view w2) as Hv' by (destruct (my_Close db w2) eqn:Ec; apply rl_Close in Ec; by rewrite <- Hclose).
  apply bind_inv_Ok in Hrun as (w3 & ro & Hg3%wrap_inv_Ok & Hrun). apply readonly_run in Hg3 as [Hv3 Hro].
  apply bind_inv_Ok in Hrun as (w4 & u & Hg4 & Hrun). apply IH in Hrun as [Hp Ho]; [|done].
  assert (rv_readonly (repl_view w4) = <[pod_addr cr (rp_Name pod) := isReplica]> (rv_readonly (repl_view w))) as Hw4.
  { rewrite <- Haddr, <- Hv1, <- Hv3. rewrite <- Hv3 in Hro. clear IH Hp Ho.
    destruct isReplica, ro; cbn [andb orb negb] in Hg4.
    1,4: unfold mret, M_ret in Hg4; injection Hg4 as <-; by rewrite insert_id.
    all: apply wrap_inv_Ok in Hg4; unfold EnableReadonly, DisableReadonly in Hg4.
    - apply bind_inv_Ok in Hg4 as (w5 & [] & Hg5%wrap_inv_Ok & Hg4). unfold mret, M_ret in Hg4. injection Hg4 as <-.
      apply rl_Exec in Hg5 as (_ & _ & _ & Hx & _). by apply Hx.
    - apply bind_inv_Ok in Hg4 as (w5 & [] & Hg5 & Hg4). unfold mret, M_ret in Hg5. injection Hg5 as <-.
      destruct u. apply wrap_inv_Ok, rl_Exec in Hg4 as (_ & _ & _ & _ & Hx). by apply Hx. }
  rewrite Hv'. split.
  - intros p [->|Hin]%elem_of_cons; [|by apply Hp]. rewrite Ho, Hw4; [apply lookup_insert_eq|].
    intros (q & E & Hq)%list_elem_of_fmap. apply pod_addr_inj in E. apply Hni. rewrite E. by apply list_elem_of_fmap_2.
  - intros a Ha. simpl in Ha. apply not_elem_of_cons in Ha as [Ha1 Ha2]. rewrite Ho by done. rewrite Hw4.
    by rewrite lookup_insert_ne.
Qed.

(** A cluster that replicates is read-only and any other one is writable: after
    [checkReadonlyStatus] without an error, every pod it was given is read-only just
    when the first channel of the cluster is one in which it is the replica; the
    other pods are as they were. *)
Theorem checkReadonlyStatus_correct channels pods cr (w w' : W) :
  NoDup (map rp_Name pods) ->
  checkReadonlyStatus channels pods cr w = (w', Ok tt) ->
  (forall p, p ∈ pods -> rv_readonly (repl_view w') !! pod_addr cr (rp_Name p) = Some (is_replica channels)) /\
  (forall a, a ∉ map (pod_addr cr ∘ rp_Name) pods -> rv_readonly (repl_view w') !! a = rv_readonly (repl_view w) !! a).
Proof. apply check_pods_run. Qed.
End readonly.

(** ** The status remembers the configuration *)

Lemma shifted_config (o : option (nat * ReplicationChannelStatus)) :
  match prod_map S id <$> o with Some (_, v) => rcs_Config v | None => no_config end =
  match o with Some (_, v) => rcs_Config v | None => no_config end.
Proof. by destruct o as [[? ?]|]. Qed.

(** The configuration that is noted for a channel is the one that is found for
    it, and that of the other channels stays. *)
Theorem channel_status_roundtrip cr channel cr' config :
  ch_Config channel = Some config -> setReplicationChannelStatus cr channel = Ok cr' ->
  currentReplicaConfig (ch_Name channel) (cs_PXCReplication (cluster_Status cr')) = config /\
  forall name, name <> ch_Name channel ->
    currentReplicaConfig name (cs_PXCReplication (cluster_Status cr')) = currentReplicaConfig name (cs_PXCReplication (cluster_Status cr)).
Proof.
  unfold setReplicationChannelStatus. intros -> Hset. set (st := mkChannelStatus (ch_Name channel) config).
  assert (cs_PXCReplication (cluster_Status cr') = Some (set_channel st (cs_PXCReplication (cluster_Status cr)))) as ->.
  { injection Hset as <-. by destruct cr as [? ? []]. }
  change (ch_Name channel) with (rcs_Name st). change config with (rcs_Config st). generalize st. clear. intros st.
  unfold currentReplicaConfig, set_channel. destruct (cs_PXCReplication (cluster_Status cr)) as [l|].
  - induction l as [|x l [IH1 IH2]].
    + simpl. split; [by rewrite decide_True|]. intros name Hn. by rewrite decide_False.
    + cbn [list_find]. destruct (decide (rcs_Name x = rcs_Name st)) as [E|E].
      * simpl. split; [by rewrite decide_True|]. intros name Hn. rewrite !decide_False by congruence. done.
      * destruct (list_find (fun v => rcs_Name v = rcs_Name st) l) as [[k y]|] eqn:Ef; simpl in *.
        all: split; [rewrite decide_False by done; by rewrite shifted_config|].
        all: intros name Hn; destruct (decide (rcs_Name x = name)); [done|]; rewrite !shifted_config; by apply IH2.
  - simpl. split; [by rewrite decide_True|]. intros name Hn. by rewrite decide_False.
Qed.
