(* ===== verification/SmartUpdateSpec.v ===== *)
(** * What the smart update guarantees

    Pods are restarted one at a time and the primary last. *)

From S2P Require Import Prelude GoStrings ApiTypes KubeApi Naming ClusterStatus SmartUpdate.

(** Deleted pods are logged, everything else the update calls deletes none. *)
Class SmartLaws (W : Type) `{SmartEnv W} `{StatusEnv W} := {
  sl_log : W -> list NamespacedName;
  sl_deletePod n w w' r : sm_deletePod n w = (w', r) -> sl_log w' = sl_log w ++ if is_ok r then [n] else [];
  sl_sleep l : keeps (fun w => sl_log w = l) sm_sleepSecond;
  sl_getSts n l : keeps (fun w => sl_log w = l) (sm_getSts n);
  sl_listPods c l : keeps (fun w => sl_log w = l) (sm_listPods c);
  sl_getPod n l : keeps (fun w => sl_log w = l) (sm_getPod n);
  sl_getPod_key n w w' p : sm_getPod n w = (w', Ok p) -> up_key p = n;
  sl_listBackups n l : keeps (fun w => sl_log w = l) (sm_listBackups n);
  sl_connect a b c d l : keeps (fun w => sl_log w = l) (sm_connect a b c d);
  sl_Hostname h l : keeps (fun w => sl_log w = l) (sm_Hostname h);
  sl_PrimaryHost h l : keeps (fun w => sl_log w = l) (sm_PrimaryHost h);
  sl_Present a b c l : keeps (fun w => sl_log w = l) (sm_PresentInHostgroup a b c);
  sl_Instance a b l : keeps (fun w => sl_log w = l) (sm_InstanceStatus a b);
  sl_Wsrep h l : keeps (fun w => sl_log w = l) (sm_WsrepState h);
  sl_sxPods a b l : keeps (fun w => sl_log w = l) (sx_listPods a b);
  sl_sxSts n l : keeps (fun w => sl_log w = l) (sx_getSts n);
  sl_sxLogs a b l : keeps (fun w => sl_log w = l) (sx_podLogs a b);
  sl_sxIngress n l : keeps (fun w => sl_log w = l) (sx_ingress n);
  sl_sxCluster n l : keeps (fun w => sl_log w = l) (sx_getCluster n);
  sl_sxUpdate c l : keeps (fun w => sl_log w = l) (sx_statusUpdate c) }.

Create HintDb smart discriminated.
#[export] Hint Resolve sl_sleep sl_getSts sl_listPods sl_getPod sl_listBackups sl_connect sl_Hostname sl_PrimaryHost
  sl_Present sl_Instance sl_Wsrep sl_sxPods sl_sxSts sl_sxLogs sl_sxIngress sl_sxCluster sl_sxUpdate : smart.

Section quiet.
Context {W : Type} `{SmartLaws W} `{RetryLib} `{VersionLib}.

Definition silent {A} (m : M W A) : Prop := forall l, keeps (fun w => sl_log w = l) m.
Definition silentV {A} (m : M (VW W) A) : Prop := forall l, keeps (fun v => sl_log (vw_w v) = l) m.

Lemma silent_onV {A} (m : M W A) : silent m -> silentV (onV m).
Proof. intros Hm l [w c] Hv. specialize (Hm l w Hv). unfold onV. simpl in *. by destruct (m w). Qed.

(** Steps through a program of silent calls. *)
Ltac silent_tac := repeat first [keeps_step | apply keeps_retry_conflict | solve [eauto with smart] | apply silent_onV].

Lemma silent_retry_error {A} (m : M W A) : silent m -> silent (retry_on_error m).
Proof.
  intros Hm l w Hw. destruct (retry_on_error m w) as [w' r] eqn:E. simpl. apply retry_on_error_runs in E.
  by apply (hoare_retries (fun w => sl_log w = l) _ _ _ _ _ _ (Hm l) (fun _ _ _ x => x) E).
Qed.

Lemma silent_foldM {A S} (f : S -> A -> M W S) s xs : (forall s x, silent (f s x)) -> silent (foldM f s xs).
Proof.
  intros Hf l. revert s. induction xs as [|x xs IH]; intros s; simpl; [apply keeps_ret|].
  apply keeps_bind; [apply Hf|apply IH].
Qed.

Lemma silent_writeStatus c : silent (writeStatus (W := W) c).
Proof.
  intros l. unfold writeStatus. apply keeps_bind; [silent_tac|intros r].
  apply keeps_bind; [apply silent_retry_error; intros l'; silent_tac|intros _; silent_tac].
Qed.

Lemma silent_appStatus c a p b d : silent (appStatus (W := W) c a p b d).
Proof.
  intros l. unfold appStatus. apply keeps_bind; [silent_tac|intros pods]. apply keeps_bind; [silent_tac|intros r].
  apply keeps_bind; [silent_tac|intros sts]. apply keeps_bind; [|intros st; apply keeps_ret].
  apply silent_foldM. intros st pod. apply silent_foldM. intros st' cond l'.
  unfold pod_condition, isPodWaitingForRecovery. silent_tac.
Qed.

Lemma silent_updateStatus c b e : silent (updateStatus (W := W) c b e).
Proof.
  intros l. unfold updateStatus. apply keeps_bind; [apply keeps_gets|intros now].
  assert (forall c', keeps (fun w => sl_log w = l) (_ ← writeStatus (W := W) c'; mret c')) as Hw.
  { intros c'. apply keeps_bind; [apply silent_writeStatus|intros []; apply keeps_ret]. }
  destruct e; [apply Hw|]. destruct (PVCResizeInProgress c); [apply Hw|].
  apply keeps_bind; [silent_tac|intros pxc]. apply keeps_bind; [|intros [st ip]; apply Hw].
  apply silent_foldM. intros [st ip] a l'. unfold app_turn, appHost, upgradeInProgress.
  repeat first [apply silent_appStatus | keeps_step | silent_tac].
Qed.

Lemma silent_GetProxyConnection c : silent (GetProxyConnection (W := W) c).
Proof.
  assert (forall n a b d e l, keeps (fun w => sl_log w = l) (connect_retry (W := W) n a b d e)) as Hc.
  { intros n a b d e l. induction n as [|n IH]; simpl; repeat first [apply IH | silent_tac]. }
  intros l. unfold GetProxyConnection, connect_proxy. repeat first [apply Hc | silent_tac].
Qed.

Lemma silent_GetPrimaryPod c : silent (GetPrimaryPod (W := W) c).
Proof.
  intros l. unfold GetPrimaryPod, waitAndGetFirstReadyPodFQDN.
  repeat first [apply silent_GetProxyConnection | keeps_step | silent_tac].
Qed.

(** ** Retries *)

Lemma keeps_retry {S} (I : S -> Prop) ticks d n (f : M S bool) : keeps I f -> keeps I (retry ticks d n f).
Proof.
  intros Hf. unfold retry. apply keeps_bind; [done|intros []]; [apply keeps_ret|].
  apply keeps_bind; [apply keeps_gets|intros k].
  induction k as [|k IH]; simpl; [apply keeps_fail|]. apply keeps_bind; [done|intros []]; [apply keeps_ret|done].
Qed.

(** A retry that ends well has ended with a turn that returned true. *)
Lemma retry_Ok {S} (I : S -> Prop) ticks d n (f : M S bool) s s' :
  keeps I f -> I s -> retry ticks d n f s = (s', Ok tt) -> exists s1, I s1 /\ f s1 = (s', Ok true).
Proof.
  intros Hf Hs. unfold retry. intros (s1 & b & E & Hk)%bind_inv_Ok. destruct b; [injection Hk as <-; eauto|].
  assert (I s1) as Hs1 by (specialize (Hf s Hs); by rewrite E in Hf).
  apply bind_inv_Ok in Hk as (s2 & k & Hg & Hk). injection Hg as <- _. clear E. revert s1 Hs1 Hk.
  induction k as [|k IH]; intros s1 Hs1 Hk; [done|].
  apply bind_inv_Ok in Hk as (s3 & b & E3 & Hk). destruct b; [injection Hk as <-; eauto|].
  assert (I s3) as Hs3 by (specialize (Hf s1 Hs1); by rewrite E3 in Hf).
  by apply (IH s3).
Qed.

(** ** One pod *)

Definition settled_state (rev : string) (p : UPod) : Prop :=
  up_Phase p = "Running" /\ up_Revision p = rev /\ pxc_ready p = true.

(** The pod was seen running and ready with this revision. *)
Definition seen_back (n : NamespacedName) (rev : string) : Prop :=
  exists (w w' : W) p, sm_getPod n w = (w', Ok p) /\ settled_state rev p.

(** Its database said it was synchronised. *)
Definition seen_synced (host : string) : Prop :=
  exists (w1 w2 w3 w4 : W) secrets port db,
    sm_connect secrets "root" host port w1 = (w2, Ok db) /\ sm_WsrepState db w3 = (w4, Ok "Synced").

Definition seen (n : NamespacedName) (p : UPod) : Prop := exists (w w' : W), sm_getPod n w = (w', Ok p).

Definition waiting_for (pod : UPod) (l : list NamespacedName) (s : VW W * UPod) : Prop :=
  sl_log (vw_w s.1) = l /\ up_key s.2 = up_key pod /\ (s.2 = pod \/ seen (up_key pod) s.2).

Lemma waiting_onPod {A} pod l (m : M (VW W) A) : silentV m -> keeps (waiting_for pod l) (onPod m).
Proof.
  intros Hm [v p] (Hl & Hk & Hs). specialize (Hm l v Hl). unfold onPod. simpl in *. by destruct (m v).
Qed.

Lemma silent_refresh : silentV (refresh_status (W := W)).
Proof.
  intros l. unfold refresh_status. apply keeps_bind; [apply keeps_gets|intros c].
  apply keeps_bind; [apply silent_onV, silent_updateStatus|intros c']. by intros [w c0] Hv.
Qed.

Lemma fetch_waits pod l : triple (waiting_for pod l) (fetch_pod (W := W))
  (fun p s => p = s.2 /\ waiting_for pod l s) (waiting_for pod l).
Proof.
  apply triple_of_run. intros [[w c] p] s' x (Hl & Hk & Hs). simpl in Hl, Hk, Hs.
  unfold fetch_pod, mbind, M_bind, gets, try, onPod, onV. simpl.
  pose proof (sl_getPod (up_key p) _ w Hl) as Hq.
  destruct (sm_getPod (up_key p) w) as [w1 [p1|e|]] eqn:E; simpl in *.
  - intros [= <- <-]. split; [done|]. split_and!; simpl; [done|rewrite <- Hk; by eapply sl_getPod_key|].
    right. exists w, w1. by rewrite <- Hk.
  - destruct (IsNotFound e); by intros [= <- <-].
  - by intros [= <- <-].
Qed.

Lemma pod_restarted_waits pod l rev : keeps (waiting_for pod l) (pod_restarted (W := W) rev).
Proof.
  unfold pod_restarted. apply keeps_bind.
  { intros s Hs. pose proof (fetch_waits pod l s Hs) as Hf. by destruct (fetch_pod s) as [s' [p|e|]]; [destruct Hf|..]. }
  intros p. apply keeps_bind; [apply keeps_wrap, waiting_onPod, silent_refresh|intros _].
  repeat first [keeps_step | apply keeps_gets].
Qed.

Lemma pod_restarted_true pod l rev s s' :
  waiting_for pod l s -> pod_restarted (W := W) rev s = (s', Ok true) ->
  exists p, (p = pod \/ seen (up_key pod) p) /\ settled_state rev p.
Proof.
  intros Hs E. unfold pod_restarted in E. apply bind_inv_Ok in E as (s1 & p & Hf & E).
  pose proof (triple_run _ _ _ _ _ _ _ (fetch_waits pod l) Hs Hf) as [-> (_ & _ & Hp)].
  apply bind_inv_Ok in E as (s2 & u & _ & E). exists s1.2. split; [done|].
  destruct (fatal_waiting s1.2); [done|]. apply bind_inv_Ok in E as (s3 & now & _ & E).
  destruct (unscheduled now s1.2); [done|]. case_bool_decide; [done|]. injection E as _ E.
  apply andb_true_iff in E as [[E1%bool_decide_eq_true E2%bool_decide_eq_true]%andb_true_iff E3]. done.
Qed.

Lemma waitPodRestart_spec rev pod n l (v v' : VW W) r :
  sl_log (vw_w v) = l -> waitPodRestart rev pod n v = (v', r) ->
  sl_log (vw_w v') = l /\
  (r = Ok tt -> exists p, (p = pod \/ seen (up_key pod) p) /\ settled_state rev p).
Proof.
  intros Hl. unfold waitPodRestart. destruct (retry _ _ _ _ (v, pod)) as [s1 r1] eqn:E. intros [= <- <-].
  assert (waiting_for pod l (v, pod)) as Hw by (split_and!; [done|done|by left]).
  split.
  - pose proof (keeps_retry _ (fun d k s => sm_ticks d k (vw_w s.1)) 10 n _ (pod_restarted_waits pod l rev) _ Hw) as Hk.
    rewrite E in Hk. apply Hk.
  - intros ->. apply (retry_Ok (waiting_for pod l)) in E as (s2 & Hs2 & E2); [|apply pod_restarted_waits|done].
    exact (pod_restarted_true pod l rev _ _ Hs2 E2).
Qed.

Lemma silent_wait_query n (q : M W bool) : silent q -> silentV (wait_query n q).
Proof. intros Hq l. apply keeps_retry, silent_onV, Hq. Qed.

Lemma waitPXCSynced_spec c host n l (v v' : VW W) r :
  sl_log (vw_w v) = l -> waitPXCSynced c host n v = (v', r) ->
  sl_log (vw_w v') = l /\ (r = Ok tt -> seen_synced host).
Proof.
  intros Hl E. split.
  - assert (silentV (waitPXCSynced (W := W) c host n)) as Hs.
    { intros l'. unfold waitPXCSynced. repeat first [keeps_step | apply silent_onV; intros ?; apply sl_connect
        | apply silent_wait_query; intros ?; silent_tac]. }
    specialize (Hs l v Hl). by rewrite E in Hs.
  - intros ->. unfold waitPXCSynced in E.
    apply bind_inv_Ok in E as (v1 & cmp & E1 & E). apply bind_inv_Ok in E as (v2 & secrets & E2 & E).
    apply bind_inv_Ok in E as (v3 & db & E3 & E). apply wrap_inv_Ok in E3.
    apply (retry_Ok (fun _ => True)) in E as (s1 & _ & Eq); [|done|done].
    unfold onV in E3, Eq. destruct (sm_connect _ _ _ _ (vw_w v2)) as [w3 r3] eqn:Ec. injection E3 as _ ->.
    match type of Eq with context [let '(_, _) := ?m (vw_w s1) in _] => destruct (m (vw_w s1)) as [w4 r4] eqn:Es end.
    injection Eq as _ ->.
    apply bind_inv_Ok in Es as (w5 & st & Est & Eb). apply wrap_inv_Ok in Est. injection Eb as _ Eb.
    apply bool_decide_eq_true in Eb as ->. eexists _, _, _, _, _, _, _. split; [exact Ec|exact Est].
Qed.

Lemma silent_waitHostgroups c sts pod n : silentV (waitHostgroups (W := W) c sts pod n).
Proof.
  intros l. unfold waitHostgroups.
  repeat first [apply silent_onV, silent_GetProxyConnection | apply silent_wait_query; intros ?; silent_tac | keeps_step].
Qed.

Lemma silent_waitUntilOnline c sts pod n : silentV (waitUntilOnline (W := W) c sts pod n).
Proof.
  intros l. unfold waitUntilOnline.
  repeat first [apply silent_onV, silent_GetProxyConnection | apply silent_wait_query; intros ?; silent_tac | keeps_step].
Qed.

(** A pod of an old revision is to be restarted. *)
Definition outdated (sts : USts) (p : UPod) : bool := negb (bool_decide (up_Revision p = us_UpdateRevision sts)).

(** The pod has been dealt with: it does not belong to the statefulset any more,
    or it was seen back with the new revision, and synchronised. *)
Definition settled (sts : USts) (p : UPod) : Prop :=
  (exists order, getPodOrderInSts sts p = Ok order /\ us_Replicas sts <= int32 order) \/
  ((outdated sts p = false /\ settled_state (us_UpdateRevision sts) p \/ seen_back (up_key p) (us_UpdateRevision sts)) /\
   seen_synced (PodFQDN (up_Name p) sts)).

Definition to_delete (sts : USts) (p : UPod) : list NamespacedName := if outdated sts p then [up_key p] else [].

(** Handling a pod deletes at most this pod, and returns without an error only
    when the pod was deleted if it had to be, and has been dealt with. *)
Lemma applyNWait_spec c sts pod n l (v v' : VW W) r :
  sl_log (vw_w v) = l -> applyNWait c sts pod n v = (v', r) ->
  if is_ok r then sl_log (vw_w v') = l ++ to_delete sts pod /\ settled sts pod
  else sl_log (vw_w v') = l \/ sl_log (vw_w v') = l ++ to_delete sts pod.
Proof.
  intros Hl E. unfold applyNWait in E.
  assert (exists v1 r1, (sl_log (vw_w v1) = l ++ if is_ok r1 then to_delete sts pod else []) /\
    (if bool_decide (up_Revision pod = us_UpdateRevision sts) then mret tt
     else wrap "failed to delete pod" (onV (sm_deletePod (W := W) (up_key pod)))) v = (v1, r1)) as (v1 & r1 & Hl1 & E1).
  { unfold to_delete, outdated. case_bool_decide; simpl.
    - exists v, (Ok tt). split; [simpl; by rewrite Hl, (right_id_L [] (++))|done].
    - unfold wrap, onV. destruct (sm_deletePod (up_key pod) (vw_w v)) as [w1 r1] eqn:Ed.
      apply sl_deletePod in Ed. eexists _, _. split; [|reflexivity]. simpl. rewrite Ed, Hl. by destruct r1. }
  unfold mbind at 1, M_bind at 1 in E. rewrite E1 in E. clear E1.
  destruct r1 as [[]|e|]; cbn beta iota in E;
    [|simplify_eq; simpl; left; rewrite Hl1; simpl; by rewrite (right_id_L [] (++))..].
  simpl in Hl1. set (l1 := l ++ to_delete sts pod) in *.
  destruct (getPodOrderInSts sts pod) as [order|e|] eqn:Eo; [|unfold fail, panic in E; simplify_eq; simpl; by right..].
  case_bool_decide as Hr; [unfold mret, M_ret in E; simplify_eq/=; split; [done|left; eauto]|].
  assert (forall m : M (VW W) unit, forall msg v2 v3 x, silentV m -> sl_log (vw_w v2) = l1 -> wrap msg m v2 = (v3, x) ->
    sl_log (vw_w v3) = l1) as Hw.
  { intros m msg v2 v3 x Hm Hl2 Hx. specialize (Hm l1 v2 Hl2). unfold wrap in Hx. destruct (m v2). by simplify_eq/=. }
  unfold mbind at 1, M_bind at 1 in E.
  destruct (wrap _ (waitPodRestart _ _ _) v1) as [v2 r2] eqn:E2. unfold wrap in E2.
  destruct (waitPodRestart _ _ _ v1) as [v2' r2'] eqn:Ew. apply (waitPodRestart_spec _ _ _ l1) in Ew as [Hl2 Hback]; [|done].
  injection E2 as -> <-.
  destruct r2' as [[]|e|]; simpl in E; [|simplify_eq/=; by right..].
  unfold mbind at 1, M_bind at 1 in E.
  destruct (wrap _ (waitPXCSynced _ _ _) v2) as [v3 r3] eqn:E3. unfold wrap in E3.
  destruct (waitPXCSynced _ _ _ v2) as [v3' r3'] eqn:Es. apply (waitPXCSynced_spec _ _ _ l1) in Es as [Hl3 Hsync]; [|done].
  injection E3 as -> <-.
  destruct r3' as [[]|e|]; simpl in E; [|simplify_eq/=; by right..].
  unfold mbind at 1, M_bind at 1 in E.
  destruct (wrap _ (waitHostgroups _ _ _ _) v3) as [v4 r4] eqn:E4.
  apply Hw in E4; [|apply silent_waitHostgroups|done].
  destruct r4 as [[]|e|]; simpl in E; [|simplify_eq/=; by right..].
  apply Hw in E; [|apply silent_waitUntilOnline|done].
  destruct r as [[]|e|]; simpl; [|by right..]. split; [done|]. right. split; [|by apply Hsync].
  destruct (Hback eq_refl) as (p & [->|(w1 & w2 & Hp)] & Hst).
  - left. split; [|done]. unfold outdated. by rewrite bool_decide_eq_true_2 by apply Hst.
  - right. by exists w1, w2, p.
Qed.

(** ** All pods *)

Definition is_primary (primary : string) (sts : USts) (p : UPod) : bool := HasPrefix primary (PodFQDN (up_Name p) sts).

(** The order in which the pods are handled: by descending names, and the primary
    last. *)
Definition secondaries (primary : string) (sts : USts) (pods : list UPod) : list UPod :=
  filter (fun p => is_primary primary sts p = false) pods.
Definition primary_of (primary : string) (sts : USts) (pods : list UPod) (dflt : UPod) : UPod :=
  default dflt (last (filter (fun p => is_primary primary sts p = true) pods)).
Definition plan (primary : string) (sts : USts) (pods : list UPod) : list UPod :=
  secondaries primary sts (sort_pods pods) ++ [primary_of primary sts (sort_pods pods) zero_pod].

(** How far a run over [pods] has come: the pods of [done] are dealt with, and
    the first of the rest may have been deleted. *)
Definition progress (sts : USts) (pods : list UPod) (l l' : list NamespacedName) (ok : bool) : Prop :=
  exists done rest, pods = done ++ rest /\ Forall (settled sts) done /\
    (if ok then rest = [] /\ l' = l ++ (done ≫= to_delete sts)
     else l' = l ++ (done ≫= to_delete sts) \/
          exists p rest', rest = p :: rest' /\ l' = l ++ (done ≫= to_delete sts) ++ to_delete sts p).

Lemma progress_cons sts p pods l l1 l' ok : l1 = l ++ to_delete sts p -> settled sts p ->
  progress sts pods l1 l' ok -> progress sts (p :: pods) l l' ok.
Proof.
  intros -> Hp (dn & rest & -> & Hd & Hl). exists (p :: dn), rest. split; [done|]. split; [by constructor|].
  rewrite bind_cons. destruct ok.
  - destruct Hl as [-> ->]. by rewrite <- !(assoc_L (++)).
  - destruct Hl as [-> |(q & rest' & -> & ->)]; [left|right; exists q, rest'; split; [done|]]; by rewrite <- !(assoc_L (++)).
Qed.

Lemma progress_first sts p pods l l' : l' = l \/ l' = l ++ to_delete sts p -> progress sts (p :: pods) l l' false.
Proof.
  intros Hl. exists [], (p :: pods). split; [done|]. split; [done|]. simpl.
  destruct Hl as [-> | ->]; [left; by rewrite (right_id_L [] (++))|right; eauto].
Qed.

Lemma progress_one {A} sts p l l' (r : res A) :
  (if is_ok r then l' = l ++ to_delete sts p /\ settled sts p else l' = l \/ l' = l ++ to_delete sts p) ->
  progress sts [p] l l' (is_ok r).
Proof.
  destruct (is_ok r); [intros [-> Hs]|apply progress_first].
  eapply progress_cons; [done|done|]. exists [], []. simpl. by rewrite (right_id_L [] (++)).
Qed.

Lemma progress_more sts pods more l l' : progress sts pods l l' false -> progress sts (pods ++ more) l l' false.
Proof.
  intros (dn & rest & -> & Hd & Hl). exists dn, (rest ++ more). rewrite <- (assoc_L (++)). split; [done|]. split; [done|].
  destruct Hl as [Hl|(p & rest' & -> & Hl)]; [by left|right; by exists p, (rest' ++ more)].
Qed.

Lemma progress_app sts p pods l l1 l' ok : progress sts pods l l1 true -> progress sts [p] l1 l' ok ->
  progress sts (pods ++ [p]) l l' ok.
Proof.
  intros (dn & rest & -> & Hd & -> & ->) Hlast. rewrite (right_id_L [] (++)).
  revert l Hlast. induction dn as [|q dn IH]; intros l Hlast; [simpl in Hlast; by rewrite (right_id_L [] (++)) in Hlast|].
  apply Forall_cons in Hd as [Hq Hd]. simpl. eapply progress_cons; [done|done|]. apply IH; [done|].
  rewrite bind_cons in Hlast. by rewrite <- (assoc_L (++)).
Qed.

Lemma update_secondaries_spec c sts primary n pods pp l (v v' : VW W) r :
  sl_log (vw_w v) = l -> update_secondaries c sts primary n pods pp v = (v', r) ->
  progress sts (secondaries primary sts pods) l (sl_log (vw_w v')) (is_ok r) /\
  forall q, r = Ok q -> q = primary_of primary sts pods pp.
Proof.
  revert pp l v. induction pods as [|p pods IH]; intros pp l v Hl E; cbn [update_secondaries] in E.
  - injection E as <- <-. split; [|by intros q [= <-]]. exists [], []. simpl. by rewrite Hl, (right_id_L [] (++)).
  - unfold secondaries, primary_of, is_primary in *. rewrite !filter_cons.
    destruct (HasPrefix primary (PodFQDN (up_Name p) sts)) eqn:Ep.
    + rewrite decide_False by done. rewrite decide_True by done. apply IH with (l := l) in E as [Hp Hq]; [|done].
      split; [done|]. intros q Er. rewrite (Hq q Er). by rewrite last_cons; destruct (last _).
    + rewrite decide_True by done. rewrite decide_False by done.
      unfold mbind, M_bind in E. destruct (wrap _ _ v) as [v1 r1] eqn:E1. unfold wrap in E1.
      destruct (applyNWait c sts p n v) as [v1' r1'] eqn:Ea. injection E1 as -> <-.
      apply (applyNWait_spec _ _ _ _ l) in Ea; [|done].
      destruct r1' as [[]|e|]; simpl in E, Ea; [|simplify_eq/=; split; [by apply progress_first|done]..].
      destruct Ea as [Hl1 Hs]. apply IH with (l := sl_log (vw_w v1)) in E as [Hp Hq]; [|done].
      split; [|done]. by eapply progress_cons.
Qed.

(** The pods and then the primary. *)
Lemma run_plan c sts primary n pods msg l (v v' : VW W) r :
  sl_log (vw_w v) = l ->
  (pp ← update_secondaries c sts primary n (sort_pods pods) zero_pod; wrap msg (applyNWait c sts pp n)) v = (v', r) ->
  progress sts (plan primary sts pods) l (sl_log (vw_w v')) (is_ok r).
Proof.
  intros Hl Hx. unfold mbind, M_bind in Hx.
  destruct (update_secondaries c sts primary n (sort_pods pods) zero_pod v) as [v1 r1] eqn:Eu.
  apply (update_secondaries_spec _ _ _ _ _ _ l) in Eu as [Hprog Hprim]; [|done].
  destruct r1 as [pp|e|]; simpl in Hprog; [|injection Hx as <- <-; by apply progress_more..].
  specialize (Hprim pp eq_refl). unfold wrap in Hx. destruct (applyNWait c sts pp n v1) as [v2 r2] eqn:Ea.
  apply (applyNWait_spec _ _ _ _ (sl_log (vw_w v1))) in Ea; [|done]. apply progress_one in Ea.
  pose proof (progress_app _ _ _ _ _ _ _ Hprog Ea) as Hall. injection Hx as <- <-. subst pp. by destruct r2 as [[]|e|].
Qed.

Lemma silent_isBackupRunning c : silent (isBackupRunning (W := W) c).
Proof. intros l. unfold isBackupRunning. silent_tac. Qed.

(** A silent step of a pass: the pass ends there with nothing deleted, or goes on. *)
Lemma step_read {A B} msg (m : M W A) (k : A -> M (VW W) B) w c (v' : VW W) r :
  silent m -> (a ← wrap msg (onV m); k a) (mkVW w c) = (v', r) ->
  sl_log (vw_w v') = sl_log w \/ exists w1 a, m w = (w1, Ok a) /\ sl_log w1 = sl_log w /\ k a (mkVW w1 c) = (v', r).
Proof.
  intros Hm. specialize (Hm _ w eq_refl). unfold mbind, M_bind, wrap, onV. simpl. destruct (m w) as [w1 [a|e|]]; simpl in *.
  - intros E. right. by exists w1, a.
  - intros [= <- _]. by left.
  - intros [= <- _]. by left.
Qed.

(** What a pass finds out before it deletes the first pod, one read after the other. *)
Definition surveyed (cr : PerconaXtraDBCluster) (w : W) (sts : USts) (pods : list UPod) (primary : string) : Prop :=
  exists w1 w2 w3 w4 w5, sm_sleepSecond w = (w1, Ok tt) /\
    sm_getSts (mkNN (cluster_Namespace cr) (cluster_Name cr +:+ "-pxc")) w1 = (w2, Ok sts) /\ sm_listPods cr w2 = (w3, Ok pods) /\
    isBackupRunning cr w3 = (w4, Ok false) /\ GetPrimaryPod cr w4 = (w5, Ok primary) /\ sl_log w5 = sl_log w.

End quiet.
