(* ===== verification/SmartMem.v ===== *)
(** * A smart update on a concrete cluster

    Three pods that restart at once with the new revision. *)

From S2P Require Import Prelude GoStrings ApiTypes KubeApi KubeMem Naming ApiDefaults ClusterStatus BackupMem SmartUpdate SmartUpdateSpec.

Record SMem := mkSMem {
  sw_pods : list UPod;
  sw_deleted : list NamespacedName;
  sw_cluster : PerconaXtraDBCluster }.

Definition smart_pod (name rev : string) : UPod := mkUPod name "ns" "" rev "Running" [("pxc", true, None)] [] true.

#[export] Instance SMem_smart : SmartEnv SMem := {|
  sm_sleepSecond := mret tt;
  sm_getSts n := mret (mkUSts (nn_name n) (nn_namespace n) "new" 3);
  sm_listPods _ := gets sw_pods;
  sm_getPod n := fun w =>
    match list_find (fun p => up_key p = n) (sw_pods w) with
    | Some (_, p) => (w, Ok p)
    | None => (w, Err not_found)
    end;
  sm_deletePod n := modify (fun w =>
    w <| sw_pods ::= fmap (fun p => if bool_decide (up_key p = n) then smart_pod (up_Name p) "new" else p) |>
      <| sw_deleted ::= fun l => l ++ [n] |>);
  sm_listBackups _ := mret [];
  sm_connect _ _ host _ := mret host;
  sm_Hostname _ := mret "c1-pxc-1";
  sm_PrimaryHost _ := mret "c1-pxc-1";
  sm_PresentInHostgroup _ _ _ := mret true;
  sm_InstanceStatus _ _ := mret [];
  sm_WsrepState _ := mret "Synced";
  sm_ConfigHasKey _ _ _ := Ok false;
  sm_ticks _ _ _ := 5%nat;
  sm_now _ := 0 |}.

#[export] Instance SMem_status : StatusEnv SMem := {|
  sx_listPods _ _ := mret [];
  sx_getSts _ := mret (mkSts 3 3 "new");
  sx_podLogs _ _ := mret [];
  sx_ingress _ := mret [];
  sx_getCluster _ := gets sw_cluster;
  sx_statusUpdate c := modify (fun w => w <| sw_cluster := c |>);
  sx_selector _ := "";
  sx_now _ := 0 |}.

#[export] Instance SMem_laws : SmartLaws SMem.
Proof.
  refine {| sl_log := sw_deleted |}; intros; try (intros w Hw; first [exact Hw | by destruct w]).
  - match goal with E : _ = (_, _) |- _ => injection E as <- <- end. by destruct w.
  - intros w Hw. simpl. destruct (list_find _ _) as [[i q]|]; done.
  - match goal with E : sm_getPod _ _ = _ |- _ => simpl in E; revert E end.
    destruct (list_find _ (sw_pods w)) as [[i q]|] eqn:Ef; [|done]. intros [= <- <-].
    by apply list_find_Some in Ef as (_ & ? & _).
Defined.

#[local] Existing Instance demo_libs.
#[local] Instance smart_retry : RetryLib := loop_retry 4.

Definition old_pods : list UPod := [smart_pod "c1-pxc-0" "old"; smart_pod "c1-pxc-1" "old"; smart_pod "c1-pxc-2" "old"].
Definition smart_world : VW SMem := mkVW (mkSMem old_pods [] (demo_cluster None)) (demo_cluster None).
Definition smart_done : VW SMem := (smartUpdate "pxc" smart_world).1.

(** The second pod is the primary. *)
Example smart_order :
  smartUpdate "pxc" smart_world = (smart_done, Ok tt) /\
  nn_name <$> sw_deleted (vw_w smart_done) = ["c1-pxc-2"; "c1-pxc-0"; "c1-pxc-1"].
Proof. split; vm_compute; reflexivity. Qed.

