(* ===== verification/Volumes.v ===== *)
(** * Resizing of data volumes: [pkg/controller/pxc/volumes.go]

    The storage a user asks for is rounded up to whole GiB and compared with the
    smallest capacity of the data volumes.  A resize is a state machine whose
    state is an annotation of the cluster: it is set when the claims are changed,
    and removed, with the statefulset deleted, when all of them have the new
    size, or when the resize failed and the old size is put back. *)

From S2P Require Import Prelude GoStrings ApiTypes.

(** ** Sizes *)

(** Two's complement wrap-around of [int64]. *)
Definition int64 (z : Z) : Z := (z + 2 ^ 63) mod 2 ^ 64 - 2 ^ 63.

Definition GiB : Z := 1024 * 1024 * 1024.

(** Division of machine integers truncates. *)
Definition roundUpSize (volumeSizeBytes allocationUnitBytes : Z) : Z :=
  if bool_decide (allocationUnitBytes = 0) then 0
  else int64 (Z.quot (int64 (int64 (volumeSizeBytes + allocationUnitBytes) - 1)) allocationUnitBytes).

Definition RoundUpGiB (volumeSizeBytes : Z) : res Z :=
  let result := roundUpSize volumeSizeBytes GiB in
  if bool_decide (2 ^ 63 - 1 < result) then Err (ErrNew "rounded up size exceeds maximum value of int64")
  else Ok result.

(** ** Objects *)

(** [corev1.PersistentVolumeClaim]: the storage it asks for, and the storage it
    has, if its status says so. *)
Record VPVC := mkVPVC {
  vp_Name : string;
  vp_Request : Z;
  vp_Capacity : option Z }.

(** [pvc.Status.Capacity.Storage()]: zero when there is no entry. *)
Definition capacity (pvc : VPVC) : Z := default 0 (vp_Capacity pvc).

(** [eventsv1.Event]; [None] is the zero time. *)
Record VEvent := mkVEvent {
  ev_EventTime : option Z;
  ev_LastTimestamp : option Z;
  ev_FirstTimestamp : option Z;
  ev_Reason : string;
  ev_Note : string }.

(** The names of the volume claim templates of a statefulset, with the storage
    they ask for. *)
Definition VSts : Type := list (string * Z).

Definition EventStorageClassNotSupportResize : string := "StorageClassNotSupportResize".
Definition EventExceededQuota : string := "ExceededQuota".

(** The API server; [ve_parseTime] and [ve_formatNow] are [time.Parse] and
    [Format] with RFC 3339. *)
Class VolEnv (W : Type) := {
  ve_listPVCs : PerconaXtraDBCluster -> M W (list VPVC);
  ve_listPods : PerconaXtraDBCluster -> M W (list string);
  ve_getSts : NamespacedName -> M W VSts;
  ve_deleteSts : NamespacedName -> M W unit;
  ve_listEvents : string -> string -> M W (list VEvent);
  ve_getAnnotations : NamespacedName -> M W (gmap string string);
  ve_patchAnnotations : NamespacedName -> gmap string string -> M W unit;
  ve_patchStorage : NamespacedName -> Z -> M W unit;
  ve_updatePVC : VPVC -> M W unit;
  ve_recordEvent : string -> string -> M W unit;
  ve_parseTime : string -> res Z;
  ve_formatNow : W -> string }.

(** ** Which claims *)

Definition pxc_sts_name (cr : PerconaXtraDBCluster) : string := cluster_Name cr +:+ "-pxc".
Definition pxc_sts_key (cr : PerconaXtraDBCluster) : NamespacedName := mkNN (cluster_Namespace cr) (pxc_sts_name cr).

Definition validatePVCName (pvc : VPVC) (sts : string) : bool := HasPrefix (vp_Name pvc) ("datadir-" +:+ sts).

(** [strings.SplitN(name, "-", 2)[1]] *)
Definition pod_of_claim (name : string) : string := snd (Cut name "-").

(** The claims of pods that are there. *)
Definition pvcs_to_update (sts : string) (podNames : list string) (pvcs : list VPVC) : list string :=
  vp_Name <$> filter (fun pvc => validatePVCName pvc sts = true /\ pod_of_claim (vp_Name pvc) ∈ podNames) pvcs.

(** The smallest capacity of the claims; a claim without a capacity is passed over. *)
Definition smallest_capacity (sts : string) (pvcs : list VPVC) : Z :=
  fold_left (fun actual pvc =>
    if validatePVCName pvc sts then
      match vp_Capacity pvc with
      | None => actual
      | Some c => if bool_decide (actual = 0) || bool_decide (c < actual) then c else actual
      end
    else actual) pvcs 0.

(** The last template with the name of the data volume. *)
Definition configured_size (sts : VSts) : Z :=
  fold_left (fun z t => if bool_decide (t.1 = "datadir") then t.2 else z) sts 0.

(** [cr.Spec.PXC.VolumeSpec.PersistentVolumeClaim]: every step is a pointer. *)
Definition data_claim (cr : PerconaXtraDBCluster) : res PVCSpec :=
  pxc ← deref (spec_PXC (cluster_Spec cr));
  vol ← deref (pod_VolumeSpec (pxc_PodSpec pxc));
  deref (vol_PersistentVolumeClaim vol).

Definition requested_storage (cr : PerconaXtraDBCluster) : res Z :=
  claim ← data_claim cr; Ok (default 0 (pvc_Requests claim !! "storage")).

Definition with_storage (size : Z) (cr : PerconaXtraDBCluster) : res PerconaXtraDBCluster :=
  pxc ← deref (spec_PXC (cluster_Spec cr));
  vol ← deref (pod_VolumeSpec (pxc_PodSpec pxc));
  claim ← deref (vol_PersistentVolumeClaim vol);
  let claim := claim <| pvc_Requests ::= <["storage" := size]> |> in
  let vol := vol <| vol_PersistentVolumeClaim := Some claim |> in
  Ok (cr <| cluster_Spec -> spec_PXC := Some (pxc <| pxc_PodSpec -> pod_VolumeSpec := Some vol |>) |>).

(** ** A resize in progress *)

Definition event_time (e : VEvent) : option Z :=
  match ev_EventTime e with
  | Some t => Some t
  | None => match ev_LastTimestamp e with Some t => Some t | None => ev_FirstTimestamp e end
  end.

(** [eventTime.Before(start)]; the zero time is before every start. *)
Definition event_before (e : VEvent) (start : Z) : bool :=
  match event_time e with Some t => bool_decide (t < start) | None => true end.

Definition in_progress_reason (r : string) : bool :=
  bool_decide (r ∈ ["Resizing"; "ExternalExpanding"; "FileSystemResizeRequired"]).
Definition failure_reason (r : string) : bool :=
  bool_decide (r ∈ ["VolumeResizeFailed"; EventExceededQuota; EventStorageClassNotSupportResize]).

Record Progress := mkProgress {
  pg_updated : nat;
  pg_errors : list error;
  pg_pending : bool }.

Definition note_event (start : Z) (pvc : string) (p : Progress) (e : VEvent) : Progress :=
  if event_before e start then p
  else if in_progress_reason (ev_Reason e) then p <| pg_pending := true |>
  else if failure_reason (ev_Reason e)
  then p <| pg_errors ::= fun l => l ++ [ErrNew (pvc +:+ " pvc resize failed: " +:+ ev_Reason e +:+ ": " +:+ ev_Note e)] |>
  else p.

(** [errors.Join] *)
Fixpoint Join_errors (e : error) (l : list error) : error :=
  match l with [] => e | e' :: l => ErrJoin e (Join_errors e' l) end.

(** [parts of k8s/annotation.go]: the annotations are read, changed and patched;
    an added annotation shows in the object of the caller too, a removed one
    does not. *)
Section annotations.
Context {W : Type} `{VolEnv W}.

Definition AnnotateObject (annotations : gmap string string) : M (VW W) unit :=
  cr ← getCr;
  a ← onV (ve_getAnnotations (meta_key (cluster_Meta cr)));
  let a := annotations ∪ a in
  _ ← setCr (cr <| cluster_Meta -> meta_Annotations := a |>);
  onV (ve_patchAnnotations (meta_key (cluster_Meta cr)) a).

Definition DeannotateObject (annotation : string) : M (VW W) unit :=
  cr ← getCr;
  a ← onV (ve_getAnnotations (meta_key (cluster_Meta cr)));
  onV (ve_patchAnnotations (meta_key (cluster_Meta cr)) (delete annotation a)).
End annotations.

Section volumes.
Context {W : Type} `{VolEnv W}.

Definition revertVolumeTemplate (originalSize : Z) : M (VW W) unit :=
  cr ← getCr;
  cr' ← lift (with_storage originalSize cr);
  _ ← setCr cr';
  wrap ("patch pxc/" +:+ cluster_Name cr) (onV (ve_patchStorage (meta_key (cluster_Meta cr)) originalSize)).

Definition handlePVCResizeFailure (originalSize : Z) : M (VW W) unit :=
  cr ← getCr;
  _ ← wrap ("revert volume template in pxc/" +:+ cluster_Name cr) (revertVolumeTemplate originalSize);
  wrap ("deannotate pxc/" +:+ cluster_Name cr) (DeannotateObject AnnotationPVCResizeInProgress).

(** The loop over the claims of a resize in progress. *)
Fixpoint resize_progress (cr : PerconaXtraDBCluster) (start requested : Z) (p : Progress) (pvcs : list VPVC) :
    M W Progress :=
  match pvcs with
  | [] => mret p
  | pvc :: pvcs =>
      if negb (validatePVCName pvc (pxc_sts_name cr)) then resize_progress cr start requested p pvcs
      else if bool_decide (capacity pvc = requested)
      then resize_progress cr start requested (p <| pg_updated ::= S |>) pvcs
      else
        events ← wrap ("list events for pvc/" +:+ vp_Name pvc)
                   (ve_listEvents (cluster_Namespace cr) (vp_Name pvc));
        resize_progress cr start requested (fold_left (note_event start (vp_Name pvc)) events p) pvcs
  end.

(** The new size is written to the claims; a claim the quota or the storage class
    refuses gets an event, and the next one is tried. *)
Fixpoint resize_claims (todo : list string) (requested : Z) (pvcs : list VPVC) : M W unit :=
  match pvcs with
  | [] => mret tt
  | pvc :: pvcs =>
      if negb (bool_decide (vp_Name pvc ∈ todo)) then resize_claims todo requested pvcs
      else if bool_decide (capacity pvc = requested) then resize_claims todo requested pvcs
      else
        r ← try (ve_updatePVC (pvc <| vp_Request := requested |>));
        match r with
        | inr _ => resize_claims todo requested pvcs
        | inl e =>
            if Contains (Error e) "exceeded quota"
            then _ ← ve_recordEvent (vp_Name pvc) EventExceededQuota; resize_claims todo requested pvcs
            else if Contains (Error e) "the storageclass that provisions the pvc must support resize"
            then _ ← ve_recordEvent (vp_Name pvc) EventStorageClassNotSupportResize; resize_claims todo requested pvcs
            else fail (ErrWrap ("update persistentvolumeclaim/" +:+ vp_Name pvc) e)
        end
  end.

(** The branch for a resize in progress; [true] when the pass ends with it. *)
Definition resize_running (pvcs : list VPVC) (todo : list string) (configured requested : Z) : M (VW W) bool :=
  cr ← getCr;
  start ← lift (wrap_res "parse annotation"
            (ve_parseTime (default "" (meta_Annotations (cluster_Meta cr) !! AnnotationPVCResizeInProgress))));
  p ← onV (resize_progress cr start requested (mkProgress 0 [] false) pvcs);
  match pg_errors p with
  | e :: l =>
      if pg_pending p then mret true
      else _ ← handlePVCResizeFailure configured; fail (Join_errors e l)
  | [] =>
      if negb (bool_decide (pg_updated p = length todo)) then mret false else
      r ← try (onV (ve_deleteSts (pxc_sts_key cr)));
      match r with
      | inl e => if IsNotFound e then mret true else fail (ErrWrap ("delete statefulset/" +:+ pxc_sts_name cr) e)
      | inr _ =>
          _ ← wrap "deannotate pxc" (DeannotateObject AnnotationPVCResizeInProgress);
          mret true
      end
  end.

(** What follows when no resize is in progress, or it has not ended. *)
Definition resize_start (pvcs : list VPVC) (todo : list string) (actual configured requested : Z) : M (VW W) unit :=
  cr ← getCr;
  if bool_decide (requested < actual) then
    _ ← wrap ("revert volume template in pxc/" +:+ cluster_Name cr) (revertVolumeTemplate configured);
    fail (ErrNew "requested storage is less than actual storage")
  else if bool_decide (requested = actual) then mret tt
  else if negb (spec_VolumeExpansionEnabled (cluster_Spec cr)) then
    cr' ← lift (with_storage configured cr); setCr cr'
  else
    now ← onV (gets ve_formatNow);
    _ ← wrap "annotate pxc" (AnnotateObject {[ AnnotationPVCResizeInProgress := now ]});
    onV (resize_claims todo requested pvcs).

Definition reconcilePersistentVolumes : M (VW W) unit :=
  cr ← getCr;
  let sts := pxc_sts_name cr in
  pvcs ← wrap "list PVCs" (onV (ve_listPVCs cr));
  if bool_decide (pvcs = []) then mret tt else
  podNames ← wrap "list pods" (onV (ve_listPods cr));
  pxc ← lift (deref (spec_PXC (cluster_Spec cr)));
  if bool_decide (Z.of_nat (length podNames) < pod_Size (pxc_PodSpec pxc)) then mret tt else
  let todo := pvcs_to_update sts podNames pvcs in
  if bool_decide (todo = []) then mret tt else
  let actual := smallest_capacity sts pvcs in
  if bool_decide (actual = 0) then mret tt else
  r ← try (onV (ve_getSts (pxc_sts_key cr)));
  match r with
  | inl e => if IsNotFound e then mret tt else fail (ErrWrap ("get statefulset " +:+ sts) e)
  | inr set =>
      let configured := configured_size set in
      size ← lift (requested_storage cr);
      gib ← lift (wrap_res "round GiB value" (RoundUpGiB size));
      let requested := int64 (gib * GiB) in
      ended ← (if PVCResizeInProgress cr then resize_running pvcs todo configured requested else mret false);
      if ended : bool then mret tt else resize_start pvcs todo actual configured requested
  end.
End volumes.
