(* ===== verification/Config.v ===== *)
(** * Configuration of the databases and the proxies: [pkg/controller/pxc/config.go],
    [pkg/pxc/app/config]

    Each piece of configuration in the cluster's specification becomes a config map,
    which goes away when the piece does.  Memory settings of the database are derived from its
    memory limit, in 64-bit arithmetic. *)

From S2P Require Import Prelude GoStrings ApiTypes KubeApi Naming Users Services Volumes.

(** ** Names *)

Definition AutoTuneConfigMapName (clusterName component : string) : string := "auto-" +:+ clusterName +:+ "-" +:+ component.
Definition HookScriptConfigMapName (clusterName component : string) : string := clusterName +:+ "-" +:+ component +:+ "-hookscript".
Definition CustomConfigMapName (clusterName component : string) : string := clusterName +:+ "-" +:+ component.

(** [corev1.ConfigMap]; [cm_Owners] are the UIDs of the owners, all of them controllers. *)
Record ConfigMap := mkConfigMap {
  cm_Key : NamespacedName;
  cm_Labels : gmap string string;
  cm_Owners : list string;
  cm_Data : gmap string string }.

(** ** Tuning by memory ([autotune.go]) *)

Definition chunkSizeMin : Z := 1048576.
Definition chunkSizeDefault : Z := 134217728.

(** The size of the buffer pool, with the size of its chunks if that is set; all steps
    are on [int64]. *)
Definition pool_size (q : Z) : option Z * Z :=
  let p := int64 (Z.quot q 100 * 75) in
  let p := if bool_decide (int64 (q - p) < 1000000000) then int64 (Z.quot q 100 * 50) else p in
  let p := if bool_decide (Z.rem p chunkSizeDefault = 0) then p
           else int64 (p + int64 (chunkSizeDefault - Z.rem p chunkSizeDefault)) in
  if bool_decide (1073741824 < p) then
    let chunk := Z.quot p 8 in
    let chunk := int64 (int64 (chunk + chunkSizeMin) - Z.rem chunk chunkSizeMin) in
    (Some chunk, int64 (chunk * 8))
  else (None, p).

Definition param (name : string) (v : Z) : string := nl +:+ name +:+ " = " +:+ pretty v.

Definition buffer_params (q : Z) : string :=
  let '(chunk, p) := pool_size q in
  match chunk with Some c => param "innodb_buffer_pool_chunk_size" c | None => "" end +:+ param "innodb_buffer_pool_size" p.

Definition divider : Z := 12582880.

Definition getAutoTuneParams `{IniLib} (cr : PerconaXtraDBCluster) (q : Z) : res string :=
  bufferConfigured ← wrap_res "check if innodb_buffer_pool_size configured" (ConfigHasKey cr "mysqld" "innodb_buffer_pool_size");
  maxConnConfigured ← wrap_res "check if max_connections configured" (ConfigHasKey cr "mysqld" "max_connections");
  let params := if bufferConfigured : bool then "" else buffer_params q in
  if maxConnConfigured : bool then Ok params
  else if bool_decide (q < divider) then Err (ErrNew "Not enough memory set in requests. Must be >= 12Mi.")
  else Ok (params +:+ param "max_connections" (Z.quot q divider)).

Section maps.
Context `{VersionLib}.

Definition NewConfigMap (cr : PerconaXtraDBCluster) (cmName filename content : string) : res ConfigMap :=
  b16 ← from_version cr "1.16.0";
  Ok (mkConfigMap (mkNN (cluster_Namespace cr) cmName) (if b16 : bool then LabelsCluster cr else ∅) [] {[ filename := content ]}).

Definition NewAutoTuneConfigMap `{IniLib} (cr : PerconaXtraDBCluster) (memory : Z) (cmName : string) : res ConfigMap :=
  params ← getAutoTuneParams cr memory;
  NewConfigMap cr cmName "auto-config.cnf" ("[mysqld]" +:+ params).
End maps.

(** ** Writing *)

(** The API server's config maps; [ce_ownerRef] is what [k8s.OwnerRef] needs. *)
Class ConfigEnv (W : Type) := {
  cf_get : NamespacedName -> M W ConfigMap;
  cf_create : ConfigMap -> M W unit;
  cf_update : ConfigMap -> M W unit;
  cf_delete : ConfigMap -> M W unit;
  cf_ownerRef : PerconaXtraDBCluster -> res string }.

(** [controllerutil.OperationResult] *)
Inductive OperationResult := ResultNone | ResultCreated | ResultUpdated.

#[export] Instance OperationResult_eq_dec : EqDecision OperationResult.
Proof. solve_decision. Defined.

Section config.
Context {W : Type} `{ConfigEnv W} `{VersionLib} `{IniLib} `{RetryLib}.

Definition createOrUpdateConfigmap (configMap : ConfigMap) : M W OperationResult :=
  let nn := cm_Key configMap in
  got ← try (cf_get nn);
  match got with
  | inl e => if IsNotFound e then _ ← cf_create configMap; mret ResultCreated else fail (ErrWrap "get current configmap" e)
  | inr currMap =>
      if bool_decide (cm_Data currMap = cm_Data configMap) then mret ResultNone else
      _ ← retry_on_conflict (cm ← cf_get nn; cf_update (cm <| cm_Data := cm_Data configMap |>));
      mret ResultUpdated
  end.

Definition deleteConfigMapIfExists (cr : PerconaXtraDBCluster) (cmName : string) : M W unit :=
  got ← try (cf_get (mkNN (cluster_Namespace cr) cmName));
  match got with
  | inl e => if IsNotFound e then mret tt else fail (ErrWrap "get config map" e)
  | inr configMap =>
      if negb (bool_decide (head (cm_Owners configMap) = Some (meta_UID (cluster_Meta cr)))) then mret tt
      else cf_delete configMap
  end.

(** [k8s.SetControllerReference], then the write. *)
Definition put_config (cr : PerconaXtraDBCluster) (configMap : ConfigMap) (msg : string) : M W OperationResult :=
  owner ← lift (wrap_res "set controller ref" (cf_ownerRef cr));
  wrap msg (createOrUpdateConfigmap (configMap <| cm_Owners ::= fun l => l ++ [owner] |>)).

Definition reconcileAutotuneConfigMap (cr : PerconaXtraDBCluster) : M W OperationResult :=
  let autotuneCm := AutoTuneConfigMapName (cluster_Name cr) "pxc" in
  pxc ← lift (deref (spec_PXC (cluster_Spec cr)));
  match rr_Limits (pod_Resources (pxc_PodSpec pxc)) !! "memory" with
  | None => _ ← wrap "delete configmap" (deleteConfigMapIfExists cr autotuneCm); mret ResultNone
  | Some memory =>
      configMap ← lift (wrap_res "new configmap" (NewAutoTuneConfigMap cr memory autotuneCm));
      put_config cr configMap "create or update configmap"
  end.

(** The config map of a component's own configuration, if it has any. *)
Definition reconcile_custom (cr : PerconaXtraDBCluster) (component filename : string) (configuration : option string) : M W OperationResult :=
  let name := CustomConfigMapName (cluster_Name cr) component in
  match configuration with
  | None => _ ← wrap "delete config map" (deleteConfigMapIfExists cr name); mret ResultNone
  | Some content =>
      configMap ← lift (NewConfigMap cr name filename content);
      put_config cr configMap "create or update config map"
  end.

Definition nonempty (s : string) : option string := if bool_decide (s = "") then None else Some s.

Definition reconcileCustomConfigMap (cr : PerconaXtraDBCluster) : M W OperationResult :=
  pxc ← lift (deref (spec_PXC (cluster_Spec cr)));
  reconcile_custom cr "pxc" "init.cnf" (nonempty (pod_Configuration (pxc_PodSpec pxc))).

Definition reconcileProxySQLConfigMap (cr : PerconaXtraDBCluster) : M W OperationResult :=
  reconcile_custom cr "proxysql" "proxysql.cnf"
    (if ProxySQLEnabled cr then spec_ProxySQL (cluster_Spec cr) ≫= fun p => nonempty (pod_Configuration (ps_PodSpec p)) else None).

Definition reconcileHAProxyConfigMap (cr : PerconaXtraDBCluster) : M W OperationResult :=
  reconcile_custom cr "haproxy" "haproxy-global.cfg"
    (if HAProxyEnabled cr then spec_HAProxy (cluster_Spec cr) ≫= fun h => nonempty (pod_Configuration (ha_PodSpec h)) else None).

Definition reconcileLogcollectorConfigMap (cr : PerconaXtraDBCluster) : M W OperationResult :=
  reconcile_custom cr "logcollector" "fluentbit_custom.conf"
    (spec_LogCollector (cluster_Spec cr) ≫= fun l => nonempty (lc_Configuration l)).

Definition createHookScriptConfigMap (cr : PerconaXtraDBCluster) (hookScript configMapName : string) : M W unit :=
  configMap ← lift (NewConfigMap cr configMapName "hook.sh" hookScript);
  _ ← put_config cr configMap "create or update configmap";
  mret tt.

(** The hook scripts of the components, each with what the error of its removal says. *)
Definition hook_scripts (cr : PerconaXtraDBCluster) : list (string * option string * string) :=
  [("pxc", spec_PXC (cluster_Spec cr) ≫= fun p => nonempty (pod_HookScript (pxc_PodSpec p)), "delete pxc hookscript config map");
   ("proxysql", spec_ProxySQL (cluster_Spec cr) ≫= fun p => nonempty (pod_HookScript (ps_PodSpec p)), "delete proxysql hookscript config map");
   ("haproxy", spec_HAProxy (cluster_Spec cr) ≫= fun h => nonempty (pod_HookScript (ha_PodSpec h)), "delete haproxy config map");
   ("logcollector", spec_LogCollector (cluster_Spec cr) ≫= fun l => nonempty (lc_HookScript l), "delete logcollector config map")].

Definition reconcileHookScriptConfigMaps (cr : PerconaXtraDBCluster) : M W unit :=
  for_each (fun '(component, script, delMsg) =>
    let name := HookScriptConfigMapName (cluster_Name cr) component in
    match script with
    | Some s => wrap ("create " +:+ component +:+ " hookscript config map") (createHookScriptConfigMap cr s name)
    | None => wrap delMsg (deleteConfigMapIfExists cr name)
    end) (hook_scripts cr).

(** The first result that is not [ResultNone]. *)
Definition or_result (r1 r2 : OperationResult) : OperationResult := match r1 with ResultNone => r2 | _ => r1 end.

Definition reconcileConfigMaps (cr : PerconaXtraDBCluster) : M W OperationResult :=
  r1 ← wrap "reconcile autotune config" (reconcileAutotuneConfigMap cr);
  r2 ← wrap "reconcile custom config" (reconcileCustomConfigMap cr);
  r3 ← wrap "reconcile proxysql config map" (reconcileProxySQLConfigMap cr);
  r4 ← wrap "reconcile haproxy config map" (reconcileHAProxyConfigMap cr);
  r5 ← wrap "reconcile logcollector config map" (reconcileLogcollectorConfigMap cr);
  _ ← wrap "reconcile hookscript config maps" (reconcileHookScriptConfigMaps cr);
  mret (or_result (or_result (or_result (or_result r1 r2) r3) r4) r5).
End config.
