(* ===== verification/ConfigSpec.v ===== *)
(** * Configuration: proofs

    The sizes the memory limit leads to, the names of the config maps, and that a pass
    leaves exactly the config maps the specification asks for. *)

From S2P Require Import Prelude GoStrings ApiTypes KubeApi Naming Users Services Volumes Config.

(** ** Sizes *)

Lemma int64_small z : - 2 ^ 63 <= z < 2 ^ 63 -> int64 z = z.
Proof. intros Hz. unfold int64. rewrite Z.mod_small; lia. Qed.

(** The buffer pool fits the memory limit and the rules of the database: no step
    overflows, the pool is a multiple of the chunk size for each of its instances (one up
    to 1 GiB, and eight above, with chunks of whole MiB), and from 256 MiB of memory on it is not
    larger than the memory. *)
Theorem pool_size_fits q : 0 <= q < 2 ^ 63 ->
  match pool_size q with
  | (Some chunk, p) => p = 8 * chunk /\ Z.rem chunk chunkSizeMin = 0 /\ 1073741824 < p <= q
  | (None, p) => Z.rem p chunkSizeDefault = 0 /\ 0 <= p <= 1073741824 /\ (268435456 <= q -> p <= q)
  end.
Proof.
  intros Hq. unfold pool_size, chunkSizeDefault, chunkSizeMin.
  pose proof (Z.quot_rem' q 100) as Hqr. pose proof (Z.rem_bound_pos q 100 ltac:(lia) ltac:(lia)) as Hr.
  set (h := Z.quot q 100) in *. clearbody h. set (r := Z.rem q 100) in *. clearbody r. rewrite (int64_small (h * 75)), (int64_small (h * 50)), (int64_small (q - h * 75)) by lia.
  set (p1 := if bool_decide _ then h * 50 else h * 75).
  assert (0 <= p1 /\ (2 * p1 <= q \/ (1000000000 <= q - p1 /\ p1 <= q)) /\ p1 <= q) as (Hp1 & Hp1q & Hle).
  { subst p1. case_bool_decide; lia. }
  clearbody p1. pose proof (Z.quot_rem' p1 134217728) as Hd. pose proof (Z.rem_bound_pos p1 134217728 ltac:(lia) ltac:(lia)) as Hdr.
  rewrite (int64_small (134217728 - _)) by lia. rewrite (int64_small (p1 + _)) by lia.
  set (p2 := if bool_decide _ then p1 else _).
  assert (exists k, p2 = 134217728 * k /\ p1 <= p2 < p1 + 134217728) as (k & Hk & Hp2).
  { subst p2. case_bool_decide; [exists (Z.quot p1 134217728); lia|exists (Z.quot p1 134217728 + 1); lia]. }
  clearbody p2. case_bool_decide as Hbig.
  - assert (Z.quot p2 8 = 16777216 * k) as Hq8 by (rewrite Hk, (Z.quot_div_nonneg) by lia; replace (134217728 * k) with (16777216 * k * 8) by lia; by rewrite Z.div_mul).
    rewrite Hq8. assert (Z.rem (16777216 * k) 1048576 = 0) as Hrem.
    { replace (16777216 * k) with (16 * k * 1048576) by lia. apply Z.rem_mul. lia. }
    rewrite Hrem. rewrite (int64_small (16777216 * k + 1048576)) by lia. rewrite Z.sub_0_r, (int64_small (16777216 * k + 1048576)) by lia.
    rewrite (int64_small ((16777216 * k + 1048576) * 8)) by lia. split_and!; [lia| |lia|].
    + replace (16777216 * k + 1048576) with ((16 * k + 1) * 1048576) by lia. apply Z.rem_mul. lia.
    + lia.
  - split_and!; [rewrite Hk, Z.mul_comm; apply Z.rem_mul; lia|lia|lia|lia].
Qed.

(** With less memory than that the pool can be larger than the memory. *)
Example pool_larger_than_memory : (pool_size 104857600).2 = 134217728.
Proof. reflexivity. Qed.

(** ** Names *)

Definition chars (s : string) : list Ascii.ascii := String.list_ascii_of_string s.

Lemma chars_app s t : chars (s +:+ t) = chars s ++ chars t.
Proof. induction s as [|c s IH]; [done|]. simpl. by f_equal. Qed.

Lemma app_ne s t1 t2 : t1 <> t2 -> s +:+ t1 <> s +:+ t2.
Proof. intros Hne. induction s as [|c s IH]; [done|]. intros [= Heq]. by apply IH. Qed.

Lemma str_length_app s t : String.length (s +:+ t) = (String.length s + String.length t)%nat.
Proof. induction s as [|c s IH]; simpl; [done|by rewrite IH]. Qed.

Definition components : list string := ["pxc"; "proxysql"; "haproxy"; "logcollector"].

(** The config maps of a cluster, in the order in which they are reconciled. *)
Definition map_names (c : string) : list string :=
  AutoTuneConfigMapName c "pxc" :: map (CustomConfigMapName c) components ++ map (HookScriptConfigMapName c) components.

Lemma map_names_distinct c : NoDup (map_names c).
Proof.
  unfold map_names. apply NoDup_cons. split.
  - unfold AutoTuneConfigMapName, CustomConfigMapName, HookScriptConfigMapName. simpl. intros Hin.
    repeat (apply elem_of_cons in Hin as [Hin|Hin]; [revert Hin|]); [| | | | | | | |set_solver].
    1: intros Heq; apply (f_equal String.length) in Heq; rewrite !str_length_app in Heq; simpl in Heq; lia.
    all: intros Heq; apply (f_equal (last ∘ chars)) in Heq; unfold compose in Heq; rewrite !chars_app, !last_app in Heq; discriminate Heq.
  - assert (map (CustomConfigMapName c) components ++ map (HookScriptConfigMapName c) components =
      (String.append c) <$> ["-pxc"; "-proxysql"; "-haproxy"; "-logcollector"; "-pxc-hookscript"; "-proxysql-hookscript"; "-haproxy-hookscript"; "-logcollector-hookscript"]) as -> by done.
    apply NoDup_fmap_2_strong; [|by apply (bool_decide_unpack _); vm_compute].
    intros x y _ _ Heq. destruct (decide (x = y)) as [|Hne]; [done|]. by apply (app_ne c) in Hne.
Qed.

(** The names of two clusters in a namespace can meet. *)
Example names_of_two_clusters_meet : AutoTuneConfigMapName "db" "pxc" = CustomConfigMapName "auto-db" "pxc".
Proof. reflexivity. Qed.

(** ** What a pass leaves on the server *)

Class ConfigView (W : Type) := maps : W -> gmap NamespacedName ConfigMap.

Class ConfigLaws (W : Type) `{ConfigView W} `{ConfigEnv W} := {
  fl_get n w w' r : cf_get n w = (w', r) -> maps w' = maps w /\
    match r with
    | Ok m => maps w !! n = Some m /\ cm_Key m = n
    | Err e => IsNotFound e = true -> maps w !! n = None
    | Panic => False
    end;
  fl_create m w w' r : cf_create m w = (w', r) -> maps w' = if is_ok r then <[cm_Key m := m]> (maps w) else maps w;
  fl_update m w w' r : cf_update m w = (w', r) -> maps w' = if is_ok r then <[cm_Key m := m]> (maps w) else maps w;
  fl_delete m w w' r : cf_delete m w = (w', r) -> maps w' = if is_ok r then delete (cm_Key m) (maps w) else maps w }.

(** What the specification asks for: the contents of a config map, or none. *)
Definition auto_data `{IniLib} (cr : PerconaXtraDBCluster) : option (gmap string string) :=
  p ← spec_PXC (cluster_Spec cr);
  q ← rr_Limits (pod_Resources (pxc_PodSpec p)) !! "memory";
  match getAutoTuneParams cr q with Ok params => Some {[ "auto-config.cnf" := "[mysqld]" +:+ params ]} | _ => None end.

Definition one_file (filename : string) (content : option string) : option (gmap string string) :=
  (fun c => {[ filename := c ]}) <$> content.

Definition wanted `{IniLib} (cr : PerconaXtraDBCluster) : list (string * option (gmap string string)) :=
  let c := cluster_Name cr in
  let s := cluster_Spec cr in
  [(AutoTuneConfigMapName c "pxc", auto_data cr);
   (CustomConfigMapName c "pxc", one_file "init.cnf" (spec_PXC s ≫= fun p => nonempty (pod_Configuration (pxc_PodSpec p))));
   (CustomConfigMapName c "proxysql", one_file "proxysql.cnf"
     (if ProxySQLEnabled cr then spec_ProxySQL s ≫= fun p => nonempty (pod_Configuration (ps_PodSpec p)) else None));
   (CustomConfigMapName c "haproxy", one_file "haproxy-global.cfg"
     (if HAProxyEnabled cr then spec_HAProxy s ≫= fun h => nonempty (pod_Configuration (ha_PodSpec h)) else None));
   (CustomConfigMapName c "logcollector", one_file "fluentbit_custom.conf" (spec_LogCollector s ≫= fun l => nonempty (lc_Configuration l)))] ++
  map (fun h => (HookScriptConfigMapName c h.1.1, one_file "hook.sh" h.1.2)) (hook_scripts cr).

Section exact.
Context {W : Type} `{ConfigLaws W} `{VersionLib} `{IniLib} `{RetryLib}.

Definition map_key (cr : PerconaXtraDBCluster) (name : string) : NamespacedName := mkNN (cluster_Namespace cr) name.

(** The config map of a name is what is asked for: it is there with the contents, or
    there is none that belongs to the cluster. *)
Definition settled (cr : PerconaXtraDBCluster) (x : string * option (gmap string string)) (w : W) : Prop :=
  match x.2 with
  | Some d => exists m, maps w !! map_key cr x.1 = Some m /\ cm_Data m = d
  | None => forall m, maps w !! map_key cr x.1 = Some m -> head (cm_Owners m) <> Some (meta_UID (cluster_Meta cr))
  end.

Definition others (k : NamespacedName) (w w' : W) : Prop := forall n, n <> k -> maps w' !! n = maps w !! n.

Definition step (cr : PerconaXtraDBCluster) (x : string * option (gmap string string)) (r : OperationResult) (w w' : W) : Prop :=
  settled cr x w' /\ others (map_key cr x.1) w w' /\ (r = ResultNone -> x.2 <> None -> maps w' = maps w).

Lemma createOrUpdateConfigmap_run m (w w' : W) r : createOrUpdateConfigmap m w = (w', Ok r) ->
  (exists m', maps w' !! cm_Key m = Some m' /\ cm_Data m' = cm_Data m) /\ others (cm_Key m) w w' /\ (r = ResultNone -> maps w' = maps w).
Proof.
  unfold createOrUpdateConfigmap. intros (w1 & got & Hg & Hrun)%bind_inv_Ok.
  apply try_inv_Ok in Hg as [(cur & -> & [Hm [Hc Hk]]%fl_get)|(e & -> & [Hm _]%fl_get)].
  - case_bool_decide as Hd.
    { injection Hrun as <- <-. rewrite Hm. split_and!; [eauto|by intros n Hn; rewrite Hm|done]. }
    apply bind_inv_Ok in Hrun as (w2 & [] & Hr & Hrun). injection Hrun as <- <-.
    apply retry_on_conflict_runs in Hr.
    assert (triple (fun u => maps u = maps w) (cm ← cf_get (cm_Key m); cf_update (cm <| cm_Data := cm_Data m |>))
              (fun _ u => exists m', cm_Data m' = cm_Data m /\ maps u = <[cm_Key m := m']> (maps w)) (fun u => maps u = maps w)) as Ht.
    { apply triple_of_run. intros u u' x Hu. unfold mbind, M_bind. destruct (cf_get _ u) as [u1 [c1|e1|]] eqn:E1; apply fl_get in E1 as [E1 Hc1].
      - intros Hup. apply fl_update in Hup. destruct Hc1 as [_ Hk1]. rewrite E1, Hu in Hup. destruct x as [[]|e|]; simpl in Hup; [|done..].
        exists (c1 <| cm_Data := cm_Data m |>). destruct c1. simpl in *. by rewrite Hup, Hk1.
      - intros [= <- <-]. by rewrite E1.
      - done. }
    pose proof (triple_retries _ _ _ _ _ _ _ _ Ht (fun w x => x) Hr Hm) as Hfin. simpl in Hfin.
    destruct Hfin as (m' & Hd' & Hmaps). rewrite Hmaps. split_and!; [exists m'; by rewrite lookup_insert_eq| |done].
    intros n Hn. by rewrite Hmaps, lookup_insert_ne.
  - destruct (IsNotFound e); [|done]. apply bind_inv_Ok in Hrun as (w2 & [] & Hr%fl_create & Hrun). injection Hrun as <- <-. simpl in Hr.
    rewrite Hr, Hm. split_and!; [exists m; by rewrite lookup_insert_eq| |done]. intros n Hn. by rewrite Hr, lookup_insert_ne, Hm.
Qed.

Lemma put_config_run cr m msg (w w' : W) r : put_config cr m msg w = (w', Ok r) ->
  (exists m', maps w' !! cm_Key m = Some m' /\ cm_Data m' = cm_Data m) /\ others (cm_Key m) w w' /\ (r = ResultNone -> maps w' = maps w).
Proof.
  unfold put_config. intros (w1 & owner & Hg1 & Hrun%wrap_inv_Ok)%bind_inv_Ok. unfold lift in Hg1. injection Hg1 as <- _.
  apply createOrUpdateConfigmap_run in Hrun. by destruct m.
Qed.

Lemma deleteConfigMap_run cr name (w w' : W) : deleteConfigMapIfExists cr name w = (w', Ok tt) ->
  settled cr (name, None) w' /\ others (map_key cr name) w w'.
Proof.
  unfold deleteConfigMapIfExists, settled. fold (map_key cr name). simpl. intros (w1 & got & Hg & Hrun)%bind_inv_Ok.
  apply try_inv_Ok in Hg as [(cur & -> & [Hm [Hc Hk]]%fl_get)|(e & -> & [Hm Hn]%fl_get)].
  - case_bool_decide as Ho; simpl in Hrun.
    + apply fl_delete in Hrun. simpl in Hrun. rewrite Hk in Hrun. split.
      * intros m. by rewrite Hrun, lookup_delete_eq.
      * intros n Hne. by rewrite Hrun, lookup_delete_ne, Hm.
    + injection Hrun as <-. split; [|intros n _; by rewrite Hm]. intros m. rewrite Hm, Hc. by intros [= <-].
  - destruct (IsNotFound e); [|done]. injection Hrun as <-. split; [|intros n _; by rewrite Hm]. intros m. by rewrite Hm, (Hn eq_refl).
Qed.

Lemma NewConfigMap_data cr name file content m : NewConfigMap cr name file content = Ok m ->
  cm_Key m = map_key cr name /\ cm_Data m = {[ file := content ]}.
Proof. unfold NewConfigMap. destruct (from_version _ _); simpl; intros [= <-]; done. Qed.

Lemma put_new_run cr name file content msg m (w w' : W) r :
  NewConfigMap cr name file content = Ok m -> put_config cr m msg w = (w', Ok r) -> step cr (name, Some {[ file := content ]}) r w w'.
Proof.
  intros [Hk Hd]%NewConfigMap_data Hrun. apply put_config_run in Hrun as (Hp & Ho & Hn). rewrite Hk, Hd in *. split_and!; [done|done|auto].
Qed.

Lemma custom_run cr component file content (w w' : W) r : reconcile_custom cr component file content w = (w', Ok r) ->
  step cr (CustomConfigMapName (cluster_Name cr) component, one_file file content) r w w'.
Proof.
  unfold reconcile_custom. destruct content as [content|]; simpl.
  - intros (w1 & m & Hg & Hrun)%bind_inv_Ok. unfold lift in Hg. injection Hg as <- Hnew. by eapply put_new_run.
  - intros (w1 & [] & Hd%wrap_inv_Ok & Hret)%bind_inv_Ok. injection Hret as <- <-. apply deleteConfigMap_run in Hd as [Hs Ho]. by split_and!.
Qed.

Lemma autotune_run cr (w w' : W) r : reconcileAutotuneConfigMap cr w = (w', Ok r) ->
  step cr (AutoTuneConfigMapName (cluster_Name cr) "pxc", auto_data cr) r w w'.
Proof.
  unfold reconcileAutotuneConfigMap, auto_data. intros (w1 & pxc & Hg1 & Hrun)%bind_inv_Ok. unfold lift in Hg1. injection Hg1 as <- Hp.
  destruct (spec_PXC _) as [p|]; [|done]. injection Hp as ->. simpl. destruct (rr_Limits _ !! "memory") as [q|]; simpl.
  - apply bind_inv_Ok in Hrun as (w1 & m & Hg & Hrun). unfold lift in Hg. injection Hg as <- Hnew. unfold NewAutoTuneConfigMap in Hnew.
    destruct (getAutoTuneParams cr q) as [params|e|]; [|done..]. simpl in Hnew.
    eapply put_new_run; [|exact Hrun]. by destruct (NewConfigMap _ _ _ _).
  - apply bind_inv_Ok in Hrun as (w1 & [] & Hd%wrap_inv_Ok & Hret). injection Hret as <- <-. apply deleteConfigMap_run in Hd as [Hs Ho]. by split_and!.
Qed.

(** ** All of them *)

Inductive steps (cr : PerconaXtraDBCluster) : list (string * option (gmap string string)) -> W -> W -> Prop :=
| steps_nil w : steps cr [] w w
| steps_cons x l r w w1 w2 : step cr x r w w1 -> steps cr l w1 w2 -> steps cr (x :: l) w w2.

Lemma steps_app cr l1 l2 w w1 w2 : steps cr l1 w w1 -> steps cr l2 w1 w2 -> steps cr (l1 ++ l2) w w2.
Proof. intros Hs1 Hs2. induction Hs1; simpl; [done|]. econstructor; [done|auto]. Qed.

Lemma steps_others cr l w w' n : steps cr l w w' -> (n ∉ (map_key cr ∘ fst) <$> l) -> maps w' !! n = maps w !! n.
Proof.
  induction 1 as [|x l r w w1 w2 (_ & Ho & _) _ IH]; [done|]. rewrite fmap_cons, not_elem_of_cons. intros [Hne Hin].
  rewrite IH by done. by apply Ho.
Qed.

Lemma steps_settled cr l w w' : steps cr l w w' -> NoDup l.*1 -> forall x, x ∈ l -> settled cr x w'.
Proof.
  induction 1 as [|x l r w w1 w2 (Hset & _ & _) Hst IH]; intros Hnd y; [set_solver|]. rewrite fmap_cons in Hnd. apply NoDup_cons in Hnd as [Hx Hnd].
  intros [->|Hy]%elem_of_cons; [|by apply IH]. unfold settled in *.
  assert (maps w2 !! map_key cr x.1 = maps w1 !! map_key cr x.1) as Heq.
  { eapply steps_others; [done|]. intros (z & Hz & Hin)%list_elem_of_fmap. apply Hx. apply list_elem_of_fmap. exists z. split; [|done].
    simpl in Hz. by injection Hz. }
  by destruct x as [name [d|]]; simpl in *; rewrite Heq.
Qed.

Lemma hooks_run cr (w w' : W) : reconcileHookScriptConfigMaps cr w = (w', Ok tt) ->
  steps cr (map (fun h => (HookScriptConfigMapName (cluster_Name cr) h.1.1, one_file "hook.sh" h.1.2)) (hook_scripts cr)) w w'.
Proof.
  unfold reconcileHookScriptConfigMaps. generalize (hook_scripts cr). intros l. revert w. induction l as [|[[comp script] msg] l IH]; intros w; simpl.
  - intros [= <-]. constructor.
  - intros (w1 & [] & Hg & Hrun)%bind_inv_Ok. destruct script as [s|]; simpl in *; apply wrap_inv_Ok in Hg.
    + unfold createHookScriptConfigMap in Hg. apply bind_inv_Ok in Hg as (w2 & m & Hg2 & (w3 & r & Hg3 & Hret)%bind_inv_Ok).
      unfold lift in Hg2. injection Hg2 as <- Hnew. injection Hret as <-. econstructor; [by eapply put_new_run|auto].
    + apply deleteConfigMap_run in Hg as [Hs Ho]. apply (steps_cons _ _ _ ResultNone _ w1); [by split_and!|auto].
Qed.

Lemma reconcileConfigMaps_steps cr (w w' : W) r : reconcileConfigMaps cr w = (w', Ok r) -> steps cr (wanted cr) w w'.
Proof.
  unfold reconcileConfigMaps.
  intros (w1 & r1 & Hg1%wrap_inv_Ok & (w2 & r2 & Hg2%wrap_inv_Ok & (w3 & r3 & Hg3%wrap_inv_Ok & (w4 & r4 & Hg4%wrap_inv_Ok &
    (w5 & r5 & Hg5%wrap_inv_Ok & (w6 & [] & Hg6%wrap_inv_Ok & Hret)%bind_inv_Ok)%bind_inv_Ok)%bind_inv_Ok)%bind_inv_Ok)%bind_inv_Ok)%bind_inv_Ok.
  injection Hret as <- _. unfold wanted. apply (steps_app cr _ _ w w5); [|by apply hooks_run].
  econstructor; [by apply autotune_run|]. unfold reconcileCustomConfigMap in Hg2. apply bind_inv_Ok in Hg2 as (w2' & pxc & Hp & Hg2).
  unfold lift in Hp. injection Hp as <- Hp. destruct (spec_PXC (cluster_Spec cr)) as [p|]; [|done]. injection Hp as ->.
  econstructor; [exact (custom_run _ _ _ _ _ _ _ Hg2)|]. econstructor; [exact (custom_run _ _ _ _ _ _ _ Hg3)|].
  econstructor; [exact (custom_run _ _ _ _ _ _ _ Hg4)|]. econstructor; [exact (custom_run _ _ _ _ _ _ _ Hg5)|]. constructor.
Qed.

Lemma wanted_names cr : (wanted cr).*1 = map_names (cluster_Name cr).
Proof. reflexivity. Qed.

(** C32: after the config maps are reconciled, every config map the cluster can have is what
    its specification asks for: it has exactly the configuration, or, when there is none,
    no config map of that name belongs to the cluster; and no other config map was
    touched. *)
Theorem config_maps_exact cr (w w' : W) r : reconcileConfigMaps cr w = (w', Ok r) ->
  (forall x, x ∈ wanted cr -> settled cr x w') /\
  (forall n, (n ∉ map_key cr <$> map_names (cluster_Name cr)) -> maps w' !! n = maps w !! n).
Proof.
  intros Hrun%reconcileConfigMaps_steps. split.
  - apply (steps_settled _ _ _ _ Hrun). rewrite wanted_names. apply map_names_distinct.
  - intros n Hn. eapply steps_others; [done|]. by rewrite list_fmap_compose, wanted_names.
Qed.
End exact.
