(* ===== verification/VolumesSpec.v ===== *)
(** * What resizing guarantees

    How sizes are rounded and compared, and what one pass may do to claims, to
    the statefulset and to the specification. *)

From S2P Require Import Prelude GoStrings ApiTypes Volumes.

(** ** Rounding *)

Lemma int64_id z : - 2 ^ 63 <= z < 2 ^ 63 -> int64 z = z.
Proof. intros Hz. unfold int64. rewrite Z.mod_small by lia. lia. Qed.

Lemma int64_over z : 2 ^ 63 <= z < 2 ^ 63 + 2 ^ 64 -> int64 z = z - 2 ^ 64.
Proof.
  intros Hz. unfold int64. replace (z + 2 ^ 63) with (z - 2 ^ 63 + 1 * 2 ^ 64) by lia.
  rewrite Z.mod_add by lia. rewrite Z.mod_small by lia. lia.
Qed.

Lemma int64_step z : 0 <= z < 2 ^ 63 -> int64 (int64 (z + GiB) - 1) = int64 (z + GiB - 1).
Proof.
  intros Hz. assert (GiB = 2 ^ 30) as HG by done. rewrite HG.
  destruct (decide (z + 2 ^ 30 < 2 ^ 63)) as [Hlt|Hge]; [by rewrite (int64_id (z + 2 ^ 30)) by lia|].
  rewrite (int64_over (z + 2 ^ 30)) by lia.
  destruct (decide (z + 2 ^ 30 = 2 ^ 63)) as [Heq|Hne].
  - rewrite Heq. reflexivity.
  - rewrite (int64_over (z + 2 ^ 30 - 1)) by lia. rewrite int64_id by lia. lia.
Qed.

(** Rounding a size up to GiB.  Up to [2^63 - GiB] bytes the result is the
    least number of whole GiB that holds the size, and its bytes fit an [int64];
    above that the sum wraps around and the result is negative, and the check
    for sizes that do not fit never reports an error. *)
Theorem RoundUpGiB_spec v : 0 <= v < 2 ^ 63 ->
  exists g, RoundUpGiB v = Ok g /\
    (v <= 2 ^ 63 - GiB -> v <= g * GiB < v + GiB /\ int64 (g * GiB) = g * GiB) /\
    (2 ^ 63 - GiB < v -> g < 0 /\ int64 (g * GiB) < 0).
Proof.
  intros Hv. assert (GiB = 2 ^ 30) as HG by done.
  unfold RoundUpGiB, roundUpSize. rewrite (bool_decide_eq_false_2 (GiB = 0)) by done.
  rewrite int64_step by done. rewrite HG.
  destruct (decide (v <= 2 ^ 63 - 2 ^ 30)) as [Hs|Hl].
  - rewrite (int64_id (v + 2 ^ 30 - 1)) by lia. rewrite Z.quot_div_nonneg by lia.
    pose proof (Z.div_mod (v + 2 ^ 30 - 1) (2 ^ 30) ltac:(lia)) as Hd.
    pose proof (Z.mod_pos_bound (v + 2 ^ 30 - 1) (2 ^ 30) ltac:(lia)) as Hm.
    generalize dependent ((v + 2 ^ 30 - 1) / 2 ^ 30). intros g Hd.
    generalize dependent ((v + 2 ^ 30 - 1) mod 2 ^ 30). intros m Hm Hd.
    assert (v <= g * 2 ^ 30 < v + 2 ^ 30) as Hg by lia.
    rewrite (int64_id g) by lia. exists g. rewrite bool_decide_eq_false_2 by lia.
    split_and!; [done|intros _; split; [done|apply int64_id; lia]|lia].
  - rewrite (int64_over (v + 2 ^ 30 - 1)) by lia. set (z := v + 2 ^ 30 - 1 - 2 ^ 64).
    assert (z = - (- z)) as Hz by lia. rewrite Hz, Z.quot_opp_l by lia. rewrite Z.quot_div_nonneg by lia.
    pose proof (Z.div_mod (- z) (2 ^ 30) ltac:(lia)) as Hd.
    pose proof (Z.mod_pos_bound (- z) (2 ^ 30) ltac:(lia)) as Hm.
    generalize dependent (- z / 2 ^ 30). intros q Hd.
    generalize dependent (- z mod 2 ^ 30). intros m Hm Hd. subst z. rewrite (int64_id (- q)) by lia. exists (- q).
    rewrite bool_decide_eq_false_2 by lia. split_and!; [done|lia|].
    intros _. split; [lia|]. rewrite int64_id by lia. lia.
Qed.

Lemma RoundUpGiB_spec_witness :
  (exists g, RoundUpGiB (3 * GiB + 1) = Ok g /\ 3 * GiB + 1 <= g * GiB < 3 * GiB + 1 + GiB) /\
  RoundUpGiB (3 * GiB + 1) = Ok 4.
Proof.
  split; [|reflexivity]. assert (GiB = 2 ^ 30) as HG by done.
  destruct (RoundUpGiB_spec (3 * GiB + 1)) as (g & E & Hs & _); [rewrite HG; lia|].
  exists g. split; [done|]. apply Hs. rewrite HG. lia.
Defined.

(** ** The smallest capacity *)

Definition measured (sts : string) (pvc : VPVC) (c : Z) : Prop :=
  validatePVCName pvc sts = true /\ vp_Capacity pvc = Some c.

Lemma smallest_from sts pvcs a :
  (forall pvc c, pvc ∈ pvcs -> measured sts pvc c -> 0 < c) -> 0 <= a ->
  let r := fold_left (fun actual pvc =>
    if validatePVCName pvc sts then
      match vp_Capacity pvc with
      | None => actual
      | Some c => if bool_decide (actual = 0) || bool_decide (c < actual) then c else actual
      end
    else actual) pvcs a in
  (r = a \/ exists pvc, pvc ∈ pvcs /\ measured sts pvc r) /\ (0 < a -> r <= a) /\ (0 < a -> 0 < r) /\
  forall pvc c, pvc ∈ pvcs -> measured sts pvc c -> 0 < r <= c.
Proof.
  revert a. induction pvcs as [|x pvcs IH]; intros a Hpos Ha; cbn [fold_left].
  { split_and!; [by left|done|done|]. by intros ? ? ?%elem_of_nil. }
  set (a' := if validatePVCName x sts then _ else a).
  assert (0 <= a' /\ (a' = a \/ measured sts x a') /\ (0 < a -> a' <= a /\ 0 < a') /\
          forall c, measured sts x c -> 0 < a' <= c) as (Ha' & Hfrom & Hle & Hx).
  { unfold a', measured in *. destruct (validatePVCName x sts) eqn:Ev; [|naive_solver lia].
    destruct (vp_Capacity x) as [c|] eqn:Ec; [|naive_solver lia].
    assert (0 < c) by (eapply Hpos; [left|split; [exact Ev|done]]).
    repeat case_bool_decide; simpl; naive_solver lia. }
  destruct (IH a') as (Hr & Hra & Hrp & Hall); [intros; eapply Hpos; [by right|done]|done|].
  cbv zeta in *. set (r := fold_left _ pvcs a') in *. split_and!.
  - destruct Hr as [->|(pvc & Hin & Hm)].
    + destruct Hfrom as [->|Hm]; [by left|]. right. exists x. split; [left|done].
    + right. exists pvc. split; [by right|done].
  - intros Hp. specialize (Hle Hp). lia.
  - intros Hp. apply Hrp. apply Hle, Hp.
  - intros pvc c [->|Hin]%elem_of_cons Hm; [|by apply (Hall pvc)].
    specialize (Hx c Hm). split; [apply Hrp; lia|]. etrans; [apply Hra; lia|lia].
Qed.

(** The smallest capacity is the capacity of one of the claims, and no claim has
    less. *)
Lemma smallest_capacity_spec sts pvcs :
  (forall pvc c, pvc ∈ pvcs -> measured sts pvc c -> 0 < c) ->
  (smallest_capacity sts pvcs = 0 <-> forall pvc c, pvc ∈ pvcs -> ~ measured sts pvc c) /\
  forall pvc c, pvc ∈ pvcs -> measured sts pvc c -> 0 < smallest_capacity sts pvcs <= c.
Proof.
  intros Hpos. destruct (smallest_from sts pvcs 0 Hpos ltac:(lia)) as (Hr & _ & _ & Hall).
  split; [|done]. split.
  - intros E pvc c Hin Hm. specialize (Hall pvc c Hin Hm). unfold smallest_capacity in E. lia.
  - intros Hno. destruct Hr as [Hr|(pvc & Hin & Hm)]; [done|]. by destruct (Hno _ _ Hin Hm).
Qed.

(** ** What a pass writes *)

Inductive VAct :=
| ADeleteSts (n : NamespacedName)
| AAnnotations (a : gmap string string)
| AStorage (size : Z)
| AResize (claim : string) (size : Z)
| AEvent (claim reason : string).

(** Every write that succeeds is logged, reads are not. *)
Class VolLaws (W : Type) `{VolEnv W} := {
  vl_log : W -> list VAct;
  vl_listPVCs cr l : keeps (fun w => vl_log w = l) (ve_listPVCs cr);
  vl_listPods cr l : keeps (fun w => vl_log w = l) (ve_listPods cr);
  vl_getSts n l : keeps (fun w => vl_log w = l) (ve_getSts n);
  vl_listEvents ns n l : keeps (fun w => vl_log w = l) (ve_listEvents ns n);
  vl_getAnnotations n l : keeps (fun w => vl_log w = l) (ve_getAnnotations n);
  vl_deleteSts n w w' r : ve_deleteSts n w = (w', r) ->
    vl_log w' = vl_log w ++ if is_ok r then [ADeleteSts n] else [];
  vl_patchAnnotations n a w w' r : ve_patchAnnotations n a w = (w', r) ->
    vl_log w' = vl_log w ++ if is_ok r then [AAnnotations a] else [];
  vl_patchStorage n z w w' r : ve_patchStorage n z w = (w', r) ->
    vl_log w' = vl_log w ++ if is_ok r then [AStorage z] else [];
  vl_updatePVC pvc w w' r : ve_updatePVC pvc w = (w', r) ->
    vl_log w' = vl_log w ++ if is_ok r then [AResize (vp_Name pvc) (vp_Request pvc)] else [];
  vl_recordEvent n reason w w' r : ve_recordEvent n reason w = (w', r) ->
    vl_log w' = vl_log w ++ if is_ok r then [AEvent n reason] else [] }.

(** The number of claims that have the size asked for. *)
Definition resized (sts : string) (requested : Z) (pvcs : list VPVC) : nat :=
  length (filter (fun pvc => validatePVCName pvc sts = true /\ capacity pvc = requested) pvcs).

Section log.
Context {W : Type} `{VolLaws W} (l0 : list VAct).

(** All that was logged since [l0] is allowed. *)
Definition only (ok : VAct -> Prop) (w : W) : Prop := exists l, vl_log w = l0 ++ l /\ Forall ok l.

Lemma only_quiet {A} ok (m : M W A) : (forall l, keeps (fun w => vl_log w = l) m) -> keeps (only ok) m.
Proof. intros Hm w (l & Hl & Hok). exists l. split; [|done]. exact (Hm _ w Hl). Qed.

Lemma only_logs ok (m : M W unit) a :
  (forall w w' r, m w = (w', r) -> vl_log w' = vl_log w ++ if is_ok r then [a] else []) -> ok a -> keeps (only ok) m.
Proof.
  intros Hm Ha w (l & Hl & Hok). destruct (m w) as [w' r] eqn:E. apply Hm in E. simpl.
  exists (l ++ if is_ok r then [a] else []). split; [by rewrite E, Hl, (assoc_L (++))|].
  apply Forall_app. split; [done|]. destruct (is_ok r); repeat constructor; done.
Qed.

Lemma only_weaken (ok ok' : VAct -> Prop) w : (forall a, ok a -> ok' a) -> only ok w -> only ok' w.
Proof. intros Hw (l & Hl & Hok). exists l. split; [done|]. by eapply Forall_impl. Qed.

Lemma only_resize_claims ok todo requested pvcs :
  (forall pvc, pvc ∈ pvcs -> vp_Name pvc ∈ todo -> capacity pvc <> requested -> ok (AResize (vp_Name pvc) requested)) ->
  (forall n r, ok (AEvent n r)) ->
  keeps (only ok) (resize_claims todo requested pvcs).
Proof.
  intros Hok He. induction pvcs as [|pvc pvcs IH]; cbn [resize_claims]; [apply keeps_ret|].
  assert (keeps (only ok) (resize_claims todo requested pvcs)) as Hrest.
  { apply IH. intros x Hx. apply Hok. by right. }
  case_bool_decide as Hin; simpl; [|done]. case_bool_decide as Hc; [done|].
  apply keeps_bind.
  - apply keeps_try. eapply only_logs; [apply vl_updatePVC|]. apply (Hok pvc); [left|done|done].
  - intros [e|[]]; [|done]. destruct (Contains _ _).
    { apply keeps_bind; [eapply only_logs; [apply vl_recordEvent|apply He]|by intros []]. }
    destruct (Contains _ _); [|apply keeps_fail].
    apply keeps_bind; [eapply only_logs; [apply vl_recordEvent|apply He]|by intros []].
Qed.
End log.

(** ** One pass *)

Lemma note_events_updated start n es p : pg_updated (fold_left (note_event start n) es p) = pg_updated p.
Proof.
  revert p. induction es as [|e es IH]; intros p; simpl; [done|]. rewrite IH.
  unfold note_event. repeat case_match; by destruct p.
Qed.

(** A failure that happened after the resize was started. *)
Definition failed_event (start : Z) (e : VEvent) : Prop :=
  event_before e start = false /\ failure_reason (ev_Reason e) = true.

Lemma note_events_errors start n es p :
  pg_errors p = [] -> pg_errors (fold_left (note_event start n) es p) <> [] -> Exists (failed_event start) es.
Proof.
  revert p. induction es as [|e es IH]; intros p Hp He; simpl in *; [done|].
  destruct (decide (pg_errors (note_event start n p e) = [])) as [E|E]; [right; by eapply IH|].
  left. unfold note_event in E. destruct (event_before e start) eqn:Eb; [done|].
  destruct (in_progress_reason _); [by destruct p|]. by destruct (failure_reason _) eqn:Ef.
Qed.

Section pass.
Context {W : Type} `{VolLaws W} (cr : PerconaXtraDBCluster).
Let sts := pxc_sts_name cr.

(** Some event of a claim tells of a failure since the annotated start. *)
Definition failure_seen (start : Z) : Prop :=
  exists (w w' : W) n es, ve_listEvents (cluster_Namespace cr) n w = (w', Ok es) /\ Exists (failed_event start) es.

Lemma resize_progress_run start requested pvcs p (w w' : W) p' :
  resize_progress cr start requested p pvcs w = (w', Ok p') ->
  pg_updated p' = (pg_updated p + resized sts requested pvcs)%nat /\
  (pg_errors p = [] -> pg_errors p' <> [] -> failure_seen start).
Proof.
  revert p w. induction pvcs as [|pvc pvcs IH]; intros p w; cbn [resize_progress].
  - intros [= <- <-]. unfold resized. simpl. split; [lia|done].
  - unfold resized. rewrite filter_cons. fold sts. destruct (validatePVCName pvc sts) eqn:Ev; cbn [negb].
    + case_bool_decide as Hc.
      * rewrite decide_True by done. intros E. apply IH in E as [-> He]. unfold resized. destruct p; simpl in *.
        split; [lia|done].
      * rewrite decide_False by naive_solver. intros E.
        apply bind_inv_Ok in E as (w1 & es & Hl & E). apply wrap_inv_Ok in Hl. apply IH in E as [-> He].
        rewrite note_events_updated. split; [done|]. intros Hp Hne.
        destruct (decide (pg_errors (fold_left (note_event start (vp_Name pvc)) es p) = [])) as [E0|E0]; [by apply He|].
        exists w, w1, (vp_Name pvc), es. split; [done|]. by eapply note_events_errors.
    + rewrite decide_False by naive_solver. apply IH.
Qed.

Lemma resize_progress_quiet start requested pvcs p l :
  keeps (fun w : W => vl_log w = l) (resize_progress cr start requested p pvcs).
Proof.
  revert p. induction pvcs as [|pvc pvcs IH]; intros p; cbn [resize_progress]; [apply keeps_ret|].
  destruct (negb _); [apply IH|]. case_bool_decide; [apply IH|].
  apply keeps_bind; [apply keeps_wrap, vl_listEvents|intros es; apply IH].
Qed.

(** What a pass over these claims may write. *)
Definition allowed (pvcs : list VPVC) (pods : list string) (requested : Z) (a : VAct) : Prop :=
  let todo := pvcs_to_update sts pods pvcs in
  let grows := smallest_capacity sts pvcs < requested /\ spec_VolumeExpansionEnabled (cluster_Spec cr) = true in
  match a with
  | ADeleteSts n => n = pxc_sts_key cr /\ PVCResizeInProgress cr = true /\ resized sts requested pvcs = length todo
  | AAnnotations a =>
      if bool_decide (is_Some (a !! AnnotationPVCResizeInProgress)) then grows else PVCResizeInProgress cr = true
  | AStorage _ =>
      requested < smallest_capacity sts pvcs \/
      PVCResizeInProgress cr = true /\ exists start, failure_seen start
  | AResize n z => z = requested /\ n ∈ todo /\ grows
  | AEvent n _ => grows
  end.

Definition logged (ok : VAct -> Prop) (l0 : list VAct) (s : VW W) : Prop := only l0 ok (vw_w s).
Definition fresh (l0 : list VAct) (s : VW W) : Prop := vl_log (vw_w s) = l0 /\ vw_cr s = cr.

Lemma logged_onV {A} ok l0 (m : M W A) : keeps (only l0 ok) m -> keeps (logged ok l0) (onV m).
Proof. intros Hm [w c] Hs. specialize (Hm w Hs). unfold onV, logged. simpl. by destruct (m w). Qed.

Lemma logged_setCr ok l0 c : keeps (logged ok l0) (setCr c).
Proof. by intros [w c0] Hs. Qed.

Lemma fresh_onV {A} l0 (m : M W A) : (forall l, keeps (fun w => vl_log w = l) m) -> keeps (fresh l0) (onV m).
Proof. intros Hm [w c] [Hw Hc]. specialize (Hm _ w Hw). unfold onV, fresh. simpl in *. by destruct (m w). Qed.

Lemma fresh_logged ok l0 s : fresh l0 s -> logged ok l0 s.
Proof. intros [Hl _]. exists []. split; [by rewrite (right_id_L [] (++))|constructor]. Qed.

Lemma logged_revert ok l0 z : (forall z', ok (AStorage z')) -> keeps (logged ok l0) (revertVolumeTemplate (W := W) z).
Proof.
  intros Hok. unfold revertVolumeTemplate.
  repeat first [keeps_step | apply logged_setCr | apply keeps_gets].
  apply logged_onV. eapply only_logs; [apply vl_patchStorage|apply Hok].
Qed.

Lemma logged_deannotate ok l0 key :
  (forall a, a !! key = None -> ok (AAnnotations a)) -> keeps (logged ok l0) (DeannotateObject (W := W) key).
Proof.
  intros Hok. unfold DeannotateObject. apply keeps_bind; [apply keeps_gets|intros c].
  apply keeps_bind; [apply logged_onV, only_quiet; intros; apply vl_getAnnotations|intros a].
  apply logged_onV. eapply only_logs; [apply vl_patchAnnotations|]. apply Hok, lookup_delete_eq.
Qed.

Definition is_resize (a : VAct) : bool := match a with AResize _ _ => true | _ => false end.

(** Since [l0] only allowed writes were made, and no claim was changed before the
    annotation was set. *)
Definition written pvcs pods requested (l0 : list VAct) (s : VW W) : Prop :=
  exists l, vl_log (vw_w s) = l0 ++ l /\ Forall (allowed pvcs pods requested) l /\
    (forall a, head l = Some a -> is_resize a = false).

Definition calm pvcs pods requested (a : VAct) : Prop := allowed pvcs pods requested a /\ is_resize a = false.

Lemma calm_written pvcs pods requested l0 s : logged (calm pvcs pods requested) l0 s -> written pvcs pods requested l0 s.
Proof.
  intros (l & Hl & Hok). exists l. split; [done|]. split; [by eapply Forall_impl; [exact Hok|intros a [? ?]]|].
  intros a Ha. destruct l as [|b l]; simplify_eq/=. apply Forall_cons in Hok as [[_ ?] _]. done.
Qed.

Lemma fresh_written pvcs pods requested l0 s : fresh l0 s -> written pvcs pods requested l0 s.
Proof. intros Hs. by apply calm_written, fresh_logged. Qed.

Lemma resize_running_writes pvcs pods configured requested l0 :
  PVCResizeInProgress cr = true ->
  triple (fresh l0) (resize_running pvcs (pvcs_to_update sts pods pvcs) configured requested)
    (fun b s => if b : bool then written pvcs pods requested l0 s else fresh l0 s) (written pvcs pods requested l0).
Proof.
  intros Hip. unfold resize_running.
  eapply triple_bind; [apply (triple_gets _ _ (fun c s => c = cr /\ fresh l0 s)); by intros s [? ?]|].
  intros c. apply triple_pure. intros ->.
  eapply triple_bind.
  { apply (triple_lift _ _ (fun _ => fresh l0)); [done|intros; by apply fresh_written]. }
  intros start. eapply triple_bind.
  { apply (triple_of_run _ _ (fun p s => (pg_updated p = resized sts requested pvcs /\
      (pg_errors p <> [] -> failure_seen start)) /\ fresh l0 s)).
    intros s s' x Hs Hx.
    pose proof (fresh_onV l0 _ (resize_progress_quiet start requested pvcs (mkProgress 0 [] false)) s Hs) as Hs'.
    rewrite Hx in Hs'. simpl in Hs'. destruct x as [p|e|]; try (by apply fresh_written). split; [|done].
    unfold onV in Hx. destruct (resize_progress _ _ _ _ _ (vw_w s)) as [w1 r1] eqn:E. injection Hx as _ ->.
    apply resize_progress_run in E as [Hu He]. split; [done|by apply He]. }
  intros p. apply triple_pure. intros [Hu He].
  destruct (pg_errors p) as [|e l] eqn:Ee.
  - case_bool_decide as Hn; simpl; [|by apply triple_ret].
    eapply (triple_conseq _ (logged (calm pvcs pods requested) l0) _ _
      (fun b s => b = true /\ logged (calm pvcs pods requested) l0 s) _ (logged (calm pvcs pods requested) l0));
      [|intros s; apply fresh_logged|intros b s [-> Hs]; by apply calm_written|intros s; apply calm_written].
    eapply triple_bind; [apply triple_keeps, keeps_try, logged_onV; eapply only_logs; [apply vl_deleteSts|]|].
    { split; [|done]. split_and!; [done|done|congruence]. }
    intros [e|[]]; [destruct (IsNotFound e); [by apply triple_ret|by apply triple_fail]|].
    eapply triple_seq; [apply triple_wrap, triple_keeps, logged_deannotate|intros []; by apply triple_ret].
    intros a Ha. split; [|done]. simpl. rewrite Ha. by rewrite bool_decide_eq_false_2 by (by intros []).
  - destruct (pg_pending p); [apply triple_ret; intros; by apply fresh_written|].
    eapply (triple_conseq _ (logged (calm pvcs pods requested) l0) _ _ (fun _ _ => False) _
      (logged (calm pvcs pods requested) l0));
      [|intros s; apply fresh_logged|done|intros s; apply calm_written].
    eapply triple_seq; [apply triple_keeps|intros []; by apply triple_fail].
    unfold handlePVCResizeFailure. apply keeps_bind; [apply keeps_gets|intros c].
    apply keeps_bind; [apply keeps_wrap, logged_revert|intros []; apply keeps_wrap, logged_deannotate].
    + intros z. split; [|done]. right. split; [done|]. exists start. by apply He.
    + intros a Ha. split; [|done]. simpl. rewrite Ha. by rewrite bool_decide_eq_false_2 by (by intros []).
Qed.

Lemma resize_start_writes pvcs pods configured requested l0 :
  triple (fresh l0)
    (resize_start pvcs (pvcs_to_update sts pods pvcs) (smallest_capacity sts pvcs) configured requested)
    (fun _ => written pvcs pods requested l0) (written pvcs pods requested l0).
Proof.
  unfold resize_start.
  eapply triple_bind; [apply (triple_gets _ _ (fun c s => c = cr /\ fresh l0 s)); by intros s [? ?]|].
  intros c. apply triple_pure. intros ->.
  case_bool_decide as Hlt.
  { eapply (triple_conseq _ (logged (calm pvcs pods requested) l0) _ _ (fun _ _ => False) _
      (logged (calm pvcs pods requested) l0));
      [|intros s; apply fresh_logged|done|intros s; apply calm_written].
    eapply triple_seq; [apply triple_wrap, triple_keeps, logged_revert|intros []; by apply triple_fail].
    intros z. split; [by left|done]. }
  case_bool_decide as Heq; [apply triple_ret; intros; by apply fresh_written|].
  destruct (spec_VolumeExpansionEnabled (cluster_Spec cr)) eqn:Een; simpl.
  2: { eapply triple_bind; [apply (triple_lift _ _ (fun _ => fresh l0)); [done|intros; by apply fresh_written]|].
       intros c'. apply triple_modify. intros [w c] [Hl _]. apply calm_written. exists []. by rewrite (right_id_L [] (++)). }
  assert (smallest_capacity sts pvcs < requested) as Hg by lia.
  eapply triple_seq; [eapply triple_post; [apply triple_keeps, (fresh_onV l0); intros; apply keeps_gets|done|intros; by apply fresh_written]|].
  intros now. eapply (triple_seq _ _ _ _ (fun s => exists a, allowed pvcs pods requested (AAnnotations a) /\
    vl_log (vw_w s) = l0 ++ [AAnnotations a])).
  - apply triple_wrap. unfold AnnotateObject.
    eapply triple_bind; [apply (triple_gets _ _ (fun c s => c = cr /\ fresh l0 s)); by intros s [? ?]|].
    intros c. apply triple_pure. intros ->.
    eapply triple_seq; [eapply triple_post; [apply triple_keeps, fresh_onV; intros; apply vl_getAnnotations|done|
      intros; by apply fresh_written]|].
    intros a. eapply triple_seq; [apply (triple_modify _ _ (fun _ s => vl_log (vw_w s) = l0)); by intros [w c] [? _]|].
    intros []. apply triple_of_run. intros [w c] s' x Hl Hx. simpl in Hl.
    unfold onV in Hx. simpl in Hx. destruct (ve_patchAnnotations _ _ w) as [w1 r1] eqn:E. injection Hx as <- <-.
    apply vl_patchAnnotations in E. destruct r1 as [u|e|]; simpl in *.
    + eexists. split; [|by rewrite E, Hl]. simpl.
      rewrite bool_decide_eq_true_2; [done|]. eexists. apply lookup_union_Some_l, lookup_singleton_eq.
    + apply calm_written. exists []. simpl. by rewrite E, Hl.
    + apply calm_written. exists []. simpl. by rewrite E, Hl.
  - intros _. apply triple_ex. intros a. apply triple_pure. intros Ha.
    eapply (triple_conseq _ (logged (allowed pvcs pods requested) (l0 ++ [AAnnotations a]))).
    + apply triple_keeps, logged_onV, only_resize_claims; [|done].
      intros pvc Hin Hn Hc. done.
    + intros s Hs. exists []. by rewrite Hs, (right_id_L [] (++)).
    + intros _ s (l & Hl & Hok). exists (AAnnotations a :: l).
      rewrite Hl, <- (assoc_L (++)). split_and!; [done|by constructor|by intros ? [= <-]].
    + intros s (l & Hl & Hok). exists (AAnnotations a :: l).
      rewrite Hl, <- (assoc_L (++)). split_and!; [done|by constructor|by intros ? [= <-]].
Qed.
End pass.

