(* ===== verification/VolumesMem.v ===== *)
(** * Volumes on a concrete API server

    A server that accepts every write and a storage that resizes at once; the
    volumes of a cluster that was scaled down on it. *)

From S2P Require Import Prelude GoStrings ApiTypes KubeMem Volumes VolumesSpec BackupMem.

Record VMem := mkVMem {
  vm_claims : list VPVC;
  vm_pods : list string;
  vm_sts : option VSts;
  vm_ann : gmap string string;
  vm_log : list VAct }.

Definition vm_do (a : VAct) (f : VMem -> VMem) : M VMem unit := modify (fun w => (f w) <| vm_log ::= fun l => l ++ [a] |>).

#[export] Instance VMem_env : VolEnv VMem := {|
  ve_listPVCs _ := gets vm_claims;
  ve_listPods _ := gets vm_pods;
  ve_getSts _ := fun w => match vm_sts w with Some s => (w, Ok s) | None => (w, Err not_found) end;
  ve_deleteSts n := vm_do (ADeleteSts n) (fun w => w <| vm_sts := None |>);
  ve_listEvents _ _ := mret [];
  ve_getAnnotations _ := gets vm_ann;
  ve_patchAnnotations _ a := vm_do (AAnnotations a) (fun w => w <| vm_ann := a |>);
  ve_patchStorage _ z := vm_do (AStorage z) (fun w => w);
  ve_updatePVC pvc := vm_do (AResize (vp_Name pvc) (vp_Request pvc)) (fun w =>
    w <| vm_claims ::= fmap (fun p => if bool_decide (vp_Name p = vp_Name pvc)
                                       then mkVPVC (vp_Name p) (vp_Request pvc) (Some (vp_Request pvc)) else p) |>);
  ve_recordEvent n r := vm_do (AEvent n r) (fun w => w);
  ve_parseTime _ := Ok 0;
  ve_formatNow _ := "now" |}.

Lemma vm_do_logs a f w w' r : (forall w, vm_log (f w) = vm_log w) ->
  vm_do a f w = (w', r) -> vm_log w' = vm_log w ++ if is_ok r then [a] else [].
Proof. intros Hf [= <- <-]. rewrite <- (Hf w). by destruct (f w). Qed.

#[export] Instance VMem_laws : VolLaws VMem.
Proof.
  refine {| vl_log := vm_log |}; intros; try (by intros ? ?);
    try match goal with E : _ = (_, _) |- _ => refine (vm_do_logs _ _ _ _ _ _ E); by intros [] end.
  intros w Hw. simpl. by destruct (vm_sts w).
Defined.

(** A pass over the cluster as it is stored, after which the statefulset is
    created again if it is gone. *)
Definition volume_round (cr : PerconaXtraDBCluster) (w : VMem) : VMem :=
  let w := vw_w (reconcilePersistentVolumes (mkVW w (cr <| cluster_Meta -> meta_Annotations := vm_ann w |>))).1 in
  w <| vm_sts ::= fun s => Some (default [("datadir", 0)] s) |>.

Definition is_delete (a : VAct) : bool := match a with ADeleteSts _ => true | _ => false end.
Definition deletions (w : VMem) : nat := length (filter (fun a => is_delete a = true) (vm_log w)).

(** ** A claim left behind by a smaller cluster *)

Section leftover.
Context (cr : PerconaXtraDBCluster) (pxc : PXCSpec) (size g : Z) (claims : list VPVC) (pods : list string).
Let sts := pxc_sts_name cr.
Let R := int64 (g * GiB).

(** All claims of running pods have the size asked for; there is a smaller claim
    of a pod that is no more. *)
Record left_behind : Prop := {
  lb_pxc : spec_PXC (cluster_Spec cr) = Some pxc;
  lb_size : requested_storage cr = Ok size;
  lb_gib : RoundUpGiB size = Ok g;
  lb_enabled : spec_VolumeExpansionEnabled (cluster_Spec cr) = true;
  lb_pods : pod_Size (pxc_PodSpec pxc) <= Z.of_nat (length pods);
  lb_some : pvcs_to_update sts pods claims <> [];
  lb_done : forall p, p ∈ claims -> validatePVCName p sts = true -> pod_of_claim (vp_Name p) ∈ pods -> vp_Capacity p = Some R;
  lb_left : forall p, p ∈ claims -> validatePVCName p sts = true -> pod_of_claim (vp_Name p) ∉ pods ->
    exists c, vp_Capacity p = Some c /\ 0 < c < R;
  lb_one : exists p, p ∈ claims /\ validatePVCName p sts = true /\ pod_of_claim (vp_Name p) ∉ pods }.

Context (Hlb : left_behind).

Lemma lb_smallest : 0 < smallest_capacity sts claims < R.
Proof.
  destruct (lb_one Hlb) as (p & Hp & Hv & Hn). destruct (lb_left Hlb p Hp Hv Hn) as (c & Hc & Hcr).
  destruct (smallest_capacity_spec sts claims) as [_ Hall].
  - intros q c' Hq [Hqv Hqc]. destruct (decide (pod_of_claim (vp_Name q) ∈ pods)) as [Hin|Hin].
    + pose proof (lb_done Hlb q Hq Hqv Hin). simplify_eq. lia.
    + destruct (lb_left Hlb q Hq Hqv Hin) as (? & ? & ?). simplify_eq. lia.
  - specialize (Hall p c Hp (conj Hv Hc)). lia.
Qed.

Lemma lb_resized : resized sts R claims = length (pvcs_to_update sts pods claims).
Proof.
  unfold resized, pvcs_to_update. rewrite length_fmap.
  assert (forall l, l ⊆ claims -> filter (fun pvc => validatePVCName pvc sts = true /\ capacity pvc = R) l =
    filter (fun pvc => validatePVCName pvc sts = true /\ pod_of_claim (vp_Name pvc) ∈ pods) l) as Hf.
  { induction l as [|p l IH]; intros Hl; [done|]. rewrite !filter_cons, IH by set_solver.
    assert (p ∈ claims) as Hp by set_solver.
    destruct (validatePVCName p sts) eqn:Hv; [|by rewrite !decide_False by naive_solver].
    destruct (decide (pod_of_claim (vp_Name p) ∈ pods)) as [Hin|Hin].
    - rewrite decide_True; [by rewrite decide_True|]. split; [done|]. unfold capacity. by rewrite (lb_done Hlb p Hp Hv Hin).
    - destruct (lb_left Hlb p Hp Hv Hin) as (c & Hc & Hcr).
      rewrite decide_False; [by rewrite decide_False by naive_solver|]. intros [_ E]. unfold capacity in E. rewrite Hc in E.
      simpl in E. lia. }
  by rewrite Hf.
Qed.

Lemma lb_no_claims w : resize_claims (pvcs_to_update sts pods claims) R claims w = (w, Ok tt) .
Proof.
  assert (forall l, l ⊆ claims -> resize_claims (pvcs_to_update sts pods claims) R l w = (w, Ok tt)) as Hl; [|by apply Hl].
  induction l as [|p l IH]; intros Hl; [done|]. cbn [resize_claims].
  case_bool_decide as Hin; simpl; [|apply IH; set_solver].
  rewrite bool_decide_eq_true_2; [apply IH; set_solver|].
  unfold pvcs_to_update in Hin. apply list_elem_of_fmap in Hin as (q & Hn & [[Hv Hq] _]%list_elem_of_filter).
  unfold capacity. rewrite (lb_done Hlb p); [done|set_solver| |by rewrite Hn].
  unfold validatePVCName in *. by rewrite Hn.
Qed.

(** The stored cluster differs from [cr] in its annotations only. *)
Context (c : PerconaXtraDBCluster) (Hspec : cluster_Spec c = cluster_Spec cr) (Hname : cluster_Name c = cluster_Name cr).

Lemma lb_progress w start :
  resize_progress (W := VMem) c start R (mkProgress 0 [] false) claims w =
    (w, Ok (mkProgress (length (pvcs_to_update sts pods claims)) [] false)).
Proof.
  rewrite <- lb_resized. unfold resized.
  assert (pxc_sts_name c = sts) as Hs by (unfold sts, pxc_sts_name; by rewrite Hname).
  change (length (filter (fun pvc => validatePVCName pvc sts = true /\ capacity pvc = R) claims))
    with (0 + length (filter (fun pvc => validatePVCName pvc sts = true /\ capacity pvc = R) claims))%nat.
  generalize 0%nat. generalize claims. induction claims0 as [|p l IH]; intros n; simpl; [by rewrite Nat.add_0_r|].
  rewrite Hs, filter_cons. destruct (validatePVCName p sts) eqn:Hv; simpl.
  - case_bool_decide as Hc.
    + rewrite decide_True by done. simpl. rewrite Nat.add_succ_r. apply (IH (S n)).
    + rewrite decide_False by naive_solver. apply IH.
  - apply IH.
Qed.

(** The steps before the sizes are compared. *)
Lemma lb_prefix s ann log :
  reconcilePersistentVolumes (mkVW (mkVMem claims pods (Some s) ann log) c) =
  (ended ← (if PVCResizeInProgress c
            then resize_running claims (pvcs_to_update sts pods claims) (configured_size s) R else mret false);
   if ended : bool then mret tt
   else resize_start claims (pvcs_to_update sts pods claims) (smallest_capacity sts claims) (configured_size s) R)
  (mkVW (mkVMem claims pods (Some s) ann log) c).
Proof.
  assert (pxc_sts_name c = sts) as Hs by (unfold sts, pxc_sts_name; by rewrite Hname).
  unfold reconcilePersistentVolumes. set (s0 := mkVW _ c).
  rewrite (bind_Ok _ _ _ s0 c) by done. rewrite Hs.
  rewrite (bind_Ok _ _ _ s0 claims) by done.
  rewrite bool_decide_eq_false_2 by (intros E; by destruct (lb_some Hlb); rewrite E).
  rewrite (bind_Ok _ _ _ s0 pods) by done.
  rewrite (bind_Ok _ _ _ s0 pxc) by (unfold lift; by rewrite Hspec, (lb_pxc Hlb)).
  rewrite bool_decide_eq_false_2 by (pose proof (lb_pods Hlb); lia).
  rewrite bool_decide_eq_false_2 by exact (lb_some Hlb).
  rewrite bool_decide_eq_false_2 by (pose proof lb_smallest; lia).
  rewrite (bind_Ok _ _ _ s0 (inr s)) by done.
  rewrite (bind_Ok _ _ _ s0 size).
  2: { unfold lift, requested_storage, data_claim. rewrite Hspec. by rewrite <- (lb_size Hlb). }
  by rewrite (bind_Ok _ _ _ s0 g) by (unfold lift; by rewrite (lb_gib Hlb)).
Qed.

(** A pass without the mark sets it, and changes nothing else. *)
Lemma lb_idle s ann log : meta_Annotations (cluster_Meta c) !! AnnotationPVCResizeInProgress = None ->
  exists c', reconcilePersistentVolumes (mkVW (mkVMem claims pods (Some s) ann log) c) =
    (mkVW (mkVMem claims pods (Some s) (<[AnnotationPVCResizeInProgress := "now"]> ann) (log ++ [AAnnotations (<[AnnotationPVCResizeInProgress := "now"]> ann)])) c', Ok tt).
Proof.
  intros Hann. rewrite lb_prefix. unfold PVCResizeInProgress. rewrite Hann.
  rewrite bool_decide_eq_false_2 by (by intros []). set (s0 := mkVW _ c).
  rewrite (bind_Ok _ _ _ s0 false) by done. unfold resize_start.
  pose proof lb_smallest as Hsm.
  rewrite (bind_Ok _ _ _ s0 c) by done.
  rewrite bool_decide_eq_false_2 by lia. rewrite bool_decide_eq_false_2 by lia.
  rewrite Hspec, (lb_enabled Hlb). cbn [negb].
  rewrite (bind_Ok _ _ _ s0 "now") by done.
  eexists. erewrite bind_Ok.
  2: { unfold wrap, AnnotateObject. rewrite (bind_Ok _ _ _ s0 c) by done.
       rewrite (bind_Ok _ _ _ s0 ann) by done. reflexivity. }
  unfold onV. cbn [vw_w]. rewrite lb_no_claims. rewrite insert_union_singleton_l. reflexivity.
Qed.

(** A pass with the mark deletes the statefulset and takes the mark away. *)
Lemma lb_marked s ann log v : meta_Annotations (cluster_Meta c) !! AnnotationPVCResizeInProgress = Some v ->
  reconcilePersistentVolumes (mkVW (mkVMem claims pods (Some s) ann log) c) =
    (mkVW (mkVMem claims pods None (delete AnnotationPVCResizeInProgress ann) (log ++ [ADeleteSts (pxc_sts_key c); AAnnotations (delete AnnotationPVCResizeInProgress ann)])) c,
     Ok tt).
Proof.
  intros Hann. rewrite lb_prefix. unfold PVCResizeInProgress. rewrite Hann.
  rewrite bool_decide_eq_true_2 by done. set (s0 := mkVW _ c).
  erewrite (bind_Ok _ _ _ _ true); [reflexivity|]. unfold resize_running.
  rewrite (bind_Ok _ _ _ s0 c) by done. rewrite (bind_Ok _ _ _ s0 0) by done.
  rewrite (bind_Ok _ _ _ s0 (mkProgress (length (pvcs_to_update sts pods claims)) [] false)).
  2: { unfold onV. cbn [vw_w]. by rewrite lb_progress. }
  cbn [pg_errors]. rewrite bool_decide_eq_true_2 by done. cbn [negb].
  erewrite bind_Ok; [|reflexivity]. cbn iota. erewrite bind_Ok; [|reflexivity].
  change (?a :: [?b]) with ([a] ++ [b]). rewrite (assoc_L (++)). reflexivity.
Qed.
End leftover.

Lemma annotated_spec cr a : cluster_Spec (cr <| cluster_Meta -> meta_Annotations := a |>) = cluster_Spec cr.
Proof. by destruct cr. Qed.
Lemma annotated_name cr a : cluster_Name (cr <| cluster_Meta -> meta_Annotations := a |>) = cluster_Name cr.
Proof. by destruct cr as [[] ? ?]. Qed.
Lemma annotated_annotations cr a : meta_Annotations (cluster_Meta (cr <| cluster_Meta -> meta_Annotations := a |>)) = a.
Proof. by destruct cr as [[] ? ?]. Qed.

(** Two rounds: the mark is set, then the statefulset is deleted and the mark is
    taken away. *)
Lemma two_rounds cr pxc size g claims pods s ann log :
  left_behind cr pxc size g claims pods -> ann !! AnnotationPVCResizeInProgress = None ->
  exists s' log', volume_round cr (volume_round cr (mkVMem claims pods (Some s) ann log)) =
    mkVMem claims pods (Some s') ann log' /\
    deletions (mkVMem claims pods (Some s') ann log') = S (deletions (mkVMem claims pods (Some s) ann log)).
Proof.
  intros Hlb Hann. unfold volume_round at 2.
  destruct (lb_idle cr pxc size g claims pods Hlb (cr <| cluster_Meta -> meta_Annotations := ann |>)
    (annotated_spec _ _) (annotated_name _ _) s ann log) as [c1 E1]; [by rewrite annotated_annotations|].
  change (vm_ann (mkVMem claims pods (Some s) ann log)) with ann. rewrite E1.
  set (a1 := <[AnnotationPVCResizeInProgress := "now"]> ann). set (log1 := log ++ _).
  change (volume_round cr _) with (volume_round cr (mkVMem claims pods (Some s) a1 log1)).
  unfold volume_round. change (vm_ann (mkVMem claims pods (Some s) a1 log1)) with a1.
  rewrite (lb_marked cr pxc size g claims pods Hlb (cr <| cluster_Meta -> meta_Annotations := a1 |>)
    (annotated_spec _ _) (annotated_name _ _) s a1 log1 "now").
  2: { rewrite annotated_annotations. apply lookup_insert_eq. }
  assert (delete AnnotationPVCResizeInProgress a1 = ann) as Ea.
  { unfold a1. rewrite delete_insert_eq. by apply delete_id. }
  rewrite Ea. eexists _, _. split; [reflexivity|].
  unfold deletions. simpl vm_log. unfold log1. rewrite !filter_app, !length_app. simpl. lia.
Qed.

(** A claim left behind when the cluster was made smaller keeps the operator
    busy for ever.  Its small capacity counts as the actual size, but it is not
    resized: every other round the operator marks a resize that has nothing to
    do, and in the round after it deletes the statefulset and takes the mark
    away, once in every two rounds. *)
Theorem leftover_claim_loops cr pxc size g claims pods s ann log n :
  left_behind cr pxc size g claims pods -> ann !! AnnotationPVCResizeInProgress = None ->
  let w := mkVMem claims pods (Some s) ann log in
  deletions (Nat.iter n (fun w => volume_round cr (volume_round cr w)) w) = (deletions w + n)%nat.
Proof.
  intros Hlb Hann w.
  assert (exists s' log', Nat.iter n (fun w => volume_round cr (volume_round cr w)) w = mkVMem claims pods (Some s') ann log' /\
    deletions (mkVMem claims pods (Some s') ann log') = (deletions w + n)%nat) as (s' & log' & -> & E); [|done].
  induction n as [|n IH]; [exists s, log; by rewrite Nat.add_0_r|].
  destruct IH as (s1 & log1 & E1 & E2). rewrite Nat.iter_succ, E1.
  destruct (two_rounds cr pxc size g claims pods s1 ann log1 Hlb Hann) as (s2 & log2 & E3 & E4).
  exists s2, log2. split; [done|]. rewrite E4, E2. lia.
Qed.

(** ** A cluster of three nodes that had four *)

Definition big_cluster : PerconaXtraDBCluster :=
  match with_storage (20 * GiB) (demo_cluster None) with Ok c => c | _ => demo_cluster None end.
Definition claim_of (n : string) (gib : Z) : VPVC := mkVPVC ("datadir-c1-pxc-" +:+ n) (gib * GiB) (Some (gib * GiB)).
Definition three_pods : list string := ["c1-pxc-0"; "c1-pxc-1"; "c1-pxc-2"].
Definition big_claims : list VPVC := [claim_of "0" 20; claim_of "1" 20; claim_of "2" 20].
Definition small_claims : list VPVC := [claim_of "0" 10; claim_of "1" 10; claim_of "2" 10].

(** Without a claim left behind, a resize is marked, done and finished in two
    rounds, and then there is nothing left to do. *)
Example resize_runs :
  vm_log (Nat.iter 4 (volume_round big_cluster) (mkVMem small_claims three_pods (Some [("datadir", 10 * GiB)]) ∅ [])) =
  [AAnnotations {[ AnnotationPVCResizeInProgress := "now" ]};
   AResize "datadir-c1-pxc-0" (20 * GiB); AResize "datadir-c1-pxc-1" (20 * GiB); AResize "datadir-c1-pxc-2" (20 * GiB);
   ADeleteSts (mkNN "ns" "c1-pxc"); AAnnotations ∅].
Proof. vm_compute. reflexivity. Qed.

Lemma leftover_claim_loops_witness :
  deletions (Nat.iter 5 (fun w => volume_round big_cluster (volume_round big_cluster w))
    (mkVMem (big_claims ++ [claim_of "3" 10]) three_pods (Some [("datadir", 20 * GiB)]) ∅ [])) = 5%nat.
Proof.
  apply (leftover_claim_loops big_cluster (mkPXCSpec None [] demo_expose
    (demo_pod 3 (Some (mkVolumeSpec None None (Some (mkPVCSpec [] {[ "storage" := 20 * GiB ]}))))) "") (20 * GiB) 20).
  - split; [vm_compute; reflexivity..|vm_compute; discriminate|vm_compute; discriminate| | |].
    + apply (proj1 (Forall_forall (fun p => validatePVCName p (pxc_sts_name big_cluster) = true ->
        pod_of_claim (vp_Name p) ∈ three_pods -> vp_Capacity p = Some (int64 (20 * GiB))) _)).
      repeat apply Forall_cons_2; [..|apply Forall_nil_2]; intros _ Hin; try (vm_compute; reflexivity).
      exfalso. revert Hin. apply (bool_decide_unpack _). vm_compute. exact I.
    + apply (proj1 (Forall_forall (fun p => validatePVCName p (pxc_sts_name big_cluster) = true ->
        pod_of_claim (vp_Name p) ∉ three_pods -> exists c, vp_Capacity p = Some c /\ 0 < c < int64 (20 * GiB)) _)).
      repeat apply Forall_cons_2; [..|apply Forall_nil_2]; intros _ Hin;
        try (exfalso; apply Hin, (bool_decide_unpack _); vm_compute; exact I).
      exists (10 * GiB). split; [reflexivity|]. split; vm_compute; reflexivity.
    + exists (claim_of "3" 10). split; [|split; [vm_compute; reflexivity|]].
      * apply elem_of_app. right. by apply list_elem_of_singleton.
      * apply (bool_decide_unpack _). vm_compute. exact I.
  - done.
Defined.

