(* ===== verification/StatusWitness.v ===== *)
(** * The status and the crash recovery on a concrete cluster

    A world with pods, logs and a stored cluster object, as an instance of the
    interfaces of [ClusterStatus] and [CrashRecovery]; the theorems about them
    are evaluated on it. *)

From S2P Require Import Prelude GoStrings ApiTypes KubeApi KubeMem Naming ClusterStatus ClusterStatusSpec CrashRecovery BackupMem.

Record Farm := mkFarm {
  fm_pods : list Pod;
  fm_logs : gmap string (list string);
  fm_cluster : PerconaXtraDBCluster;
  fm_signals : list string;
  fm_now : Z }.

Definition component_key : string := "app.kubernetes.io/component".
Definition farm_pod (name : string) (w : Farm) : option Pod :=
  snd <$> list_find (fun p => pd_Name p = name) (fm_pods w).

#[local] Instance Farm_status : StatusEnv Farm := {|
  sx_listPods _ labels w :=
    (w, Ok (filter (fun p => pd_Labels p !! component_key = labels !! component_key) (fm_pods w)));
  sx_getSts _ w := (w, Ok (mkSts 3 3 "rev"));
  sx_podLogs _ p w := (w, match fm_logs w !! p with Some l => Ok l | None => Err (ErrStatus ReasonNotFound p) end);
  sx_ingress _ w := (w, Ok []);
  sx_getCluster _ w := (w, Ok (fm_cluster w));
  sx_statusUpdate c w := (mkFarm (fm_pods w) (fm_logs w) c (fm_signals w) (fm_now w), Ok tt);
  sx_selector _ := "";
  sx_now := fm_now |}.

#[local] Instance Farm_crash : CrashEnv Farm := {|
  cx_IsPodRunning _ p w := (w, Ok (bool_decide (is_Some (farm_pod p w))));
  cx_getPod k w := (w, if bool_decide (nn_name k = "") then Err (ErrNew "resource name may not be empty")
                       else Ok (mkPod (nn_name k) ∅ [] []));
  cx_exec p _ _ w := (mkFarm (fm_pods w) (fm_logs w) (fm_cluster w) (fm_signals w ++ [pd_Name p]) (fm_now w), Ok "");
  cx_sleep _ w := (w, Ok tt) |}.

#[local] Instance Farm_laws : CrashLaws Farm.
Proof.
  refine {| cl_signals := fm_signals |}; simpl; try done.
  - intros k w p. case_bool_decide; [done|]. by intros [= <-].
  - intros p c cmd w w' r [= <- <-]. by left.
Defined.

#[local] Instance farm_retry : RetryLib := loop_retry 4.
#[local] Instance farm_versions : VersionLib := dotted_versions.

(** ** A ready cluster *)

Definition farm_ready_pod (name component : string) : Pod :=
  mkPod name {[ component_key := component; "controller-revision-hash" := "rev" ]} [("c", None)]
    [mkPodCondition ContainersReady true "" "" 0].
Definition farm_pods : list Pod :=
  [farm_ready_pod "c1-pxc-0" "pxc"; farm_ready_pod "c1-pxc-1" "pxc"; farm_ready_pod "c1-pxc-2" "pxc";
   farm_ready_pod "c1-haproxy-0" "haproxy"; farm_ready_pod "c1-haproxy-1" "haproxy"].
Definition quiet_logs : gmap string (list string) :=
  {[ "c1-pxc-0" := ["ready"]; "c1-pxc-1" := ["ready"]; "c1-pxc-2" := [] ]}.
Definition farm : Farm := mkFarm farm_pods quiet_logs (demo_cluster None) [] 0.

Definition farm_status : Farm * res PerconaXtraDBCluster := updateStatus (demo_cluster None) false None farm.


(** ** A crashed cluster: pod 1 has the greatest sequence number *)

Definition wait_line (seq : string) : string := logPrefix +:+ ":pxc:" +:+ seq +:+ ":".
Definition crash_logs : gmap string (list string) :=
  {[ "c1-pxc-0" := ["x"; wait_line "17"]; "c1-pxc-1" := [wait_line "42"; "y"]; "c1-pxc-2" := [wait_line "42"] ]}.
Definition crashed_farm : Farm := mkFarm farm_pods crash_logs (demo_cluster None) [] 0.

Lemma below_3 i : i ∈ below 3 -> i = 0 \/ i = 1 \/ i = 2.
Proof. intros Hi%elem_of_seqZ. lia. Qed.

Lemma crash_recovery_signal_witness :
  exists w' r, recoverFullClusterCrashIfNeeded (demo_cluster None) crashed_farm = (w', r) /\
    fm_signals w' = ["c1-pxc-1"] /\
    first_greatest (demo_cluster None) crashed_farm (below 3) 1.
Proof.
  eexists _, _. split; [apply surjective_pairing|].
  assert (fm_signals (recoverFullClusterCrashIfNeeded (demo_cluster None) crashed_farm).1 = ["c1-pxc-1"]) as Hs
    by (vm_compute; reflexivity).
  split; [exact Hs|].
  destruct (crash_recovery_signal (demo_cluster None) crashed_farm _ _ (surjective_pairing _))
    as [Hn|(pxc & i & Epxc & Hsig & _ & Hf)].
  - exfalso. assert (fm_signals (recoverFullClusterCrashIfNeeded (demo_cluster None) crashed_farm).1 = []) as Hn'
      by exact Hn. rewrite Hs in Hn'. discriminate Hn'.
  - injection Epxc as <-.
    assert (fm_signals (recoverFullClusterCrashIfNeeded (demo_cluster None) crashed_farm).1 =
              [pxc_pod "c1" i]) as Hi by exact Hsig.
    rewrite Hs in Hi.
    assert (i = 0 \/ i = 1 \/ i = 2) as [-> |[-> | ->]]; [|discriminate Hi|exact Hf|discriminate Hi].
    clear Hs Hi Hsig. destruct Hf as (l1 & l2 & s & El & _). change (below 3 = l1 ++ i :: l2) in El.
    apply below_3. rewrite El. apply elem_of_app. right. apply elem_of_cons. by left.
Defined.

Lemma crash_recovery_sent_witness :
  exists i, first_greatest (demo_cluster None) crashed_farm (below 3) i /\
    fm_signals (recoverFullClusterCrashIfNeeded (demo_cluster None) crashed_farm).1 = [pxc_pod "c1" i].
Proof.
  edestruct (crash_recovery_sent (demo_cluster None) (mkPXCSpec None [] demo_expose (demo_pod 3 (Some demo_volume)) "")
           crashed_farm eq_refl) as (i & Hf & Hi); [..|exists i; split; [exact Hf|exact Hi]].
  - reflexivity.
  - intros j Hj. assert (j = 0 \/ j = 1 \/ j = 2) as [-> |[-> | ->]].
    { apply below_3. exact Hj. }
    + split; [vm_compute; reflexivity|]. exists 17. split; [vm_compute; reflexivity|lia].
    + split; [vm_compute; reflexivity|]. exists 42. split; [vm_compute; reflexivity|lia].
    + split; [vm_compute; reflexivity|]. exists 42. split; [vm_compute; reflexivity|lia].
  - intros k Hk. simpl. rewrite bool_decide_eq_false_2 by exact Hk. eauto.
  - reflexivity.
Defined.
