(* ===== verification/BackupWitness.v ===== *)
(** * The theorems about backups on concrete worlds

    Runs of the controller on the in-memory world of [BackupMem] that satisfy
    the hypotheses of the theorems, and the runs that show where a guarantee
    ends. *)

From S2P Require Import Prelude GoStrings ApiTypes ApiDefaults ApiDefaultsSpec KubeApi KubeMem Lease Naming BackupTypes BackupController BackupFinalizers MutexHandlers BackupMutex BackupMem.

#[local] Existing Instance demo_libs.
#[local] Instance demo_retry : RetryLib := loop_retry 4.

(** One reconciliation of the backup [name], with the calls in [deny] refused. *)
Definition demo_reconcile (deny : list string) (name : string) (w : Mem) (rec : Reconciler) :
    RS Mem * res Result :=
  @Reconcile Mem (Mem_client deny) (Mem_env deny) demo_retry demo_libs (mkNN "ns" name)
    (mkRS w (demo_bcp "" "" "") rec).

Definition state_of (w : Mem) (name : string) : option PXCBackupState :=
  (fun b => bst_State (bcp_Status b)) <$> srv_backups (mem_srv w) !! mkNN "ns" name.
Definition has_job (w : Mem) (name : string) : bool :=
  bool_decide (is_Some (srv_jobs (mem_srv w) !! mkNN "ns" (BackupJobName name))).
Definition lock_holder (w : Mem) : option string :=
  srv_leases (mem_srv w) !! mkNN "ns" (BackupLeaseName "c1") ≫= lease_HolderIdentity.

Definition demo_b1 : PerconaXtraDBClusterBackup := demo_bcp "b1" "a" "s3".
Definition demo_b2 : PerconaXtraDBClusterBackup := demo_bcp "b2" "b" "s3".
Definition demo_w1 : Mem := add_backup demo_b1 demo_world.
Definition demo_r1 : RS Mem := (demo_reconcile [] "b1" demo_w1 (newReconciler 10)).1.
Definition demo_w2 : Mem := add_backup demo_b2 (rs_w demo_r1).
Definition demo_r2 : RS Mem := (demo_reconcile [] "b2" demo_w2 (rs_rec demo_r1)).1.

(** The first backup has the lock and a job; the second one waits. *)
Example demo_run :
  state_of (rs_w demo_r2) "b1" = Some BackupStarting /\ has_job (rs_w demo_r2) "b1" = true /\
  state_of (rs_w demo_r2) "b2" = Some BackupNew /\ has_job (rs_w demo_r2) "b2" = false /\
  lock_holder (rs_w demo_r2) = Some (BackupHolderId demo_b1).
Proof. by vm_compute. Qed.

(** ** Mutual exclusion *)

(** An evaluable form of: the backup under [k] is active and its job runs. *)
Definition running_check (s : Server) (b : PerconaXtraDBClusterBackup) : bool :=
  bool_decide (of_cluster "ns" "c1" b) && negb (bool_decide (terminal b)) &&
  bool_decide (meta_DeletionTimestamp (bcp_Meta b) = None) &&
  match srv_jobs s !! job_of b with
  | Some j => negb (bool_decide (job_finished j))
  | None => false
  end.

Lemma running_check_spec s k :
  (running_check s <$> srv_backups s !! k) = Some true ->
  exists b, srv_backups s !! k = Some b /\ of_cluster "ns" "c1" b /\ active b /\ job_running s b.
Proof.
  destruct (srv_backups s !! k) as [b|]; [|done]. intros Hc. injection Hc as Hc. exists b.
  unfold running_check in Hc. destruct (srv_jobs s !! job_of b) as [j|] eqn:Ej;
    [|by rewrite andb_false_r in Hc].
  rewrite !andb_true_iff, !negb_true_iff, !bool_decide_eq_true, !bool_decide_eq_false in Hc.
  unfold active, job_running. naive_solver.
Qed.

Section mutex_witness.
#[local] Instance demo_client : KubeClient Mem := Mem_client [].
#[local] Instance demo_env : BackupEnv Mem := Mem_env [].

Lemma add_backup_view b w :
  kc_view (add_backup b w) =
  (kc_view w) <| srv_backups := <[bcp_key b := b]> (srv_backups (kc_view w)) |>.
Proof. by destruct w as [[] ? ?]. Qed.

Lemma demo_reachable :
  rtc (sys_step "ns" "c1") (demo_world, newReconciler 10) (rs_w demo_r2, rs_rec demo_r2).
Proof.
  eapply (rtc_l _ _ (demo_w1, newReconciler 10)).
  { apply sys_env. apply env_create; [done..| |done|].
    - by intros cr Hin%elem_of_nil.
    - intros k b' Hb'. change (srv_backups _) with
        (∅ : gmap NamespacedName PerconaXtraDBClusterBackup) in Hb'.
      by rewrite lookup_empty in Hb'. }
  eapply (rtc_l _ _ (rs_w demo_r1, rs_rec demo_r1)).
  { eapply (sys_reconcile _ _ _ _ (demo_bcp "" "" "") (mkNN "ns" "b1")). apply surjective_pairing. }
  eapply (rtc_l _ _ (demo_w2, rs_rec demo_r1)).
  { apply sys_env. unfold demo_w2. rewrite add_backup_view.
    apply env_create; [vm_compute; reflexivity|vm_compute; reflexivity|vm_compute; reflexivity|
                      |vm_compute; reflexivity|].
    - intros cr Hin. exfalso. revert Hin. vm_compute. by intros Hin%elem_of_nil.
    - apply (bool_decide_eq_true_1 (map_Forall (fun _ b' => job_of b' <> job_of demo_b2)
        (srv_backups (kc_view (rs_w demo_r1))))). vm_compute; reflexivity. }
  apply rtc_once. eapply (sys_reconcile _ _ _ _ (demo_bcp "" "" "") (mkNN "ns" "b2")).
  apply surjective_pairing.
Qed.

Lemma demo_initial : initial "ns" "c1" (kc_view demo_world).
Proof. split_and!; [done..|]. intros c. vm_compute. intros [= <-] p. by intros [= <-]. Qed.

End mutex_witness.

(** ** Where the lock fails *)

Definition late (w : Mem) : Mem := w <| mem_time := 100 * second |>.
Definition demo_r3 : RS Mem :=
  (demo_reconcile ["statusUpdate"] "b1" (late (rs_w demo_r2)) (rs_rec demo_r2)).1.
Definition demo_r4 : RS Mem := (demo_reconcile [] "b2" (rs_w demo_r3) (rs_rec demo_r3)).1.

(** Without the assumption that status updates succeed, mutual exclusion
    does not hold.  The running deadline of [b1] has passed and the update that
    records the failure is refused; the deferred call sees the state [Failed] in
    the handler's copy and deletes the lease.  The stored backup is still
    active and its job still runs when [b2] takes the lock and starts a second
    job. *)
Theorem lock_lost_on_refused_update :
  (exists b1, srv_backups (mem_srv (rs_w demo_r4)) !! mkNN "ns" "b1" = Some b1 /\
     of_cluster "ns" "c1" b1 /\ active b1 /\ job_running (mem_srv (rs_w demo_r4)) b1) /\
  (exists b2, srv_backups (mem_srv (rs_w demo_r4)) !! mkNN "ns" "b2" = Some b2 /\
     of_cluster "ns" "c1" b2 /\ active b2 /\ job_running (mem_srv (rs_w demo_r4)) b2).
Proof. split; apply running_check_spec; vm_compute; reflexivity. Qed.

(** The storage of a running backup is taken out of the cluster object. *)
Definition no_storage (w : Mem) : Mem :=
  w <| mem_srv -> srv_clusters ::= fmap (fun c =>
         c <| cluster_Spec -> spec_Backup ::= fmap (fun b => b <| bs_Storages := ∅ |>) |>) |>.
Definition demo_l1 : RS Mem := (demo_reconcile [] "b1" (no_storage (rs_w demo_r2)) (rs_rec demo_r2)).1.
Definition demo_l2 : RS Mem := (demo_reconcile [] "b1" (rs_w demo_l1) (rs_rec demo_l1)).1.

(** A backup that fails before the deferred release is registered (its
    storage is gone) keeps the lock: it is stored as failed, and it still holds
    the lease after the next reconciliation. *)
Theorem lock_leaked_by_failed_backup :
  state_of (rs_w demo_l1) "b1" = Some BackupFailed /\
  lock_holder (rs_w demo_l1) = Some (BackupHolderId demo_b1) /\
  lock_holder (rs_w demo_l2) = Some (BackupHolderId demo_b1).
Proof. by vm_compute. Qed.

Section terminal.
Context {W : Type} `{KubeClient W} `{!KubeLaws W} `{BackupEnv W} `{RetryLib} `{ApiLibs}.

Definition same_leases (L : gmap NamespacedName Lease) (w : W) : Prop := srv_leases (kc_view w) = L.

Lemma keeps_leases_runJobFinalizers L cr : keeps (same_leases L) (runJobFinalizers cr).
Proof.
  assert (forall A (m : M W A), quiet m -> keeps (same_leases L) m) as Hq.
  { intros A m Hm w Hw. unfold same_leases in *. destruct (m w) as [w' r] eqn:E. simpl.
    by rewrite (Hm _ _ _ E). }
  assert (forall j, keeps (same_leases L) (kc_updateJob j)) as Hu.
  { intros j w Hw. unfold same_leases in *. destruct (kc_updateJob j w) as [w' r] eqn:E. simpl.
    apply updateJob_view in E. by destruct r as [[]|e|]; [rewrite E..|]. }
  unfold runJobFinalizers, getBackupJob.
  repeat first [keeps_step | apply keeps_retry_conflict | apply Hu | apply Hq, quiet_getJob].
Qed.

Lemma tryRunBackupFinalizers_world s s' r :
  tryRunBackupFinalizers (W := W) s = (s', r) -> rs_w s' = rs_w s.
Proof.
  unfold tryRunBackupFinalizers, getCR, gets, modRec, modify. unfold mbind, M_bind.
  case_bool_decide; by intros [= <- <-].
Qed.

(** Reconciling a finished backup never gives up a lease, so a lock that
    such a backup still holds stays until the backup object is deleted. *)
Theorem Reconcile_terminal_leases request w cr0 rec s r b :
  Reconcile request (mkRS w cr0 rec) = (s, r) ->
  srv_backups (kc_view w) !! request = Some b -> terminal b ->
  srv_leases (kc_view (rs_w s)) = srv_leases (kc_view w).
Proof.
  intros E Hb Ht. unfold Reconcile, try, onW in E. unfold mbind, M_bind in E. simpl in E.
  destruct (kc_getBackup request w) as [w1 r1] eqn:E1.
  destruct (kl_getBackup _ _ _ _ E1) as [V1 R1].
  destruct r1 as [cr|e|]; [|destruct (IsNotFound e); injection E as <- _; simpl; by rewrite V1|done].
  rewrite Hb in R1. injection R1 as <-.
  unfold modCR, modify, wrap in E. simpl in E.
  destruct (tryRunBackupFinalizers _) as [s2 r2] eqn:E2.
  apply tryRunBackupFinalizers_world in E2. simpl in E2.
  assert (same_leases (srv_leases (kc_view w)) (rs_w s2)) as Hl by (unfold same_leases; by rewrite E2, V1).
  destruct r2 as [[]|e|]; simpl in E; [|by injection E as <- _..].
  rewrite bool_decide_eq_true_2 in E by done.
  pose proof (keeps_leases_runJobFinalizers _ b _ Hl) as Hk.
  destruct (runJobFinalizers b (rs_w s2)) as [w3 r3]. simpl in *.
  destruct r3 as [[]|e|]; simpl in E; by injection E as <- _.
Qed.
End terminal.

(** ** Evaluations *)

Lemma Reconcile_terminal_leases_witness :
  srv_leases (mem_srv (rs_w demo_l2)) = srv_leases (mem_srv (rs_w demo_l1)) /\
  state_of (rs_w demo_l1) "b1" = Some BackupFailed.
Proof.
  split; [|vm_compute; reflexivity].
  assert (exists b, srv_backups (mem_srv (rs_w demo_l1)) !! mkNN "ns" "b1" = Some b /\ terminal b)
    as (b & Hb & Ht).
  { assert (((fun b => bool_decide (terminal b)) <$> srv_backups (mem_srv (rs_w demo_l1)) !! mkNN "ns" "b1")
            = Some true) as Hx by (vm_compute; reflexivity).
    revert Hx. destruct (srv_backups _ !! _) as [b|]; [|discriminate]. intros [= Hx].
    exists b. split; [reflexivity|]. by apply bool_decide_eq_true in Hx. }
  exact (@Reconcile_terminal_leases Mem (Mem_client []) (Mem_laws []) (Mem_env []) demo_retry demo_libs
    (mkNN "ns" "b1") (rs_w demo_l1) (demo_bcp "" "" "") (rs_rec demo_l1) _ _ b
    (surjective_pairing _) Hb Ht).
Defined.

(** A bucket with a backup, its companion and something else. *)
Definition demo_objects : gset string :=
  {[ "full/a"; "full/b"; "full.md5"; "full.sst_info/x"; "full.sst_info.md5"; "other" ]}.
Definition demo_bucket : Mem := mkMem demo_server 0 demo_objects.
Definition demo_removed : Mem * res unit :=
  @retryRemove Mem (Mem_env []) demo_retry "bucket" "full/" demo_bucket.


