(* ===== verification/UsersMem.v ===== *)
(** * The system users on a concrete database

    Secrets and accounts in memory; the API server may refuse patches.  Every
    statement needs a valid password. *)

From S2P Require Import Prelude GoStrings ApiTypes KubeMem Naming Secrets SecretsSpec MysqlUsers Users UserHandlers UsersSpec UsersRotation CustomUsers CustomUsersSpec BackupMem.

Record UMem := mkUMem {
  um_view : UView;
  um_refuse : bool }.

#[export] Instance UMem_view : UsersView UMem := um_view.

Definition on_view {A} (f : UView -> UView * res A) : M UMem A := fun w =>
  let '(v', r) := f (um_view w) in (mkUMem v' (um_refuse w), r).

Definition put_secret (s : Secret) (v : UView) : UView :=
  mkUView (<[sec_key s := s]> (v_secrets v)) (v_accounts v) (v_mounted v) (v_sent v).

Definition mem_get (n : NamespacedName) (v : UView) : UView * res Secret :=
  (v, match v_secrets v !! n with
      | Some s => if bool_decide (sec_key s = n) then Ok s else Err forbidden
      | None => Err not_found
      end).

#[export] Instance UMem_secrets : SecretClient UMem := {|
  sc_get n := on_view (mem_get n);
  sc_create s := on_view (fun v =>
    match v_secrets v !! sec_key s with Some _ => (v, Err already_exists) | None => (put_secret s v, Ok s) end);
  sc_update s := on_view (fun v =>
    match v_secrets v !! sec_key s with Some _ => (put_secret s v, Ok s) | None => (v, Err not_found) end);
  sc_patch orig s := fun w => if um_refuse w then (w, Err forbidden) else on_view (fun v =>
    match v_secrets v !! sec_key s with
    | Some s0 =>
        let s' := mkSecret (sec_Meta s) (Some (merge_data (data_of orig) (data_of s) (data_of s0))) in (put_secret s' v, Ok s')
    | None => (v, Err not_found)
    end) w;
  sc_delete n := on_view (fun v => (mkUView (delete n (v_secrets v)) (v_accounts v) (v_mounted v) (v_sent v), Ok tt)) |}.

(** The login check tries the accounts of the two kinds of hosts. *)
Definition acceptsb (acc : Account) (p : string) : bool := bool_decide (acc_Pass acc = p) || bool_decide (acc_Old acc = Some p).
Definition loginb (v : UView) (db : DB) : bool :=
  existsb (fun h => match v_accounts v !! (db_User db, h) with Some acc => acceptsb acc (db_Passwd db) | None => false end)
    ["localhost"; "%"].

Definition run_stmt (q : string) (args : list string) (a : Accounts) : option Accounts :=
  if bool_decide (q = sql_retain) then
    match args with
    | [u; h; p] =>
        acc ← a !! (u, h);
        if bool_decide (acc_Pass acc = "") then None
        else Some (<[(u, h) := mkAccount p (if bool_decide (p = "") then None else Some (acc_Pass acc))]> a)
    | _ => None
    end
  else if bool_decide (q = sql_discard) then
    match args with [u; h] => acc ← a !! (u, h); Some (<[(u, h) := mkAccount (acc_Pass acc) None]> a) | _ => None end
  else if bool_decide (q = sql_identified) then
    match args with [u; h; p] => acc ← a !! (u, h); Some (<[(u, h) := mkAccount p (acc_Old acc)]> a) | _ => None end
  else match args, list_find (fun u => q = sql_create_user u) creatable with
       | [p], Some (_, u) => Some (match a !! (u, "%") with Some _ => a | None => <[(u, "%") := mkAccount p None]> a end)
       | _, Some _ => None
       | _, None => Some a
       end.

Definition mem_exec (db : DB) (q : string) (args : list string) (v : UView) : UView * res unit :=
  if negb (loginb v db) then (v, Err (ErrNew "Access denied")) else
  match run_stmt q args (v_accounts v) with
  | Some a' => (mkUView (v_secrets v) a' (v_mounted v) (v_sent v ++ [(db, q, args)]), Ok tt)
  | None => (v, Err (ErrNew "Operation ALTER USER failed"))
  end.

Definition mem_row (db : DB) (args : list string) (v : UView) : UView * res Row :=
  (v, if negb (loginb v db) then Err (ErrNew "Access denied") else
      match args with
      | [u] => match v_accounts v !! (u, "%") with
               | Some acc => Ok [match acc_Old acc with Some _ => Some "additional_password" | None => None end]
               | None => Err ErrNoRows
               end
      | _ => Err ErrNoRows
      end).

#[export] Instance UMem_mysql : MysqlEnv UMem := {|
  my_Open _ := Ok tt;
  my_Close _ := mret tt;
  my_Exec db q args := on_view (mem_exec db q args);
  my_Begin _ := mret tt;
  my_TxExec db q args := on_view (mem_exec db q args);
  my_Rollback _ := mret tt;
  my_Commit _ := mret tt;
  my_QueryRow db q args := on_view (mem_row db args);
  my_Query _ _ _ := mret [] |}.

#[export] Instance UMem_rand : RandEnv UMem := {|
  rand_Intn n := lift (if bool_decide (0 < n) then Ok 0 else Panic);
  rand_Int n := lift (if bool_decide (0 < n) then Ok (n - 1) else Panic) |}.

Definition mount_path (u : string) : string := "/etc/mysql/mysql-users-secret/" +:+ u.

Definition mem_cat (n : NamespacedName) (cmd : list string) (v : UView) : UView * res (string * string) :=
  (v, match cmd with
      | [_; path] =>
          match list_find (fun u => path = mount_path u) UserNames with
          | Some (_, u) => match v_mounted v !! (nn_name n, u) with Some p => Ok (p, "") | None => Ok ("", "no such file") end
          | None => Ok ("", "no such file")
          end
      | _ => Ok ("", "")
      end).

#[export] Instance UMem_env : UserEnv UMem := {|
  ue_getPod _ := mret tt;
  ue_Exec n _ cmd := on_view (mem_cat n cmd);
  ue_CreateOrUpdate s f := on_view (fun v =>
    match f (default s (v_secrets v !! sec_key s)) with
    | Ok s1 => let s' := mkSecret (sec_Meta s) (sec_Data s1) in
        if bool_decide (meta_Annotations (sec_Meta s1) = meta_Annotations (sec_Meta s)) && bool_decide (sec_key s1 = sec_key s)
        then (put_secret s' v, Ok tt) else (v, Err forbidden)
    | Err e => (v, Err e)
    | Panic => (v, Panic)
    end);
  ue_reversed _ := false |}.

#[export] Instance UMem_version : MysqlVersion UMem := fun _ => mret "8.0.36".

#[export] Instance UMem_randlaws : RandLaws UMem.
Proof. split; intros n w w' r; simpl; unfold lift; case_bool_decide; intros [= <- <-]; lia. Qed.

#[export] Instance UMem_answers : SecretAnswers UMem.
Proof.
  split; intros s w w' s'; simpl; unfold on_view; destruct (v_secrets _ !! _); intros [= <- <-]; by split_and!.
Qed.

Lemma loginb_sound v db : loginb v db = true -> can_login v db.
Proof.
  intros (h & _ & Hh)%existsb_exists. destruct (v_accounts v !! _) as [acc|] eqn:Ha; [|done].
  exists h, acc. split; [done|]. unfold acceptsb in Hh. apply orb_true_iff in Hh as [Hh|Hh]; apply bool_decide_eq_true in Hh; [by left|by right].
Qed.

Lemma run_stmt_effect q args a a' : run_stmt q args a = Some a' -> stmt_effect q args a a'.
Proof.
  unfold run_stmt, stmt_effect. case_bool_decide.
  { destruct args as [|u [|h [|p [|? ?]]]]; try done. destruct (a !! (u, h)) as [acc|] eqn:Ha; [|done]. simpl.
    case_bool_decide; [done|]. intros [= <-]. by exists u, h, p, acc. }
  case_bool_decide.
  { destruct args as [|u [|h [|? ?]]]; try done. destruct (a !! (u, h)) as [acc|] eqn:Ha; [|done]. intros [= <-]. by exists u, h, acc. }
  case_bool_decide.
  { destruct args as [|u [|h [|p [|? ?]]]]; try done. destruct (a !! (u, h)) as [acc|] eqn:Ha; [|done]. intros [= <-]. by exists u, h, p, acc. }
  destruct (list_find _ creatable) as [[i u]|] eqn:Ef.
  - apply list_find_Some in Ef as (Hi & -> & _). rewrite bool_decide_eq_true_2.
    + destruct args as [|p [|? ?]]; try done. intros [= <-]. by exists u, p.
    + apply list_elem_of_fmap. exists u. split; [done|]. by eapply list_elem_of_lookup_2.
  - intros Heq. assert (a' = a) as -> by (destruct args as [|? [|? ?]]; by simplify_eq).
    rewrite bool_decide_eq_false_2; [by case_bool_decide|]. intros (u & -> & Hu)%list_elem_of_fmap.
    by apply (proj1 (list_find_None _ _)), Forall_forall with (x := u) in Ef.
Qed.

Lemma on_view_silent {A} (f : UView -> UView * res A) : (forall v, (f v).1 = v) -> silent (on_view f).
Proof.
  intros Hf w w' r. unfold on_view. specialize (Hf (um_view w)). destruct (f (um_view w)) as [v' r']. simpl in Hf. by intros [= <- _].
Qed.

Lemma mem_exec_attempts db q args : attempts (on_view (mem_exec db q args)) (sends db q args).
Proof.
  intros w w' r. unfold on_view, mem_exec. destruct (negb _); [intros [= <- <-]; by left|].
  destruct (run_stmt _ _ _) as [a'|] eqn:E; intros [= <- <-]; [|by left].
  apply run_stmt_effect in E. by split_and!.
Qed.

#[export] Instance UMem_laws : UsersLaws UMem.
Proof.
  split; intros; try (by apply on_view_silent); try (by apply mem_exec_attempts);
    try (by intros ? ? ? [= <- _]).
  - match goal with E : sc_get _ _ = _ |- _ => revert E end. simpl. unfold on_view, mem_get.
    destruct (v_secrets (um_view w) !! n) as [s'|] eqn:Es; [|done]. case_bool_decide; [|done]. by intros [= <- <-].
  - match goal with E : sc_get _ _ = _ |- _ => revert E end. simpl. unfold on_view, mem_get.
    destruct (v_secrets (um_view w) !! n) as [s'|] eqn:Es; [|done]. case_bool_decide; [done|]. by intros [= <- <-].
  - intros w w' r. simpl. unfold on_view. destruct (v_secrets _ !! _) eqn:Es; intros [= <- <-]; [by left|by split_and!].
  - intros w w' r. simpl. unfold on_view. destruct (v_secrets _ !! _) eqn:Es; intros [= <- <-]; [by split_and!|by left].
  - intros w w' r. simpl. destruct (um_refuse w); [intros [= <- <-]; by left|]. unfold on_view.
    destruct (v_secrets _ !! _) as [s0|] eqn:Es; intros [= <- <-]; [|by left]. exists s0. by split_and!.
  - match goal with E : ue_CreateOrUpdate _ _ _ = _ |- _ => revert E end. simpl. unfold on_view.
    destruct (f _) as [s1|e|] eqn:Ef; [|intros [= <- <-]; by left..].
    destruct (_ && _) eqn:Eb; intros [= <- <-]; [right|by left].
    apply andb_true_iff in Eb as [Ha%bool_decide_eq_true Hk%bool_decide_eq_true].
    eexists _, s1, (mkSecret (sec_Meta s) (sec_Data s1)). split; [exact Ef|]. split_and!; try done.
    destruct (v_secrets _ !! _); [by left|by right].
  - match goal with E : my_QueryRow _ _ _ _ = _ |- _ => revert E end. simpl. unfold on_view, mem_row.
    destruct (loginb (um_view w) db) eqn:El; [|done]. intros _. by apply loginb_sound.
  - match goal with E : my_QueryRow _ _ _ _ = _ |- _ => revert E end. simpl. unfold on_view, mem_row.
    destruct (loginb (um_view w) db) eqn:El; [|done]. intros _. by apply loginb_sound.
  - match goal with E : ue_Exec _ _ _ _ = _ |- _ => revert E end. simpl. unfold on_view, mem_cat.
    destruct (list_find _ UserNames) as [[i x]|] eqn:Ef; [|done].
    apply list_find_Some in Ef as (_ & Heq & _). unfold mount_path in Heq. apply (inj (String.append _)) in Heq as ->.
    destruct (v_mounted _ !! _) eqn:Em; intros [= <- <-]. done.
Qed.

(** ** A cluster whose operator password changes *)

#[local] Instance mem_versions : VersionLib := dotted_versions.
#[local] Instance mem_ini : IniLib := {| ini_Load _ := Ok ∅ |}.
#[local] Instance mem_hash : HashLib := {| sha256Hash s := s; json_Data _ := "data" |}.

Definition ready_cluster : PerconaXtraDBCluster :=
  let cr := demo_cluster None in
  mkCluster (cluster_Meta cr) (cluster_Spec cr)
    ((cluster_Status cr) <| cs_PXC -> app_Version := "8.0.36" |>).

Definition secret_with (name : string) (l : list (string * string)) : Secret :=
  mkSecret (mkMeta name "ns" "" ∅ ∅ [] 0 0 None) (Some (list_to_map l)).

Definition old_passwords : list (string * string) := [(Root, "r"); (Operator, "o"); (Monitor, "m"); (Xtrabackup, "x"); (Replication, "p")].
Definition new_secrets : Secret := secret_with "c1-secrets" ([(Operator, "new")] ++ old_passwords).

Definition mem_accounts : Accounts := list_to_map
  ((fun '(u, h, p) => ((u, h), mkAccount p None)) <$>
   [(Root, "localhost", "r"); (Root, "%", "r"); (Operator, "%", "o"); (Monitor, "%", "m"); (Xtrabackup, "%", "x"); (Replication, "%", "p")]).

Definition users_world (refuse : bool) : UMem :=
  mkUMem (mkUView {[ mkNN "ns" "internal-c1" := secret_with "internal-c1" old_passwords ]} mem_accounts ∅ []) refuse.

Definition users_pass1 (refuse : bool) : UMem * res (option ReconcileUsersResult) :=
  reconcileUsers ready_cluster new_secrets (users_world refuse).

Lemma every_host_one a u h (P : Account -> Prop) acc : a !! (u, h) = Some acc -> P acc -> every_host a u [h] P.
Proof. intros Ha HP k Hk%list_elem_of_singleton. subst k. eauto. Qed.

Lemma users_world_in_force refuse : in_force ready_cluster Operator ["%"] (users_view (users_world refuse)).
Proof.
  exists "o". split; [eexists; split; vm_compute; reflexivity|].
  eapply every_host_one; vm_compute; reflexivity.
Qed.



(** ** Two failures in a row *)

Definition second_pass : UMem * res (option ReconcileUsersResult) :=
  reconcileUsers ready_cluster new_secrets (users_pass1 true).1.
Definition third_pass : UMem * res (option ReconcileUsersResult) :=
  reconcileUsers ready_cluster new_secrets (mkUMem (um_view second_pass.1) false).

(** Retrying a rotation is not safe.  The internal secret could not be patched:
    the old password is still kept.  The next run sets the new password once more,
    which replaces the kept password; its patch fails too, and now the stored
    password of the operator user is accepted nowhere.  From then on every run
    fails, with a working API server too: the operator logs in with the stored
    password. *)
Theorem second_failure_locks_out :
  in_force ready_cluster Operator ["%"] (users_view (users_world true)) /\
  served ready_cluster Operator ["%"] (users_view (users_pass1 true).1) /\
  ~ served ready_cluster Operator ["%"] (users_view second_pass.1) /\
  um_view third_pass.1 = um_view second_pass.1 /\ exists e, third_pass.2 = Err e.
Proof.
  split_and!.
  - apply users_world_in_force.
  - exists "o". split; [eexists; split; vm_compute; reflexivity|].
    eapply every_host_one; [vm_compute; reflexivity|right; reflexivity].
  - intros (p & (S & HS & HSp) & Ha). destruct (Ha "%" ltac:(by left)) as (acc & Hacc & Hp).
    assert (p = "o") as -> by (vm_compute in HS; injection HS as <-; vm_compute in HSp; by injection HSp as <-).
    vm_compute in Hacc. injection Hacc as <-. destruct Hp as [Hp|Hp]; discriminate Hp.
  - vm_compute. reflexivity.
  - eexists. vm_compute. reflexivity.
Qed.

(** ** Generated passwords *)

Definition pass_options : PasswordGenerationOptions := {| pw_Symbols := "!#$"; pw_MinLength := 16; pw_MaxLength := 20 |}.

Lemma generatePass_spec_witness :
  exists p, (generatePass ProxyAdmin (Some pass_options) (users_world false)).2 = Ok p /\ check_password ProxyAdmin p = Ok tt.
Proof.
  eexists. split; [vm_compute; reflexivity|].
  eapply (generatePass_spec ProxyAdmin pass_options (users_world false) _ (Ok _)); [vm_compute; reflexivity|].
  vm_compute. reflexivity.
Defined.

Definition options_cluster : PerconaXtraDBCluster :=
  ready_cluster <| cluster_Spec -> spec_PasswordGenerationOptions := Some pass_options |>
    <| cluster_Spec -> spec_SecretsName := "c1-secrets" |>.

Lemma reconcileUsersSecret_spec_witness :
  exists s, (reconcileUsersSecret options_cluster (users_world false)).2 = Ok s /\ users_complete s.
Proof.
  eexists. split; [vm_compute; reflexivity|].
  eapply (reconcileUsersSecret_spec pass_options ltac:(vm_compute; reflexivity) options_cluster (users_world false)).
  - vm_compute. reflexivity.
  - vm_compute. reflexivity.
Defined.

(** ** A custom user *)

Definition app_user : User := mkUser "o'app" (Some (mkSecretKey "app-secret" "")) [] [] ["select"] false.
Definition reserved_user : User := mkUser "root" None [] ["%"] ["all"] false.
Definition app_secret : Secret :=
  mkSecret (mkMeta "app-secret" "ns" "" ∅ {[ "percona.com/c1-o'app-hash" := "old" ]} [] 0 0 None) (Some {[ "password" := "pw" ]}).

Definition custom_cluster : PerconaXtraDBCluster := ready_cluster <| cluster_Spec -> spec_Users := [reserved_user; app_user] |>.
Definition custom_world : CUW UMem :=
  mkCUW (mkUMem (mkUView {[ mkNN "ns" "internal-c1" := secret_with "internal-c1" old_passwords; mkNN "ns" "app-secret" := app_secret ]}
    mem_accounts ∅ []) false) custom_cluster.
Definition custom_done : CUW UMem := (reconcileCustomUsers custom_world).1.


(** A database that refuses the statement. *)
Lemma dropped_user_not_recreated_witness :
  exists w', sync_user custom_cluster (mkDB "operator" "wrong" "" 0) (default app_user (admit_user app_user)) (cu_w custom_world) = (w', Ok tt) /\
    v_sent (um_view w') = [].
Proof.
  eexists. split.
  - apply (dropped_user_not_recreated custom_cluster (mkDB "operator" "wrong" "" 0) (default app_user (admit_user app_user))
      "password" "app-secret" app_secret "old" (ErrNew "Access denied") (cu_w custom_world) (cu_w custom_world) (cu_w custom_world) (cu_w custom_world)).
    + vm_compute. reflexivity.
    + vm_compute. reflexivity.
    + vm_compute. reflexivity.
    + vm_compute. reflexivity.
    + vm_compute. discriminate.
    + intros q Hq. vm_compute in Hq. injection Hq as <-. vm_compute. reflexivity.
  - vm_compute. reflexivity.
Defined.
