(* ===== verification/ReplicationMem.v ===== *)
(** * Replication on a concrete database

    Failover tables and read-only modes in memory. *)

From S2P Require Import Prelude GoStrings ApiTypes KubeMem Secrets MysqlUsers SmartUpdate Queries Replication ReplicationSpec BackupMem.

Record RMem := mkRMem { rm_view : RView }.

#[export] Instance RMem_view : ReplView RMem := rm_view.

#[export] Instance RMem_secrets : SecretClient RMem := {|
  sc_get n := mret (mkSecret (mkMeta (nn_name n) (nn_namespace n) "" ∅ ∅ [] 0 0 None) None);
  sc_create s := mret s;
  sc_update s := mret s;
  sc_patch _ s := mret s;
  sc_delete _ := mret tt |}.

(** A number as the driver writes it. *)
Definition read_number (s : string) : option Z := z ← parse_Z s; if bool_decide (pretty z = s /\ 0 <= z) then Some z else None.

Lemma read_number_pretty z z' : read_number (pretty z) = Some z' -> z' = z /\ 0 <= z.
Proof.
  unfold read_number. destruct (parse_Z _) as [y|]; simpl; [|done]. case_bool_decide as Hb; [|done]. intros [= <-].
  destruct Hb as [E Hy]. apply (inj pretty) in E as ->. done.
Qed.

Definition set_sources (addr ch : string) (m : gmap (string * Z) Z) (v : RView) : RView :=
  mkRView (<[(addr, ch) := m]> (rv_table v)) (rv_readonly v).

Definition rm_exec (addr q : string) (args : list string) (v : RView) : option RView :=
  if bool_decide (q = sql_add_source) then
    match args with
    | [ch; h; p; wt] => p ← read_number p; wt ← read_number wt; Some (set_sources addr ch (<[(h, p) := wt]> (sources v addr ch)) v)
    | _ => None
    end
  else if bool_decide (q = sql_delete_source) then
    match args with [ch; h; p] => p ← read_number p; Some (set_sources addr ch (delete (h, p) (sources v addr ch)) v) | _ => None end
  else if bool_decide (q = sql_readonly_on) then Some (mkRView (rv_table v) (<[addr := true]> (rv_readonly v)))
  else if bool_decide (q = sql_readonly_off) then Some (mkRView (rv_table v) (<[addr := false]> (rv_readonly v)))
  else Some v.

Definition rm_Exec (db : DB) (q : string) (args : list string) : M RMem unit := fun w =>
  match rm_exec (db_Addr db) q args (rm_view w) with
  | Some v' => (mkRMem v', Ok tt)
  | None => (w, Err (ErrNew "syntax error"))
  end.

#[export] Instance RMem_mysql : MysqlEnv RMem := {|
  my_Open _ := Ok tt;
  my_Close _ := mret tt;
  my_Exec := rm_Exec;
  my_Begin _ := mret tt;
  my_TxExec _ _ _ := mret tt;
  my_Rollback _ := mret tt;
  my_Commit _ := mret tt;
  my_QueryRow db _ _ := fun w =>
    (w, match rv_readonly (rm_view w) !! db_Addr db with Some b => Ok [Some (bit b)] | None => Err (ErrNew "access denied") end);
  my_Query _ _ _ := mret [] |}.

(** Rows with numbers that cannot be written are refused. *)
Definition rm_rows (m : gmap (string * Z) Z) : res (list string * list Row * option error) :=
  if bool_decide (Forall (fun x => 0 <= x.1.2 /\ 0 <= x.2) (map_to_list m))
  then Ok (["host"; "port"; "weight"], map source_row (map_to_list m), None) else Err (ErrNew "out of range").

Definition rm_channels (addr : string) (v : RView) : list string :=
  map (fun x => x.1.2) (filter (fun x : (string * string) * gmap (string * Z) Z => x.1.1 = addr /\ x.2 <> ∅) (map_to_list (rv_table v))).

Definition rm_Query (db : DB) (q : string) (args : list string) : M RMem (list string * list Row * option error) := fun w =>
  (w, if bool_decide (q = sql_sources) then
        match args with [ch] => rm_rows (sources (rm_view w) (db_Addr db) ch) | _ => Err (ErrNew "syntax error") end
      else if bool_decide (q = sql_channels) then Ok (["Channel_name"], map (fun c => [Some c]) (rm_channels (db_Addr db) (rm_view w)), None)
      else Ok ([], [], None)).

#[export] Instance RMem_query : QueryEnv RMem := {| qe_Ping _ := mret tt; qe_Query := rm_Query |}.

#[export] Instance RMem_repl : ReplEnv RMem := {|
  rx_listPods _ := mret [];
  rx_updatePod _ := mret tt;
  rx_order s _ := elements s |}.

Lemma sources_set addr ch m v ch' : sources (set_sources addr ch m v) addr ch' = if bool_decide (ch' = ch) then m else sources v addr ch'.
Proof.
  unfold sources, set_sources. simpl. case_bool_decide as E.
  - subst ch'. by rewrite lookup_insert_eq.
  - rewrite lookup_insert_ne; [done|]. congruence.
Qed.

Lemma set_sources_changes addr ch f v : changes addr ch f v (set_sources addr ch (f (sources v addr ch)) v).
Proof.
  split; [done|]. split; [by rewrite sources_set, bool_decide_eq_true_2|].
  intros ch' Hch. by rewrite sources_set, bool_decide_eq_false_2.
Qed.

Lemma rm_exec_effect addr q args v v' : rm_exec addr q args v = Some v' -> repl_effect addr q args v v'.
Proof.
  unfold rm_exec, repl_effect. case_bool_decide as E1; [|case_bool_decide as E2; [|case_bool_decide as E3; [|case_bool_decide as E4]]].
  - subst q. intros Hx. split_and!; [|by intros ?|intros Hq; exfalso; revert Hq; apply (bool_decide_unpack _); vm_compute; exact I|by intros ?..].
    intros _ ch h p wt -> _. destruct (read_number (pretty p)) as [p'|] eqn:Ep; [|done]. simpl in Hx.
    destruct (read_number (pretty wt)) as [wt'|] eqn:Ew; [|done]. simpl in Hx. injection Hx as <-.
    apply read_number_pretty in Ep as [-> _], Ew as [-> _]. apply (set_sources_changes addr ch <[(h, p) := wt]>).
  - subst q. intros Hx. split_and!; [by intros ?| |intros Hq; exfalso; revert Hq; apply (bool_decide_unpack _); vm_compute; exact I|by intros ?..].
    intros _ ch h p ->. destruct (read_number (pretty p)) as [p'|] eqn:Ep; [|done]. simpl in Hx. injection Hx as <-.
    apply read_number_pretty in Ep as [-> _]. apply (set_sources_changes addr ch (delete (h, p))).
  - subst q. intros [= <-]. split_and!; [by intros ?|by intros ?|intros Hq; exfalso; revert Hq; apply (bool_decide_unpack _); vm_compute; exact I|done|by intros ?].
  - subst q. intros [= <-]. split_and!; [by intros ?|by intros ?|intros Hq; exfalso; revert Hq; apply (bool_decide_unpack _); vm_compute; exact I|by intros ?|done].
  - intros [= <-]. by split_and!.
Qed.

#[export] Instance RMem_laws : ReplLaws RMem.
Proof.
  split; intros; try (match goal with E : _ = (_, _) |- _ => by injection E as <- _ end).
  - match goal with E : my_Exec _ _ _ _ = _ |- _ => revert E end. simpl. unfold rm_Exec.
    destruct (rm_exec _ _ _ _) as [v'|] eqn:E; [|done]. intros [= <-]. by apply rm_exec_effect.
  - match goal with E : qe_Query _ _ _ _ = _ |- _ => revert E end. simpl. unfold rm_Query.
    rewrite bool_decide_eq_true_2 by done. unfold rm_rows. case_bool_decide as Hf; [|done]. intros [= <- <- <-].
    eexists. split; [done|]. split; [apply NoDup_fst_map_to_list|]. split; [apply list_to_map_to_list|done].
  - match goal with E : qe_Query _ _ _ _ = _ |- _ => revert E end. simpl. unfold rm_Query.
    rewrite bool_decide_eq_true_2 by done. unfold rm_rows. case_bool_decide as Hf; [done|]. intros [= <- <-]. done.
  - match goal with E : qe_Query _ _ _ _ = _ |- _ => revert E end. simpl. unfold rm_Query.
    rewrite bool_decide_eq_false_2, bool_decide_eq_true_2 by done. intros [= <- <- <-]. eexists. split; [done|].
    intros c. unfold rm_channels, sources. rewrite list_elem_of_fmap. split.
    + intros ([[a c'] m] & -> & Hin). apply list_elem_of_filter in Hin as [[Ha Hm] Hin%elem_of_map_to_list]. simpl in *. subst a.
      change (rm_view w) with (repl_view w) in Hin. by rewrite Hin.
    + intros Hne. destruct (rv_table (repl_view w) !! (db_Addr db, c)) as [m|] eqn:Em; [|done].
      exists ((db_Addr db, c), m). split; [done|]. apply list_elem_of_filter. split; [done|]. by apply elem_of_map_to_list.
  - match goal with E : qe_Query _ _ _ _ = _ |- _ => discriminate E end.
  - match goal with E : my_QueryRow _ _ _ _ = _ |- _ => revert E end. simpl.
    change (rm_view w) with (repl_view w). destruct (rv_readonly _ !! _) as [b|] eqn:Eb; [|done]. intros [= <- <-]. by exists b.
  - done.
Qed.

Lemma RMem_complete : complete_rows RMem.
Proof.
  intros db q args w w' out Hq Hrun. simpl in Hrun. unfold rm_Query in Hrun. injection Hrun as _ Hout. revert Hout.
  case_bool_decide.
  - destruct args as [|ch [|? ?]]; [done| |done]. unfold rm_rows. case_bool_decide; [|done]. by intros [= <-].
  - case_bool_decide; by intros [= <-].
Qed.

(** ** A channel whose sources change *)

Definition replica_channel : ReplicationChannel :=
  mkChannel "ch1" false [mkSource "new" 3306 100; mkSource "old" 3306 50] (Some (mkChannelConfig 3 60 false false "")).

Definition primary_db : DB := mkDB "operator" "" (pod_addr (demo_cluster None) "c1-pxc-0") 0.

Definition repl_world : RMem :=
  mkRMem (mkRView {[ (db_Addr primary_db, "ch1") := {[ ("gone", 3306) := 10; ("old", 3306) := 50 ]};
                     (db_Addr primary_db, "ch2") := {[ ("x", 3306) := 1 ]} ]}
    {[ pod_addr (demo_cluster None) "c1-pxc-0" := false; pod_addr (demo_cluster None) "c1-pxc-1" := true ]}).

Definition repl_done : RMem := (manageReplicationChannel primary_db replica_channel no_config "pw" false repl_world).1.


Definition removed : RMem := (removeOutdatedChannels primary_db [replica_channel] repl_world).1.

Lemma removeOutdatedChannels_exact_witness :
  sources (repl_view removed) (db_Addr primary_db) "ch2" = ∅ /\
  sources (repl_view removed) (db_Addr primary_db) "ch1" = sources (repl_view repl_world) (db_Addr primary_db) "ch1".
Proof.
  assert (removeOutdatedChannels primary_db [replica_channel] repl_world = (removed, Ok tt)) as Hrun by (vm_compute; reflexivity).
  split.
  - apply (removeOutdatedChannels_exact RMem_complete primary_db [replica_channel] repl_world removed Hrun "ch2").
  - apply (removeOutdatedChannels_exact RMem_complete primary_db [replica_channel] repl_world removed Hrun "ch1").
Defined.

Definition ready_pod (name : string) : RPod := mkRPod name "ns" "" ∅ [("Ready", "True")].
Definition checked : RMem := (checkReadonlyStatus [replica_channel] [ready_pod "c1-pxc-0"; ready_pod "c1-pxc-1"] (demo_cluster None) repl_world).1.

Lemma checkReadonlyStatus_correct_witness :
  rv_readonly (repl_view checked) !! pod_addr (demo_cluster None) "c1-pxc-0" = Some true.
Proof.
  apply (checkReadonlyStatus_correct [replica_channel] [ready_pod "c1-pxc-0"; ready_pod "c1-pxc-1"] (demo_cluster None)
    repl_world checked) with (p := ready_pod "c1-pxc-0").
  - apply (bool_decide_unpack _). vm_compute. exact I.
  - vm_compute. reflexivity.
  - by left.
Defined.

Lemma channel_status_roundtrip_witness :
  exists cr', setReplicationChannelStatus (demo_cluster None) replica_channel = Ok cr' /\
    currentReplicaConfig "ch1" (cs_PXCReplication (cluster_Status cr')) = mkChannelConfig 3 60 false false "".
Proof.
  eexists. split; [vm_compute; reflexivity|].
  apply (channel_status_roundtrip (demo_cluster None) replica_channel); vm_compute; reflexivity.
Defined.
