(* ===== verification/VersionMem.v ===== *)
(** * Version updates against a concrete service *)

From S2P Require Import Prelude GoStrings ApiTypes KubeApi KubeMem Secrets MysqlUsers ClusterStatus ApiDefaults Queries Replication Version VersionSpec BackupMem.

Record VMem := mkVMem { vm_cluster : PerconaXtraDBCluster; vm_envs : gmap string string }.

Definition one (v i : string) : gmap string string := {[ v := i ]}.
Definition the_matrix : VersionMatrix :=
  mkMatrix (one "8.0.36" "pxc:8.0.36") (one "8.0.35" "backup:8.0.35") {[ "2.44.1" := "pmm:2"; "3.1.0" := "pmm:3" ]}
    (one "2.7.1" "proxysql:2.7.1") (one "2.8.11" "haproxy:2.8.11") (one "4.0.0" "fluentbit:4.0.0").

#[export] Instance VMem_env : VersionEnv VMem := {|
  vx_Apply _ _ _ := mret [the_matrix];
  vx_url e := Ok (e, "", "https");
  vx_env k w := vm_envs w !! k;
  vx_kube := "1.30";
  vx_patchCluster _ c := fun w => (mkVMem ((vm_cluster w) <| cluster_Spec := cluster_Spec c |>) (vm_envs w), Ok c);
  vx_sleepSecond := mret tt;
  vx_keys m _ := (map_to_list m).*1;
  vx_cron_valid _ := true |}.

#[export] Instance VMem_secrets : SecretClient VMem := {|
  sc_get _ := fail not_found;
  sc_create s := mret s;
  sc_update s := mret s;
  sc_patch _ s := mret s;
  sc_delete _ := mret tt |}.

#[export] Instance VMem_status : StatusEnv VMem := {|
  sx_listPods _ _ := mret [];
  sx_getSts _ := mret (mkSts 3 3 "new");
  sx_podLogs _ _ := mret [];
  sx_ingress _ := mret [];
  sx_getCluster _ := gets vm_cluster;
  sx_statusUpdate c := modify (fun w => mkVMem c (vm_envs w));
  sx_selector _ := "";
  sx_now _ := 0 |}.

#[local] Instance version_retry : RetryLib := loop_retry 4.

Lemma VMem_env_get n (w w' : VMem) r : sc_get n w = (w', r) -> forall k, vx_env k w' = vx_env k w.
Proof. by intros [= <- _]. Qed.

(** A cluster with automatic updates, and the endpoint it asks. *)
Definition auto_cluster (endpoint : string) : PerconaXtraDBCluster :=
  (demo_cluster None) <| cluster_Spec -> spec_UpgradeOptions := mkUpgradeOptions endpoint "recommended" "0 4 * * *" |>.
Definition version_state (endpoint : string) : VW VMem :=
  mkVW (mkVMem (auto_cluster endpoint) {[ "WATCH_NAMESPACE" := "ns" ]}) (auto_cluster endpoint).
Definition updated (endpoint : string) : VW VMem := (ensurePXCVersion (version_state endpoint)).1.

Lemma own_endpoint_erases_images_witness :
  pxc_image (vw_cr (updated "https://versions.example.com")) = Some "" /\
  app_Version (cs_PXC (cluster_Status (vw_cr (updated "https://versions.example.com")))) = "".
Proof.
  apply (own_endpoint_erases_images VMem_env_get (version_state "https://versions.example.com") (updated "https://versions.example.com")).
  - discriminate.
  - vm_compute. reflexivity.
  - vm_compute. discriminate.
  - discriminate.
  - vm_compute. reflexivity.
Defined.


Lemma getPMMVersion_spec_witness :
  is_Some (mx_Pmm the_matrix !! "3.1.0") /\ HasPrefix "3.1.0" "3." = true.
Proof.
  exact (proj1 (getPMMVersion_spec (mx_Pmm the_matrix) ["2.44.1"; "3.1.0"] true
    ltac:(apply (bool_decide_unpack _); vm_compute; exact I) ltac:(vm_compute; lia))).
Defined.
