(* ===== verification/ObjMem.v ===== *)
(** * Deletion and certificates against a concrete server *)

From S2P Require Import Prelude GoStrings ApiTypes KubeApi KubeMem Naming Secrets ClusterStatus ApiDefaults ScheduledBackups PauseCluster Services Deletion DeletionSpec Tls TlsSpec BackupMem.

(** The objects, the database pods, the objects the server refuses to delete or to
    create, and whether cert-manager is installed. *)
Record OMem := mkOMem {
  om_objs : gmap (Kind * NamespacedName) Obj;
  om_pods : list Obj;
  om_refused : gset (Kind * NamespacedName);
  om_certManager : bool }.

Definition set_objs (f : gmap (Kind * NamespacedName) Obj -> gmap (Kind * NamespacedName) Obj) (w : OMem) : OMem :=
  mkOMem (f (om_objs w)) (om_pods w) (om_refused w) (om_certManager w).

#[export] Instance OMem_view : ObjView OMem := om_objs.
#[export] Instance OMem_present : PresentView OMem := fun n w => om_objs w !! (KSecret, n).
#[export] Instance OMem_stopped : StoppedView OMem := fun _ w => om_pods w = [].

Definition om_get (k : Kind) (n : NamespacedName) : M OMem Obj := fun w =>
  match om_objs w !! (k, n) with
  | Some o => if bool_decide (ob_Key o = n) then (w, Ok o) else (w, Err (ErrNew "corrupt"))
  | None => (w, Err not_found)
  end.

Definition om_list (k : Kind) (ns : string) (ls : gmap string string) : M OMem (list Obj) := fun w =>
  (w, Ok ((if bool_decide (k = KPod) then om_pods w else []) ++
          filter (fun o => ls ⊆ ob_Labels o) (map snd (filter (fun x => x.1.1 = k) (map_to_list (om_objs w)))))).

Definition om_delete (k : Kind) (o : Obj) : M OMem unit := fun w =>
  if bool_decide ((k, ob_Key o) ∈ om_refused w) then (w, Err (ErrNew "refused")) else (set_objs (delete (k, ob_Key o)) w, Ok tt).

#[export] Instance OMem_env : ObjEnv OMem := {|
  oe_get := om_get;
  oe_list := om_list;
  oe_delete := om_delete;
  oe_scale o := fun w => match om_objs w !! (KStatefulSet, ob_Key o) with
                         | Some _ => (set_objs (insert (KStatefulSet, ob_Key o) o) w, Ok tt)
                         | None => (w, Err not_found)
                         end;
  oe_sleep _ := mret tt;
  oe_getCluster _ := fail not_found;
  oe_updateCluster _ := mret tt |}.

#[export] Instance OMem_sched : SchedEnv OMem := {|
  se_listRestores _ := mret [];
  se_reconcileBinlogCollector _ := mret tt;
  se_deleteDeployment _ := fail not_found;
  se_deleteService _ := fail not_found;
  se_listBackups _ _ := mret [];
  se_deleteBackup _ := mret tt;
  se_createBackup _ := mret tt;
  se_getCluster _ := fail not_found;
  se_now _ := mkClock 2024 1 11 0 0 0;
  se_cron_valid _ := true;
  se_sha1_5 s := s;
  se_range m := map_to_list m;
  se_range_all m := Permutation_refl (map_to_list m) |}.

#[export] Instance OMem_laws : ObjLaws OMem.
Proof.
  split.
  - intros k n w w' r E. unfold oe_get in E. simpl in E. unfold om_get in E. unfold live, OMem_view, gone.
    destruct (om_objs w !! (k, n)) as [o|] eqn:Eo; [case_bool_decide|]; injection E as <- <-; (split; [done|]); try done.
    split; [done|]. by intros o' [= ->].
  - intros k ns ls w w' r [= <- <-]. split; [done|]. intros l o [= <-] Ho Hns Hls. unfold live, OMem_view in Ho.
    apply elem_of_app. right. apply list_elem_of_filter. split; [done|]. apply list_elem_of_fmap. exists ((k, ob_Key o), o). split; [done|].
    apply list_elem_of_filter. split; [done|]. by apply elem_of_map_to_list.
  - intros k o w w' r E. unfold oe_delete in E. simpl in E. unfold om_delete in E. unfold live, OMem_view, gone. case_bool_decide; injection E as <- <-.
    + split_and!; [by left|done|]. by intros e [= <-].
    + split_and!; [by right| |done]. intros _. apply lookup_delete_eq.
  - intros o w w' r E. unfold live, OMem_view. simpl in E. destruct (om_objs w !! _) as [x|] eqn:Ex; injection E as <- <-; [right|by left].
    split; [eauto|done].
  - by intros t L w Hw.
  - by intros n L w Hw.
  - by intros cr L w Hw.
Qed.

(** ** Deletion *)

#[local] Instance obj_retry : RetryLib := loop_retry 4.

Definition del_cr : PerconaXtraDBCluster :=
  (demo_cluster None) <| cluster_Meta -> meta_UID := "uid-1" |> <| cluster_Spec -> spec_SecretsName := "c1-secrets" |>.
Definition nsn (n : string) : NamespacedName := mkNN "ns" n.
Definition obj (n : string) (ls : gmap string string) (owner : option string) : Obj := mkObj (nsn n) ("uid-" +:+ n) ls owner (Some 3).
Definition pxc_labels : gmap string string := sa_Labels (NewNode del_cr).

Definition del_objs : gmap (Kind * NamespacedName) Obj :=
  {[ (KStatefulSet, nsn "c1-pxc") := obj "c1-pxc" pxc_labels (Some "uid-1");
     (KClaim, nsn "datadir-c1-pxc-0") := obj "datadir-c1-pxc-0" pxc_labels None;
     (KClaim, nsn "other") := obj "other" ∅ None;
     (KSecret, nsn "c1-secrets") := obj "c1-secrets" ∅ None;
     (KSecret, nsn "internal-c1") := obj "internal-c1" ∅ None ]}.
Definition del_pods : list Obj := map (fun n => obj n pxc_labels None) ["c1-pxc-0"; "c1-pxc-1"; "c1-pxc-2"].
Definition del_world : OMem := mkOMem del_objs del_pods ∅ false.

Definition removed : OMem := (deleteStatefulSet del_cr (NewNode del_cr) true true del_world).1.

Lemma cluster_removed_with_data_witness : dom (om_objs removed) = {[ (KClaim, nsn "other") ]} /\ gone KStatefulSet (sts_key del_cr (NewNode del_cr)) removed.
Proof.
  split; [vm_compute; reflexivity|].
  apply (cluster_removed_with_data del_cr (obj "c1-pxc" pxc_labels (Some "uid-1")) del_world removed); vm_compute; reflexivity.
Defined.

Lemma pods_in_order_kept_witness : exists w1 w2 pods, oe_list KPod "ns" pxc_labels w1 = (w2, Ok pods) /\ (length pods <= 1)%nat.
Proof.
  apply (pods_in_order_kept del_cr [FinalizerDeletePxcPodsInOrder] None (mkOMem del_objs [] ∅ false) (mkOMem del_objs [] ∅ false) []).
  - vm_compute. reflexivity.
  - by left.
  - set_solver.
Defined.

Definition two_finalizers : OMem :=
  (run_finalizers del_cr [FinalizerDeletePxcPodsInOrder; FinalizerDeletePxcPvc] None del_world).1.

Lemma data_deletion_ignores_pod_order_witness :
  length (om_pods two_finalizers) = 3%nat /\ gone KStatefulSet (sts_key del_cr (NewNode del_cr)) two_finalizers.
Proof.
  split; [vm_compute; reflexivity|].
  apply (data_deletion_ignores_pod_order del_cr None del_world two_finalizers).
  - exists (obj "c1-pxc" pxc_labels (Some "uid-1")). split; vm_compute; reflexivity.
  - vm_compute. reflexivity.
Defined.

(** The claim cannot be deleted in the first pass; in the second one nobody tries. *)
Definition claim_refused : OMem := mkOMem del_objs [] {[ (KClaim, nsn "datadir-c1-pxc-0") ]} false.
Definition first_pass : OMem := (run_finalizers del_cr [FinalizerDeletePxcPvc] None claim_refused).1.
Definition later : OMem := mkOMem (om_objs first_pass) [] ∅ false.

Lemma failed_deletion_forgotten_witness :
  (run_finalizers del_cr [FinalizerDeletePxcPvc] None claim_refused).2 = Ok [FinalizerDeletePxcPvc] /\
  is_Some (om_objs later !! (KClaim, nsn "datadir-c1-pxc-0")) /\
  run_finalizers del_cr [FinalizerDeletePxcPvc] None later = (later, Ok []).
Proof.
  split; [vm_compute; reflexivity|]. split; [vm_compute; eauto|].
  apply (failed_deletion_forgotten del_cr None later later not_found); vm_compute; reflexivity.
Defined.

Lemma foreign_finalizer_follows_neighbour_witness :
  (run_finalizers del_cr [FinalizerDeletePxcPodsInOrder; "foregroundDeletion"] None del_world).2 =
    Ok [FinalizerDeletePxcPodsInOrder; "foregroundDeletion"].
Proof.
  pose proof (foreign_finalizer_follows_neighbour (W := OMem) del_cr FinalizerDeletePxcPodsInOrder (deletePXCPods del_cr) del_world
    _ _ eq_refl (surjective_pairing _)) as [_ Hkept].
  rewrite (Hkept (ErrWrap "delete statefulset pods" (ErrNew "waiting for pods to be deleted"))); [reflexivity|vm_compute; reflexivity].
Defined.

(** ** Certificates *)

Definition om_create (k : Kind) (n : NamespacedName) : M OMem unit := fun w =>
  if bool_decide (is_Some (om_objs w !! (k, n))) then (w, Err (ErrStatus ReasonAlreadyExists "exists"))
  else if bool_decide ((k, n) ∈ om_refused w) then (w, Err (ErrNew "refused"))
  else (set_objs (insert (k, n) (mkObj n "" ∅ None None)) w, Ok tt).

Definition need_cm (m : M OMem unit) : M OMem unit := fun w => if om_certManager w then m w else (w, Err (ErrNew "no matches for kind")).

#[export] Instance OMem_tls : TlsEnv OMem := {|
  te_createIssuer i := need_cm (om_create KIssuer (is_Key i));
  te_createCertificate c := need_cm (om_create KCertificate (ce_Key c));
  te_createSecret s := om_create KSecret (ts_Key s);
  te_patchUnsafeTLS _ _ := mret tt;
  te_ticks _ := 9%nat;
  te_tick := mret tt |}.

#[export] Instance OMem_lib : TlsLib OMem := {|
  tl_GenerateKey _ := mret "key";
  tl_public k := k;
  tl_CreateCertificate _ _ _ _ := mret "der";
  tl_pem _ s := Ok s;
  tl_pkcs1 s := s;
  tl_now _ := 0;
  tl_operatorStartTime := 0 |}.

#[export] Instance OMem_rand : RandEnv OMem := {| rand_Intn _ := mret 0; rand_Int _ := mret 0 |}.

#[export] Instance OMem_pause : PauseEnv OMem := {|
  pz_patchPause _ _ := mret tt;
  pz_listPods _ := gets (fun w => map (fun o => nn_name (ob_Key o)) (om_pods w));
  pz_listPVCs _ := mret [];
  pz_deletePVC _ := mret tt;
  pz_sleepSecond := mret tt |}.

#[export] Instance OMem_status : StatusEnv OMem := {|
  sx_listPods _ _ := mret [];
  sx_getSts _ := fail not_found;
  sx_podLogs _ _ := mret [];
  sx_ingress _ := mret [];
  sx_getCluster _ := fail not_found;
  sx_statusUpdate _ := mret tt;
  sx_selector _ := "";
  sx_now _ := 0 |}.

Lemma om_create_present m k n : keeps (present (W := OMem) m) (om_create k n).
Proof.
  intros w Hw. unfold om_create. repeat case_bool_decide; simpl; [done|done|]. unfold present, secret_at, OMem_present in *. simpl.
  destruct (decide ((KSecret, m) = (k, n))) as [->|Hne]; [by rewrite lookup_insert_eq|by rewrite lookup_insert_ne].
Qed.

#[export] Instance OMem_present_laws : PresentLaws OMem.
Proof.
  split.
  - intros m n x w Hw. simpl. unfold om_get. by destruct (om_objs w !! _) as [o|]; [case_bool_decide|].
  - intros n w w' o. simpl. unfold om_get, secret_at, OMem_present. destruct (om_objs w !! _) as [x|] eqn:E; [case_bool_decide|]; intros [= <- <-]; done.
  - intros m s. apply om_create_present.
  - intros s w w' r. simpl. unfold om_create, present, secret_at, OMem_present. case_bool_decide as Hb; [by intros [= <- <-]|].
    case_bool_decide; intros [= <- <-]; [intros [[=]|(e & [= <-] & [=])]|]. intros _. simpl. rewrite lookup_insert_eq. eauto.
  - intros m i w Hw. simpl. unfold need_cm. destruct (om_certManager w); [by apply om_create_present|done].
  - intros m c w Hw. simpl. unfold need_cm. destruct (om_certManager w); [by apply om_create_present|done].
  - by intros m w Hw.
  - by intros m n w Hw.
  - by intros m a b p q w Hw.
  - by intros m n w Hw.
Qed.

#[export] Instance OMem_toggle : ToggleLaws OMem.
Proof.
  split; [by intros n b L w Hw|by intros L w Hw|by intros cr L w Hw| |by intros n b L w Hw].
  intros cr w w' [= <- He]. unfold stopped, OMem_stopped. by destruct (om_pods w).
Qed.

#[local] Instance obj_versions : VersionLib := dotted_versions.

(** A cluster whose certificates are in place, and which turns TLS off. *)
Definition tls_cr (enabled : bool) (condition : string) : PerconaXtraDBCluster :=
  del_cr <| cluster_Spec -> spec_TLS := Some (mkTLS (Some enabled) [] None None None) |>
         <| cluster_Spec -> spec_PXC ::= fmap (fun p => p <| pxc_PodSpec -> pod_SSLSecretName := "c1-ssl" |>
                                                          <| pxc_PodSpec -> pod_SSLInternalSecretName := "c1-ssl-internal" |>) |>
         <| cluster_Status -> cs_Conditions := [mkCondition condition ConditionTLS 0 "" ""] |>.
Definition tls_objs : gmap (Kind * NamespacedName) Obj :=
  {[ (KSecret, nsn "c1-ssl") := mkObj (nsn "c1-ssl") "" ∅ None None;
     (KSecret, nsn "c1-ssl-internal") := mkObj (nsn "c1-ssl-internal") "" ∅ None None ]}.
Definition toggle_start : VW OMem := mkVW (mkOMem tls_objs [] ∅ false) (tls_cr false "enabled").
Definition toggle_end : VW OMem := (reconcileTLSToggle toggle_start).1.

Lemma toggle_waits_for_pods_witness : om_objs (vw_w toggle_end) = ∅ /\
  exists v1 old, pause_cluster toggle_start = (v1, Ok true) /\ finish_toggle old v1 = (toggle_end, Ok tt).
Proof.
  split; [vm_compute; reflexivity|].
  destruct (toggle_waits_for_pods toggle_start toggle_end (Ok tt)) as (v1 & old & Hp & _ & _ & _ & Hf); [vm_compute; reflexivity| |by exists v1, old].
  left. intros Heq. apply (f_equal (fun m => bool_decide (m = ∅))) in Heq. vm_compute in Heq. discriminate Heq.
Defined.

Lemma toggle_settles_witness : spec_Pause (cluster_Spec (vw_cr toggle_end)) = false /\ reconcileTLSToggle toggle_end = (toggle_end, Ok tt).
Proof.
  apply (toggle_settles toggle_start toggle_end); [vm_compute; reflexivity|by exists (mkCondition "enabled" ConditionTLS 0 "" "")|].
  intros Heq. apply (f_equal (fun s => map cond_Status (cs_Conditions s))) in Heq. vm_compute in Heq. discriminate Heq.
Defined.

(** A new cluster, without cert-manager. *)
Definition ssl_start (refused : gset (Kind * NamespacedName)) : VW OMem := mkVW (mkOMem ∅ [] refused false) (tls_cr true "enabled").
Definition ssl_end : VW OMem := (reconcileSSL (ssl_start ∅)).1.


(** The second secret is refused once; the operator's own first secret has no owner, so
    the later passes do not create it either. *)
Definition half_made : VW OMem := (reconcileSSL (ssl_start {[ (KSecret, nsn "c1-ssl-internal") ]})).1.
Definition half_later : VW OMem := mkVW (mkOMem (om_objs (vw_w half_made)) [] ∅ false) (vw_cr half_made).

Lemma missing_internal_secret_stays_witness :
  is_ok (reconcileSSL (ssl_start {[ (KSecret, nsn "c1-ssl-internal") ]})).2 = false /\
  om_objs (vw_w half_later) !! (KSecret, nsn "c1-ssl-internal") = None /\ reconcileSSL half_later = (half_later, Ok tt).
Proof.
  split; [vm_compute; reflexivity|]. split; [vm_compute; reflexivity|].
  eapply (missing_internal_secret_stays half_later (mkCondition "enabled" ConditionTLS 0 "" "") "enabled" _ (mkObj (nsn "c1-ssl") "" ∅ None None) not_found
    (vw_w half_later) (vw_w half_later)); vm_compute; reflexivity.
Defined.
