(* ===== verification/ServicesMem.v ===== *)
(** * Services and config maps against a concrete server *)

From S2P Require Import Prelude GoStrings ApiTypes KubeApi KubeMem Naming Users RestoreTypes SmartUpdate Services ServicesSpec Config ConfigSpec BackupMem.

(** A server that fills in a cluster address. *)
Record SMem := mkSMem { sm_svcs : gmap NamespacedName Service; sm_maps : gmap NamespacedName ConfigMap }.

#[export] Instance SMem_services : ServicesView SMem := sm_svcs.
#[export] Instance SMem_maps : ConfigView SMem := sm_maps.

Definition put_svc (s : Service) : M SMem unit := modify (fun w => mkSMem (<[svc_key s := s <| svc_Spec -> sv_ClusterIP := "10.0.0.1" |>]> (sm_svcs w)) (sm_maps w)).

Definition keyed {O} (get : option O) (key : O -> NamespacedName) (n : NamespacedName) : M SMem O := fun w =>
  match get with
  | Some o => if bool_decide (key o = n) then (w, Ok o) else (w, Err (ErrNew "corrupt"))
  | None => (w, Err not_found)
  end.

#[export] Instance SMem_env : ServiceEnv SMem := {|
  sv_get n := fun w => keyed (sm_svcs w !! n) svc_key n w;
  sv_create := put_svc;
  sv_update := put_svc;
  sv_delete n := modify (fun w => mkSMem (delete n (sm_svcs w)) (sm_maps w));
  sv_list ns ls := gets (fun w => filter (fun s => ls ⊆ svc_Labels s) (map snd (map_to_list (sm_svcs w))));
  sv_hash s := Ok (sv_Type s);
  sv_ownerRef cr := Ok (meta_UID (cluster_Meta cr));
  sv_listRestores _ := mret [] |}.

#[export] Instance SMem_laws : ServiceLaws SMem.
Proof.
  split.
  - intros n w w' r E. simpl in E. unfold keyed in E. unfold services, SMem_services.
    destruct (sm_svcs w !! n) as [s|] eqn:Es; [case_bool_decide|]; injection E as <- <-; done.
  - intros s w w' [= <-]. eexists. split; [|reflexivity]. by destruct s.
  - intros s w w' [= <-]. eexists. split; [|reflexivity]. by destruct s.
  - by intros n w w' [= <-].
  - intros ns ls w w' l [= <- <-]. split; [done|]. intros s Hs _ Hls. apply list_elem_of_filter. split; [done|].
    apply list_elem_of_fmap. exists (svc_key s, s). split; [done|]. by apply elem_of_map_to_list.
Qed.

#[export] Instance SMem_config : ConfigEnv SMem := {|
  cf_get n := fun w => keyed (sm_maps w !! n) cm_Key n w;
  cf_create m := modify (fun w => mkSMem (sm_svcs w) (<[cm_Key m := m]> (sm_maps w)));
  cf_update m := modify (fun w => mkSMem (sm_svcs w) (<[cm_Key m := m]> (sm_maps w)));
  cf_delete m := modify (fun w => mkSMem (sm_svcs w) (delete (cm_Key m) (sm_maps w)));
  cf_ownerRef cr := Ok (meta_UID (cluster_Meta cr)) |}.

#[export] Instance SMem_config_laws : ConfigLaws SMem.
Proof.
  split.
  - intros n w w' r E. simpl in E. unfold keyed in E. unfold maps, SMem_maps.
    destruct (sm_maps w !! n) as [s|] eqn:Es; [case_bool_decide|]; injection E as <- <-; done.
  - by intros m w w' r [= <- <-].
  - by intros m w w' r [= <- <-].
  - by intros m w w' r [= <- <-].
Qed.

#[local] Instance svc_versions : VersionLib := dotted_versions.
#[local] Instance svc_ini : IniLib := {| ini_Load _ := Ok ∅ |}.
#[local] Instance svc_retry : RetryLib := loop_retry 4.

(** ** Services *)

Definition svc_cr (annotations : gmap string string) (ignore : list string) : PerconaXtraDBCluster :=
  (demo_cluster None) <| cluster_Spec -> spec_PXC ::= fmap (fun p => p <| pxc_Expose -> exp_Annotations := annotations |>) |>
                      <| cluster_Spec -> spec_IgnoreAnnotations := ignore |>.
Definition empty_server : SMem := mkSMem ∅ ∅.
Definition demo_service (annotations : gmap string string) : Service :=
  mkService "c1-pxc" "ns" ∅ annotations [] (plain_spec [] ∅).

Definition once : SMem := (createOrUpdate (demo_service ∅) empty_server).1.

Lemma createOrUpdate_idempotent_witness : services (createOrUpdate (demo_service ∅) once).1 = services once.
Proof.
  eapply (createOrUpdate_idempotent (demo_service ∅) empty_server once (createOrUpdate (demo_service ∅) once).1 _ (createOrUpdate (demo_service ∅) once).2);
    vm_compute; reflexivity.
Defined.

(** The annotation "pinned" is to be left alone. *)
Definition pinned_server : SMem := mkSMem {[ mkNN "ns" "c1-pxc" := demo_service {[ "pinned" := "server"; "gone" := "x" ]} ]} ∅.
Definition pin_cr : PerconaXtraDBCluster := svc_cr ∅ ["pinned"].
Definition repinned : SMem := (createOrUpdateService pin_cr (demo_service {[ "pinned" := "operator" ]}) false pinned_server).1.

Lemma createOrUpdateService_meta_witness : exists s', services repinned !! mkNN "ns" "c1-pxc" = Some s' /\
  svc_Annotations s' !! "pinned" = Some "server" /\ svc_Annotations s' !! "gone" = None.
Proof.
  destruct (createOrUpdateService_meta pin_cr (demo_service {[ "pinned" := "operator" ]}) false pinned_server repinned
    (match (createOrUpdateService pin_cr (demo_service {[ "pinned" := "operator" ]}) false pinned_server).2 with Ok s => s | _ => demo_service ∅ end))
    as (s' & Hs & _ & Ha & _); [vm_compute; reflexivity|].
  exists s'. split; [exact Hs|]. split; rewrite Ha by discriminate; vm_compute; reflexivity.
Defined.

(** Annotations of one service get into others: the custom resource asks for one
    annotation, an old annotation is left on the service of the unready pods, and after the
    two headless services are updated the services of the pods are built with the old
    annotation as well. *)
Theorem unready_annotation_leaks :
  let cr := svc_cr {[ "team" := "db" ]} [] in
  let unready := mkService "c1-pxc-unready" "ns" ∅ {[ "old" := "value" ]} [] (plain_spec [] ∅) in
  let v := mkVW (mkSMem {[ mkNN "ns" "c1-pxc-unready" := unready ]} ∅) cr in
  (svc_Annotations <$> match NewExposedPXCService "c1-pxc-0" cr with Ok s => Some s | _ => None end) = Some {[ "team" := "db" ]} /\
  exists v' s, pxc_services v = (v', Ok tt) /\ NewExposedPXCService "c1-pxc-0" (vw_cr v') = Ok s /\ svc_Annotations s !! "old" = Some "value".
Proof. split; [vm_compute; reflexivity|]. eexists _, _. split; [vm_compute; reflexivity|]. split; vm_compute; reflexivity. Qed.

(** ** Config maps *)

Definition config_cr : PerconaXtraDBCluster :=
  (demo_cluster None) <| cluster_Meta -> meta_UID := "uid-1" |>
    <| cluster_Spec -> spec_PXC ::= fmap (fun p => p <| pxc_PodSpec -> pod_Configuration := "[mysqld]" |>
         <| pxc_PodSpec -> pod_Resources := mkResources {[ "memory" := 1073741824 ]} ∅ |>) |>.
(** A config map of the logs that is no longer asked for. *)
Definition config_server : SMem :=
  mkSMem ∅ {[ mkNN "ns" "c1-logcollector" := mkConfigMap (mkNN "ns" "c1-logcollector") ∅ ["uid-1"] ∅ ]}.
Definition configured : SMem := (reconcileConfigMaps config_cr config_server).1.

Lemma config_maps_exact_witness :
  (cm_Data <$> maps configured !! mkNN "ns" "c1-pxc") = Some {[ "init.cnf" := "[mysqld]" ]} /\
  maps configured !! mkNN "ns" "c1-logcollector" = None /\ (forall x, x ∈ wanted config_cr -> settled config_cr x configured).
Proof.
  split; [vm_compute; reflexivity|]. split; [vm_compute; reflexivity|].
  apply (config_maps_exact config_cr config_server configured ResultCreated). vm_compute. reflexivity.
Defined.

Lemma pool_size_fits_witness : pool_size 8589934592 = (Some 806354944, 6450839552) /\
  match pool_size 8589934592 with
  | (Some chunk, p) => p = 8 * chunk /\ Z.rem chunk chunkSizeMin = 0 /\ 1073741824 < p <= 8589934592
  | (None, p) => Z.rem p chunkSizeDefault = 0 /\ 0 <= p <= 1073741824 /\ (268435456 <= 8589934592 -> p <= 8589934592)
  end.
Proof. split; [vm_compute; reflexivity|]. apply (pool_size_fits 8589934592). lia. Defined.
