(* ===== verification/StatefulSet.v ===== *)
(** * Stateful sets: [pkg/pxc/statefulset.go], [pkg/pxc/pdb.go], [pkg/controller/pxc/upgrade.go]

    The stateful set of a component is put together from the containers and volumes of
    the component and from what the custom resource adds, and is written when its hash
    differs.  Hashes of the configuration and of secrets go into the annotations of the
    pods, so that a change restarts them. *)

From S2P Require Import Prelude GoStrings ApiTypes KubeApi Naming Secrets Users ClusterStatus ApiDefaults BackupController SmartUpdate Services Config.

(** ** Data *)

Inductive Affinity :=
| AdvancedAffinity (a : string)
| PodAntiAffinity (labels : gmap string string) (topologyKey : string).

(** [corev1.PodTemplateSpec]; [tpl_Rest] are the fields that are only passed on, and the
    topology spread constraints. *)
Record PodTemplate := mkTemplate {
  tpl_Labels : gmap string string;
  tpl_Annotations : gmap string string;
  tpl_Affinity : option Affinity;
  tpl_ServiceAccountName : string;
  tpl_SecurityContext : option PodSecurityContext;
  tpl_TerminationGracePeriodSeconds : option Z;
  tpl_ShareProcessNamespace : bool;
  tpl_Volumes : list PodVolume;
  tpl_InitContainers : list Container;
  tpl_Containers : list Container;
  tpl_Rest : string }.

Record UpdateStrategy := mkStrategy { str_Type : string; str_Partition : option Z }.

Record StatefulSetSpec := mkStsSpec {
  sp_Replicas : Z;
  sp_Selector : gmap string string;
  sp_ServiceName : string;
  sp_Template : PodTemplate;
  sp_UpdateStrategy : UpdateStrategy;
  sp_VolumeClaimTemplates : list ClaimTemplate }.

Record StatefulSet := mkStatefulSet {
  sset_Key : NamespacedName;
  sset_Labels : gmap string string;
  sset_Annotations : gmap string string;
  sset_Owners : list string;
  sset_Deleted : bool;
  sset_Spec : StatefulSetSpec }.

(** [policyv1.PodDisruptionBudget] *)
Record DisruptionBudget := mkBudget {
  pb_Key : NamespacedName;
  pb_Labels : gmap string string;
  pb_Annotations : gmap string string;
  pb_Owners : list string;
  pb_ResourceVersion : string;
  pb_Spec : PodDisruptionBudgetSpec;
  pb_Selector : gmap string string }.

(** ** Environment *)

(** Encodings: the hash of an object ([json] and base64), [getCustomConfigHashHex] of a
    config map or a secret ([json] and MD5), the MD5 of the printed data of a secret, and the MD5 of nothing;
    [sts_ownerRef] is what [k8s.OwnerRef] needs. *)
Class StsLib := {
  sts_hash : StatefulSetSpec -> res string;
  pdb_hash : DisruptionBudget -> res string;
  cm_hash : ConfigMap -> res string;
  secret_config_hash : Secret -> res string;
  secret_hash : Secret -> string;
  empty_hash : string;
  sts_ownerRef : PerconaXtraDBCluster -> res string;
  pdb_ownerRef : StatefulSet -> res string }.

(** Stateful sets and budgets of the API server, and the containers of the operator's pod
    ([k8s.OperatorPod]), each with its image. *)
Class StsEnv (W : Type) := {
  sse_get : NamespacedName -> M W StatefulSet;
  sse_create : StatefulSet -> M W unit;
  sse_update : StatefulSet -> M W unit;
  pbe_get : NamespacedName -> M W DisruptionBudget;
  pbe_create : DisruptionBudget -> M W unit;
  pbe_update : DisruptionBudget -> M W unit;
  sse_operatorPod : M W (list (string * string)) }.

(** [api.App]: the parts of the pods of a component; the last argument of [at_Volumes] is
    the [CustomVolumeGetter].  An error of [at_PMMContainer] comes without a container. *)
Class AppTemplates (W : Type) := {
  at_InitContainers : StatefulApp -> PerconaXtraDBCluster -> string -> res (list Container);
  at_AppContainer : StatefulApp -> PodSpec -> string -> PerconaXtraDBCluster -> list PodVolume -> M W Container;
  at_SidecarContainers : StatefulApp -> PodSpec -> string -> PerconaXtraDBCluster -> M W (list Container);
  at_PMMContainer : StatefulApp -> Secret -> PerconaXtraDBCluster -> M W (option Container);
  at_LogCollectorContainer : StatefulApp -> string -> PerconaXtraDBCluster -> res (list Container);
  at_XtrabackupContainer : StatefulApp -> PerconaXtraDBCluster -> M W (option Container);
  at_Volumes : StatefulApp -> PodSpec -> PerconaXtraDBCluster -> (string -> string -> bool -> M W PodVolume) ->
    M W (option (list PodVolume * list ClaimTemplate)) }.

(** [k8sretry.OnError] with the errors that are tried again. *)
Class OnErrorLib := {
  retry_OnError : forall {S A}, (error -> bool) -> M S A -> M S A;
  retry_OnError_runs : forall S A p (fn : M S A) s s' r, retry_OnError p fn s = (s', r) -> retries p fn s s' r }.

(** ** What the custom resource adds ([pxc_types.go]) *)

Definition names_of {A} (name : A -> string) (l : list A) : gset string := list_to_set (map name l).

(** Additions whose name is taken are skipped. *)
Definition add_named {A} (name : A -> string) (existing extra : list A) : list A :=
  existing ++ filter (fun x => name x ∉ names_of name existing) extra.

Definition AddSidecarContainers (existing sidecars : list Container) : list Container := add_named ctr_Name existing sidecars.
Definition AddSidecarVolumes (existing sidecarVolumes : list PodVolume) : list PodVolume := add_named pv_Name existing sidecarVolumes.
Definition AddSidecarPVCs (existing sidecarPVCs : list ClaimTemplate) : list ClaimTemplate := add_named clm_Name existing sidecarPVCs.

(** The first of each name. *)
Fixpoint first_named (seen : gset string) (l : list ExtraPVC) : list ExtraPVC :=
  match l with
  | [] => []
  | e :: l => if decide (ep_Name e ∈ seen) then first_named seen l else e :: first_named ({[ep_Name e]} ∪ seen) l
  end.

Definition ExtraPVCVolumes (extraPVCs : list ExtraPVC) : list PodVolume :=
  map (fun e => mkPodVolume (ep_Name e) (VolClaim (ep_ClaimName e) (ep_ReadOnly e))) (first_named ∅ extraPVCs).
Definition ExtraPVCVolumeMounts (extraPVCs : list ExtraPVC) : list VolumeMount :=
  map (fun e => mkMount (ep_Name e) (ep_MountPath e) (ep_SubPath e) (ep_ReadOnly e)) (first_named ∅ extraPVCs).

Definition AffinityTopologyKeyOff : string := "none".

Definition pod_affinity (af : option PodAffinity) (labels : gmap string string) : option Affinity :=
  match af with
  | None => None
  | Some af =>
      match aff_Advanced af, aff_TopologyKey af with
      | Some a, _ => Some (AdvancedAffinity a)
      | None, Some k => if bool_decide (ToLower k = AffinityTopologyKeyOff) then None else Some (PodAntiAffinity labels k)
      | None, None => None
      end
  end.

(** ** The update strategy and the name of the stateful set *)

Definition OnDelete : string := "OnDelete".
Definition RollingUpdate : string := "RollingUpdate".

Definition isHAproxy (app : StatefulApp) : bool := bool_decide (sa_Labels app !! "app.kubernetes.io/component" = Some "haproxy").
Definition isProxySQL (app : StatefulApp) : bool := bool_decide (sa_Labels app !! "app.kubernetes.io/component" = Some "proxysql").

Definition update_strategy (sfs : StatefulApp) (cr : PerconaXtraDBCluster) : UpdateStrategy :=
  let s := spec_UpdateStrategy (cluster_Spec cr) in
  if bool_decide (s = OnDelete) then mkStrategy OnDelete None
  else if bool_decide (s = SmartUpdateStatefulSetStrategyType) then
    if isPXC sfs then mkStrategy OnDelete None
    else if isProxySQL sfs then mkStrategy RollingUpdate None else mkStrategy RollingUpdate (Some 0)
  else mkStrategy RollingUpdate (Some 0).

Definition sset_name (cr : PerconaXtraDBCluster) (sfs : StatefulApp) : NamespacedName :=
  mkNN (cluster_Namespace cr) (cluster_Name cr +:+ "-" +:+ sa_Name sfs).

Definition NoCustomVolumeErr : error := ErrVar "NoCustomVolumeErr" "no custom volume found".

Section build.
Context {W : Type} `{SecretClient W} `{ConfigEnv W} `{AppTemplates W} `{VersionLib}.

(** ** Building a stateful set *)

(** [getConfigVolume]: a secret of the name wins over a config map. *)
Definition getConfigVolume (nsName cvName cmName : string) (useDefaultVolume : bool) : M W PodVolume :=
  let n := mkNN nsName cmName in
  secret ← try (sc_get n);
  match secret with
  | inr _ => mret (mkPodVolume cvName (VolSecret cmName false))
  | inl e =>
      if negb (IsNotFound e) then fail e else
      cm ← try (cf_get n);
      match cm with
      | inr _ => mret (mkPodVolume cvName (VolConfigMap cmName true))
      | inl e =>
          if negb (IsNotFound e) then fail e else
          if useDefaultVolume then mret (mkPodVolume cvName (VolConfigMap cmName true)) else fail NoCustomVolumeErr
      end
  end.

(** The error keeps the text only. *)
Definition reprint {A} (msg : string) (m : M W A) : M W A := fun w =>
  match m w with (w', Err e) => (w', Err (ErrNew (msg +:+ Error e))) | out => out end.

Definition backup_logs : PodVolume := mkPodVolume "backup-logs" VolEmptyDir.

Definition log_collector (sfs : StatefulApp) (secrets : string) (cr : PerconaXtraDBCluster) : M W (list Container) :=
  if match spec_LogCollector (cluster_Spec cr) with Some l => lc_Enabled l | None => false end then
    b7 ← lift (from_version cr "1.7.0");
    if b7 : bool then reprint "logcollector container error: " (lift (at_LogCollectorContainer sfs secrets cr)) else mret []
  else mret [].

(** The init containers and the containers of a pod, in their order, and whether there is
    one for backups. *)
Definition pod_containers (sfs : StatefulApp) (podSpec : PodSpec) (cr : PerconaXtraDBCluster) (secret : Secret) (volumes : list PodVolume)
    (initImageName : string) : M W (list Container * list Container * bool) :=
  let secrets := meta_Name (sec_Meta secret) in
  appC ← wrap "app container" (at_AppContainer sfs podSpec secrets cr volumes);
  xbC ← wrap "xtrabackup container" (at_XtrabackupContainer sfs cr);
  pmmC ← try (at_PMMContainer sfs secret cr);
  logC ← log_collector sfs secrets cr;
  initC ← lift (at_InitContainers sfs cr initImageName);
  sideC ← wrap "sidecar container" (at_SidecarContainers sfs podSpec secrets cr);
  let own := option_list xbC ++ match pmmC with inr (Some c) => [c] | _ => [] end ++ logC ++ [appC] ++ sideC in
  mret (initC, AddSidecarContainers own (default [] (pod_Sidecars podSpec)), bool_decide (is_Some xbC)).

(** The annotations of the pods: from 1.17.0 on the default container is added, in the
    map of the custom resource itself. *)
Definition pod_annotations (sfs : StatefulApp) (podSpec : PodSpec) (cr : PerconaXtraDBCluster) : res (gmap string string) :=
  b17 ← from_version cr "1.17.0";
  Ok (if b17 : bool
      then <["kubectl.kubernetes.io/default-container" := default "" (sa_Labels sfs !! "app.kubernetes.io/component")]> (pod_Annotations podSpec)
      else pod_Annotations podSpec).

Definition NewStatefulSet (sfs : StatefulApp) (podSpec : PodSpec) (cr : PerconaXtraDBCluster) (secret : Secret) (initImageName : string) :
    M W StatefulSet :=
  share ← (if isHAproxy sfs then c ← lift (CompareVersionWith cr "1.7.0"); mret (bool_decide (c = -1)) else mret false : M W bool);
  sfsVolume ← reprint "failed to get volumes " (at_Volumes sfs podSpec cr (getConfigVolume (cluster_Namespace cr)));
  let own : list PodVolume * list ClaimTemplate := default ([], []) sfsVolume in
  let volumes := own.1 in
  cs ← pod_containers sfs podSpec cr secret volumes initImageName;
  let volumes := volumes ++ (if (cs.2 : bool) then [backup_logs] else []) in
  let volumes := AddSidecarVolumes volumes (pod_SidecarVolumes podSpec) in
  b19 ← lift (from_version cr "1.19.0");
  let volumes := volumes ++ (if b19 : bool then ExtraPVCVolumes (pod_ExtraPVCs podSpec) else []) in
  annotations ← lift (pod_annotations sfs podSpec cr);
  mret (mkStatefulSet (sset_name cr sfs) ∅ ∅ [] false
    (mkStsSpec (pod_Size podSpec) (sa_Labels sfs) (sa_Service sfs)
       (mkTemplate (sa_Labels sfs ∪ pod_Labels podSpec) annotations (pod_affinity (pod_Affinity podSpec) (sa_Labels sfs))
          (pod_ServiceAccountName podSpec) (pod_PodSecurityContext podSpec) (pod_TerminationGracePeriodSeconds podSpec) share volumes
          cs.1.1 cs.1.2 (pod_Rest podSpec))
       (update_strategy sfs cr)
       (AddSidecarPVCs own.2 (pod_SidecarPVCs podSpec)))).
End build.

(** ** Writing objects ([controller.go]) *)

(** What [createOrUpdate] uses of an object: its metadata, its hash, its place on the
    server, and what an update takes over from the old object. *)
Record ObjectOps (W O : Type) := mkOps {
  oo_annotations : O -> gmap string string;
  oo_annotate : (gmap string string -> gmap string string) -> O -> O;
  oo_labels : O -> gmap string string;
  oo_hash : O -> res string;
  oo_get : O -> M W O;
  oo_create : O -> M W unit;
  oo_update : O -> M W unit;
  oo_carry : O -> O -> O }.
Arguments oo_annotations {W O}.
Arguments oo_annotate {W O}.
Arguments oo_labels {W O}.
Arguments oo_hash {W O}.
Arguments oo_get {W O}.
Arguments oo_create {W O}.
Arguments oo_update {W O}.
Arguments oo_carry {W O}.

Definition put_object {W O} (ops : ObjectOps W O) (obj : O) : M W unit :=
  let obj := oo_annotate ops (delete last_config_hash) obj in
  hash ← lift (wrap_res "calculate object hash" (oo_hash ops obj));
  let obj := oo_annotate ops <[last_config_hash := hash]> obj in
  got ← try (oo_get ops obj);
  match got with
  | inl e => if IsNotFound e then oo_create ops obj else fail (ErrWrap "get object" e)
  | inr old =>
      if negb (bool_decide (default "" (oo_annotations ops old !! last_config_hash) = hash)) ||
         negb (compareMaps (oo_annotations ops obj) (oo_annotations ops old) && compareMaps (oo_labels ops obj) (oo_labels ops old))
      then oo_update ops (oo_carry ops old obj)
      else mret tt
  end.

Section write.
Context {W : Type} `{StsEnv W} `{StsLib}.

Definition sts_ops : ObjectOps W StatefulSet := mkOps W StatefulSet sset_Annotations (fun f s => s <| sset_Annotations ::= f |>) sset_Labels
  (fun s => sts_hash (sset_Spec s)) (fun s => sse_get (sset_Key s)) sse_create sse_update (fun _ s => s).
Definition pdb_ops : ObjectOps W DisruptionBudget := mkOps W DisruptionBudget pb_Annotations (fun f b => b <| pb_Annotations ::= f |>) pb_Labels
  pdb_hash (fun b => pbe_get (pb_Key b)) pbe_create pbe_update (fun old b => b <| pb_ResourceVersion := pb_ResourceVersion old |>).
End write.

(** ** Budgets ([pdb.go]) *)

Section budgets.
Context {W : Type} `{StsEnv W} `{StsLib} `{VersionLib}.

Definition NewPodDisruptionBudget (cr : PerconaXtraDBCluster) (spec : PodDisruptionBudgetSpec) (labels : gmap string string) : res DisruptionBudget :=
  b16 ← from_version cr "1.16.0";
  let name := default "" (labels !! "app.kubernetes.io/instance") +:+ "-" +:+ default "" (labels !! "app.kubernetes.io/component") in
  Ok (mkBudget (mkNN (cluster_Namespace cr) name) (if b16 : bool then labels else ∅) ∅ [] "" spec labels).

Definition reconcilePDB (cr : PerconaXtraDBCluster) (spec : option PodDisruptionBudgetSpec) (sfs : StatefulApp) : M W unit :=
  match spec with
  | None => mret tt
  | Some spec =>
      got ← try (sse_get (sset_name cr sfs));
      match got with
      | inl e => if IsNotFound e then mret tt else fail (ErrWrap "get PXC stateful set" e)
      | inr sts =>
          pdb ← lift (NewPodDisruptionBudget cr spec (sa_Labels sfs));
          owner ← lift (wrap_res "set owner reference" (pdb_ownerRef sts));
          wrap "reconcile pdb" (put_object pdb_ops (pdb <| pb_Owners ::= fun l => l ++ [owner] |>))
      end
  end.
End budgets.

(** ** Updating the pods of a component ([upgrade.go]) *)

(** The components, where their pods are specified, and the specification in the custom
    resource that shares its annotations with the stateful set. *)
Inductive Component := CompPXC | CompHAProxy | CompProxySQL.

Definition comp_app (c : Component) (cr : PerconaXtraDBCluster) : StatefulApp :=
  match c with CompPXC => NewNode cr | CompHAProxy => NewHAProxy cr | CompProxySQL => NewProxy cr end.

Definition comp_spec (c : Component) (cr : PerconaXtraDBCluster) : res PodSpec :=
  match c with
  | CompPXC => p ← deref (spec_PXC (cluster_Spec cr)); Ok (pxc_PodSpec p)
  | CompHAProxy => h ← deref (spec_HAProxy (cluster_Spec cr)); Ok (ha_PodSpec h)
  | CompProxySQL => p ← deref (spec_ProxySQL (cluster_Spec cr)); Ok (ps_PodSpec p)
  end.

Definition share_annotations (c : Component) (after : gmap string string) (cr : PerconaXtraDBCluster) : PerconaXtraDBCluster :=
  let f := fun p => p <| pod_Annotations := shared (pod_Annotations p) after |> in
  match c with
  | CompPXC => cr <| cluster_Spec -> spec_PXC ::= fmap (fun p => p <| pxc_PodSpec ::= f |>) |>
  | CompHAProxy => cr <| cluster_Spec -> spec_HAProxy ::= fmap (fun h => h <| ha_PodSpec ::= f |>) |>
  | CompProxySQL => cr <| cluster_Spec -> spec_ProxySQL ::= fmap (fun p => p <| ps_PodSpec ::= f |>) |>
  end.

(** The labels of the claim templates are kept: they cannot be changed.  A template that
    is no longer there is an index out of range. *)
Fixpoint keep_claim_labels (current new : list ClaimTemplate) : res (list ClaimTemplate) :=
  match current, new with
  | [], _ => Ok new
  | c :: current, n :: new => l ← keep_claim_labels current new; Ok (n <| clm_Labels := clm_Labels c |> :: l)
  | _ :: _, [] => Panic
  end.

Definition configuration_hash : string := "percona.com/configuration-hash".

(** Empty hashes are left out, but for that of the configuration. *)
Definition set_hashes (hashes : list (string * string)) (annotations : gmap string string) : gmap string string :=
  foldl (fun m kv => if negb (bool_decide (kv.2 = "")) || bool_decide (kv.1 = configuration_hash) then <[kv.1 := kv.2]> m else m) annotations hashes.

Definition errStsWillBeDeleted : error := ErrVar "errStsWillBeDeleted" "will be deleted".

Section update.
Context {W : Type} `{SecretClient W} `{ConfigEnv W} `{AppTemplates W} `{StsEnv W} `{StsLib} `{SmartEnv W} `{StatusEnv W}
  `{RetryLib} `{OnErrorLib} `{VersionLib} `{IniLib}.

Definition getSecretHash (cr : PerconaXtraDBCluster) (secretName : string) (allowNonExistingSecret : bool) : M W string :=
  if allowNonExistingSecret && bool_decide (secretName = "") then mret "" else
  got ← try (sc_get (mkNN (cluster_Namespace cr) secretName));
  match got with
  | inr s => mret (secret_hash s)
  | inl e => if IsNotFound e && allowNonExistingSecret then mret "" else fail e
  end.

(** [getFirstExisting] of a secret and a config map; neither is no error. *)
Definition getConfigHash (cr : PerconaXtraDBCluster) (sfs : StatefulApp) : M W string :=
  let ls := sa_Labels sfs in
  let n := mkNN (cluster_Namespace cr) (default "" (ls !! "app.kubernetes.io/instance") +:+ "-" +:+ default "" (ls !! "app.kubernetes.io/component")) in
  secret ← try (sc_get n);
  match secret with
  | inr s => lift (secret_config_hash s)
  | inl e =>
      if negb (IsNotFound e) then fail (ErrWrap "failed to get custom config" e) else
      cm ← try (cf_get n);
      match cm with
      | inr c => lift (cm_hash c)
      | inl e => if IsNotFound e then mret empty_hash else fail (ErrWrap "failed to get custom config" e)
      end
  end.

(** [k8s.GetInitImage] *)
Definition operator_container : string := "percona-xtradb-cluster-operator".
Definition GetInitImage (operatorVersion : string) (cr : PerconaXtraDBCluster) : M W string :=
  let s := cluster_Spec cr in
  if negb (bool_decide (spec_InitContainerImage s = "")) then mret (spec_InitContainerImage s) else
  if negb (bool_decide (spec_InitImage s = "")) then mret (spec_InitImage s) else
  containers ← wrap "get operator deployment" sse_operatorPod;
  match list_find (fun c => c.1 = operator_container) containers with
  | None => fail (ErrNew "operator image not found")
  | Some (_, (_, image)) =>
      c ← lift (CompareVersionWith cr operatorVersion);
      mret (if bool_decide (c = 0) then image else default "" (head (Split image ":")) +:+ ":" +:+ spec_CRVersion s)
  end.

(** The secret with environment variables is that of the component; the one of the
    database is read for every component, and its error is forgotten for the others. *)
Definition env_vars_hash (cr : PerconaXtraDBCluster) (sfs : StatefulApp) : M W string :=
  pxc ← lift (deref (spec_PXC (cluster_Spec cr)));
  r ← try (getSecretHash cr (pod_EnvVarsSecretName (pxc_PodSpec pxc)) true);
  if isHAproxy sfs then h ← lift (deref (spec_HAProxy (cluster_Spec cr))); getSecretHash cr (pod_EnvVarsSecretName (ha_PodSpec h)) true
  else if isProxySQL sfs then p ← lift (deref (spec_ProxySQL (cluster_Spec cr))); getSecretHash cr (pod_EnvVarsSecretName (ps_PodSpec p)) true
  else match r with inl e => fail e | inr h => mret h end.

(** The hashes of the vault and certificate secrets, which HAProxy does not use. *)
Definition secret_hashes (cr : PerconaXtraDBCluster) (sfs : StatefulApp) : M W (string * string * string) :=
  if isHAproxy sfs then mret ("", "", "") else
  pxc ← lift (deref (spec_PXC (cluster_Spec cr)));
  vault ← wrap "get vault secret hash" (getSecretHash cr (spec_VaultSecretName (cluster_Spec cr)) true);
  en ← lift (TLSEnabled (cluster_Spec cr));
  ssl ← wrap "get ssl secret hash" (getSecretHash cr (pod_SSLSecretName (pxc_PodSpec pxc)) (negb en));
  r ← try (getSecretHash cr (pod_SSLInternalSecretName (pxc_PodSpec pxc)) (negb en));
  match r with
  | inr h => mret (vault, ssl, h)
  | inl e => if IsNotFound e then mret (vault, ssl, "") else fail (ErrWrap "get internal ssl secret hash" e)
  end.

Definition hash_annotations (cr : PerconaXtraDBCluster) (sfs : StatefulApp) : M W (list (string * string)) :=
  config ← wrap "get config hash" (getConfigHash cr sfs);
  env ← wrap "get env vars secret hash" (env_vars_hash cr sfs);
  hs ← secret_hashes cr sfs;
  mret [(configuration_hash, config); ("percona.com/ssl-hash", hs.1.2); ("percona.com/ssl-internal-hash", hs.2);
        ("percona.com/vault-config-hash", hs.1.1); ("percona.com/env-secret-config-hash", env)].

(** What the annotations, labels and claim labels become, with those of the stateful
    set that is there. *)
Definition merge_current (b16 : bool) (current : option StatefulSet) (newAnnotations : gmap string string) (hashes : list (string * string))
    (sts : StatefulSet) : res StatefulSet :=
  claims ← (if b16 then keep_claim_labels (match current with Some c => sp_VolumeClaimTemplates (sset_Spec c) | None => [] end)
                          (sp_VolumeClaimTemplates (sset_Spec sts))
            else Ok (sp_VolumeClaimTemplates (sset_Spec sts)));
  let t := sp_Template (sset_Spec sts) in
  let old := match current with Some c => sp_Template (sset_Spec c) | None => t <| tpl_Annotations := ∅ |> <| tpl_Labels := ∅ |> end in
  Ok (sts <| sset_Spec -> sp_VolumeClaimTemplates := claims |>
          <| sset_Spec -> sp_Template -> tpl_Annotations := set_hashes hashes (MergeMaps [tpl_Annotations old; tpl_Annotations t; newAnnotations]) |>
          <| sset_Spec -> sp_Template -> tpl_Labels := MergeMaps [tpl_Labels old; tpl_Labels t] |>).

(** The function that is tried again on conflicts. *)
Definition put_sts (c : Component) (sfs : StatefulApp) (newAnnotations : gmap string string) (hashes : list (string * string))
    (secret : Secret) (initImageName : string) : M (VW W) unit :=
  cr ← getCr;
  got ← try (onV (sse_get (sset_name cr sfs)));
  current ← match got with
            | inr s => mret (Some s)
            | inl e => if IsNotFound e then mret None else fail (ErrWrap "get statefulset" e)
            end;
  if match current with Some s => sset_Deleted s | None => false end then fail errStsWillBeDeleted else
  podSpec ← lift (comp_spec c cr);
  sts ← wrap "construct statefulset" (onV (NewStatefulSet sfs podSpec cr secret initImageName));
  _ ← setCr (share_annotations c (tpl_Annotations (sp_Template (sset_Spec sts))) cr);
  b16 ← lift (from_version cr "1.16.0");
  sts ← lift (merge_current b16 current newAnnotations hashes sts);
  owner ← lift (wrap_res "set controller reference" (sts_ownerRef cr));
  wrap "update error" (onV (put_object sts_ops (sts <| sset_Owners ::= fun l => l ++ [owner] |>))).

Definition updatePod (operatorVersion : string) (c : Component) (sfs : StatefulApp) (newAnnotations : gmap string string) (smart : bool) :
    M (VW W) unit :=
  cr ← getCr;
  if PVCResizeInProgress cr then mret tt else
  res ← wrap "reconcile config" (onV (reconcileConfigMaps cr));
  if negb (bool_decide (res = ResultNone)) then mret tt else
  hashes ← onV (hash_annotations cr sfs);
  got ← try (onV (sc_get (mkNN (cluster_Namespace cr) ("internal-" +:+ cluster_Name cr))));
  match got with
  | inl e => if IsNotFound e then mret tt else fail (ErrWrap "get internal secret" e)
  | inr secret =>
      image ← wrap "failed to get initImage" (onV (GetInitImage operatorVersion cr));
      put ← try (retry_OnError (fun e => IsAlreadyExists e || IsConflict e) (put_sts c sfs newAnnotations hashes secret image));
      match put with
      | inl e => if IsNotFound e || errors_Is e errStsWillBeDeleted then mret tt else fail (ErrWrap "failed to create or update sts" e)
      | inr _ =>
          if negb (bool_decide (spec_UpdateStrategy (cluster_Spec cr) = SmartUpdateStatefulSetStrategyType)) then mret tt else
          if smart then wrap "smart update" (smartUpdate (sa_Name sfs)) else mret tt
      end
  end.
End update.
