(* ===== verification/Templates.v ===== *)
(** * The pods of the components: [pkg/pxc/app], [pkg/pxc/app/statefulset]

    The containers and volumes of the database, of HAProxy and of ProxySQL, as they depend on the custom
    resource and on its version.  Probes, lifecycle hooks and security contexts of the containers
    are left out; they are passed on as they are. *)

From S2P Require Import Prelude GoStrings ApiTypes KubeApi Naming Secrets Users ClusterStatus ApiDefaults BackupController Services Config StatefulSet.

(** ** Names and helpers ([app.go], [k8s.go], [volumes.go], [pvc.go]) *)

Definition DataVolumeName : string := "datadir".
Definition BinVolumeName : string := "bin".
Definition BinVolumeMountPath : string := "/opt/percona".
Definition BackupLogDir : string := "/var/log/xtrabackup".
Definition VaultSecretVolumeName : string := "vault-keyring-secret".
Definition VaultSecretMountPath : string := "/etc/mysql/vault-keyring-secret".
Definition VaultKeyringConfig : string := "keyring_vault.conf".
Definition haproxyDataVolumeName : string := "haproxydata".
Definition haConfigEnvVarName : string := "HA_SERVER_OPTIONS".
Definition proxyDataVolumeName : string := "proxydata".
Definition proxyConfigVolumeName : string := "config".
Definition SchedulerConfigPath : string := "/tmp/scheduler-config.toml".

Definition mount (name path : string) : VolumeMount := mkMount name path "" false.
Definition env (name value : string) : EnvVar := mkEnv name (EnvValue value).
Definition env_secret (name secret key : string) : EnvVar := mkEnv name (EnvSecret secret key false).
Definition env_field (name path : string) : EnvVar := mkEnv name (EnvField path).

(** What is appended under a condition. *)
Definition also {A} (b : bool) (l : list A) : list A := if b then l else [].

Definition GetConfigVolumes (cvName cmName : string) : PodVolume := mkPodVolume cvName (VolConfigMap cmName true).
Definition GetSecretVolumes (cvName cmName : string) (opt : bool) : PodVolume := mkPodVolume cvName (VolSecret cmName opt).
Definition GetTmpVolume (cvName : string) : PodVolume := mkPodVolume cvName VolEmptyDir.

Definition PVCs (name : string) (pvc : PVCSpec) : list ClaimTemplate := [mkClaimTemplate name ∅ pvc].

(** A volume without a source is an empty directory to the server. *)
Definition NewVolumes (podSpec : PodSpec) (dataVolumeName : string) : list PodVolume * list ClaimTemplate :=
  match pod_VolumeSpec podSpec with
  | None => ([], [])
  | Some v =>
      match vol_PersistentVolumeClaim v with
      | Some pvc => ([], PVCs dataVolumeName pvc)
      | None => ([mkPodVolume dataVolumeName (match vol_HostPath v with Some h => VolOther h | None => VolEmptyDir end)], [])
      end
  end.

Definition ContainsVolume (vs : list PodVolume) (name : string) : bool := existsb (fun v => bool_decide (pv_Name v = name)) vs.

(** The hash of the cluster's identity ([hash/fnv]), and whether the feature gate of the backup
    sidecar is on. *)
Class TemplateLib := { fnv32 : string -> Z; XtrabackupSidecar : bool }.

Section templates.
Context `{VersionLib}.

(** [if cr.CompareVersionWith(v) >= 0] around something to append. *)
Definition since {A} (cr : PerconaXtraDBCluster) (v : string) (l : list A) : res (list A) := b ← from_version cr v; Ok (also b l).

Definition label_claims (cr : PerconaXtraDBCluster) (labels : gmap string string) (l : list ClaimTemplate) : res (list ClaimTemplate) :=
  b16 ← from_version cr "1.16.0";
  Ok (if b16 : bool then map (fun c => c <| clm_Labels := labels |>) l else l).

(** ** Init containers ([init.go]) *)

Definition EntrypointInitContainer (cr : PerconaXtraDBCluster) (initImageName volumeName : string) : res Container :=
  pxc ← deref (spec_PXC (cluster_Spec cr));
  _ ← CompareVersionWith cr "1.16.0";
  Ok (mkContainer "pxc-init" initImageName (pod_ImagePullPolicy (pxc_PodSpec pxc)) ["/pxc-init-entrypoint.sh"] [] [] [] []
        [mount volumeName "/var/lib/mysql"] (default (pod_Resources (pxc_PodSpec pxc)) (spec_InitContainerResources (cluster_Spec cr))) "").

(** The containers that put the operator's scripts into the volume of a proxy. *)
Definition proxy_entrypoint (cr : PerconaXtraDBCluster) (initImageName name script : string) (podSpec : PodSpec) : res Container :=
  _ ← CompareVersionWith cr "1.16.0";
  resources ← deref (spec_InitContainerResources (cluster_Spec cr));
  Ok (mkContainer name initImageName (pod_ImagePullPolicy podSpec) [script] [] [] [] []
        [mount BinVolumeName BinVolumeMountPath] resources "").

Definition HaproxyEntrypointInitContainer (cr : PerconaXtraDBCluster) (initImageName : string) : res Container :=
  h ← deref (spec_HAProxy (cluster_Spec cr));
  proxy_entrypoint cr initImageName "haproxy-init" "/haproxy-init-entrypoint.sh" (ha_PodSpec h).

Definition ProxySQLEntrypointInitContainer (cr : PerconaXtraDBCluster) (initImageName : string) : res Container :=
  p ← deref (spec_ProxySQL (cluster_Spec cr));
  proxy_entrypoint cr initImageName "proxysql-init" "/proxysql-init-entrypoint.sh" (ps_PodSpec p).

Definition proxyInitContainers (cr : PerconaXtraDBCluster) (initImageName : string) : res (list Container) :=
  b13 ← from_version cr "1.13.0";
  if b13 : bool then c ← EntrypointInitContainer cr initImageName BinVolumeName; Ok [c] else Ok [].

Definition node_InitContainers (cr : PerconaXtraDBCluster) (initImageName : string) : res (list Container) :=
  c ← EntrypointInitContainer cr initImageName DataVolumeName; Ok [c].

Definition with_entrypoint (cr : PerconaXtraDBCluster) (initImageName : string) (entrypoint : PerconaXtraDBCluster -> string -> res Container) :
    res (list Container) :=
  inits ← proxyInitContainers cr initImageName;
  b15 ← from_version cr "1.15.0";
  if b15 : bool then c ← entrypoint cr initImageName; Ok (inits ++ [c]) else Ok inits.

Definition haproxy_InitContainers (cr : PerconaXtraDBCluster) (initImageName : string) : res (list Container) :=
  with_entrypoint cr initImageName HaproxyEntrypointInitContainer.
Definition proxysql_InitContainers (cr : PerconaXtraDBCluster) (initImageName : string) : res (list Container) :=
  with_entrypoint cr initImageName ProxySQLEntrypointInitContainer.

(** ** PMM ([pmm.go]) *)

Definition pmm_ports : list (string * Z) := map (fun p => ("", p)) [7777; 30100; 30101; 30102; 30103; 30104; 30105].

Definition pmm_pass_key (useAPI : bool) : string := if useAPI then PMMServerKey else PMMServer.
Definition pmm_user (user : string) (useAPI : bool) : string := if useAPI then "api_key" else user.

Definition pmmEnvServerUser (user secrets : string) (useAPI : bool) : list EnvVar :=
  [env "PMM_USER" (pmm_user user useAPI); env_secret "PMM_PASSWORD" secrets (pmm_pass_key useAPI)].

Definition pmmAgentEnvs (pmmServerHost pmmServerUser secrets : string) (useAPI : bool) : list EnvVar :=
  [env_field "POD_NAME" "metadata.name"; env_field "POD_NAMESPASE" "metadata.namespace";
   env "PMM_AGENT_SERVER_ADDRESS" pmmServerHost; env "PMM_AGENT_SERVER_USERNAME" (pmm_user pmmServerUser useAPI);
   env_secret "PMM_AGENT_SERVER_PASSWORD" secrets (pmm_pass_key useAPI);
   env "PMM_AGENT_LISTEN_PORT" "7777"; env "PMM_AGENT_PORTS_MIN" "30100"; env "PMM_AGENT_PORTS_MAX" "30105";
   env "PMM_AGENT_CONFIG_FILE" "/usr/local/percona/pmm2/config/pmm-agent.yaml"; env "PMM_AGENT_SERVER_INSECURE_TLS" "1";
   env "PMM_AGENT_LISTEN_ADDRESS" "0.0.0.0"; env "PMM_AGENT_SETUP_METRICS_MODE" "push"; env "PMM_AGENT_SETUP" "1";
   env "PMM_AGENT_SETUP_FORCE" "1"; env "PMM_AGENT_SETUP_NODE_TYPE" "container"].

(** [len(envVarsSecret.Data["PMM_PREFIX"]) > 0] *)
Definition has_prefix (envVarsSecret : Secret) : bool := negb (bool_decide (data_get envVarsSecret "PMM_PREFIX" = "")).

Definition PMMClient (cr : PerconaXtraDBCluster) (spec : PMMSpec) (secret envVarsSecret : Secret) : res Container :=
  let name := meta_Name (sec_Meta secret) in
  let useAPI := pmm_UseAPI secret in
  b14 ← from_version cr "1.14.0";
  _ ← CompareVersionWith cr "1.17.0";
  let node := if b14 && has_prefix envVarsSecret then "$(PMM_PREFIX)$(POD_NAMESPASE)-$(POD_NAME)" else "$(POD_NAMESPASE)-$(POD_NAME)" in
  Ok (mkContainer "pmm-client" (pmm_Image spec) (pmm_ImagePullPolicy spec) [] []
        ([env "PMM_SERVER" (pmm_ServerHost spec)]
         ++ also (negb (bool_decide (pmm_ServerUser spec = ""))) (pmmEnvServerUser (pmm_ServerUser spec) name useAPI)
         ++ [env "CLIENT_PORT_LISTEN" "7777"; env "CLIENT_PORT_MIN" "30100"; env "CLIENT_PORT_MAX" "30105"]
         ++ pmmAgentEnvs (pmm_ServerHost spec) (pmm_ServerUser spec) name useAPI ++ [env "PMM_AGENT_SETUP_NODE_NAME" node])
        [] pmm_ports [mount BinVolumeName "/var/lib/mysql"] (mkResources ∅ ∅) "").

Definition PMMAgentScript (cr : PerconaXtraDBCluster) (dbType : string) : res (list EnvVar) :=
  b13 ← from_version cr "1.13.0";
  if b13 : bool then Ok [env "PMM_AGENT_PRERUN_SCRIPT" "/var/lib/mysql/pmm-prerun.sh"] else
  let args := " $(PMM_ADMIN_CUSTOM_PARAMS) --skip-connection-check --metrics-mode=push" +:+
              " --username=$(DB_USER) --password=$(DB_PASSWORD) --cluster=$(CLUSTER_NAME)" +:+
              (if bool_decide (dbType = "haproxy") then ""
               else " --service-name=$(PMM_AGENT_SETUP_NODE_NAME) --host=$(POD_NAME) --port=$(DB_PORT)") +:+
              (if bool_decide (dbType = "mysql") then " $(DB_ARGS)" else "") +:+
              (if bool_decide (dbType = "haproxy") then " $(PMM_AGENT_SETUP_NODE_NAME)" else "") in
  Ok [env "PMM_AGENT_PRERUN_SCRIPT" ("pmm-admin status --wait=10s;" +:+ nl +:+ "pmm-admin add $(DB_TYPE)" +:+ args +:+ ";" +:+ nl +:+
        "pmm-admin annotate --service-name=$(PMM_AGENT_SETUP_NODE_NAME) 'Service restarted'")].

Definition PMM3Client (cr : PerconaXtraDBCluster) (spec : PMMSpec) (secret envVarsSecret : Secret) : Container :=
  let name := meta_Name (sec_Meta secret) in
  let clusterName := if bool_decide (pmm_CustomClusterName spec = "") then cluster_Name cr else pmm_CustomClusterName spec in
  mkContainer "pmm-client" (pmm_Image spec) (pmm_ImagePullPolicy spec) [] []
    [env_field "POD_NAME" "metadata.name"; env_field "POD_NAMESPACE" "metadata.namespace";
     env "PMM_AGENT_SERVER_ADDRESS" (pmm_ServerHost spec); env "PMM_AGENT_SERVER_USERNAME" "service_token";
     env_secret "PMM_AGENT_SERVER_PASSWORD" name PMMServerToken;
     env "PMM_AGENT_LISTEN_PORT" "7777"; env "PMM_AGENT_PORTS_MIN" "30100"; env "PMM_AGENT_PORTS_MAX" "30105";
     env "PMM_AGENT_CONFIG_FILE" "/usr/local/percona/pmm/config/pmm-agent.yaml"; env "PMM_AGENT_SERVER_INSECURE_TLS" "1";
     env "PMM_AGENT_LISTEN_ADDRESS" "0.0.0.0"; env "PMM_AGENT_SETUP_METRICS_MODE" "push"; env "PMM_AGENT_SETUP" "1";
     env "PMM_AGENT_SETUP_FORCE" "1"; env "PMM_AGENT_SETUP_NODE_TYPE" "container";
     env "PMM_AGENT_SIDECAR" "true"; env "PMM_AGENT_SIDECAR_SLEEP" "5"; env "PMM_AGENT_PATHS_TEMPDIR" "/tmp/pmm";
     env "PMM_AGENT_PRERUN_SCRIPT" "/var/lib/mysql/pmm-prerun.sh"; env "DB_CLUSTER" "pxc"; env "DB_USER" Monitor;
     env_secret "DB_PASSWORD" name Monitor; env "DB_HOST" "localhost"; env "CLUSTER_NAME" clusterName;
     env "PMM_AGENT_SETUP_NODE_NAME"
       (if has_prefix envVarsSecret then "$(PMM_PREFIX)$(POD_NAMESPACE)-$(POD_NAME)" else "$(POD_NAMESPACE)-$(POD_NAME)")]
    [] pmm_ports [mount BinVolumeName "/var/lib/mysql"] (pmm_Resources spec) "".

Definition pmm_cluster_name (cr : PerconaXtraDBCluster) (spec : PMMSpec) : res string :=
  b18 ← from_version cr "1.18.0";
  Ok (if b18 && negb (bool_decide (pmm_CustomClusterName spec = "")) then pmm_CustomClusterName spec else cluster_Name cr).

Definition pmm2_refused : error :=
  ErrNew "can't enable PMM2: either pmmserverkey key doesn't exist in the secrets, or secrets and internal secrets are out of sync".

Definition sidecar_envs : list EnvVar := [env "PMM_AGENT_SIDECAR" "true"; env "PMM_AGENT_SIDECAR_SLEEP" "5"].
Definition tempdir_env : list EnvVar := [env "PMM_AGENT_PATHS_TEMPDIR" "/tmp"].
Definition has_token (secret : Secret) : bool := negb (bool_decide (data_get secret PMMServerToken = "")).

(** The first variable of a name gets another value. *)
Fixpoint set_env (name value : string) (l : list EnvVar) : list EnvVar :=
  match l with
  | [] => []
  | e :: l => if bool_decide (en_Name e = name) then mkEnv name (EnvValue value) :: l else e :: set_env name value l
  end.
End templates.

(** ** The database ([node.go]) *)

Definition libJemallocSo1 : string := "/usr/lib64/libjemalloc.so.1".
Definition libJemallocSo2 : string := "/usr/lib64/libjemalloc.so.2".
Definition libTcmallocPath : string := "/usr/lib64/libtcmalloc.so".

(** [SplitN(tag, ".", 3)]: the first two parts, if there are that many. *)
Definition first_two (tag : string) : option (string * string) :=
  match Split tag "." with a :: b :: _ => Some (a, b) | _ => None end.

Definition jemallocPathForPXCImage (pxcImage : string) : string :=
  let parts := Split pxcImage ":" in
  let tag := ToLower (default "" (last parts)) in
  if bool_decide (length parts < 2)%nat || bool_decide (tag = "") then libJemallocSo2 else
  if Contains tag "pxc8.0" then libJemallocSo1 else
  if Contains tag "pxc8.4" || Contains tag "pxc9" then libJemallocSo2 else
  match first_two tag with
  | None => libJemallocSo2
  | Some (a, b) =>
      match Atoi a, Atoi b with
      | Ok major, Ok minor => if bool_decide (major = 8) && bool_decide (minor = 0) then libJemallocSo1 else libJemallocSo2
      | _, _ => libJemallocSo2
      end
  end.

(** The parts between colons, without empty ones: runs of colons become one, and those at the ends
    go away. *)
Definition clean_preload (v : string) : string := Join (filter (fun p => p <> "") (Split v ":")) ":".

Section node.
Context {W : Type} `{SecretClient W} `{VersionLib} `{TemplateLib}.

Definition LDPreloadEnv (cr : PerconaXtraDBCluster) (pxc : PXCSpec) : M W (list EnvVar) :=
  let a := ToLower (pxc_MySQLAllocator pxc) in
  let v := if bool_decide (a = "jemalloc") then ":" +:+ jemallocPathForPXCImage (pod_Image (pxc_PodSpec pxc))
           else if bool_decide (a = "tcmalloc") then ":" +:+ libTcmallocPath else "" in
  r ← try (sc_get (mkNN (cluster_Namespace cr) (pod_EnvVarsSecretName (pxc_PodSpec pxc))));
  let v := match r with inr s => default v (data_of s !! "LD_PRELOAD") | inl _ => v end in
  mret (also (negb (bool_decide (v = ""))) [env "LD_PRELOAD" (clean_preload v)]).

(** Seven digits at most. *)
Definition server_id (cr : PerconaXtraDBCluster) : string := str_take 7 (pretty (fnv32 (meta_UID (cluster_Meta cr)))).

Definition component_service (sfs : StatefulApp) (suffix : string) : string :=
  default "" (sa_Labels sfs !! "app.kubernetes.io/instance") +:+ suffix.

Definition node_mounts : list VolumeMount :=
  [mount DataVolumeName "/var/lib/mysql"; mount "config" "/etc/percona-xtradb-cluster.conf.d"; mount "tmp" "/tmp"; mount "ssl" "/etc/mysql/ssl";
   mount "ssl-internal" "/etc/mysql/ssl-internal"; mount "mysql-users-secret-file" "/etc/mysql/mysql-users-secret";
   mount "auto-config" "/etc/my.cnf.d"; mount VaultSecretVolumeName VaultSecretMountPath].

Definition hook_mount : list VolumeMount := [mount "hookscript" "/opt/percona/hookscript"].

Definition log_enabled (cr : PerconaXtraDBCluster) : bool :=
  match spec_LogCollector (cluster_Spec cr) with Some l => lc_Enabled l | None => false end.

Definition node_envs (sfs : StatefulApp) (spec : PodSpec) (secrets : string) (cr : PerconaXtraDBCluster) : res (list EnvVar) :=
  b19 ← from_version cr "1.19.0";
  let plugin := if negb b19 && ProxySQLEnabled cr then "mysql_native_password" else "caching_sha2_password" in
  notify ← since cr "1.16.0" [env "MYSQL_NOTIFY_SOCKET" "/var/lib/mysql/notify.sock"; env "MYSQL_STATE_FILE" "/var/lib/mysql/mysql.state"];
  Ok ([env "PXC_SERVICE" (component_service sfs ("-" +:+ default "" (sa_Labels sfs !! "app.kubernetes.io/component") +:+ "-unready"));
       env "MONITOR_HOST" "%"; env_secret "MYSQL_ROOT_PASSWORD" secrets Root; env_secret "XTRABACKUP_PASSWORD" secrets Xtrabackup;
       env_secret "MONITOR_PASSWORD" secrets Monitor]
      ++ also (log_enabled cr) [env "LOG_DATA_DIR" "/var/lib/mysql"; env "IS_LOGCOLLECTOR" "yes"]
      ++ [env "CLUSTER_HASH" (server_id cr); env_secret "OPERATOR_ADMIN_PASSWORD" secrets Operator;
          env "LIVENESS_CHECK_TIMEOUT" (pretty (pr_TimeoutSeconds (pod_LivenessProbes spec)));
          env "READINESS_CHECK_TIMEOUT" (pretty (pr_TimeoutSeconds (pod_ReadinessProbes spec)));
          env "DEFAULT_AUTHENTICATION_PLUGIN" plugin] ++ notify).

Definition node_AppContainer (sfs : StatefulApp) (spec : PodSpec) (secrets : string) (cr : PerconaXtraDBCluster) : M W Container :=
  pxc ← lift (deref (spec_PXC (cluster_Spec cr)));
  envs ← lift (node_envs sfs spec secrets cr);
  hook ← lift (since cr "1.11.0" (also (negb (bool_decide (pod_HookScript (pxc_PodSpec pxc) = ""))) hook_mount));
  initFile ← lift (since cr "1.14.0" [mount "mysql-init-file" "/etc/mysql/init-file"]);
  b19 ← lift (from_version cr "1.19.0");
  preload ← (if b19 : bool then LDPreloadEnv cr pxc else mret []);
  mret (mkContainer "pxc" (pod_Image spec) (pod_ImagePullPolicy spec) ["/var/lib/mysql/pxc-entrypoint.sh"] ["mysqld"]
          (envs ++ preload) [(pod_EnvVarsSecretName (pxc_PodSpec pxc), true)]
          [("mysql", 3306); ("sst", 4444); ("write-set", 4567); ("ist", 4568); ("mysql-admin", 33062); ("mysqlx", 33060)]
          (node_mounts ++ hook ++ initFile ++ also b19 (ExtraPVCVolumeMounts (pod_ExtraPVCs spec))) (pod_Resources spec) "").

Definition node_LogCollectorContainer (logRsecrets : string) (cr : PerconaXtraDBCluster) : res (list Container) :=
  match spec_LogCollector (cluster_Spec cr) with
  | None => Panic
  | Some spec =>
      let data := [mount DataVolumeName "/var/lib/mysql"] in
      Ok [mkContainer "logs" (lc_Image spec) (lc_ImagePullPolicy spec) [] []
            [env "LOG_DATA_DIR" "/var/lib/mysql"; env_field "POD_NAMESPASE" "metadata.namespace"; env_field "POD_NAME" "metadata.name"]
            [(spec_LogCollectorSecretName (cluster_Spec cr), true)] []
            (data ++ also (negb (bool_decide (lc_Configuration spec = ""))) [mount "logcollector-config" "/etc/fluentbit/custom"]
                  ++ also (negb (bool_decide (lc_HookScript spec = ""))) hook_mount)
            (lc_Resources spec) "";
          mkContainer "logrotate" (lc_Image spec) (lc_ImagePullPolicy spec) [] ["logrotate"]
            [env "SERVICE_TYPE" "mysql"; env_secret "MONITOR_PASSWORD" logRsecrets Monitor] [] [] data (lc_Resources spec) ""]
  end.

Definition node_XtrabackupContainer (cr : PerconaXtraDBCluster) : option Container :=
  if negb XtrabackupSidecar then None else
  b ← spec_Backup (cluster_Spec cr);
  let resources := {[ "cpu" := 200; "memory" := 512 * 1024 * 1024 ]} in
  Some (mkContainer "xtrabackup" (bs_Image b) (bs_ImagePullPolicy b) ["/var/lib/mysql/xtrabackup-server-sidecar"] []
          [env_field "POD_NAMESPACE" "metadata.namespace"; env_secret "XTRABACKUP_USER_PASS" (spec_SecretsName (cluster_Spec cr)) Xtrabackup;
           env "VAULT_KEYRING_PATH" (path_Join [VaultSecretMountPath; VaultKeyringConfig])]
          [] [("grpc", 6450)]
          [mount DataVolumeName "/var/lib/mysql"; mount "backup-logs" BackupLogDir; mount "tmp" "/tmp"; mount "vault-keyring-secret" VaultSecretMountPath]
          (mkResources resources resources) "").

Definition pmm3PXCNodeEnvVars (params : string) : list EnvVar :=
  [env "DB_PORT" "33062"; env "DB_TYPE" "mysql"; env "DB_ARGS" "--query-source=perfschema"; env "PMM_ADMIN_CUSTOM_PARAMS" params].

(** Reading the secret with environment variables; a missing one is empty. *)
Definition env_vars_secret (cr : PerconaXtraDBCluster) (name : string) : M W Secret :=
  r ← try (sc_get (mkNN (cluster_Namespace cr) name));
  match r with
  | inr s => mret s
  | inl e => if IsNotFound e then mret (mkSecret (mkMeta "" "" "" ∅ ∅ [] 0 0 None) None) else fail (ErrWrap "get env vars secret" e)
  end.

Definition data_mount : list VolumeMount := [mount DataVolumeName "/var/lib/mysql"].

Definition node_pmm2 (cr : PerconaXtraDBCluster) (pxc : PXCSpec) (spec : PMMSpec) (secret envVars : Secret) : res Container :=
  clusterName ← pmm_cluster_name cr spec;
  if negb (pmm_HasSecret secret) then Err pmm2_refused else
  ct ← PMMClient cr spec secret envVars;
  b2 ← from_version cr "1.2.0";
  b7 ← from_version cr "1.7.0";
  b9 ← from_version cr "1.9.0";
  script ← PMMAgentScript cr "mysql";
  sidecar ← since cr "1.10.0" sidecar_envs;
  tempdir ← since cr "1.14.0" tempdir_env;
  let envs := ctr_Env ct ++ [env "DB_TYPE" "mysql"; env "DB_USER" Monitor; env_secret "DB_PASSWORD" (meta_Name (sec_Meta secret)) Monitor;
                             env "DB_ARGS" "--query-source=perfschema"]
              ++ also b2 [env "DB_CLUSTER" "pxc"; env "DB_HOST" "localhost"; env "DB_PORT" "3306"] in
  let envs := if b7 : bool then set_env "DB_PORT" "33062" envs ++ [env "CLUSTER_NAME" clusterName; env "PMM_ADMIN_CUSTOM_PARAMS" (pmm_PxcParams spec)] ++ script
              else envs in
  Ok (ct <| ctr_Env := envs ++ sidecar ++ tempdir |> <| ctr_Resources := if b2 : bool then pmm_Resources spec else ctr_Resources ct |>
         <| ctr_EnvFrom := if b9 : bool then [(pod_EnvVarsSecretName (pxc_PodSpec pxc), true)] else ctr_EnvFrom ct |>
         <| ctr_Mounts := data_mount |>).

Definition node_PMMContainer (secret : Secret) (cr : PerconaXtraDBCluster) : M W (option Container) :=
  match spec_PMM (cluster_Spec cr) with
  | None => mret None
  | Some spec =>
      if negb (pmm_Enabled spec) then mret None else
      pxc ← lift (deref (spec_PXC (cluster_Spec cr)));
      envVars ← env_vars_secret cr (pod_EnvVarsSecretName (pxc_PodSpec pxc));
      if has_token secret then
        let ct := PMM3Client cr spec secret envVars in
        mret (Some (ct <| ctr_Env ::= fun l => l ++ pmm3PXCNodeEnvVars (pmm_PxcParams spec) |> <| ctr_Mounts := data_mount |>
                       <| ctr_EnvFrom := [(pod_EnvVarsSecretName (pxc_PodSpec pxc), true)] |>))
      else ct ← lift (node_pmm2 cr pxc spec secret envVars); mret (Some ct)
  end.

(** Before 1.15.0 the certificates may be missing when unsafe configurations are allowed. *)
Definition ssl_volume (podSpec : PodSpec) (cr : PerconaXtraDBCluster) : res PodVolume :=
  en ← TLSEnabled (cluster_Spec cr);
  b15 ← from_version cr "1.15.0";
  Ok (GetSecretVolumes "ssl" (pod_SSLSecretName podSpec) (if b15 : bool then negb en else spec_AllowUnsafeConfig (cluster_Spec cr))).

Definition node_own_volumes (podSpec : PodSpec) (cr : PerconaXtraDBCluster) (config : PodVolume) : res (list PodVolume) :=
  ssl ← ssl_volume podSpec cr;
  let n := cluster_Name cr in
  let log := spec_LogCollector (cluster_Spec cr) in
  let text (f : LogCollectorSpec -> string) := match log with Some l => negb (bool_decide (f l = "")) | None => false end in
  let hook := match spec_PXC (cluster_Spec cr) with Some p => negb (bool_decide (pod_HookScript (pxc_PodSpec p) = "")) | None => false end in
  hooks ← since cr "1.11.0" (also hook [GetConfigVolumes "hookscript" (HookScriptConfigMapName n "pxc")]
                             ++ also (text lc_HookScript) [GetConfigVolumes "hookscript" (HookScriptConfigMapName n "logcollector")]);
  initFile ← since cr "1.14.0" [GetSecretVolumes "mysql-init-file" (n +:+ "-mysql-init") true];
  Ok ([GetTmpVolume "tmp"; config; GetSecretVolumes "ssl-internal" (pod_SSLInternalSecretName podSpec) true; ssl;
       GetConfigVolumes "auto-config" (AutoTuneConfigMapName n "pxc"); GetSecretVolumes VaultSecretVolumeName (pod_VaultSecretName podSpec) true;
       GetSecretVolumes "mysql-users-secret-file" ("internal-" +:+ n) false]
      ++ also (text lc_Configuration) [GetConfigVolumes "logcollector-config" (CustomConfigMapName n "logcollector")] ++ hooks ++ initFile).

Definition node_Volumes (sfs : StatefulApp) (podSpec : PodSpec) (cr : PerconaXtraDBCluster) (vg : string -> string -> bool -> M W PodVolume) :
    M W (option (list PodVolume * list ClaimTemplate)) :=
  let vol := NewVolumes podSpec DataVolumeName in
  config ← vg "config" (CustomConfigMapName (cluster_Name cr) "pxc") true;
  own ← lift (node_own_volumes podSpec cr config);
  claims ← lift (label_claims cr (sa_Labels sfs) vol.2);
  mret (Some (vol.1 ++ own, claims)).
End node.

(** ** HAProxy ([haproxy.go]) *)

Section haproxy.
Context {W : Type} `{SecretClient W} `{VersionLib} `{IniLib}.

Definition bin_mount : list VolumeMount := [mount BinVolumeName BinVolumeMountPath].
Definition haproxy_config_mounts : list VolumeMount := [mount "haproxy-custom" "/etc/haproxy-custom/"; mount "haproxy-auto" "/etc/haproxy/pxc"].
Definition users_mount : list VolumeMount := [mount "mysql-users-secret-file" "/etc/mysql/mysql-users-secret"].
Definition haproxy_env_mount (h : HAProxySpec) : list VolumeMount := [mount (pod_EnvVarsSecretName (ha_PodSpec h)) "/etc/mysql/haproxy-env-secret"].
Definition proxy_protocol_env (hasKey : bool) : list EnvVar := also hasKey [env "IS_PROXY_PROTOCOL" "yes"].

Definition haproxy_AppContainer (sfs : StatefulApp) (spec : PodSpec) (secrets : string) (cr : PerconaXtraDBCluster) : res Container :=
  h ← deref (spec_HAProxy (cluster_Spec cr));
  b15 ← from_version cr "1.15.0";
  b7 ← from_version cr "1.7.0";
  stats ← since cr "1.17.0" [("stats", 8404)];
  hook ← since cr "1.11.0" (also (negb (bool_decide (pod_HookScript (ha_PodSpec h) = ""))) hook_mount);
  hasKey ← wrap_res "check if congfig has proxy_protocol_networks key" (ConfigHasKey cr "mysqld" "proxy_protocol_networks");
  extra ← since cr "1.19.0" (ExtraPVCVolumeMounts (pod_ExtraPVCs spec));
  Ok (mkContainer "haproxy" (pod_Image spec) (pod_ImagePullPolicy spec)
        (also b15 ["/opt/percona/haproxy-entrypoint.sh"]) (also b15 ["haproxy"])
        ([env "PXC_SERVICE" (component_service sfs "-pxc")] ++ also (negb b7) [env_secret "MONITOR_PASSWORD" secrets Monitor]
         ++ [env "LIVENESS_CHECK_TIMEOUT" (pretty (pr_TimeoutSeconds (pod_LivenessProbes (ha_PodSpec h))));
             env "READINESS_CHECK_TIMEOUT" (pretty (pr_TimeoutSeconds (pod_ReadinessProbes (ha_PodSpec h))))] ++ proxy_protocol_env hasKey)
        [(pod_EnvVarsSecretName (ha_PodSpec h), true)]
        ([("mysql", 3306); ("mysql-replicas", 3307); ("proxy-protocol", 3309); ("mysql-admin", 33062); ("mysqlx", 33060)] ++ stats)
        (haproxy_config_mounts ++ also b15 bin_mount ++ users_mount ++ haproxy_env_mount h ++ hook ++ extra) (pod_Resources spec) "").

Definition buildHAProxyHealthCheckEnvValue (healthCheck : option HAProxyHealthCheckSpec) : string :=
  let interval := default 10000 (healthCheck ≫= hc_Interval) in
  let rise := default 1 (healthCheck ≫= hc_Rise) in
  let fall := default 2 (healthCheck ≫= hc_Fall) in
  "resolvers kubernetes check inter " +:+ pretty interval +:+ " rise " +:+ pretty rise +:+ " fall " +:+ pretty fall +:+
  " weight 1 on-marked-down shutdown-sessions".

Definition haConfigFromEnvSecret (cr : PerconaXtraDBCluster) (h : HAProxySpec) (envName : string) : M W string :=
  let secretName := pod_EnvVarsSecretName (ha_PodSpec h) in
  if bool_decide (secretName = "") then mret "" else
  r ← try (sc_get (mkNN (cluster_Namespace cr) secretName));
  match r with
  | inr s => mret (data_get s envName)
  | inl e => if IsNotFound e then mret "" else fail e
  end.

Definition health_check_env (cr : PerconaXtraDBCluster) (h : HAProxySpec) : M W (list EnvVar) :=
  b19 ← lift (from_version cr "1.19.0");
  if negb b19 then mret [] else
  config ← wrap "check ha config is overridden by EnvVarsSecret" (haConfigFromEnvSecret cr h haConfigEnvVarName);
  mret [env haConfigEnvVarName (if bool_decide (config = "") then buildHAProxyHealthCheckEnvValue (ha_HealthCheck h) else config)].

Definition only_readers_env (cr : PerconaXtraDBCluster) (h : HAProxySpec) : res (list EnvVar) :=
  b15 ← from_version cr "1.15.0";
  if negb b15 then Ok [] else
  _ ← deref (ha_ExposeReplicas h);
  Ok [env "REPLICAS_SVC_ONLY_READERS" (if ha_OnlyReaders h then "true" else "false")].

Definition haproxy_SidecarContainers (sfs : StatefulApp) (spec : PodSpec) (secrets : string) (cr : PerconaXtraDBCluster) : M W (list Container) :=
  b15 ← lift (from_version cr "1.15.0");
  hasKey ← lift (wrap_res "check if config has proxy_protocol_networks key" (ConfigHasKey cr "mysqld" "proxy_protocol_networks"));
  b7 ← lift (from_version cr "1.7.0");
  b9 ← lift (from_version cr "1.9.0");
  h ← lift (deref (spec_HAProxy (cluster_Spec cr)));
  readers ← lift (only_readers_env cr h);
  health ← health_check_env cr h;
  protocol ← lift (since cr "1.18.0" ["-protocol=$(PEER_LIST_SRV_PROTOCOL)"]);
  let script := if b15 : bool then ["/opt/percona/peer-list"; "-on-change=/opt/percona/haproxy_add_pxc_nodes.sh"]
                else ["/usr/bin/peer-list"; "-on-change=/usr/bin/add_pxc_nodes.sh"] in
  mret [mkContainer "pxc-monit" (pod_Image spec) (pod_ImagePullPolicy spec) (also b15 ["/opt/percona/haproxy-entrypoint.sh"])
          (script ++ ["-service=$(PXC_SERVICE)"] ++ protocol)
          ([env "PXC_SERVICE" (component_service sfs "-pxc")] ++ proxy_protocol_env hasKey
           ++ also (negb b7) [env_secret "MONITOR_PASSWORD" secrets Monitor] ++ readers ++ health)
          (also b9 [(pod_EnvVarsSecretName (ha_PodSpec h), true)]) []
          (haproxy_config_mounts ++ also b7 users_mount ++ also b9 (haproxy_env_mount h) ++ also b15 bin_mount) (pod_SidecarResources spec) ""].

Definition pmm3HaproxyEnvVars (secretName : string) : list EnvVar :=
  [env "DB_TYPE" "haproxy"; env "MONITOR_USER" Monitor; env_secret "MONITOR_PASSWORD" secretName Monitor;
   env "PMM_ADMIN_CUSTOM_PARAMS" "--listen-port=8404"; env "DB_PORT" "3306"].

Definition haproxy_pmm2 (cr : PerconaXtraDBCluster) (h : HAProxySpec) (spec : PMMSpec) (secret envVars : Secret) : res Container :=
  clusterName ← pmm_cluster_name cr spec;
  if negb (pmm_HasSecret secret) then Err pmm2_refused else
  ct ← PMMClient cr spec secret envVars;
  let name := meta_Name (sec_Meta secret) in
  script ← PMMAgentScript cr "haproxy";
  sidecar ← since cr "1.10.0" sidecar_envs;
  b14 ← from_version cr "1.14.0";
  Ok (ct <| ctr_Env ::= fun l => l
              ++ [env "DB_TYPE" "haproxy"; env "MONITOR_USER" Monitor; env_secret "MONITOR_PASSWORD" name Monitor; env "DB_USER" Monitor;
                  env_secret "DB_PASSWORD" name Monitor; env "DB_CLUSTER" "pxc"; env "DB_HOST" "localhost"; env "DB_PORT" "3306";
                  env "CLUSTER_NAME" clusterName; env "PMM_ADMIN_CUSTOM_PARAMS" "--listen-port=8404"]
              ++ script ++ sidecar ++ also b14 tempdir_env |>
         <| ctr_EnvFrom := if b14 : bool then [(pod_EnvVarsSecretName (ha_PodSpec h), true)] else ctr_EnvFrom ct |>
         <| ctr_Resources := pmm_Resources spec |>).

Definition haproxy_PMMContainer (secret : Secret) (cr : PerconaXtraDBCluster) : M W (option Container) :=
  match spec_PMM (cluster_Spec cr) with
  | None => mret None
  | Some spec =>
      if negb (pmm_Enabled spec) then mret None else
      h ← lift (deref (spec_HAProxy (cluster_Spec cr)));
      envVars ← env_vars_secret cr (pod_EnvVarsSecretName (ha_PodSpec h));
      if has_token secret then
        let ct := PMM3Client cr spec secret envVars in
        mret (Some (ct <| ctr_Env ::= fun l => l ++ pmm3HaproxyEnvVars (meta_Name (sec_Meta secret)) |>
                       <| ctr_EnvFrom := [(pod_EnvVarsSecretName (ha_PodSpec h), true)] |>))
      else ct ← lift (haproxy_pmm2 cr h spec secret envVars); mret (Some ct)
  end.

Definition bin_volume : list PodVolume := [mkPodVolume BinVolumeName VolEmptyDir].

Definition haproxy_own_volumes (sfs : StatefulApp) (cr : PerconaXtraDBCluster) (h : HAProxySpec) (config : PodVolume) : res (list PodVolume) :=
  users ← since cr "1.7.0" [GetSecretVolumes "mysql-users-secret-file" ("internal-" +:+ cluster_Name cr) false];
  envs ← since cr "1.9.0" [GetSecretVolumes (pod_EnvVarsSecretName (ha_PodSpec h)) (pod_EnvVarsSecretName (ha_PodSpec h)) true];
  hook ← since cr "1.11.0" (also (negb (bool_decide (pod_HookScript (ha_PodSpec h) = "")))
           [GetConfigVolumes "hookscript" (component_service sfs ("-" +:+ default "" (sa_Labels sfs !! "app.kubernetes.io/component") +:+ "-hookscript"))]);
  bin ← since cr "1.13.0" bin_volume;
  Ok ([config; GetTmpVolume "haproxy-auto"] ++ users ++ envs ++ hook ++ bin).

Definition haproxy_Volumes (sfs : StatefulApp) (podSpec : PodSpec) (cr : PerconaXtraDBCluster) (vg : string -> string -> bool -> M W PodVolume) :
    M W (option (list PodVolume * list ClaimTemplate)) :=
  let vol := NewVolumes podSpec haproxyDataVolumeName in
  config ← vg "haproxy-custom" (component_service sfs "-haproxy") true;
  h ← lift (deref (spec_HAProxy (cluster_Spec cr)));
  own ← lift (haproxy_own_volumes sfs cr h config);
  claims ← lift (label_claims cr (sa_Labels sfs) vol.2);
  mret (Some (vol.1 ++ own, claims)).
End haproxy.

(** ** ProxySQL ([proxysql.go]) *)

Section proxysql.
Context {W : Type} `{SecretClient W} `{VersionLib}.

Definition schedulerEnvVariables (s : ProxySQLSchedulerSpec) : list EnvVar :=
  [env "SCHEDULER_CHECKTIMEOUT" (pretty (sch_CheckTimeoutMilliseconds s));
   env "SCHEDULER_WRITERALSOREADER" (if sch_WriterIsAlsoReader s then "1" else "0");
   env "SCHEDULER_RETRYUP" (pretty (sch_SuccessThreshold s)); env "SCHEDULER_RETRYDOWN" (pretty (sch_FailureThreshold s));
   env "SCHEDULER_PINGTIMEOUT" (pretty (sch_PingTimeoutMilliseconds s));
   env "SCHEDULER_NODECHECKINTERVAL" (pretty (sch_NodeCheckIntervalMilliseconds s));
   env "SCHEDULER_MAXCONNECTIONS" (pretty (sch_MaxConnections s)); env "PERCONA_SCHEDULER_CFG" SchedulerConfigPath].

Definition scheduler_envs (s : ProxySQLSchedulerSpec) : list EnvVar :=
  schedulerEnvVariables s ++ also (sch_Enabled s) [env "SCHEDULER_ENABLED" "true"].

Definition proxysql_ssl_mounts : list VolumeMount := [mount "ssl" "/etc/proxysql/ssl"; mount "ssl-internal" "/etc/proxysql/ssl-internal"].

(** The variables every container of the pod starts with; the second one is a password. *)
Definition proxysql_envs (service : EnvVar) (secrets : string) (second : EnvVar) : list EnvVar :=
  [service; second; env "PROXY_ADMIN_USER" ProxyAdmin; env_secret "PROXY_ADMIN_PASSWORD" secrets ProxyAdmin;
   env_secret "MONITOR_PASSWORD" secrets Monitor].
Definition root_env (secrets : string) : EnvVar := env_secret "MYSQL_ROOT_PASSWORD" secrets Root.
Definition operator_env (secrets : string) : EnvVar := env_secret "OPERATOR_PASSWORD" secrets Operator.

Definition proxysql_AppContainer (sfs : StatefulApp) (spec : PodSpec) (secrets : string) (cr : PerconaXtraDBCluster) (volumes : list PodVolume) :
    res Container :=
  p ← deref (spec_ProxySQL (cluster_Spec cr));
  stats ← since cr "1.17.0" [("stats", 6070)];
  b19 ← from_version cr "1.19.0";
  b15 ← from_version cr "1.15.0";
  hook ← since cr "1.11.0" (also (negb (bool_decide (pod_HookScript (ps_PodSpec p) = ""))) hook_mount);
  Ok (mkContainer "proxysql" (pod_Image spec) (pod_ImagePullPolicy spec)
        (also b15 ["/opt/percona/proxysql-entrypoint.sh"]) (also b15 ["proxysql"; "-f"; "-c"; "/etc/proxysql/proxysql.cnf"; "--reload"])
        (proxysql_envs (env "PXC_SERVICE" (component_service sfs "-pxc")) secrets (operator_env secrets) ++ also b19 (scheduler_envs (ps_Scheduler p)))
        [(pod_EnvVarsSecretName (ps_PodSpec p), true)] ([("mysql", 3306); ("proxyadm", 6032)] ++ stats)
        ([mount proxyDataVolumeName "/var/lib/proxysql"] ++ proxysql_ssl_mounts
         ++ also (ContainsVolume volumes proxyConfigVolumeName) [mount proxyConfigVolumeName (if b19 : bool then "/etc/proxysql/custom" else "/etc/proxysql")]
         ++ also b15 bin_mount ++ hook ++ also b19 (ExtraPVCVolumeMounts (pod_ExtraPVCs spec))) (pod_Resources spec) "").

(** A container that watches the peers of a service. *)
Definition peer_list (spec : PodSpec) (b15 : bool) (protocol : list string) (name new old variable : string) (command : list string) (envs : list EnvVar)
    (envFrom : list (string * bool)) (mounts : list VolumeMount) : Container :=
  let script := if b15 then ["/opt/percona/peer-list"; "-on-change=" +:+ new] else ["/usr/bin/peer-list"; "-on-change=" +:+ old] in
  mkContainer name (pod_Image spec) (pod_ImagePullPolicy spec) command (script ++ ["-service=$(" +:+ variable +:+ ")"] ++ protocol) envs envFrom []
    (also b15 bin_mount ++ mounts) (pod_SidecarResources spec) "".

Definition proxysql_SidecarContainers (sfs : StatefulApp) (spec : PodSpec) (secrets : string) (cr : PerconaXtraDBCluster) : res (list Container) :=
  b15 ← from_version cr "1.15.0";
  protocol ← since cr "1.18.0" ["-protocol=$(PEER_LIST_SRV_PROTOCOL)"];
  en ← TLSEnabled (cluster_Spec cr);
  p ← deref (spec_ProxySQL (cluster_Spec cr));
  envFrom ← since cr "1.9.0" [(pod_EnvVarsSecretName (ps_PodSpec p), true)];
  b5 ← from_version cr "1.5.0";
  b19 ← from_version cr "1.19.0";
  let second := if b5 : bool then operator_env secrets else root_env secrets in
  let ssl := also (negb en) [env "SSL_DIR" "/dev/null"] in
  let command := also b19 ["/opt/percona/proxysql-entrypoint.sh"] in
  let pxcMonit := peer_list spec b15 protocol "pxc-monit" "/opt/percona/proxysql_add_pxc_nodes.sh" "/usr/bin/add_pxc_nodes.sh" "PXC_SERVICE" command
    (proxysql_envs (env "PXC_SERVICE" (component_service sfs "-pxc")) secrets second ++ ssl ++ also b19 (scheduler_envs (ps_Scheduler p)))
    envFrom (also b19 proxysql_ssl_mounts) in
  let proxysqlMonit := peer_list spec b15 protocol "proxysql-monit" "/opt/percona/proxysql_add_proxysql_nodes.sh" "/usr/bin/add_proxysql_nodes.sh"
    "PROXYSQL_SERVICE" command (proxysql_envs (env "PROXYSQL_SERVICE" (component_service sfs "-proxysql-unready")) secrets second ++ ssl) envFrom [] in
  Ok (pxcMonit :: also (negb (sch_Enabled (ps_Scheduler p))) [proxysqlMonit]).

Definition dsn_env : EnvVar := env "DB_ARGS" "--dsn $(MONITOR_USER):$(MONITOR_PASSWORD)@tcp(localhost:6032)/".

Definition pmm3ProxySQLEnvVars (params : string) : list EnvVar :=
  [env "DB_TYPE" "proxysql"; env "PMM_ADMIN_CUSTOM_PARAMS" params; dsn_env; env "DB_PORT" "6032"].

Definition proxysql_pmm2 (cr : PerconaXtraDBCluster) (spec : PMMSpec) (secret envVars : Secret) : res Container :=
  clusterName ← pmm_cluster_name cr spec;
  if negb (pmm_HasSecret secret) then Err pmm2_refused else
  ct ← PMMClient cr spec secret envVars;
  let name := meta_Name (sec_Meta secret) in
  b2 ← from_version cr "1.2.0";
  b7 ← from_version cr "1.7.0";
  b9 ← from_version cr "1.9.0";
  p ← (if b9 : bool then p ← deref (spec_ProxySQL (cluster_Spec cr)); Ok [(pod_EnvVarsSecretName (ps_PodSpec p), true)] else Ok (ctr_EnvFrom ct));
  script ← PMMAgentScript cr "proxysql";
  sidecar ← since cr "1.10.0" sidecar_envs;
  tempdir ← since cr "1.14.0" tempdir_env;
  Ok (ct <| ctr_Env ::= fun l => l
              ++ [env "DB_TYPE" "proxysql"; env "MONITOR_USER" Monitor; env_secret "MONITOR_PASSWORD" name Monitor]
              ++ (if b2 : bool then [env "DB_USER" Monitor; env_secret "DB_PASSWORD" name Monitor; env "DB_CLUSTER" "pxc"; env "DB_HOST" "localhost";
                                     env "DB_PORT" "6032"] else [dsn_env])
              ++ also b7 ([env "CLUSTER_NAME" clusterName; env "PMM_ADMIN_CUSTOM_PARAMS" (pmm_ProxysqlParams spec)] ++ script)
              ++ sidecar ++ tempdir |>
         <| ctr_Resources := if b2 : bool then pmm_Resources spec else ctr_Resources ct |> <| ctr_EnvFrom := p |>).

Definition proxysql_PMMContainer (secret : Secret) (cr : PerconaXtraDBCluster) : M W (option Container) :=
  match spec_PMM (cluster_Spec cr) with
  | None => mret None
  | Some spec =>
      if negb (pmm_Enabled spec) then mret None else
      pxc ← lift (deref (spec_PXC (cluster_Spec cr)));
      envVars ← env_vars_secret cr (pod_EnvVarsSecretName (pxc_PodSpec pxc));
      if has_token secret then
        let ct := PMM3Client cr spec secret envVars in
        mret (Some (ct <| ctr_Env ::= fun l => l ++ pmm3ProxySQLEnvVars (pmm_ProxysqlParams spec) |>))
      else ct ← lift (proxysql_pmm2 cr spec secret envVars); mret (Some ct)
  end.

Definition proxysql_own_volumes (sfs : StatefulApp) (podSpec : PodSpec) (cr : PerconaXtraDBCluster) (config : list PodVolume) : res (list PodVolume) :=
  ssl ← ssl_volume podSpec cr;
  let hook := match spec_ProxySQL (cluster_Spec cr) with Some p => negb (bool_decide (pod_HookScript (ps_PodSpec p) = "")) | None => false end in
  hooks ← since cr "1.11.0" (also hook
           [GetConfigVolumes "hookscript" (component_service sfs ("-" +:+ default "" (sa_Labels sfs !! "app.kubernetes.io/component") +:+ "-hookscript"))]);
  bin ← since cr "1.13.0" bin_volume;
  Ok ([GetSecretVolumes "ssl-internal" (pod_SSLInternalSecretName podSpec) true; ssl] ++ config ++ hooks ++ bin).

Definition proxysql_Volumes (sfs : StatefulApp) (podSpec : PodSpec) (cr : PerconaXtraDBCluster) (vg : string -> string -> bool -> M W PodVolume) :
    M W (option (list PodVolume * list ClaimTemplate)) :=
  let vol := NewVolumes podSpec proxyDataVolumeName in
  r ← try (vg proxyConfigVolumeName (component_service sfs "-proxysql") false);
  config ← match r with
           | inr v => mret [v]
           | inl e => if errors_Is e NoCustomVolumeErr then mret [] else fail e
           end;
  own ← lift (proxysql_own_volumes sfs podSpec cr config);
  claims ← lift (label_claims cr (sa_Labels sfs) vol.2);
  mret (Some (vol.1 ++ own, claims)).
End proxysql.

(** ** The interface [api.App] *)

(** The component an application is. *)
Definition component_of (sfs : StatefulApp) : option Component :=
  if isPXC sfs then Some CompPXC else if isHAproxy sfs then Some CompHAProxy else if isProxySQL sfs then Some CompProxySQL else None.

Section apps.
Context {W : Type} `{SecretClient W} `{VersionLib} `{IniLib} `{TemplateLib}.

#[export] Instance app_templates : AppTemplates W := {|
  at_InitContainers sfs cr image :=
    match component_of sfs with
    | Some CompPXC => node_InitContainers cr image
    | Some CompHAProxy => haproxy_InitContainers cr image
    | Some CompProxySQL => proxysql_InitContainers cr image
    | None => Panic
    end;
  at_AppContainer sfs spec secrets cr volumes :=
    match component_of sfs with
    | Some CompPXC => node_AppContainer sfs spec secrets cr
    | Some CompHAProxy => lift (haproxy_AppContainer sfs spec secrets cr)
    | Some CompProxySQL => lift (proxysql_AppContainer sfs spec secrets cr volumes)
    | None => panic
    end;
  at_SidecarContainers sfs spec secrets cr :=
    match component_of sfs with
    | Some CompPXC => mret []
    | Some CompHAProxy => haproxy_SidecarContainers sfs spec secrets cr
    | Some CompProxySQL => lift (proxysql_SidecarContainers sfs spec secrets cr)
    | None => panic
    end;
  at_PMMContainer sfs secret cr :=
    match component_of sfs with
    | Some CompPXC => node_PMMContainer secret cr
    | Some CompHAProxy => haproxy_PMMContainer secret cr
    | Some CompProxySQL => proxysql_PMMContainer secret cr
    | None => panic
    end;
  at_LogCollectorContainer sfs secrets cr :=
    match component_of sfs with Some CompPXC => node_LogCollectorContainer secrets cr | Some _ => Ok [] | None => Panic end;
  at_XtrabackupContainer sfs cr :=
    match component_of sfs with Some CompPXC => mret (node_XtrabackupContainer cr) | Some _ => mret None | None => panic end;
  at_Volumes sfs podSpec cr vg :=
    match component_of sfs with
    | Some CompPXC => node_Volumes sfs podSpec cr vg
    | Some CompHAProxy => haproxy_Volumes sfs podSpec cr vg
    | Some CompProxySQL => proxysql_Volumes sfs podSpec cr vg
    | None => panic
    end |}.
End apps.
