(* ===== verification/StatefulSetSpec.v ===== *)
(** * Stateful sets: proofs

    What the pods of a component are annotated with, that a second pass writes nothing,
    when a pass does not write at all, and which claims crash the operator. *)

From S2P Require Import Prelude GoStrings ApiTypes KubeApi Naming Secrets Users ClusterStatus ApiDefaults BackupController SmartUpdate Services ServicesSpec Config TlsSpec StatefulSet.

Class StsView (W : Type) := sets : W -> gmap NamespacedName StatefulSet.

(** ** What the server keeps *)

Definition tpl_meta (s : StatefulSetSpec) : gmap string string * gmap string string :=
  (tpl_Annotations (sp_Template s), tpl_Labels (sp_Template s)).
Definition claim_labels (s : StatefulSetSpec) : list (gmap string string) := map clm_Labels (sp_VolumeClaimTemplates s).

(** The server fills in parts of the specification, but leaves the metadata as it is. *)
Definition same_sent (s s' : StatefulSet) : Prop :=
  sset_Key s' = sset_Key s /\ sset_Annotations s' = sset_Annotations s /\ sset_Labels s' = sset_Labels s /\
  tpl_meta (sset_Spec s') = tpl_meta (sset_Spec s) /\ claim_labels (sset_Spec s') = claim_labels (sset_Spec s).

Definition quiet {W A} `{StsView W} (m : M W A) : Prop := forall x, keeps (fun w => sets w = x) m.

(** A write that failed may have happened. *)
Definition may_write {W} `{StsView W} (s : StatefulSet) (m : M W unit) : Prop := forall w w' r, m w = (w', r) ->
  let written := exists s', same_sent s s' /\ sets w' = <[sset_Key s := s']> (sets w) in
  match r with Ok _ => written | _ => written \/ sets w' = sets w end.

Class StsLaws (W : Type) `{StsView W} `{SecretClient W} `{ConfigEnv W} `{AppTemplates W} `{StsEnv W} `{StsLib} := {
  stl_get n w w' r : sse_get n w = (w', r) -> sets w' = sets w /\
    match r with
    | Ok s => sets w !! n = Some s /\ sset_Key s = n
    | Err e => IsNotFound e = true -> sets w !! n = None
    | Panic => False
    end;
  stl_create s : may_write s (sse_create s);
  stl_update s : may_write s (sse_update s);
  stl_secret n : quiet (sc_get n);
  stl_config n : quiet (cf_get n);
  stl_cf_create m : quiet (cf_create m);
  stl_cf_update m : quiet (cf_update m);
  stl_cf_delete m : quiet (cf_delete m);
  stl_operator : quiet sse_operatorPod;
  stl_app sfs p s cr vs : quiet (at_AppContainer sfs p s cr vs);
  stl_side sfs p s cr : quiet (at_SidecarContainers sfs p s cr);
  stl_pmm sfs s cr : quiet (at_PMMContainer sfs s cr);
  stl_xtrabackup sfs cr : quiet (at_XtrabackupContainer sfs cr);
  stl_volumes sfs p cr vg : (forall a b c, quiet (vg a b c)) -> quiet (at_Volumes sfs p cr vg);
  stl_hash_inj s s' h : sts_hash s = Ok h -> sts_hash s' = Ok h -> tpl_meta s = tpl_meta s' /\ claim_labels s = claim_labels s' }.

(** ** Additions of the custom resource *)

Lemma names_of_spec {A} (name : A -> string) l n : n ∈ names_of name l <-> exists x, x ∈ l /\ name x = n.
Proof. unfold names_of. rewrite elem_of_list_to_set, list_elem_of_fmap. naive_solver. Qed.

(** What is there stays, in front; an addition is made exactly when its name is free, and
    no name is used twice unless the additions or what is there use one twice. *)
Lemma add_named_unique {A} (name : A -> string) existing extra :
  NoDup (map name existing) -> NoDup (map name extra) -> NoDup (map name (add_named name existing extra)).
Proof.
  intros He Hx. unfold add_named. rewrite map_app. apply NoDup_app. split_and!; [done| |].
  - intros n (x & -> & Hx1)%list_elem_of_fmap (y & Hy & [Hy1 Hy2]%list_elem_of_filter)%list_elem_of_fmap.
    apply Hy1, names_of_spec. exists x. split; [done|]. by symmetry.
  - eapply sublist_NoDup; [exact Hx|]. apply (fmap_sublist name), sublist_filter.
Qed.

Lemma first_named_names seen l x : x ∈ map ep_Name (first_named seen l) <-> x ∈ map ep_Name l /\ x ∉ seen.
Proof.
  revert seen. induction l as [|e l IH]; intros seen; cbn [first_named map]; [split; [by intros ?%elem_of_nil|by intros [?%elem_of_nil _]]|].
  destruct (decide (ep_Name e ∈ seen)); cbn [map]; rewrite ?elem_of_cons, IH, ?not_elem_of_union, ?not_elem_of_singleton;
    destruct (decide (x = ep_Name e)); naive_solver.
Qed.

Lemma first_named_unique seen l : NoDup (map ep_Name (first_named seen l)).
Proof.
  revert seen. induction l as [|e l IH]; intros seen; simpl; [constructor|]. destruct (decide _); [done|]. simpl. constructor; [|done].
  rewrite first_named_names. set_solver.
Qed.

(** ** Annotations *)

Definition hash_shown (k v : string) : bool := negb (bool_decide (v = "")) || bool_decide (k = configuration_hash).

Lemma set_hashes_lookup hashes m k : NoDup hashes.*1 ->
  set_hashes hashes m !! k =
    match list_find (fun kv => kv.1 = k /\ hash_shown kv.1 kv.2 = true) hashes with Some (_, kv) => Some kv.2 | None => m !! k end.
Proof.
  unfold set_hashes. revert m. induction hashes as [|[k1 v1] l IH]; intros m Hnd; [done|]. cbn [foldl fst snd].
  apply NoDup_cons in Hnd as [Hk1 Hnd]. rewrite IH by done. cbn [list_find]. fold (hash_shown k1 v1).
  destruct (hash_shown k1 v1) eqn:Es; cbn [fst snd]; (destruct (decide _) as [[Hk Hs]|Hn]; [|]).
  - simpl in Hk. subst k1. destruct (list_find _ l) as [[i [k2 v2]]|] eqn:El; [|by rewrite lookup_insert_eq].
    apply list_find_Some in El as (Hl & [Hk2 _] & _). exfalso. apply Hk1. apply list_elem_of_fmap. exists (k2, v2). simpl in *. subst.
    split; [done|]. by eapply list_elem_of_lookup_2.
  - assert (k1 <> k) as Hne by naive_solver. destruct (list_find _ l) as [[i [k2 v2]]|]; [done|]. by rewrite lookup_insert_ne.
  - simpl in Hs. congruence.
  - by destruct (list_find _ l) as [[i [k2 v2]]|].
Qed.

(** The metadata of the pods shows the hashes, the new annotations and the labels of the
    component. *)
Definition shows (sfs : StatefulApp) (newAnnotations : gmap string string) (hashes : list (string * string)) (s : StatefulSetSpec) : Prop :=
  (forall k h, (k, h) ∈ hashes -> hash_shown k h = true -> tpl_Annotations (sp_Template s) !! k = Some h) /\
  (forall k x, newAnnotations !! k = Some x -> k ∉ hashes.*1 -> tpl_Annotations (sp_Template s) !! k = Some x) /\
  sa_Labels sfs ⊆ tpl_Labels (sp_Template s).

Lemma set_hashes_in hashes m k h : NoDup hashes.*1 -> (k, h) ∈ hashes -> hash_shown k h = true -> set_hashes hashes m !! k = Some h.
Proof.
  intros Hnd Hin Hs. rewrite set_hashes_lookup by done.
  destruct (list_find_elem_of (fun kv => kv.1 = k /\ hash_shown kv.1 kv.2 = true) hashes (k, h) Hin) as [[i [k2 v2]] El]; [done|].
  rewrite El. apply list_find_Some in El as (Hl & [Hk _] & _). simpl in *. subst k2. f_equal.
  assert ((k, v2) ∈ hashes) as Hin2 by (by eapply list_elem_of_lookup_2). clear -Hnd Hin Hin2.
  induction hashes as [|[k0 v0] l IH]; [by apply elem_of_nil in Hin|]. apply NoDup_cons in Hnd as [Hn Hnd].
  assert (forall v, (k, v) ∈ l -> k ∈ l.*1) as Hm by (intros v Hv; apply list_elem_of_fmap; by exists (k, v)). simpl in Hn.
  apply elem_of_cons in Hin as [[= <- <-]|Hin]; apply elem_of_cons in Hin2 as [[= ?]|Hin2]; subst; naive_solver.
Qed.

Lemma set_hashes_out hashes m k : NoDup hashes.*1 -> k ∉ hashes.*1 -> set_hashes hashes m !! k = m !! k.
Proof.
  intros Hnd Hk. rewrite set_hashes_lookup by done. destruct (list_find _ _) as [[i [k2 v2]]|] eqn:El; [|done].
  apply list_find_Some in El as (Hl & [Hk2 _] & _). exfalso. apply Hk, list_elem_of_fmap. exists (k2, v2). simpl in *.
  split; [by subst|by eapply list_elem_of_lookup_2].
Qed.

Lemma merge_current_shows b16 current sfs ann hashes sts sts' :
  NoDup hashes.*1 -> sa_Labels sfs ⊆ tpl_Labels (sp_Template (sset_Spec sts)) ->
  merge_current b16 current ann hashes sts = Ok sts' -> shows sfs ann hashes (sset_Spec sts').
Proof.
  intros Hnd Hl. unfold merge_current. destruct (if b16 then _ else _) as [claims|e|]; [|discriminate..]. intros [= <-]. unfold shows. record.simp.
  split_and!.
  - intros k h Hin Hs. by apply set_hashes_in.
  - intros k x Hx Hk. rewrite set_hashes_out by done. unfold MergeMaps. simpl. by apply lookup_union_Some_l.
  - unfold MergeMaps. simpl. etrans; [exact Hl|]. apply map_union_subseteq_l.
Qed.

(** ** Merging again *)

Lemma keep_claim_labels_again current new l stored : keep_claim_labels current new = Ok l -> map clm_Labels stored = map clm_Labels l ->
  keep_claim_labels stored new = Ok l.
Proof.
  revert current l stored. induction new as [|n new IH]; intros current l stored Hk Hl.
  - destruct current; [|discriminate]. injection Hk as <-. by destruct stored.
  - assert (exists l', l = n <| clm_Labels := match current with [] => clm_Labels n | c :: _ => clm_Labels c end |> :: l' /\
      keep_claim_labels (tail current) new = Ok l') as (l' & -> & Hk').
    { destruct current as [|c current]; simpl in Hk.
      - injection Hk as <-. exists new. split; [by destruct n|by destruct new].
      - destruct (keep_claim_labels current new) as [l'|e|] eqn:E; [|discriminate..]. injection Hk as <-. eauto. }
    destruct stored as [|c stored]; [discriminate|]. cbn [map] in Hl. injection Hl as Hc Hl. simpl. rewrite (IH _ _ _ Hk' Hl). simpl. by rewrite Hc.
Qed.

Lemma keep_claim_labels_short current new : (length new < length current)%nat -> keep_claim_labels current new = Panic.
Proof.
  revert new. induction current as [|c current IH]; intros [|n new] Hlen; simpl in *; [lia|lia|done|]. rewrite IH by lia. done.
Qed.

Lemma set_hashes_again hashes old t new : NoDup hashes.*1 ->
  set_hashes hashes (MergeMaps [set_hashes hashes (MergeMaps [old; t; new]); t; new]) = set_hashes hashes (MergeMaps [old; t; new]).
Proof.
  intros Hnd. apply map_eq. intros k. rewrite !set_hashes_lookup by done. destruct (list_find _ _) as [[i kv]|] eqn:E; [done|].
  unfold MergeMaps. simpl. rewrite !lookup_union, set_hashes_lookup, E by done. rewrite !lookup_union, lookup_empty.
  by destruct (new !! k), (t !! k), (old !! k).
Qed.

Lemma merge_labels_again old t : MergeMaps [MergeMaps [old; t]; t] = MergeMaps [old; t].
Proof.
  apply map_eq. intros k. unfold MergeMaps. simpl. rewrite !lookup_union, lookup_empty. by destruct (t !! k), (old !! k).
Qed.

(** Merging with what the first merge left on the server changes nothing. *)
Lemma merge_current_again b16 current ann hashes sts sts1 stored : NoDup hashes.*1 -> merge_current b16 current ann hashes sts = Ok sts1 ->
  tpl_meta (sset_Spec stored) = tpl_meta (sset_Spec sts1) -> claim_labels (sset_Spec stored) = claim_labels (sset_Spec sts1) ->
  merge_current b16 (Some stored) ann hashes sts = Ok sts1.
Proof.
  intros Hnd Hm Ht Hc. unfold merge_current in Hm.
  destruct (if b16 then _ else _) as [claims|e|] eqn:Ek; [|discriminate..]. injection Hm as <-.
  unfold tpl_meta, claim_labels in *. record.simp. injection Ht as Ha Hl.
  unfold merge_current. assert ((if b16 then keep_claim_labels (sp_VolumeClaimTemplates (sset_Spec stored)) (sp_VolumeClaimTemplates (sset_Spec sts))
    else Ok (sp_VolumeClaimTemplates (sset_Spec sts))) = Ok claims) as ->.
  { destruct b16; [|done]. by eapply keep_claim_labels_again. }
  simpl. rewrite Ha, Hl. set (old := match current with Some c => _ | None => _ end). rewrite set_hashes_again, merge_labels_again by done. done.
Qed.

(** ** Runs *)

Section runs.
Context {W : Type} `{StsLaws W} `{VersionLib}.

Lemma quiet_any {A} (I : gmap NamespacedName StatefulSet -> Prop) (m : M W A) : quiet m -> keeps (fun w => I (sets w)) m.
Proof. intros Hm w Hw. by rewrite (Hm (sets w) w eq_refl). Qed.

Lemma quiet_onV {A} (I : gmap NamespacedName StatefulSet -> Prop) (m : M W A) : quiet m -> keeps (fun v : VW W => I (sets (vw_w v))) (onV m).
Proof. intros Hm v Hv. destruct (onV m v) as [v' r] eqn:E. apply onV_run in E as (w' & E & ->). simpl. pose proof (Hm _ (vw_w v) eq_refl) as Hs. rewrite E in Hs. simpl in Hs. by rewrite Hs. Qed.

Lemma quiet_get n : quiet (sse_get (W := W) n).
Proof. intros x w Hw. destruct (sse_get n w) as [w' r] eqn:E. apply stl_get in E as [Hs _]. simpl. congruence. Qed.

Lemma quiet_reprint {A} msg (m : M W A) : quiet m -> quiet (reprint msg m).
Proof. intros Hm x w Hw. specialize (Hm x w Hw). unfold reprint. by destruct (m w) as [w' [a|e|]]. Qed.

Lemma quiet_getConfigVolume ns a b c : quiet (getConfigVolume (W := W) ns a b c).
Proof. intros x. pose proof stl_secret as Hs. pose proof stl_config as Hc. unfold getConfigVolume. keeps_solve; [by apply Hs|by apply Hc]. Qed.

Lemma quiet_NewStatefulSet sfs podSpec cr secret image : quiet (NewStatefulSet (W := W) sfs podSpec cr secret image).
Proof.
  intros x. unfold NewStatefulSet, pod_containers, log_collector.
  repeat first [keeps_step | apply quiet_reprint | apply stl_volumes; intros; apply quiet_getConfigVolume
    | apply stl_app | apply stl_side | apply stl_pmm | apply stl_xtrabackup | intros ?].
Qed.

Lemma NewStatefulSet_result sfs podSpec cr secret image (w w' : W) sts : NewStatefulSet sfs podSpec cr secret image w = (w', Ok sts) ->
  sset_Key sts = sset_name cr sfs /\ sa_Labels sfs ⊆ tpl_Labels (sp_Template (sset_Spec sts)) /\ sset_Annotations sts = ∅ /\ sset_Labels sts = ∅.
Proof. intros Hrun. unfold NewStatefulSet in Hrun. go_inv. split_and!; [done| |done|done]. simpl. apply map_union_subseteq_l. Qed.

(** ** Writing a stateful set *)

(** What an object is written with. *)
Definition hashed (hash : string) (s : StatefulSet) : StatefulSet :=
  s <| sset_Annotations ::= delete last_config_hash |> <| sset_Annotations ::= <[last_config_hash := hash]> |>.

Lemma hashed_same hash s : sset_Key (hashed hash s) = sset_Key s /\ sset_Annotations (hashed hash s) = <[last_config_hash := hash]> (sset_Annotations s) /\
  sset_Labels (hashed hash s) = sset_Labels s /\ sset_Spec (hashed hash s) = sset_Spec s.
Proof. destruct s. split_and!; [done| |done|done]. simpl. by rewrite insert_delete_eq. Qed.

(** How a run ends: it fails and leaves the stateful sets as they are, it writes the object
    (and may fail still), or it finds the same hash and metadata. *)
Inductive put_outcome (s : StatefulSet) (w w' : W) (r : res unit) : Prop :=
| put_nothing : r <> Ok tt -> sets w' = sets w -> put_outcome s w w' r
| put_wrote hash s' : sts_hash (sset_Spec s) = Ok hash -> same_sent (hashed hash s) s' -> sets w' = <[sset_Key s := s']> (sets w) ->
    put_outcome s w w' r
| put_same hash old : r = Ok tt -> sts_hash (sset_Spec s) = Ok hash -> sets w' = sets w -> sets w !! sset_Key s = Some old ->
    sset_Annotations old = <[last_config_hash := hash]> (sset_Annotations s) -> sset_Labels old = sset_Labels s -> put_outcome s w w' r.

Lemma may_write_outcome s hash m (w w1 w' : W) r : sts_hash (sset_Spec s) = Ok hash -> may_write (hashed hash s) m -> sets w1 = sets w ->
  m w1 = (w', r) -> put_outcome s w w' r.
Proof.
  intros Hh Hm Hw Hrun. apply Hm in Hrun. cbv zeta in Hrun. rewrite Hw in Hrun. destruct (hashed_same hash s) as (Hk & _). rewrite Hk in Hrun.
  destruct r as [[]|e|]; [destruct Hrun as (s' & Hs & Hw')|destruct Hrun as [(s' & Hs & Hw')|Hw']..]; try (by eapply put_wrote); by apply put_nothing.
Qed.

Lemma put_object_run s (w w' : W) r : put_object sts_ops s w = (w', r) -> put_outcome s w w' r.
Proof.
  unfold put_object. cbn [oo_annotations oo_annotate oo_labels oo_hash oo_get oo_create oo_update oo_carry sts_ops].
  assert (sset_Spec (s <| sset_Annotations ::= delete last_config_hash |>) = sset_Spec s) as Hs0 by by destruct s.
  rewrite Hs0. unfold mbind at 1, M_bind at 1, lift. destruct (sts_hash (sset_Spec s)) as [hash|e|] eqn:Hh; cbn [wrap_res];
    [|intros [= <- <-]; by apply put_nothing..].
  fold (hashed hash s). destruct (hashed_same hash s) as (Hk & Ha & Hl & _). unfold mbind, M_bind, try. rewrite Hk.
  destruct (sse_get (sset_Key s) w) as [w1 r1] eqn:Eg. apply stl_get in Eg as [Hw1 Hg]. destruct r1 as [old|e|]; [| |done].
  - destruct Hg as [Hold _]. destruct (_ || _) eqn:Eb.
    + intros Hrun. by eapply may_write_outcome, Hrun; [|apply stl_update|].
    + intros [= <- <-]. apply orb_false_iff in Eb as [_ Eb%negb_false_iff]. apply andb_true_iff in Eb as [Ea%compareMaps_eq El%compareMaps_eq].
      apply (put_same _ _ _ _ hash old); try done; congruence.
  - destruct (IsNotFound e); [|intros [= <- <-]; by apply put_nothing].
    intros Hrun. by eapply may_write_outcome, Hrun; [|apply stl_create|].
Qed.

(** The hash a stored object carries is that of a specification with the same metadata. *)
Definition honest (w : W) : Prop := forall n s hash, sets w !! n = Some s -> sset_Annotations s !! last_config_hash = Some hash ->
  exists spec, sts_hash spec = Ok hash /\ tpl_meta (sset_Spec s) = tpl_meta spec /\ claim_labels (sset_Spec s) = claim_labels spec.

(** The invariant is kept on every exit, and a successful write leaves the metadata of the pods
    on the server. *)
Lemma put_object_honest s (w w' : W) r : put_object sts_ops s w = (w', r) -> honest w -> honest w' /\
  (r = Ok tt -> exists s' hash, sets w' !! sset_Key s = Some s' /\ sts_hash (sset_Spec s) = Ok hash /\
     sset_Annotations s' = <[last_config_hash := hash]> (sset_Annotations s) /\ sset_Labels s' = sset_Labels s /\
     tpl_meta (sset_Spec s') = tpl_meta (sset_Spec s) /\ claim_labels (sset_Spec s') = claim_labels (sset_Spec s)).
Proof.
  intros Hrun%put_object_run Hw. destruct Hrun as [Hr Hs|hash s' Hh (Hk & Ha & Hl & Ht & Hc) Hs|hash old Hr Hh Hs Hold Ha Hl].
  - split; [|done]. intros n s0 h. rewrite Hs. apply Hw.
  - destruct (hashed_same hash s) as (Hk2 & Ha2 & Hl2 & Hsp). rewrite Hsp in *. split.
    + intros n s0 h. rewrite Hs. destruct (decide (n = sset_Key s)) as [->|Hne].
      * rewrite lookup_insert_eq. intros [= <-]. rewrite Ha, Ha2, lookup_insert_eq. intros [= <-]. by exists (sset_Spec s).
      * rewrite lookup_insert_ne by done. apply Hw.
    + intros _. exists s', hash. rewrite Hs, lookup_insert_eq. split_and!; [done|done|congruence|congruence|done|done].
  - split; [intros n s0 h; rewrite Hs; apply Hw|]. intros _. exists old, hash. rewrite Hs.
    destruct (Hw _ _ hash Hold) as (spec & Hh2 & Hm & Hc); [by rewrite Ha, lookup_insert_eq|].
    destruct (stl_hash_inj _ _ _ Hh2 Hh). split_and!; [done|done|done|done|congruence|congruence].
Qed.

(** ** Updating a component *)

Definition with_owner (owner : string) (s : StatefulSet) : StatefulSet := s <| sset_Owners ::= fun l => l ++ [owner] |>.

Lemma with_owner_same owner s : sset_Key (with_owner owner s) = sset_Key s /\ sset_Spec (with_owner owner s) = sset_Spec s /\
  sset_Annotations (with_owner owner s) = sset_Annotations s /\ sset_Labels (with_owner owner s) = sset_Labels s.
Proof. by destruct s. Qed.

Lemma merge_current_same b16 current ann hashes s s' : merge_current b16 current ann hashes s = Ok s' ->
  sset_Key s' = sset_Key s /\ sset_Annotations s' = sset_Annotations s /\ sset_Labels s' = sset_Labels s.
Proof. unfold merge_current. destruct (if b16 then _ else _); [|discriminate..]. intros [= <-]. by destruct s. Qed.

(** The object that is written, and the world it is written in. *)
Inductive to_write (c : Component) (sfs : StatefulApp) ann hashes secret image (cr : PerconaXtraDBCluster) (w w2 : W) (s : StatefulSet) : Prop :=
| to_write_intro w1 podSpec sts b16 sts' owner :
    (sse_get (sset_name cr sfs) w).1 = w1 -> sets w1 = sets w -> sets w2 = sets w ->
    comp_spec c cr = Ok podSpec -> NewStatefulSet sfs podSpec cr secret image w1 = (w2, Ok sts) -> from_version cr "1.16.0" = Ok b16 ->
    merge_current b16 (sets w !! sset_name cr sfs) ann hashes sts = Ok sts' -> sts_ownerRef cr = Ok owner ->
    s = with_owner owner sts' -> to_write c sfs ann hashes secret image cr w w2 s.

Lemma bind_run {S A B} (m : M S A) (f : A -> M S B) w w' r : (m ≫= f) w = (w', r) ->
  (exists w1 a, m w = (w1, Ok a) /\ f a w1 = (w', r)) \/ (is_ok r = false /\ exists r', m w = (w', r') /\ is_ok r' = false).
Proof. unfold mbind, M_bind. destruct (m w) as [w1 [a|e|]]; [eauto|intros [= <- <-]; right; eauto..]. Qed.

Lemma put_sts_run c sfs ann hashes secret image (v v' : VW W) r : put_sts c sfs ann hashes secret image v = (v', r) ->
  (is_ok r = false /\ sets (vw_w v') = sets (vw_w v)) \/
  exists w2 s r', to_write c sfs ann hashes secret image (vw_cr v) (vw_w v) w2 s /\ put_object sts_ops s w2 = (vw_w v', r') /\ r = wrap_res "update error" r'.
Proof.
  destruct v as [w cr]. unfold put_sts. unfold mbind at 1, M_bind at 1, getCr at 1, gets at 1. cbn [vw_w vw_cr]. intros Hrun.
  apply bind_run in Hrun as [(v1 & got & Hg & Hrun)|(Hr & r1 & Hg & _)]; pose proof (quiet_onV (fun x => x = sets w) _ (quiet_get (sset_name cr sfs))) as Hq;
    apply keeps_try in Hq; specialize (Hq (mkVW w cr) eq_refl); rewrite Hg in Hq; cbn [fst] in Hq; [|by left].
  assert (v1 = mkVW (sse_get (sset_name cr sfs) w).1 cr /\ (forall s, got = inr s -> sets w !! sset_name cr sfs = Some s) /\
    (forall e, got = inl e -> IsNotFound e = true -> sets w !! sset_name cr sfs = None)) as (-> & Hsome & Hnone).
  { unfold try, onV in Hg. cbn [vw_w vw_cr] in Hg. destruct (sse_get _ w) as [w1 r1] eqn:Eg. apply stl_get in Eg as [_ Hr1]. destruct r1; naive_solver. }
  cbn [vw_w] in Hq. clear Hg. apply bind_run in Hrun as [(v2 & current & Hg & Hrun)|(Hr & r1 & Hg & _)].
  2:{ left. split; [done|]. destruct got as [e|s0]; [destruct (IsNotFound e)|]; unfold mret, M_ret, fail in Hg; by injection Hg as <- _. }
  assert (v2 = mkVW (sse_get (sset_name cr sfs) w).1 cr /\ current = sets w !! sset_name cr sfs) as [-> ->].
  { destruct got as [e|s0]; [destruct (IsNotFound e) eqn:En|]; unfold mret, M_ret, fail in Hg; [injection Hg as <- <-|done|injection Hg as <- <-]; split;
      [done|symmetry; by eapply Hnone|done|symmetry; by eapply Hsome]. }
  clear Hg. destruct (match _ with Some s => _ | None => _ end); [unfold fail in Hrun; injection Hrun as <- <-; by left|].
  set (w1 := (sse_get _ w).1) in *.
  apply bind_run in Hrun as [(v3 & podSpec & Hps & Hrun)|(Hr & r1 & Hg & _)]; unfold lift in *; [injection Hps as <- Hps|injection Hg as <- _; by left].
  apply bind_run in Hrun as [(v4 & sts & Hn & Hrun)|(Hr & r1 & Hn & _)]; apply wrap_run in Hn as (r2 & Hn & Hr2); apply onV_run in Hn as (w2 & Hn & ->);
    pose proof (quiet_NewStatefulSet sfs podSpec cr secret image (sets w) w1 Hq) as Hq2; cbn [vw_w vw_cr] in *; rewrite Hn in Hq2; cbn [fst] in Hq2; [|by left].
  destruct r2 as [sts0|e|]; [|discriminate..]. cbn [wrap_res] in Hr2. injection Hr2 as <-.
  unfold mbind at 1, M_bind at 1, setCr, modify in Hrun. cbn [vw_w] in Hrun.
  apply bind_run in Hrun as [(v5 & b16 & Hb & Hrun)|(Hr & r1 & Hg & _)]; [injection Hb as <- Hb|injection Hg as <- _; by left].
  apply bind_run in Hrun as [(v6 & sts' & Hm & Hrun)|(Hr & r1 & Hg & _)]; [injection Hm as <- Hm|injection Hg as <- _; by left].
  apply bind_run in Hrun as [(v7 & owner & Ho & Hrun)|(Hr & r1 & Hg & _)]; [injection Ho as <- Ho|injection Hg as <- _; by left].
  apply wrap_run in Hrun as (r3 & Hp & ->). apply onV_run in Hp as (w3 & Hp & ->). cbn [vw_w] in Hp.
  right. exists w2, (with_owner owner sts'), r3. split_and!; [|done|done].
  destruct (sts_ownerRef cr) eqn:Eo; [|discriminate..]. injection Ho as ->. by econstructor.
Qed.

(** What is stored with the hash of the object is not written again. *)
Lemma put_object_again s hash old (w w' : W) r : put_object sts_ops s w = (w', r) -> sts_hash (sset_Spec s) = Ok hash ->
  sets w !! sset_Key s = Some old -> sset_Annotations old = <[last_config_hash := hash]> (sset_Annotations s) -> sset_Labels old = sset_Labels s ->
  sets w' = sets w.
Proof.
  intros Hrun Hh Hold Ha Hl. unfold put_object in Hrun.
  cbn [oo_annotations oo_annotate oo_labels oo_hash oo_get oo_create oo_update oo_carry sts_ops] in Hrun.
  assert (sset_Spec (s <| sset_Annotations ::= delete last_config_hash |>) = sset_Spec s) as Hs0 by by destruct s.
  rewrite Hs0 in Hrun. unfold mbind at 1, M_bind at 1, lift in Hrun. rewrite Hh in Hrun. cbn [wrap_res] in Hrun.
  fold (hashed hash s) in Hrun. destruct (hashed_same hash s) as (Hk1 & Ha1 & Hl1 & _). unfold mbind, M_bind, try in Hrun. rewrite Hk1 in Hrun.
  destruct (sse_get (sset_Key s) w) as [w1 r1] eqn:Eg. apply stl_get in Eg as [Hw1 Hg]. destruct r1 as [old1|e|]; [| |done].
  - assert (old1 = old) as -> by naive_solver.
    rewrite (proj2 (compareMaps_eq _ (sset_Annotations old))), (proj2 (compareMaps_eq _ (sset_Labels old))) in Hrun by congruence.
    rewrite Ha, lookup_insert_eq in Hrun. cbn [default] in Hrun. rewrite bool_decide_eq_true_2 in Hrun by done. by injection Hrun as <- _.
  - destruct (IsNotFound e); [|by injection Hrun as <- _]. rewrite Hg in Hold; done.
Qed.

(** The pods get the hashes: after a successful write the template on the server shows every hash of
    the configuration and the secrets, the new annotations and the labels of the
    component, and the hash of the stored object can be trusted again. *)
Theorem pods_marked c sfs ann hashes secret image (v v' : VW W) :
  honest (vw_w v) -> NoDup hashes.*1 -> put_sts c sfs ann hashes secret image v = (v', Ok tt) ->
  honest (vw_w v') /\ exists s, sets (vw_w v') !! sset_name (vw_cr v) sfs = Some s /\ shows sfs ann hashes (sset_Spec s).
Proof.
  intros Hh Hnd Hrun. apply put_sts_run in Hrun as [[? _]|(w2 & s & r & Hs & Hp & Hr)]; [done|].
  destruct r as [[]|e|]; [|discriminate..]. destruct Hs as [w1 podSpec sts b16 sts' owner _ _ Hw2 _ Hn _ Hm _ ->].
  apply put_object_honest in Hp as [Hh' Hok]; [|intros n s0; rewrite Hw2; apply Hh]. split; [done|].
  destruct (Hok eq_refl) as (s' & hash & Hs' & _ & _ & _ & Ht & _). destruct (with_owner_same owner sts') as (Hk & Hsp & _).
  apply NewStatefulSet_result in Hn as (Hkey & Hl & _). destruct (merge_current_same _ _ _ _ _ _ Hm) as (Hk' & _).
  apply (merge_current_shows _ _ sfs) in Hm; [|done..]. exists s'. rewrite <- Hkey, <- Hk', <- Hk. split; [done|].
  rewrite Hsp in Ht. unfold tpl_meta in Ht. injection Ht as Ha Hlb. unfold shows. by rewrite Ha, Hlb.
Qed.

(** What the stateful set is built from, as the next pass reads it. *)
Definition built (c : Component) (sfs : StatefulApp) (secret : Secret) (image : string) (cr : PerconaXtraDBCluster) (w : W) : res StatefulSet :=
  match comp_spec c cr with
  | Ok podSpec => (NewStatefulSet sfs podSpec cr secret image (sse_get (sset_name cr sfs) w).1).2
  | _ => Panic
  end.

(** C12: the next pass, with the custom resource read anew, writes nothing if what the stateful
    set is built from has not changed: its pods are not restarted for nothing. *)
Theorem put_sts_settles c sfs ann hashes secret image cr (w : W) v1 v2 r :
  honest w -> NoDup hashes.*1 -> put_sts c sfs ann hashes secret image (mkVW w cr) = (v1, Ok tt) ->
  built c sfs secret image cr (vw_w v1) = built c sfs secret image cr w ->
  put_sts c sfs ann hashes secret image (mkVW (vw_w v1) cr) = (v2, r) -> sets (vw_w v2) = sets (vw_w v1).
Proof.
  intros Hh Hnd Hrun1 Hb Hrun2. apply put_sts_run in Hrun1 as [[? _]|(w2 & s & r1 & Hs & Hp & Hr)]; [done|].
  destruct r1 as [[]|e|]; [|discriminate..]. destruct Hs as [w1 podSpec sts b16 sts' owner Hw1 _ Hw2 Hps Hn Hb16 Hm Ho ->].
  cbn [vw_w vw_cr] in *. apply put_object_honest in Hp as [_ Hok]; [|intros n s0; rewrite Hw2; apply Hh].
  destruct (Hok eq_refl) as (s' & hash & Hs' & Hhash & Ha & Hl & Ht & Hc). destruct (with_owner_same owner sts') as (Hk & Hsp & _).
  apply put_sts_run in Hrun2 as [[_ ?]|(w4 & s2 & r2 & Hs2 & Hp2 & _)]; [done|].
  destruct Hs2 as [w3 podSpec2 sts2 b16' sts2' owner2 Hw3 _ Hw4 Hps2 Hn2 Hb16' Hm2 Ho2 ->]. cbn [vw_w vw_cr] in *.
  assert (podSpec2 = podSpec) as -> by congruence. assert (b16' = b16) as -> by congruence. assert (owner2 = owner) as -> by congruence.
  assert (sts2 = sts) as -> by (unfold built in Hb; rewrite Hps, Hw1, Hw3, Hn, Hn2 in Hb; cbn [snd] in Hb; congruence).
  pose proof (NewStatefulSet_result _ _ _ _ _ _ _ _ Hn) as (Hkey & _). pose proof (merge_current_same _ _ _ _ _ _ Hm) as (Hk' & _).
  rewrite <- Hkey, <- Hk', <- Hk, Hs' in Hm2. rewrite Hsp in Ht, Hc.
  rewrite (merge_current_again _ _ _ _ _ _ _ Hnd Hm Ht Hc) in Hm2. injection Hm2 as <-.
  rewrite <- Hw4. eapply put_object_again; [exact Hp2|exact Hhash|by rewrite Hw4|exact Ha|exact Hl].
Qed.

(** C39: a claim template that the custom resource no longer asks for is an index out of range: the
    operator panics in every pass from then on, and the stateful set stays as it is. *)
Theorem removed_claim_panics c sfs ann hashes secret image cr (w w1 w2 : W) current podSpec sts :
  sse_get (sset_name cr sfs) w = (w1, Ok current) -> sset_Deleted current = false -> comp_spec c cr = Ok podSpec ->
  NewStatefulSet sfs podSpec cr secret image w1 = (w2, Ok sts) -> from_version cr "1.16.0" = Ok true ->
  (length (sp_VolumeClaimTemplates (sset_Spec sts)) < length (sp_VolumeClaimTemplates (sset_Spec current)))%nat ->
  exists v', put_sts c sfs ann hashes secret image (mkVW w cr) = (v', Panic) /\ sets (vw_w v') = sets w.
Proof.
  intros Hg Hd Hps Hn Hb Hlen. exists (mkVW w2 (share_annotations c (tpl_Annotations (sp_Template (sset_Spec sts))) cr)). split.
  - unfold put_sts, mbind, M_bind, try, getCr, setCr, gets, modify, onV, wrap, lift, mret, M_ret. cbn [vw_w vw_cr].
    rewrite Hg. cbn [vw_w vw_cr]. rewrite Hd. cbn [vw_w vw_cr]. rewrite Hps. cbn [vw_w vw_cr]. rewrite Hn. cbn [vw_w vw_cr wrap_res]. rewrite Hb.
    unfold merge_current. by rewrite keep_claim_labels_short.
  - cbn [vw_w]. pose proof (quiet_NewStatefulSet sfs podSpec cr secret image _ w1 eq_refl) as Hq. rewrite Hn in Hq. apply stl_get in Hg as [Hw1 _]. simpl in Hq. congruence.
Qed.
End runs.

(** ** A pass over a component *)

Section update.
Context {W : Type} `{StsLaws W} `{SmartEnv W} `{StatusEnv W} `{RetryLib} `{OnErrorLib} `{VersionLib} `{IniLib}.

Lemma quiet_reconcileConfigMaps cr : quiet (reconcileConfigMaps (W := W) cr).
Proof.
  intros x. pose proof (fun n => stl_config n x). pose proof (fun n => stl_cf_create n x). pose proof (fun n => stl_cf_update n x). pose proof (fun n => stl_cf_delete n x).
  unfold reconcileConfigMaps, reconcileAutotuneConfigMap, reconcileCustomConfigMap, reconcileProxySQLConfigMap, reconcileHAProxyConfigMap,
    reconcileLogcollectorConfigMap, reconcileHookScriptConfigMaps, createHookScriptConfigMap, reconcile_custom, put_config,
    createOrUpdateConfigmap, deleteConfigMapIfExists.
  repeat first [keeps_step | apply keeps_retry_conflict | solve [eauto] | intros ?].
Qed.

Lemma quiet_getSecretHash cr n b : quiet (getSecretHash (W := W) cr n b).
Proof. intros x. pose proof (fun n => stl_secret n x). unfold getSecretHash. keeps_solve. Qed.

Lemma quiet_hash_annotations cr sfs : quiet (hash_annotations (W := W) cr sfs).
Proof.
  intros x. pose proof (fun n => stl_secret n x). pose proof (fun n => stl_config n x). pose proof (fun c n b => quiet_getSecretHash c n b x).
  unfold hash_annotations, getConfigHash, env_vars_hash, secret_hashes. keeps_solve.
Qed.

Lemma hash_annotations_keys cr sfs (w w' : W) hashes : hash_annotations cr sfs w = (w', Ok hashes) -> NoDup hashes.*1.
Proof.
  intros Hrun. unfold hash_annotations in Hrun. go_inv. cbn [fmap list_fmap fst].
  apply (bool_decide_unpack (NoDup [configuration_hash; "percona.com/ssl-hash"; "percona.com/ssl-internal-hash"; "percona.com/vault-config-hash";
    "percona.com/env-secret-config-hash"])). vm_compute. done.
Qed.

Lemma quiet_GetInitImage opv cr : quiet (GetInitImage (W := W) opv cr).
Proof. intros x. pose proof (stl_operator x). unfold GetInitImage. keeps_solve. Qed.

(** Where a pass may have left the stateful set: as it was, or with pods that show the hashes. *)
Definition marked_or_same (x : gmap NamespacedName StatefulSet) n sfs ann hashes (w : W) : Prop :=
  sets w = x \/ exists s, sets w !! n = Some s /\ shows sfs ann hashes (sset_Spec s).

Lemma keeps_getCr {A} (P : PerconaXtraDBCluster -> Prop) (f : PerconaXtraDBCluster -> M (VW W) A) :
  (forall cr, P cr -> keeps (fun v => P (vw_cr v)) (f cr)) -> keeps (fun v => P (vw_cr v)) (getCr ≫= f).
Proof. intros Hf v Hv. exact (Hf (vw_cr v) Hv v Hv). Qed.

Lemma keeps_onV_cr {A} (P : PerconaXtraDBCluster -> Prop) (m : M W A) : keeps (fun v => P (vw_cr v)) (onV m).
Proof. intros v Hv. destruct (onV m v) eqn:E. by apply onV_run in E as (w' & _ & ->). Qed.

Lemma share_annotations_name c m cr sfs : sset_name (share_annotations c m cr) sfs = sset_name cr sfs.
Proof. by destruct c, cr. Qed.

Lemma put_sts_name n c sfs ann hashes secret image : keeps (fun v : VW W => sset_name (vw_cr v) sfs = n) (put_sts c sfs ann hashes secret image).
Proof.
  apply (keeps_getCr (fun cr => sset_name cr sfs = n)). intros cr Hcr.
  assert (forall m, keeps (fun v : VW W => sset_name (vw_cr v) sfs = n) (setCr (share_annotations c m cr))) as Hset
    by (intros m v _; simpl; by rewrite share_annotations_name).
  repeat first [keeps_step | apply (keeps_onV_cr (fun cr => sset_name cr sfs = n)) | apply Hset].
Qed.

Lemma put_sts_keeps x n c sfs ann hashes secret image : NoDup hashes.*1 ->
  keeps (fun v : VW W => sset_name (vw_cr v) sfs = n /\ marked_or_same x n sfs ann hashes (vw_w v)) (put_sts c sfs ann hashes secret image).
Proof.
  intros Hnd v [Hn Hv]. pose proof (put_sts_name n c sfs ann hashes secret image v Hn) as Hn'.
  destruct (put_sts _ _ _ _ _ _ v) as [v' r] eqn:E. cbn [fst snd] in *. split; [done|].
  unfold marked_or_same in *. apply put_sts_run in E as [[_ ->]|(w2 & s & r' & Hs & Hp & _)]; [done|].
  destruct Hs as [w1 podSpec sts b16 sts' owner _ _ Hw2 _ Hnew _ Hm _ ->].
  apply put_object_run in Hp as [_ Hs|hash s' Hh (Hk & _ & _ & Ht & _) Hs|hash old _ _ Hs _ _ _]; [by rewrite Hs, Hw2| |by rewrite Hs, Hw2].
  right. exists s'. destruct (with_owner_same owner sts') as (Hk1 & Hsp & _). destruct (hashed_same hash (with_owner owner sts')) as (_ & _ & _ & Hsp').
  apply NewStatefulSet_result in Hnew as (Hkey & Hl & _). destruct (merge_current_same _ _ _ _ _ _ Hm) as (Hk' & _).
  apply (merge_current_shows _ _ sfs) in Hm; [|done..]. rewrite Hs, Hk1, Hk', Hkey, Hn, lookup_insert_eq. split; [done|].
  rewrite Hsp', Hsp in Ht. unfold tpl_meta in Ht. injection Ht as Ha Hlb. unfold shows. by rewrite Ha, Hlb.
Qed.

(** One step that leaves the stateful sets alone. *)
Lemma quiet_step {A B} (m : M W A) (f : A -> M (VW W) B) v v' r : quiet m -> (onV m ≫= f) v = (v', r) ->
  (exists w1 a, m (vw_w v) = (w1, Ok a) /\ sets w1 = sets (vw_w v) /\ f a (mkVW w1 (vw_cr v)) = (v', r)) \/
  (is_ok r = false /\ sets (vw_w v') = sets (vw_w v)).
Proof.
  intros Hm. specialize (Hm _ (vw_w v) eq_refl). unfold mbind, M_bind, onV. destruct (m (vw_w v)) as [w1 [a|e|]]; cbn [fst] in Hm;
    [eauto 6|intros [= <- <-]; by right..].
Qed.

Lemma wrap_onV {A} msg (m : M W A) v : wrap msg (onV m) v = onV (wrap msg m) v.
Proof. unfold wrap, onV. by destruct (m (vw_w v)). Qed.
Lemma try_onV {A} (m : M W A) v : try (onV m) v = onV (try m) v.
Proof. unfold try, onV. by destruct (m (vw_w v)) as [w [a|e|]]. Qed.

Lemma quiet_wrap_step {A B} msg (m : M W A) (f : A -> M (VW W) B) v v' r : quiet m -> (wrap msg (onV m) ≫= f) v = (v', r) ->
  (exists w1 a, m (vw_w v) = (w1, Ok a) /\ sets w1 = sets (vw_w v) /\ f a (mkVW w1 (vw_cr v)) = (v', r)) \/
  (is_ok r = false /\ sets (vw_w v') = sets (vw_w v)).
Proof.
  intros Hm Hrun. unfold mbind, M_bind in Hrun. rewrite wrap_onV in Hrun. fold (M_bind _ _ f (onV (wrap msg m)) v) in Hrun.
  apply quiet_step in Hrun as [(w1 & a & E & Hw & Hf)|?]; [|by right|intros x; by apply keeps_wrap]. apply wrap_inv_Ok in E. eauto 6.
Qed.

Lemma quiet_try_step {A B} (m : M W A) (f : error + A -> M (VW W) B) v v' r : quiet m -> (try (onV m) ≫= f) v = (v', r) ->
  (exists w1 a, try m (vw_w v) = (w1, Ok a) /\ sets w1 = sets (vw_w v) /\ f a (mkVW w1 (vw_cr v)) = (v', r)) \/
  (is_ok r = false /\ sets (vw_w v') = sets (vw_w v)).
Proof.
  intros Hm Hrun. unfold mbind, M_bind in Hrun. rewrite try_onV in Hrun. fold (M_bind _ _ f (onV (try m)) v) in Hrun.
  apply quiet_step in Hrun; [done|intros x; by apply keeps_try].
Qed.

Lemma keeps_retry_OnError {S A} (I : S -> Prop) p (fn : M S A) : keeps I fn -> keeps I (retry_OnError p fn).
Proof.
  intros Hf s Hs. destruct (retry_OnError p fn s) as [s' r] eqn:E. apply retry_OnError_runs in E. simpl.
  exact (hoare_retries I p fn (fun _ s => I s) s s' r Hf (fun e s _ H => H) E Hs).
Qed.

End update.
