(* ===== verification/TemplatesSpec.v ===== *)
(** * The pods of the components: their mounts and their volumes

    What a container mounts is a volume or a claim of its pod, for every component and for every
    version from 1.13.0 on; and the containers are built without any write. *)

From S2P Require Import Prelude GoStrings ApiTypes KubeApi Naming Secrets Users ClusterStatus ApiDefaults BackupController Services Config StatefulSet Templates.

(** ** Reading only *)

Section quiet.
Context {W : Type} `{SecretClient W} `{VersionLib} `{IniLib} `{TemplateLib} (I : W -> Prop) (Hget : forall n, keeps I (sc_get n)).

Lemma env_vars_secret_keeps cr name : keeps I (env_vars_secret cr name).
Proof using Hget. unfold env_vars_secret. repeat first [keeps_step | apply Hget]. Qed.

Lemma LDPreloadEnv_keeps cr pxc : keeps I (LDPreloadEnv cr pxc).
Proof using Hget. unfold LDPreloadEnv. repeat first [keeps_step | apply Hget]. Qed.

Lemma AppContainer_keeps sfs p s cr vs : keeps I (at_AppContainer (AppTemplates := app_templates) sfs p s cr vs).
Proof using Hget.
  simpl. unfold node_AppContainer. repeat first [keeps_step | apply LDPreloadEnv_keeps].
Qed.

Lemma SidecarContainers_keeps sfs p s cr : keeps I (at_SidecarContainers (AppTemplates := app_templates) sfs p s cr).
Proof using Hget.
  simpl. unfold haproxy_SidecarContainers, health_check_env, haConfigFromEnvSecret. repeat first [keeps_step | apply Hget].
Qed.

Lemma PMMContainer_keeps sfs s cr : keeps I (at_PMMContainer (AppTemplates := app_templates) sfs s cr).
Proof using Hget.
  simpl. unfold node_PMMContainer, haproxy_PMMContainer, proxysql_PMMContainer. repeat first [keeps_step | apply env_vars_secret_keeps].
Qed.

Lemma Volumes_keeps sfs p cr vg : (forall a b c, keeps I (vg a b c)) -> keeps I (at_Volumes (AppTemplates := app_templates) sfs p cr vg).
Proof using Type.
  intros Hv. simpl. unfold node_Volumes, haproxy_Volumes, proxysql_Volumes. repeat first [keeps_step | apply Hv].
Qed.
End quiet.

(** ** Mounts that resolve *)

Definition names_volume (V : list string) (m : VolumeMount) : Prop := mnt_Name m ∈ V.
(** Every mount of a container names one of [V]. *)
Definition mounts_in (V : list string) (c : Container) : Prop := Forall (names_volume V) (ctr_Mounts c).

(** The names a pod of the stateful set can mount. *)
Definition volume_names (sts : StatefulSet) : list string :=
  map pv_Name (tpl_Volumes (sp_Template (sset_Spec sts))) ++ map clm_Name (sp_VolumeClaimTemplates (sset_Spec sts)).

(** The versions the volumes of the proxies were introduced with. *)
Definition volumes_complete `{VersionLib} (cr : PerconaXtraDBCluster) : Prop :=
  Forall (fun v => from_version cr v = Ok true) ["1.7.0"; "1.9.0"; "1.11.0"; "1.13.0"].

Lemma res_bind_inv {A B} (r : res A) (f : A -> res B) b : (r ≫= f) = Ok b -> exists a, r = Ok a /\ f a = Ok b.
Proof. destruct r as [a|e|]; [by exists a|done|done]. Qed.

Lemma reprint_inv_Ok {W A} msg (m : M W A) w w' a : reprint msg m w = (w', Ok a) -> m w = (w', Ok a).
Proof. unfold reprint. destruct (m w) as [w1 [?|?|]]; naive_solver. Qed.

Lemma wrap_res_inv {A} msg (r : res A) a : wrap_res msg r = Ok a -> r = Ok a.
Proof. by destruct r. Qed.

(** Splits the runs that succeeded. *)
Ltac res_inv := repeat first [progress go_inv | match goal with
  | H : (_ ≫= _) = Ok _ |- _ => let a := fresh "a" in let Ha := fresh "Ha" in apply res_bind_inv in H as (a & Ha & H)
  | H : reprint _ _ _ = (_, Ok _) |- _ => apply reprint_inv_Ok in H
  | H : Ok _ = Ok _ |- _ => injection H as <-
  | H : Err _ = Ok _ |- _ => discriminate H
  | H : Panic = Ok _ |- _ => discriminate H
  | H : deref (Some _) = Ok _ |- _ => injection H as <-
  | H : deref ?o = Ok _ |- _ => destruct o eqn:?; [injection H as <-|discriminate H]
  end].

Lemma since_inv `{VersionLib} {A} cr v (l x : list A) : since cr v l = Ok x -> exists b, from_version cr v = Ok b /\ x = also b l.
Proof. unfold since. intros Hs. res_inv. eauto. Qed.

Lemma since_complete `{VersionLib} {A} cr v (l x : list A) : from_version cr v = Ok true -> since cr v l = Ok x -> x = l.
Proof. intros Hv (b & Hb & ->)%since_inv. rewrite Hv in Hb. by injection Hb as <-. Qed.

Lemma complete_since `{VersionLib} {A} cr v (l x : list A) : volumes_complete cr -> bool_decide (v ∈ ["1.7.0"; "1.9.0"; "1.11.0"; "1.13.0"]) = true ->
  since cr v l = Ok x -> x = l.
Proof. intros Hc Hv%bool_decide_eq_true. apply since_complete. by apply (proj1 (Forall_forall _ _) Hc). Qed.

Lemma Forall_also {A} (P : A -> Prop) b l : (b = true -> Forall P l) -> Forall P (also b l).
Proof. destruct b; simpl; auto. Qed.

Lemma since_Forall `{VersionLib} {A} (P : A -> Prop) cr v l x : since cr v l = Ok x -> (from_version cr v = Ok true -> Forall P l) -> Forall P x.
Proof. intros (b & Hb & ->)%since_inv HP. apply Forall_also. intros ->. by apply HP. Qed.

Lemma extra_names l : map mnt_Name (ExtraPVCVolumeMounts l) = map pv_Name (ExtraPVCVolumes l).
Proof. unfold ExtraPVCVolumeMounts, ExtraPVCVolumes. by rewrite !map_map. Qed.

Lemma names_map V l : map mnt_Name l ⊆ V -> Forall (names_volume V) l.
Proof. intros Hl. apply Forall_forall. intros m Hm. apply Hl, list_elem_of_fmap. by exists m. Qed.

Lemma one_mount V c m : ctr_Mounts c = [m] -> mnt_Name m ∈ V -> mounts_in V c.
Proof. unfold mounts_in. intros -> Hm. by apply Forall_singleton. Qed.
Lemma all_of_one {A} (P : A -> Prop) x : P x -> Forall P [x].
Proof. intros. by apply Forall_singleton. Qed.

#[local] Arguments app {A} _ _ : simpl never.

Section resolve.
Context {W : Type} `{SecretClient W} `{ConfigEnv W} `{VersionLib} `{IniLib} `{TemplateLib}.
Implicit Types (cr : PerconaXtraDBCluster) (V : list string) (spec : PodSpec) (w : W).

Lemma getConfigVolume_name ns name cm d w w' v : getConfigVolume ns name cm d w = (w', Ok v) -> pv_Name v = name.
Proof.
  unfold getConfigVolume. intros Hrun. res_inv. destruct a as [e|s]; [|by res_inv].
  destruct (IsNotFound e); simpl in *; [|by res_inv]. res_inv. destruct a as [e'|c]; [|by res_inv].
  destruct (IsNotFound e'); simpl in *; [|by res_inv]. destruct d; by res_inv.
Qed.

Lemma NewVolumes_name spec name V : pod_VolumeSpec spec <> None ->
  map pv_Name (NewVolumes spec name).1 ⊆ V -> map clm_Name (NewVolumes spec name).2 ⊆ V -> name ∈ V.
Proof.
  unfold NewVolumes. destruct (pod_VolumeSpec spec) as [v|]; [intros _|done].
  destruct (vol_PersistentVolumeClaim v); simpl; intros Hv Hc; [apply Hc|apply Hv]; by left.
Qed.

Lemma label_claims_names cr ls l l' : label_claims cr ls l = Ok l' -> map clm_Name l' = map clm_Name l.
Proof. unfold label_claims. intros Hl. res_inv. destruct a; [|done]. by rewrite map_map. Qed.

(** ** The database *)

Definition hook_of (o : option PodSpec) : bool := match o with Some p => negb (bool_decide (pod_HookScript p = "")) | None => false end.
Definition log_text (f : LogCollectorSpec -> string) cr : bool :=
  match spec_LogCollector (cluster_Spec cr) with Some l => negb (bool_decide (f l = "")) | None => false end.

(** What the containers of the database rely on. *)
Record node_supply cr spec V : Prop := {
  nsup_fixed : map mnt_Name node_mounts ⊆ V;
  nsup_hook : hook_of (pxc_PodSpec <$> spec_PXC (cluster_Spec cr)) || log_text lc_HookScript cr = true -> "hookscript" ∈ V;
  nsup_log : log_text lc_Configuration cr = true -> "logcollector-config" ∈ V;
  nsup_init : from_version cr "1.14.0" = Ok true -> "mysql-init-file" ∈ V;
  nsup_extra : from_version cr "1.19.0" = Ok true -> map pv_Name (ExtraPVCVolumes (pod_ExtraPVCs spec)) ⊆ V }.

Lemma node_App_mounts sfs spec secrets cr V w w' ct : node_supply cr spec V ->
  node_AppContainer sfs spec secrets cr w = (w', Ok ct) -> mounts_in V ct.
Proof.
  intros [Hf Hh _ Hi Hx] Hrun. unfold node_AppContainer in Hrun. res_inv. unfold mounts_in. cbn [ctr_Mounts].
  repeat apply Forall_app_2.
  - apply names_map, Hf.
  - eapply since_Forall; [eassumption|]. intros _. apply Forall_also. intros E. apply Forall_singleton. apply Hh.
    simpl. by rewrite E.
  - eapply since_Forall; [eassumption|]. intros E. by apply Forall_singleton, Hi.
  - apply Forall_also. intros ->. apply names_map. rewrite extra_names. auto.
Qed.

Lemma node_log_mounts secrets cr spec V cs : node_supply cr spec V -> node_LogCollectorContainer secrets cr = Ok cs -> Forall (mounts_in V) cs.
Proof.
  intros [Hf Hh Hl _ _] Hrun. unfold node_LogCollectorContainer in Hrun. unfold log_text in *.
  destruct (spec_LogCollector (cluster_Spec cr)) as [l|]; res_inv. assert (DataVolumeName ∈ V) by (apply Hf; by left).
  apply Forall_cons_2; [|apply all_of_one; by eapply one_mount]. unfold mounts_in. cbn [ctr_Mounts]. repeat apply Forall_app_2.
  - by apply Forall_singleton.
  - apply Forall_also. intros E. by apply Forall_singleton, Hl.
  - apply Forall_also. intros E. apply Forall_singleton, Hh. rewrite E. apply orb_true_r.
Qed.

Lemma node_xtrabackup_mounts cr spec V ct : node_supply cr spec V -> "backup-logs" ∈ V -> node_XtrabackupContainer cr = Some ct -> mounts_in V ct.
Proof.
  intros [Hf _ _ _ _] Hb Hrun. unfold node_XtrabackupContainer in Hrun. case_match; [done|].
  destruct (spec_Backup (cluster_Spec cr)); simplify_eq/=. unfold mounts_in. cbn [ctr_Mounts].
  repeat apply Forall_cons_2; try constructor; try done; apply Hf; set_solver.
Qed.

Lemma node_pmm_mounts secret cr V w w' ct : DataVolumeName ∈ V -> node_PMMContainer secret cr w = (w', Ok (Some ct)) -> mounts_in V ct.
Proof.
  intros Hd Hrun. unfold node_PMMContainer, node_pmm2 in Hrun. destruct (spec_PMM (cluster_Spec cr)) as [p|]; [|by res_inv].
  destruct (pmm_Enabled p); simpl in Hrun; [|by res_inv]. res_inv. destruct (has_token secret); res_inv; [by eapply one_mount|].
  destruct (pmm_HasSecret secret); simpl in *; res_inv. by eapply one_mount.
Qed.

Lemma node_init_mounts cr image V cs : DataVolumeName ∈ V -> node_InitContainers cr image = Ok cs -> Forall (mounts_in V) cs.
Proof. intros Hd Hrun. unfold node_InitContainers, EntrypointInitContainer in Hrun. res_inv. apply all_of_one. by eapply one_mount. Qed.

(** The volumes of the database pods supply it. *)
Lemma node_Volumes_supply sfs spec cr V w w' own : pod_VolumeSpec spec <> None -> volumes_complete cr ->
  node_Volumes sfs spec cr (getConfigVolume (cluster_Namespace cr)) w = (w', Ok own) ->
  map pv_Name (default ([], []) own).1 ⊆ V -> map clm_Name (default ([], []) own).2 ⊆ V ->
  (from_version cr "1.19.0" = Ok true -> map pv_Name (ExtraPVCVolumes (pod_ExtraPVCs spec)) ⊆ V) -> node_supply cr spec V.
Proof.
  intros Hs Hc Hrun Hv Hp Hx. unfold node_Volumes, node_own_volumes in Hrun. res_inv. cbn [default fst snd] in Hv, Hp.
  match goal with H : getConfigVolume _ _ _ _ _ = _ |- _ => apply getConfigVolume_name in H as Hn end.
  match goal with H : label_claims _ _ _ = _ |- _ => rewrite (label_claims_names _ _ _ _ H) in Hp end.
  match goal with H : since cr "1.11.0" _ = _ |- _ => apply complete_since in H; [subst|done|done] end.
  unfold ssl_volume in *. res_inv. rewrite !map_app in Hv.
  match goal with H : since cr "1.14.0" _ = _ |- _ => apply since_inv in H as (b14 & H14 & ->) end.
  simpl in Hv. rewrite Hn in Hv.
  assert (Hd : DataVolumeName ∈ V) by (eapply NewVolumes_name; [done| |done]; set_solver).
  split; [| | | |done].
  - set_solver.
  - unfold hook_of, log_text. intros E. destruct (spec_PXC _) as [p|], (spec_LogCollector _) as [l|]; simpl in E, Hv;
      repeat match goal with H : context [negb ?b] |- _ => destruct b; simpl in * end; solve [done | set_solver].
  - unfold log_text. intros E. rewrite E in Hv. set_solver.
  - intros E. rewrite E in H14. injection H14 as <-. set_solver.
Qed.

(** ** HAProxy *)

Record haproxy_supply cr spec (h : HAProxySpec) V : Prop := {
  hsup_config : Forall (names_volume V) haproxy_config_mounts;
  hsup_bin : Forall (names_volume V) bin_mount;
  hsup_users : Forall (names_volume V) users_mount;
  hsup_env : Forall (names_volume V) (haproxy_env_mount h);
  hsup_hook : hook_of (Some (ha_PodSpec h)) = true -> "hookscript" ∈ V;
  hsup_extra : from_version cr "1.19.0" = Ok true -> map pv_Name (ExtraPVCVolumes (pod_ExtraPVCs spec)) ⊆ V }.

Lemma haproxy_App_mounts sfs spec secrets cr h V ct : spec_HAProxy (cluster_Spec cr) = Some h -> haproxy_supply cr spec h V ->
  haproxy_AppContainer sfs spec secrets cr = Ok ct -> mounts_in V ct.
Proof.
  intros Hh [Hc Hb Hu He Hk Hx] Hrun. unfold haproxy_AppContainer in Hrun. rewrite Hh in Hrun. res_inv. unfold mounts_in. cbn [ctr_Mounts].
  repeat apply Forall_app_2; try assumption.
  - by apply Forall_also.
  - eapply since_Forall; [eassumption|]. intros _. apply Forall_also. intros E. by apply all_of_one, Hk.
  - eapply since_Forall; [eassumption|]. intros E. apply names_map. rewrite extra_names. auto.
Qed.

Lemma haproxy_side_mounts sfs spec secrets cr h V w w' cs : spec_HAProxy (cluster_Spec cr) = Some h -> haproxy_supply cr spec h V ->
  haproxy_SidecarContainers sfs spec secrets cr w = (w', Ok cs) -> Forall (mounts_in V) cs.
Proof.
  intros Hh [Hc Hb Hu He _ _] Hrun. unfold haproxy_SidecarContainers in Hrun. rewrite Hh in Hrun. res_inv.
  apply all_of_one. unfold mounts_in. cbn [ctr_Mounts].
  repeat apply Forall_app_2; try (apply Forall_also; intros _); assumption.
Qed.

Lemma haproxy_pmm_mounts secret cr V w w' ct : BinVolumeName ∈ V -> haproxy_PMMContainer secret cr w = (w', Ok (Some ct)) -> mounts_in V ct.
Proof.
  intros Hd Hrun. unfold haproxy_PMMContainer, haproxy_pmm2, PMMClient in Hrun. destruct (spec_PMM (cluster_Spec cr)) as [p|]; [|by res_inv].
  destruct (pmm_Enabled p); simpl in Hrun; [|by res_inv]. res_inv. destruct (has_token secret); res_inv; [by eapply one_mount|].
  destruct (pmm_HasSecret secret); simpl in *; res_inv. by eapply one_mount.
Qed.

(** The init containers of the proxies. *)
Lemma proxy_init_mounts cr image f V cs : BinVolumeName ∈ V -> (forall c, f cr image = Ok c -> mounts_in V c) ->
  with_entrypoint cr image f = Ok cs -> Forall (mounts_in V) cs.
Proof.
  intros Hb Hf Hrun. unfold with_entrypoint, proxyInitContainers, EntrypointInitContainer in Hrun. res_inv.
  assert (Hi : Forall (mounts_in V) a) by (destruct a1; res_inv; [apply all_of_one; by eapply one_mount|constructor]).
  destruct a0; res_inv; [|done]. apply Forall_app_2; [done|]. apply all_of_one. eauto.
Qed.

Lemma proxy_entrypoint_mounts cr image name script spec V c : BinVolumeName ∈ V -> proxy_entrypoint cr image name script spec = Ok c -> mounts_in V c.
Proof. intros Hb Hrun. unfold proxy_entrypoint in Hrun. res_inv. by eapply one_mount. Qed.

Lemma haproxy_Volumes_supply sfs spec cr h V w w' own : spec_HAProxy (cluster_Spec cr) = Some h -> volumes_complete cr ->
  haproxy_Volumes sfs spec cr (getConfigVolume (cluster_Namespace cr)) w = (w', Ok own) -> map pv_Name (default ([], []) own).1 ⊆ V ->
  (from_version cr "1.19.0" = Ok true -> map pv_Name (ExtraPVCVolumes (pod_ExtraPVCs spec)) ⊆ V) -> haproxy_supply cr spec h V.
Proof.
  intros Hh Hc Hrun Hv Hx. unfold haproxy_Volumes, haproxy_own_volumes in Hrun. rewrite Hh in Hrun. res_inv. cbn [default fst snd] in Hv.
  match goal with H : getConfigVolume _ _ _ _ _ = _ |- _ => apply getConfigVolume_name in H as Hn end.
  repeat match goal with H : since cr _ _ = _ |- _ => apply complete_since in H; [subst|done|done] end.
  rewrite !map_app in Hv. simpl in Hv. rewrite Hn in Hv. split; [| | | | |done].
  - apply names_map. set_solver.
  - apply names_map. set_solver.
  - apply names_map. set_solver.
  - apply names_map. set_solver.
  - unfold hook_of. intros E. rewrite E in Hv. set_solver.
Qed.

(** ** ProxySQL *)

Record proxysql_supply cr spec (p : ProxySQLSpec) (vs : list PodVolume) V : Prop := {
  psup_data : proxyDataVolumeName ∈ V;
  psup_ssl : Forall (names_volume V) proxysql_ssl_mounts;
  psup_bin : Forall (names_volume V) bin_mount;
  psup_own : map pv_Name vs ⊆ V;
  psup_hook : hook_of (Some (ps_PodSpec p)) = true -> "hookscript" ∈ V;
  psup_extra : from_version cr "1.19.0" = Ok true -> map pv_Name (ExtraPVCVolumes (pod_ExtraPVCs spec)) ⊆ V }.

Lemma ContainsVolume_name vs n : ContainsVolume vs n = true -> n ∈ map pv_Name vs.
Proof.
  unfold ContainsVolume. intros (v & Hv & E%bool_decide_eq_true)%existsb_exists. apply list_elem_of_fmap. exists v. split; [done|]. by apply list_elem_of_In.
Qed.

Lemma proxysql_App_mounts sfs spec secrets cr p vs V ct : spec_ProxySQL (cluster_Spec cr) = Some p -> proxysql_supply cr spec p vs V ->
  proxysql_AppContainer sfs spec secrets cr vs = Ok ct -> mounts_in V ct.
Proof.
  intros Hp [Hd Hs Hb Ho Hk Hx] Hrun. unfold proxysql_AppContainer in Hrun. rewrite Hp in Hrun. res_inv. unfold mounts_in. cbn [ctr_Mounts].
  repeat apply Forall_app_2.
  - by apply all_of_one.
  - done.
  - apply Forall_also. intros E%ContainsVolume_name. by apply all_of_one, Ho.
  - by apply Forall_also.
  - eapply since_Forall; [eassumption|]. intros _. apply Forall_also. intros E. by apply all_of_one, Hk.
  - apply Forall_also. intros ->. apply names_map. rewrite extra_names. auto.
Qed.

Lemma proxysql_side_mounts sfs spec secrets cr p vs V cs : spec_ProxySQL (cluster_Spec cr) = Some p -> proxysql_supply cr spec p vs V ->
  proxysql_SidecarContainers sfs spec secrets cr = Ok cs -> Forall (mounts_in V) cs.
Proof.
  intros Hp [_ Hs Hb _ _ _] Hrun. unfold proxysql_SidecarContainers in Hrun. rewrite Hp in Hrun. res_inv.
  apply Forall_cons_2; [|apply Forall_also; intros _; apply all_of_one]; unfold mounts_in, peer_list; cbn [ctr_Mounts];
    repeat first [apply Forall_app_2 | apply Forall_nil_2]; by apply Forall_also.
Qed.

Lemma proxysql_pmm_mounts secret cr V w w' ct : BinVolumeName ∈ V -> proxysql_PMMContainer secret cr w = (w', Ok (Some ct)) -> mounts_in V ct.
Proof.
  intros Hd Hrun. unfold proxysql_PMMContainer, proxysql_pmm2, PMMClient in Hrun. destruct (spec_PMM (cluster_Spec cr)) as [p|]; [|by res_inv].
  destruct (pmm_Enabled p); simpl in Hrun; [|by res_inv]. res_inv. destruct (has_token secret); res_inv; [by eapply one_mount|].
  destruct (pmm_HasSecret secret); simpl in *; res_inv. by eapply one_mount.
Qed.

Lemma proxysql_Volumes_supply sfs spec cr p V w w' own : spec_ProxySQL (cluster_Spec cr) = Some p -> pod_VolumeSpec spec <> None -> volumes_complete cr ->
  proxysql_Volumes sfs spec cr (getConfigVolume (cluster_Namespace cr)) w = (w', Ok own) ->
  map pv_Name (default ([], []) own).1 ⊆ V -> map clm_Name (default ([], []) own).2 ⊆ V ->
  (from_version cr "1.19.0" = Ok true -> map pv_Name (ExtraPVCVolumes (pod_ExtraPVCs spec)) ⊆ V) ->
  proxysql_supply cr spec p (default ([], []) own).1 V.
Proof.
  intros Hp Hs Hc Hrun Hv Hq Hx. unfold proxysql_Volumes, proxysql_own_volumes in Hrun. rewrite Hp in Hrun. res_inv. cbn [default fst snd] in *.
  match goal with H : label_claims _ _ _ = _ |- _ => rewrite (label_claims_names _ _ _ _ H) in Hq end.
  repeat match goal with H : since cr _ _ = _ |- _ => apply complete_since in H; [subst|done|done] end.
  unfold ssl_volume in *. res_inv. split; [| | |done| |done]; rewrite !map_app in Hv; simpl in Hv.
  - eapply NewVolumes_name; [done| |done]. set_solver.
  - apply names_map. set_solver.
  - apply names_map. set_solver.
  - unfold hook_of. intros E. rewrite E in Hv. set_solver.
Qed.

(** ** A whole pod *)

Definition pod_supply (c : Component) cr spec (vs : list PodVolume) V : Prop :=
  match c with
  | CompPXC => node_supply cr spec V
  | CompHAProxy => exists h, spec_HAProxy (cluster_Spec cr) = Some h /\ haproxy_supply cr spec h V
  | CompProxySQL => exists p, spec_ProxySQL (cluster_Spec cr) = Some p /\ proxysql_supply cr spec p vs V
  end.

Lemma component_of_app c cr : component_of (comp_app c cr) = Some c.
Proof.
  assert (Hl : sa_Labels (comp_app c cr) !! "app.kubernetes.io/component" =
               Some (match c with CompPXC => "pxc" | CompHAProxy => "haproxy" | CompProxySQL => "proxysql" end)).
  { destruct c; simpl; unfold componentLabels; by simplify_map_eq. }
  unfold component_of, isPXC, isHAproxy, isProxySQL. rewrite Hl. by destruct c.
Qed.

Lemma pod_Volumes_supply c cr spec V w w' own : comp_spec c cr = Ok spec -> (c <> CompHAProxy -> pod_VolumeSpec spec <> None) -> volumes_complete cr ->
  at_Volumes (AppTemplates := app_templates) (comp_app c cr) spec cr (getConfigVolume (cluster_Namespace cr)) w = (w', Ok own) ->
  map pv_Name (default ([], []) own).1 ⊆ V -> map clm_Name (default ([], []) own).2 ⊆ V ->
  (from_version cr "1.19.0" = Ok true -> map pv_Name (ExtraPVCVolumes (pod_ExtraPVCs spec)) ⊆ V) ->
  pod_supply c cr spec (default ([], []) own).1 V.
Proof.
  intros Hs Hd Hc Hrun Hv Hq Hx. cbn [at_Volumes app_templates] in Hrun. rewrite component_of_app in Hrun. destruct c; simpl in Hs |- *; res_inv.
  - eapply node_Volumes_supply; eauto.
  - eexists. split; [done|]. eapply haproxy_Volumes_supply; eauto.
  - eexists. split; [done|]. eapply proxysql_Volumes_supply; eauto.
Qed.

Lemma supply_bin c cr spec vs V : c <> CompPXC -> pod_supply c cr spec vs V -> BinVolumeName ∈ V.
Proof.
  destruct c; [done|intros _ (h & _ & Hs)|intros _ (p & _ & Hs)]; [apply hsup_bin in Hs|apply psup_bin in Hs]; exact (proj1 (Forall_cons_1 _ _ _ Hs)).
Qed.

Lemma supply_data cr spec V : node_supply cr spec V -> DataVolumeName ∈ V.
Proof. intros Hs. apply (nsup_fixed _ _ _ Hs). by left. Qed.

Lemma app_mounts c cr spec secrets vs V w w' ct : pod_supply c cr spec vs V ->
  at_AppContainer (AppTemplates := app_templates) (comp_app c cr) spec secrets cr vs w = (w', Ok ct) -> mounts_in V ct.
Proof.
  intros Hs Hrun. cbn [at_AppContainer app_templates] in Hrun. rewrite component_of_app in Hrun. destruct c.
  - eapply node_App_mounts; eauto.
  - destruct Hs as (h & Hh & Hs). res_inv. eapply haproxy_App_mounts; eauto.
  - destruct Hs as (p & Hp & Hs). res_inv. eapply proxysql_App_mounts; eauto.
Qed.

Lemma side_mounts c cr spec secrets vs V w w' cs : pod_supply c cr spec vs V ->
  at_SidecarContainers (AppTemplates := app_templates) (comp_app c cr) spec secrets cr w = (w', Ok cs) -> Forall (mounts_in V) cs.
Proof.
  intros Hs Hrun. cbn [at_SidecarContainers app_templates] in Hrun. rewrite component_of_app in Hrun. destruct c.
  - res_inv. constructor.
  - destruct Hs as (h & Hh & Hs). eapply haproxy_side_mounts; eauto.
  - destruct Hs as (p & Hp & Hs). res_inv. eapply proxysql_side_mounts; eauto.
Qed.

Lemma pmm_mounts c cr spec secret vs V w w' ct : pod_supply c cr spec vs V ->
  at_PMMContainer (AppTemplates := app_templates) (comp_app c cr) secret cr w = (w', Ok (Some ct)) -> mounts_in V ct.
Proof.
  intros Hs Hrun. cbn [at_PMMContainer app_templates] in Hrun. rewrite component_of_app in Hrun. destruct c.
  - eapply node_pmm_mounts; [|exact Hrun]. by eapply supply_data.
  - eapply haproxy_pmm_mounts; [|exact Hrun]. by apply (supply_bin CompHAProxy _ _ _ _ ltac:(done) Hs).
  - eapply proxysql_pmm_mounts; [|exact Hrun]. by apply (supply_bin CompProxySQL _ _ _ _ ltac:(done) Hs).
Qed.

Lemma init_mounts c cr spec image vs V cs : pod_supply c cr spec vs V ->
  at_InitContainers (AppTemplates := app_templates) (W := W) (comp_app c cr) cr image = Ok cs -> Forall (mounts_in V) cs.
Proof.
  intros Hs Hrun. cbn [at_InitContainers app_templates] in Hrun. rewrite component_of_app in Hrun. destruct c.
  - eapply node_init_mounts; [|exact Hrun]. by eapply supply_data.
  - pose proof (supply_bin CompHAProxy _ _ _ _ ltac:(done) Hs). eapply proxy_init_mounts; [done| |exact Hrun]. intros ct Hct.
    unfold HaproxyEntrypointInitContainer in Hct. res_inv. by eapply proxy_entrypoint_mounts.
  - pose proof (supply_bin CompProxySQL _ _ _ _ ltac:(done) Hs). eapply proxy_init_mounts; [done| |exact Hrun]. intros ct Hct.
    unfold ProxySQLEntrypointInitContainer in Hct. res_inv. by eapply proxy_entrypoint_mounts.
Qed.

Lemma log_mounts c cr spec secrets vs V w w' cs : pod_supply c cr spec vs V ->
  log_collector (H1 := app_templates) (comp_app c cr) secrets cr w = (w', Ok cs) -> Forall (mounts_in V) cs.
Proof.
  intros Hs Hrun. unfold log_collector in Hrun. cbn [at_LogCollectorContainer app_templates] in Hrun. rewrite component_of_app in Hrun.
  case_match; [|by res_inv]. res_inv. destruct a; [|by res_inv]. res_inv. destruct c; res_inv; try done. by eapply node_log_mounts.
Qed.

Lemma xtrabackup_mounts c cr spec vs V w w' ct : pod_supply c cr spec vs V -> "backup-logs" ∈ V ->
  at_XtrabackupContainer (AppTemplates := app_templates) (comp_app c cr) cr w = (w', Ok (Some ct)) -> mounts_in V ct.
Proof.
  intros Hs Hb Hrun. cbn [at_XtrabackupContainer app_templates] in Hrun. rewrite component_of_app in Hrun. destruct c; res_inv.
  by eapply node_xtrabackup_mounts.
Qed.

Lemma pod_containers_mounts c cr spec secret vs image V w w' init cts xb : pod_supply c cr spec vs V -> (xb = true -> "backup-logs" ∈ V) ->
  pod_containers (H1 := app_templates) (comp_app c cr) spec cr secret vs image w = (w', Ok (init, cts, xb)) ->
  Forall (mounts_in V) init /\ (forall ct, ct ∈ cts -> ct ∈ default [] (pod_Sidecars spec) \/ mounts_in V ct).
Proof.
  intros Hs Hb Hrun. unfold pod_containers in Hrun. res_inv. split; [eapply init_mounts; [exact Hs|exact H5]|].
  unfold AddSidecarContainers, add_named. intros ct [Hct|[_ Hct]%list_elem_of_filter]%elem_of_app; [right|by left].
  revert ct Hct. apply Forall_forall. repeat apply Forall_app_2.
  - destruct a0 as [x|]; simpl; [|constructor]. apply all_of_one. eapply xtrabackup_mounts; [exact Hs|by apply Hb|exact Hm0].
  - apply try_inv_Ok in Hm1 as [([x|] & -> & Hp)|(e & -> & _)]; [|constructor|constructor]. apply all_of_one. eapply pmm_mounts; [exact Hs|exact Hp].
  - eapply log_mounts; [exact Hs|exact Hm2].
  - apply all_of_one. eapply app_mounts; [exact Hs|exact Hm].
  - eapply side_mounts; [exact Hs|exact Hm4].
Qed.

(** C13: In the pods of every component, what a container of the operator mounts is there: each mount of each init
    container and of each container that is not a sidecar of the user names a volume of the pod or a
    claim of the stateful set.  The version of the cluster is at least 1.13.0 (and so 1.7.0, 1.9.0 and
    1.11.0), and the database and ProxySQL have a volume specification. *)
Theorem pod_mounts_resolve (c : Component) cr spec (secret : Secret) (image : string) w w' sts : comp_spec c cr = Ok spec ->
  (c <> CompHAProxy -> pod_VolumeSpec spec <> None) -> volumes_complete cr ->
  NewStatefulSet (H1 := app_templates) (comp_app c cr) spec cr secret image w = (w', Ok sts) ->
  Forall (mounts_in (volume_names sts)) (tpl_InitContainers (sp_Template (sset_Spec sts))) /\
  (forall ct, ct ∈ tpl_Containers (sp_Template (sset_Spec sts)) -> ct ∈ default [] (pod_Sidecars spec) \/ mounts_in (volume_names sts) ct).
Proof.
  intros Hs Hd Hc Hrun. unfold NewStatefulSet in Hrun. apply bind_inv_Ok in Hrun as (w0 & share & _ & Hrun). res_inv.
  destruct a0 as [[init cts] xb]. eapply (pod_containers_mounts c cr spec); [| |eassumption].
  - eapply pod_Volumes_supply; [done|done|done|eassumption| | |].
    all: unfold volume_names, AddSidecarVolumes, AddSidecarPVCs, add_named; cbn; rewrite !map_app.
    + intros n Hin. rewrite !elem_of_app. tauto.
    + intros n Hin. rewrite !elem_of_app. tauto.
    + intros E n Hin. match goal with H : from_version cr "1.19.0" = Ok _ |- _ => rewrite E in H; injection H as <- end.
      rewrite !elem_of_app. tauto.
  - intros ->. unfold volume_names, AddSidecarVolumes, add_named. cbn. rewrite !map_app, !elem_of_app. left. left. left. right. by left.
Qed.

(** ** Volumes with one name *)

(** C40: The volumes that the database pods get from the operator have distinct names exactly when the hook scripts of
    the database and of the log collector are not both there: their volumes are both called
    [hookscript], and the server accepts no pod with two volumes of one name. *)
Theorem node_volume_names_distinct cr spec config vs : pv_Name config = "config" -> node_own_volumes spec cr config = Ok vs ->
  NoDup (map pv_Name vs) <->
  ~ (from_version cr "1.11.0" = Ok true /\ hook_of (pxc_PodSpec <$> spec_PXC (cluster_Spec cr)) = true /\ log_text lc_HookScript cr = true).
Proof.
  intros Hn Hrun. unfold node_own_volumes, ssl_volume in Hrun. res_inv.
  repeat match goal with H : since _ _ _ = Ok _ |- _ => let b := fresh "b" in let Hb := fresh "Hb" in apply since_inv in H as (b & Hb & ->) end.
  repeat match goal with H : from_version cr ?v = Ok ?b |- _ => rewrite ?H; clear H; destruct b end.
  all: unfold hook_of, log_text; destruct (spec_PXC _) as [p|], (spec_LogCollector _) as [l|]; simpl;
    repeat match goal with |- context [negb ?b] => destruct b; simpl end; unfold app; simpl; rewrite Hn; clear.
  all: match goal with |- NoDup ?l <-> _ => rewrite <- (bool_decide_eq_true (NoDup l)); change (bool_decide (NoDup l)) with
    ltac:(let b := eval vm_compute in (bool_decide (NoDup l)) in exact b) end; naive_solver.
Qed.
End resolve.
