(* ===== verification/StatefulSetMem.v ===== *)
(** * Stateful sets against a concrete server *)

From S2P Require Import Prelude GoStrings ApiTypes KubeApi KubeMem Naming Secrets Users ClusterStatus ApiDefaults BackupController SmartUpdate Services Config BackupMem StatefulSet Templates StatefulSetSpec TemplatesSpec.

(** The objects of the server; it fills in a restart policy. *)
Record TMem := mkTMem {
  tm_sets : gmap NamespacedName StatefulSet;
  tm_secrets : gmap NamespacedName Secret;
  tm_maps : gmap NamespacedName ConfigMap }.

#[export] Instance TMem_sets : StsView TMem := tm_sets.

Definition fetch {O} (get : TMem -> gmap NamespacedName O) (key : O -> NamespacedName) (n : NamespacedName) : M TMem O := fun w =>
  match get w !! n with
  | Some o => if bool_decide (key o = n) then (w, Ok o) else (w, Err (ErrNew "corrupt"))
  | None => (w, Err not_found)
  end.

Definition store (s : StatefulSet) : M TMem unit :=
  modify (fun w => mkTMem (<[sset_Key s := s <| sset_Spec -> sp_Template -> tpl_Rest := "restartPolicy: Always" |>]> (tm_sets w)) (tm_secrets w) (tm_maps w)).

#[export] Instance TMem_env : StsEnv TMem := {|
  sse_get := fetch tm_sets sset_Key;
  sse_create := store;
  sse_update := store;
  pbe_get _ := fail not_found;
  pbe_create _ := mret tt;
  pbe_update _ := mret tt;
  sse_operatorPod := mret [("percona-xtradb-cluster-operator", "operator:1.19.0")] |}.

(** An encoding of what the hash has to tell apart, by codes of which none is the
    beginning of another one. *)
Definition prefix_code {A} (e : A -> string) : Prop := forall x y s t, e x +:+ s = e y +:+ t -> x = y /\ s = t.

Fixpoint enc_string (s : string) : string :=
  match s with EmptyString => ";" | String c s => "," +:+ String c (enc_string s) end.
Fixpoint enc_list {A} (e : A -> string) (l : list A) : string :=
  match l with [] => ";" | x :: l => "," +:+ e x +:+ enc_list e l end.
Definition enc_pair {A B} (ea : A -> string) (eb : B -> string) (x : A * B) : string := ea x.1 +:+ eb x.2.
Definition enc_map (m : gmap string string) : string := enc_list (enc_pair enc_string enc_string) (map_to_list m).

Lemma enc_string_code : prefix_code enc_string.
Proof.
  intros x. induction x as [|c x IH]; intros [|d y] s t E; simpl in E; try discriminate; [split; [done|]; injection E as E; exact E|].
  injection E as -> E. by apply IH in E as [-> ->].
Qed.
Lemma enc_list_code {A} (e : A -> string) : prefix_code e -> prefix_code (enc_list e).
Proof.
  intros He x. induction x as [|c x IH]; intros [|d y] s t E; simpl in E; try discriminate; [split; [done|]; injection E as E; exact E|].
  injection E as E. rewrite <- !str_app_assoc in E. apply He in E as [-> E]. by apply IH in E as [-> ->].
Qed.
Lemma enc_pair_code {A B} (ea : A -> string) (eb : B -> string) : prefix_code ea -> prefix_code eb -> prefix_code (enc_pair ea eb).
Proof.
  intros Ha Hb [x1 x2] [y1 y2] s t E. unfold enc_pair in E. simpl in E. rewrite <- !str_app_assoc in E.
  apply Ha in E as [-> E]. by apply Hb in E as [-> ->].
Qed.
Lemma enc_map_code : prefix_code enc_map.
Proof.
  intros x y s t E. apply (enc_list_code _ (enc_pair_code _ _ enc_string_code enc_string_code)) in E as [E ->]. split; [|done].
  by rewrite <- (list_to_map_to_list x), E, list_to_map_to_list.
Qed.

Definition enc_meta (s : StatefulSetSpec) : string :=
  enc_pair (enc_pair enc_map enc_map) (enc_list enc_map) (tpl_meta s, claim_labels s).

Lemma enc_meta_inj s s' : enc_meta s = enc_meta s' -> tpl_meta s = tpl_meta s' /\ claim_labels s = claim_labels s'.
Proof.
  intros E. apply (f_equal (fun x => x +:+ "")) in E.
  apply (enc_pair_code _ _ (enc_pair_code _ _ enc_map_code enc_map_code) (enc_list_code _ enc_map_code)) in E as [E _].
  split; [exact (f_equal fst E)|exact (f_equal snd E)].
Qed.

#[export] Instance TMem_lib : StsLib := {|
  sts_hash s := Ok (enc_meta s);
  pdb_hash b := Ok (nn_name (pb_Key b));
  cm_hash m := Ok (enc_map (cm_Data m));
  secret_config_hash s := Ok (enc_map (data_of s));
  secret_hash s := enc_map (data_of s);
  empty_hash := "d41d8cd98f00b204e9800998ecf8427e";
  sts_ownerRef cr := Ok (meta_UID (cluster_Meta cr));
  pdb_ownerRef s := Ok (nn_name (sset_Key s)) |}.

#[export] Instance TMem_client : SecretClient TMem := {|
  sc_get := fetch tm_secrets sec_key;
  sc_create s := mret s;
  sc_update s := mret s;
  sc_patch _ s := mret s;
  sc_delete _ := mret tt |}.

#[export] Instance TMem_config : ConfigEnv TMem := {|
  cf_get := fetch tm_maps cm_Key;
  cf_create m := modify (fun w => mkTMem (tm_sets w) (tm_secrets w) (<[cm_Key m := m]> (tm_maps w)));
  cf_update m := modify (fun w => mkTMem (tm_sets w) (tm_secrets w) (<[cm_Key m := m]> (tm_maps w)));
  cf_delete m := modify (fun w => mkTMem (tm_sets w) (tm_secrets w) (delete (cm_Key m) (tm_maps w)));
  cf_ownerRef cr := Ok (meta_UID (cluster_Meta cr)) |}.

Definition claim (name : string) : ClaimTemplate := mkClaimTemplate name ∅ (mkPVCSpec [] ∅).

#[local] Instance sts_versions : VersionLib := dotted_versions.
#[local] Instance sts_ini : IniLib := {| ini_Load _ := Ok ∅ |}.
#[local] Instance sts_template_lib : TemplateLib := {| fnv32 _ := 2166136261; XtrabackupSidecar := true |}.

Lemma fetch_run {O} (get : TMem -> gmap NamespacedName O) key n w w' r : fetch get key n w = (w', r) -> w' = w /\
  match r with Ok o => get w !! n = Some o /\ key o = n | Err e => IsNotFound e = true -> get w !! n = None | Panic => False end.
Proof. unfold fetch. destruct (get w !! n) as [o|]; [case_bool_decide|]; intros [= <- <-]; done. Qed.

Lemma fetch_quiet {O} (get : TMem -> gmap NamespacedName O) key n : quiet (fetch get key n).
Proof. intros x w Hw. destruct (fetch get key n w) eqn:E. by apply fetch_run in E as [-> _]. Qed.

Lemma store_writes s : may_write s (store s).
Proof. intros w w' r [= <- <-]. eexists. split; [|reflexivity]. by destruct s as [? ? ? ? ? [? ? ? [] ? ?]]. Qed.

#[export] Instance TMem_laws : StsLaws TMem.
Proof.
  split; intros.
  - by apply fetch_run in H as [-> ?].
  - apply store_writes.
  - apply store_writes.
  - apply fetch_quiet.
  - apply fetch_quiet.
  - by intros x w Hw.
  - by intros x w Hw.
  - by intros x w Hw.
  - intros x. apply keeps_ret.
  - intros x. apply AppContainer_keeps. intros n. apply fetch_quiet.
  - intros x. apply SidecarContainers_keeps. intros n. apply fetch_quiet.
  - intros x. apply PMMContainer_keeps. intros n. apply fetch_quiet.
  - intros x. simpl. keeps_solve.
  - intros x. apply Volumes_keeps. intros. apply H.
  - simpl in *. injection H as <-. injection H0 as E%enc_meta_inj. by destruct E.
Qed.

#[local] Instance sts_retry : RetryLib := loop_retry 4.
#[local] Instance sts_OnError : OnErrorLib := {|
  retry_OnError S A p := retry_loop p 4;
  retry_OnError_runs S A p fn s s' r := @retry_loop_runs S A p 4 fn s s' r |}.
#[local] Instance sts_smart : SmartEnv TMem := {|
  sm_sleepSecond := mret tt; sm_getSts _ := fail not_found; sm_listPods _ := mret []; sm_getPod _ := fail not_found;
  sm_deletePod _ := mret tt; sm_listBackups _ := mret []; sm_connect _ _ _ _ := fail not_found; sm_Hostname _ := mret "";
  sm_PrimaryHost _ := mret ""; sm_PresentInHostgroup _ _ _ := mret true; sm_InstanceStatus _ _ := mret []; sm_WsrepState _ := mret "";
  sm_ConfigHasKey _ _ _ := Ok false; sm_ticks _ _ _ := 1%nat; sm_now _ := 0 |}.
#[local] Instance sts_status : StatusEnv TMem := {|
  sx_listPods _ _ := mret []; sx_getSts _ := fail not_found; sx_podLogs _ _ := mret []; sx_ingress _ := mret [];
  sx_getCluster _ := fail not_found; sx_statusUpdate _ := mret tt; sx_selector _ := ""; sx_now _ := 0 |}.

(** ** A configuration that changes *)

Definition sts_cr (sidecarClaims : list ClaimTemplate) : PerconaXtraDBCluster :=
  (demo_cluster None) <| cluster_Meta -> meta_UID := "uid-1" |> <| cluster_Spec -> spec_CRVersion := "1.19.0" |>
    <| cluster_Spec -> spec_PXC ::= fmap (fun p => p <| pxc_PodSpec -> pod_Configuration := "[mysqld]" |>
         <| pxc_PodSpec -> pod_SidecarPVCs := sidecarClaims |> <| pxc_PodSpec -> pod_SSLSecretName := "c1-ssl" |>
         <| pxc_PodSpec -> pod_SSLInternalSecretName := "c1-ssl-internal" |>) |>.
Definition key (n : string) : NamespacedName := mkNN "ns" n.
Definition sec (n : string) : Secret := mkSecret (demo_meta n "") (Some {[ "k" := n ]}).
Definition pxc_map : ConfigMap := mkConfigMap (key "c1-pxc") ∅ ["uid-1"] {[ "init.cnf" := "[mysqld]" ]}.
Definition secrets : gmap NamespacedName Secret :=
  {[ key "internal-c1" := sec "internal-c1"; key "c1-ssl" := sec "c1-ssl"; key "c1-ssl-internal" := sec "c1-ssl-internal" ]}.
Definition sts_world : TMem := mkTMem ∅ secrets {[ key "c1-pxc" := pxc_map ]}.
Definition node (claims : list ClaimTemplate) : StatefulApp := NewNode (sts_cr claims).

Definition pass (claims : list ClaimTemplate) (w : TMem) : VW TMem * res unit :=
  updatePod "1.19.0" CompPXC (node claims) {[ "last-applied-secret" := "new" ]} false (mkVW w (sts_cr claims)).
Definition deployed : TMem := vw_w (pass [] sts_world).1.

Lemma honest_start : honest sts_world.
Proof. by intros n s h. Qed.

Definition new_hashes : list (string * string) := [(configuration_hash, "h1"); ("percona.com/ssl-hash", "")].
Definition put (claims : list ClaimTemplate) (w : TMem) : VW TMem * res unit :=
  put_sts CompPXC (node claims) {[ "last-applied-secret" := "new" ]} new_hashes (sec "internal-c1") "image" (mkVW w (sts_cr claims)).
Definition after (claims : list ClaimTemplate) : VW TMem := (put claims sts_world).1.

Lemma pods_marked_witness : exists s, sets (vw_w (after [])) !! key "c1-pxc" = Some s /\
  tpl_Annotations (sp_Template (sset_Spec s)) !! configuration_hash = Some "h1" /\
  tpl_Annotations (sp_Template (sset_Spec s)) !! "last-applied-secret" = Some "new".
Proof.
  destruct (pods_marked CompPXC (node []) {[ "last-applied-secret" := "new" ]} new_hashes (sec "internal-c1") "image" (mkVW sts_world (sts_cr [])) (after []))
    as (_ & s & Hs & Hh & Ha & _).
  - exact honest_start.
  - apply (bool_decide_unpack _). vm_compute. exact I.
  - vm_compute. reflexivity.
  - exists s. split; [exact Hs|]. split; [apply Hh; [by left|reflexivity]|]. apply Ha; [reflexivity|].
    apply (bool_decide_unpack ("last-applied-secret" ∉ new_hashes.*1)). vm_compute. exact I.
Defined.

Lemma put_sts_settles_witness : (put [] (vw_w (after []))).2 = Ok tt /\ sets (vw_w (put [] (vw_w (after []))).1) = sets (vw_w (after [])).
Proof.
  split; [vm_compute; reflexivity|].
  apply (put_sts_settles CompPXC (node []) {[ "last-applied-secret" := "new" ]} new_hashes (sec "internal-c1") "image" (sts_cr []) sts_world (after [])
    _ (put [] (vw_w (after []))).2).
  - exact honest_start.
  - apply (bool_decide_unpack _). vm_compute. exact I.
  - vm_compute. reflexivity.
  - vm_compute. reflexivity.
  - vm_compute. reflexivity.
Defined.

(** ** A claim of a sidecar that is taken away *)

Definition with_sidecar : TMem := vw_w (after [claim "sidecar-data"]).

Definition sidecar_set : StatefulSet := default (mkStatefulSet (key "") ∅ ∅ [] true (mkStsSpec 0 ∅ "" (mkTemplate ∅ ∅ None "" None None false [] [] [] "")
  (mkStrategy "" None) [])) (sets with_sidecar !! key "c1-pxc").
Definition plain_pod : PodSpec := match comp_spec CompPXC (sts_cr []) with Ok p => p | _ => demo_pod 0 None end.
Definition plain_set : StatefulSet :=
  match (NewStatefulSet (node []) plain_pod (sts_cr []) (sec "internal-c1") "image" with_sidecar).2 with Ok s => s | _ => sidecar_set end.

Lemma removed_claim_panics_witness : exists v', put [] with_sidecar = (v', Panic) /\ sets (vw_w v') = sets with_sidecar.
Proof.
  apply (removed_claim_panics CompPXC (node []) {[ "last-applied-secret" := "new" ]} new_hashes (sec "internal-c1") "image" (sts_cr [])
    with_sidecar with_sidecar with_sidecar sidecar_set plain_pod plain_set).
  - vm_compute. reflexivity.
  - vm_compute. reflexivity.
  - vm_compute. reflexivity.
  - vm_compute. reflexivity.
  - vm_compute. reflexivity.
  - vm_compute. lia.
Defined.

(** ** A whole pass *)


(** ** The pods of a cluster *)

Definition full_cr : PerconaXtraDBCluster :=
  (sts_cr []) <| cluster_Spec -> spec_PXC ::= fmap (fun p => p <| pxc_PodSpec -> pod_HookScript := "echo hook" |>) |>
    <| cluster_Spec -> spec_LogCollector := Some (mkLogCollector true (mkResources ∅ ∅) "Always" "log:1" "[SERVICE]" "echo log") |>.
Definition full_pod : PodSpec := match comp_spec CompPXC full_cr with Ok p => p | _ => demo_pod 0 None end.
Definition full_set : StatefulSet :=
  match (NewStatefulSet (NewNode full_cr) full_pod full_cr (sec "internal-c1") "image" sts_world).2 with Ok s => s | _ => sidecar_set end.

Lemma pod_mounts_resolve_witness : Forall (mounts_in (volume_names full_set)) (tpl_InitContainers (sp_Template (sset_Spec full_set))) /\
  map ctr_Name (tpl_Containers (sp_Template (sset_Spec full_set))) = ["xtrabackup"; "logs"; "logrotate"; "pxc"] /\
  (forall ct, ct ∈ tpl_Containers (sp_Template (sset_Spec full_set)) -> ct ∈ default [] (pod_Sidecars full_pod) \/ mounts_in (volume_names full_set) ct).
Proof.
  destruct (pod_mounts_resolve CompPXC full_cr full_pod (sec "internal-c1") "image" sts_world sts_world full_set) as [Hi Hc].
  - vm_compute. reflexivity.
  - intros _. vm_compute. discriminate.
  - repeat constructor.
  - vm_compute. reflexivity.
  - split_and!; [exact Hi|vm_compute; reflexivity|exact Hc].
Defined.

(** Both hook scripts, and so two volumes of one name. *)
Definition config_volume : PodVolume := mkPodVolume "config" (VolConfigMap "c1-pxc" true).
Definition full_volumes : list PodVolume := match node_own_volumes full_pod full_cr config_volume with Ok vs => vs | _ => [] end.

Lemma node_volume_names_distinct_witness : node_own_volumes full_pod full_cr config_volume = Ok full_volumes /\ ~ NoDup (map pv_Name full_volumes).
Proof.
  split; [vm_compute; reflexivity|]. intros Hn.
  apply (node_volume_names_distinct full_cr full_pod config_volume full_volumes) in Hn; [|reflexivity|vm_compute; reflexivity].
  apply Hn. vm_compute. split_and!; reflexivity.
Defined.
