(* ===== verification/ClusterPass.v ===== *)
(** * A pass of the cluster controller: [pkg/controller/pxc/controller.go]

    [Reconcile] runs the parts of the controller one after the other on the object it
    has read, and writes the status last, with the error that the variable [err] has then. *)

From S2P Require Import Prelude GoStrings ApiTypes KubeApi Naming Secrets MysqlUsers Users UserHandlers CustomUsers Queries ClusterStatus CrashRecovery ScheduledBackups ApiDefaults BackupController SmartUpdate Services Config Volumes PauseCluster Tls Deletion Replication Version PitrStatus StatefulSet.

(** ** State *)

(** The operator's state and that of the pass: the world, the object in memory, the
    registries of the scheduled jobs, the flags [updateSync] that are set, the cluster whose users
    are being copied to ProxySQL ([syncUsersState] and its goroutine), and the variable [err]. *)
Record PS (W : Type) := mkPS {
  ps_w : W;
  ps_cr : PerconaXtraDBCluster;
  ps_backups : CronRegistry;
  ps_jobs : VersionCrons;
  ps_wait : gset NamespacedName;
  ps_sync : option PerconaXtraDBCluster;
  ps_err : option error }.
Arguments mkPS {W}.
Arguments ps_w {W}.
Arguments ps_cr {W}.
Arguments ps_backups {W}.
Arguments ps_jobs {W}.
Arguments ps_wait {W}.
Arguments ps_sync {W}.
Arguments ps_err {W}.

(** A part of the state, and its update. *)
Record Focus (W S : Type) := mkFocus { fc_get : PS W -> S; fc_put : S -> PS W -> PS W }.
Arguments mkFocus {W S}.
Arguments fc_get {W S}.
Arguments fc_put {W S}.

Definition on {W S A} (f : Focus W S) (m : M S A) : M (PS W) A := fun s =>
  let '(x, r) := m (fc_get f s) in (fc_put f x s, r).

Section focus.
Context {W : Type}.

Definition world : Focus W W :=
  mkFocus ps_w (fun w s => mkPS w (ps_cr s) (ps_backups s) (ps_jobs s) (ps_wait s) (ps_sync s) (ps_err s)).
Definition object : Focus W PerconaXtraDBCluster :=
  mkFocus ps_cr (fun cr s => mkPS (ps_w s) cr (ps_backups s) (ps_jobs s) (ps_wait s) (ps_sync s) (ps_err s)).
Definition both : Focus W (VW W) :=
  mkFocus (fun s => mkVW (ps_w s) (ps_cr s))
    (fun v s => mkPS (vw_w v) (vw_cr v) (ps_backups s) (ps_jobs s) (ps_wait s) (ps_sync s) (ps_err s)).
Definition custom : Focus W (CUW W) :=
  mkFocus (fun s => mkCUW (ps_w s) (ps_cr s))
    (fun v s => mkPS (cu_w v) (cu_cr v) (ps_backups s) (ps_jobs s) (ps_wait s) (ps_sync s) (ps_err s)).
Definition schedules : Focus W (SS W) :=
  mkFocus (fun s => mkSS (ps_w s) (ps_backups s))
    (fun v s => mkPS (ss_w v) (ps_cr s) (ss_crons v) (ps_jobs s) (ps_wait s) (ps_sync s) (ps_err s)).
Definition jobs : Focus W (JW W) :=
  mkFocus (fun s => mkJW (ps_w s) (ps_jobs s) (ps_wait s))
    (fun v s => mkPS (jw_w v) (ps_cr s) (ps_backups s) (jw_crons v) (jw_wait v) (ps_sync s) (ps_err s)).

Definition set_err (e : option error) (s : PS W) : PS W := mkPS (ps_w s) (ps_cr s) (ps_backups s) (ps_jobs s) (ps_wait s) (ps_sync s) e.
Definition set_sync (c : option PerconaXtraDBCluster) (s : PS W) : PS W :=
  mkPS (ps_w s) (ps_cr s) (ps_backups s) (ps_jobs s) (ps_wait s) c (ps_err s).

(** [x, err = m()]: the variable that the deferred function reads. *)
Definition assign {A} (m : M (PS W) A) : M (PS W) A := fun s =>
  let '(s', r) := m s in (set_err (match r with Ok _ => None | Err e => Some e | Panic => ps_err s' end) s', r).

(** [defer d()]: it runs on every exit, also after a panic. *)
Definition deferred {A} (m : M (PS W) A) (d : M (PS W) unit) : M (PS W) A := fun s =>
  let '(s1, r) := m s in
  let '(s2, rd) := d s1 in (s2, match rd with Panic => Panic | _ => r end).

Definition object_now : M (PS W) PerconaXtraDBCluster := gets ps_cr.
End focus.

Definition rr : Z := 5.

Definition ShouldWaitForTokenIssue (cr : PerconaXtraDBCluster) : bool :=
  bool_decide (is_Some (meta_Annotations (cluster_Meta cr) !! "percona.com/issue-vault-token")).

Section pass.
Context {W : Type} `{SecretClient W} `{MysqlEnv W} `{RandEnv W} `{UserEnv W} `{MysqlVersion W} `{VersionEnv W} `{StatusEnv W} `{CrashEnv W}
  `{VolEnv W} `{ObjEnv W} `{PauseEnv W} `{TlsEnv W} `{TlsLib W} `{QueryEnv W} `{ReplEnv W} `{SmartEnv W} `{SchedEnv W} `{GapEnv W}
  `{ServiceEnv W} `{ConfigEnv W} `{AppTemplates W} `{StsEnv W} `{StsLib} `{RetryLib} `{OnErrorLib} `{IniLib} `{HashLib} `{ApiLibs}.

Variable operatorVersion : string.
Variable serverVersion : option string.

(** ** Deploying *)

Definition deployStatefulApp (c : Component) : M (VW W) unit :=
  cr ← getCr;
  let app := comp_app c cr in
  _ ← wrap ("updatePod for " +:+ sa_Name app) (updatePod operatorVersion c app ∅ false);
  cr ← getCr;
  podSpec ← lift (comp_spec c cr);
  wrap ("failed to reconcile PodDisruptionBudget for " +:+ sa_Name app) (onV (reconcilePDB cr (pod_PodDisruptionBudget podSpec) app)).

Definition deploy : M (VW W) unit :=
  _ ← wrap "failed to deploy pxc" (deployStatefulApp CompPXC);
  cr ← getCr;
  _ ← (if HAProxyEnabled cr then wrap "failed to deploy haproxy" (deployStatefulApp CompHAProxy) else mret tt);
  cr ← getCr;
  if ProxySQLEnabled cr then wrap "failed to deploy proxysql" (deployStatefulApp CompProxySQL) else mret tt.

Definition HAProxyReplicasServiceEnabled (cr : PerconaXtraDBCluster) : res bool :=
  b14 ← from_version cr "1.14.0";
  h ← deref (spec_HAProxy (cluster_Spec cr));
  if negb b14 then deref (ha_ReplicasServiceEnabled h) else e ← deref (ha_ExposeReplicas h); Ok (exp_Enabled e).

Definition no_meta (e : ServiceExpose) : bool := bool_decide (exp_Labels e = ∅) && bool_decide (exp_Annotations e = ∅).

(** Building the service of the replicas fills in a default. *)
Definition new_replicas : M (VW W) Service :=
  cr ← getCr;
  x ← lift (NewServiceHAProxyReplicas cr);
  _ ← setCr x.1;
  mret x.2.

Definition delete_replicas : M (VW W) unit :=
  svc ← new_replicas;
  wrap "delete HAProxy replica service" (onV (deleteServices [svc])).

Definition remove_haproxy : M (VW W) unit :=
  _ ← delete_replicas;
  cr ← getCr;
  svc ← lift (NewServiceHAProxy cr);
  _ ← wrap "delete HAProxy service" (onV (deleteServices [svc]));
  wrap "delete HAProxy stateful set" (onV (deleteStatefulSet cr (NewHAProxy cr) false false)).

Definition haproxy_services : M (VW W) unit :=
  cr ← getCr;
  svc ← lift (NewServiceHAProxy cr);
  h ← lift (deref (spec_HAProxy (cluster_Spec cr)));
  _ ← wrap (svc_Name svc +:+ " upgrade error") (put_service NewServiceHAProxy (no_meta (ha_ExposePrimary h)) share_haproxy);
  cr ← getCr;
  enabled ← lift (HAProxyReplicasServiceEnabled cr);
  if negb enabled then delete_replicas else
  svc ← new_replicas;
  cr ← getCr;
  h ← lift (deref (spec_HAProxy (cluster_Spec cr)));
  e ← lift (deref (ha_ExposeReplicas h));
  wrap (svc_Name svc +:+ " upgrade error") (put_service (fun _ => Ok svc) (no_meta e) share_replicas).

Definition reconcileHAProxy (templateAnnotations : gmap string string) : M (VW W) unit :=
  cr ← getCr;
  if negb (HAProxyEnabled cr) then remove_haproxy else
  h ← lift (deref (spec_HAProxy (cluster_Spec cr)));
  got ← try (onV (sc_get (mkNN (cluster_Namespace cr) (pod_EnvVarsSecretName (ha_PodSpec h)))));
  if match got with inl e => negb (IsNotFound e) | inr _ => false end
  then fail (ErrWrap "get haproxy env vars secret" (match got with inl e => e | inr _ => ErrNew "" end)) else
  _ ← wrap "HAProxy upgrade error" (updatePod operatorVersion CompHAProxy (NewHAProxy cr) templateAnnotations true);
  haproxy_services.

(** ** Users of ProxySQL *)

(** One goroutine at a time; it gets the object as it is now. *)
Definition resyncPXCUsersWithProxySQL : M (PS W) unit := fun s =>
  let cr := ps_cr s in
  if negb (ProxySQLEnabled cr) then (s, Ok tt)
  else if negb (bool_decide (cs_Status (cluster_Status cr) = AppStateReady)) || bool_decide (is_Some (ps_sync s)) then (s, Ok tt)
  else (set_sync (Some cr) s, Ok tt).

(** The goroutine, when it gets to run. *)
Definition sync_goroutine : M (PS W) unit :=
  c ← gets ps_sync;
  match c with
  | None => mret tt
  | Some cr => _ ← try (on world (syncPXCUsersWithProxySQL cr)); modify (set_sync None)
  end.

(** ** The parts of a pass *)

Definition pass_deleted (n : NamespacedName) (cr : PerconaXtraDBCluster) : M (PS W) Z :=
  finalizers ← on world (run_finalizers cr (meta_Finalizers (cluster_Meta cr)) None);
  _ ← wrap "failed to update cr finalizers" (assign (on world (update_finalizers n finalizers)));
  mret rr.

Definition pass_recover : M (PS W) unit :=
  cr ← object_now;
  b7 ← lift (from_version cr "1.7.0");
  if negb b7 then mret tt else
  pxc ← lift (deref (spec_PXC (cluster_Spec cr)));
  auto ← lift (deref (pxc_AutoRecovery pxc));
  if negb auto then mret tt else
  _ ← try (assign (on world (recoverFullClusterCrashIfNeeded cr)));
  mret tt.

Definition pass_users : M (PS W) ReconcileUsersResult :=
  cr ← object_now;
  userSecret ← wrap "reconcile users secret" (assign (on world (reconcileUsersSecret cr)));
  urr ← wrap "reconcile users" (assign (on world (reconcileUsers cr userSecret)));
  _ ← wrap "reconcile custom users" (assign (on custom reconcileCustomUsers));
  _ ← resyncPXCUsersWithProxySQL;
  mret (default (mkUsersResult ∅ ∅ ∅ false) urr).

Definition pass_version : M (PS W) unit :=
  cr ← object_now;
  let v := app_Version (cs_PXC (cluster_Status cr)) in
  if bool_decide (v = "") || bool_decide (is_Some (strip_suffix "intermediate" v))
  then _ ← try (on both ensurePXCVersion); mret tt
  else mret tt.

Definition pass_deploy (urr : ReconcileUsersResult) : M (PS W) unit :=
  _ ← wrap "reconcile persistent volumes" (assign (on both reconcilePersistentVolumes));
  cr ← object_now;
  pxc ← lift (deref (spec_PXC (cluster_Spec cr)));
  _ ← wrap ("failed to reconcile SSL. Please create your TLS secret " +:+ pod_SSLSecretName (pxc_PodSpec pxc) +:+ " and " +:+
            pod_SSLInternalSecretName (pxc_PodSpec pxc) +:+ " manually or setup cert-manager correctly") (assign (on both reconcileSSL));
  _ ← assign (on both deploy);
  cr ← object_now;
  wrap "pxc upgrade error" (assign (on both (updatePod operatorVersion CompPXC (NewNode cr) (pxcAnnotations urr) true))).

Definition pass_services : M (PS W) unit :=
  cr ← object_now;
  b14 ← lift (from_version cr "1.14.0");
  pxc ← lift (deref (spec_PXC (cluster_Spec cr)));
  let save := if b14 : bool then no_meta (pxc_Expose pxc) else true in
  let share := if b14 then share_pxc else fun _ cr => cr in
  _ ← wrap "PXC service upgrade error" (assign (on both (put_service NewServicePXC save share)));
  _ ← wrap "PXC service upgrade error" (assign (on both (put_service NewServicePXCUnready true share)));
  cr ← object_now;
  if exp_Enabled (pxc_Expose pxc)
  then wrap "create replication services" (assign (on both ensurePxcPodServices))
  else wrap "remove pxc pod services" (assign (on world (removePxcPodServices cr))).

Definition put_proxysql (new : PerconaXtraDBCluster -> res Service) (save : bool) : M (PS W) unit :=
  cr ← object_now;
  svc ← lift (new cr);
  wrap (svc_Name svc +:+ " upgrade error") (assign (on both (put_service new save share_proxysql))).

Definition pass_proxysql (urr : ReconcileUsersResult) : M (PS W) unit :=
  cr ← object_now;
  let proxysqlSet := NewProxy cr in
  if ProxySQLEnabled cr then
    _ ← wrap "ProxySQL upgrade error" (assign (on both (updatePod operatorVersion CompProxySQL proxysqlSet (proxysqlAnnotations urr) true)));
    cr ← object_now;
    p ← lift (deref (spec_ProxySQL (cluster_Spec cr)));
    _ ← put_proxysql NewServiceProxySQL (no_meta (ps_Expose p));
    put_proxysql NewServiceProxySQLUnready true
  else
    let deletePVC := bool_decide (FinalizerDeleteProxysqlPvc ∈ meta_Finalizers (cluster_Meta cr)) in
    _ ← assign (on world (deleteStatefulSet cr proxysqlSet deletePVC false));
    svc ← lift (NewServiceProxySQL cr);
    unready ← lift (NewServiceProxySQLUnready cr);
    assign (on world (deleteServices [svc; unready])).

Definition pass_rest (urr : ReconcileUsersResult) : M (PS W) unit :=
  cr ← object_now;
  b9 ← lift (from_version cr "1.9.0");
  _ ← (if b9 : bool then _ ← try (assign (on both (reconcileReplication (updateReplicationPassword urr)))); mret tt else mret tt);
  cr ← object_now;
  _ ← assign (on schedules (reconcileBackups cr));
  _ ← assign (on world (CheckPITRErrors cr));
  _ ← assign (on world (UpdatePITRTimeline cr));
  _ ← wrap "update CR version" (on both fetchVersionFromPXC);
  cr ← object_now;
  _ ← wrap "failed to ensure version" (assign (on jobs (scheduleEnsurePXCVersion cr)));
  wrap "failed to schedule telemetry requests" (assign (on jobs (scheduleTelemetryRequests cr))).

(** The pass on a cluster that has its defaults and is not being deleted. *)
Definition pass_live : M (PS W) Z :=
  cr ← object_now;
  if ShouldWaitForTokenIssue cr then mret rr else
  _ ← pass_recover;
  urr ← pass_users;
  _ ← pass_version;
  _ ← pass_deploy urr;
  _ ← pass_services;
  _ ← on both (reconcileHAProxy (haproxyAnnotations urr));
  _ ← pass_proxysql urr;
  _ ← pass_rest urr;
  mret rr.

Definition pass (n : NamespacedName) : M (PS W) Z :=
  _ ← wrap "set CR version" (on both (setCRVersion operatorVersion));
  _ ← wrap "wrong PXC options" (assign (on object (CheckNSetDefaults serverVersion)));
  cr ← object_now;
  if negb (bool_decide (meta_DeletionTimestamp (cluster_Meta cr) = None)) then pass_deleted n cr else pass_live.

(** The status is computed from the object and from [err]; its own error is logged. *)
Definition pass_status : M (PS W) unit :=
  cr ← object_now;
  err ← gets ps_err;
  _ ← try (on world (ClusterStatus.updateStatus cr false err));
  mret tt.

Definition Reconcile (n : NamespacedName) : M (PS W) Z :=
  deferred
    (got ← try (on world (sx_getCluster n));
     match got with
     | inl e => if IsNotFound e then mret rr else fail e
     | inr o =>
         _ ← modify (fun s => set_err None (fc_put object o s));
         deferred (pass n) pass_status
     end)
    (modify (fun s => mkPS (ps_w s) (ps_cr s) (ps_backups s) (ps_jobs s) (ps_wait s ∖ {[n]}) (ps_sync s) (ps_err s))).
End pass.
