(* ===== verification/ClusterPassSpec.v ===== *)
(** * A pass of the cluster controller: proofs

    Which state a pass leaves, which errors reach the status, and what happens to a cluster
    that is being deleted. *)

From S2P Require Import Prelude GoStrings ApiTypes KubeApi Naming Secrets MysqlUsers Users UserHandlers CustomUsers Queries ClusterStatus CrashRecovery ScheduledBackups ApiDefaults ApiDefaultsSpec BackupController SmartUpdate Services Config Volumes PauseCluster Tls Deletion Replication Version PitrStatus StatefulSet ClusterPass.

(** ** Rules *)

Section rules.
Context {W : Type}.
Implicit Types I : PS W -> Prop.

Lemma keeps_on {S A} I (f : Focus W S) (m : M S A) : (forall x s, I s -> I (fc_put f x s)) -> keeps I (on f m).
Proof. intros Hf s Hs. unfold on. destruct (m (fc_get f s)). by apply Hf. Qed.

Lemma keeps_assign {A} I (m : M (PS W) A) : (forall e s, I s -> I (set_err e s)) -> keeps I m -> keeps I (assign m).
Proof. intros He Hm s Hs. specialize (Hm s Hs). unfold assign. destruct (m s) as [s' r]. by apply He. Qed.

Lemma keeps_deferred {A} I (m : M (PS W) A) d : keeps I m -> keeps I d -> keeps I (deferred m d).
Proof. intros Hm Hd s Hs. specialize (Hm s Hs). unfold deferred. destruct (m s) as [s1 r]. specialize (Hd s1 Hm). by destruct (d s1). Qed.

Lemma keeps_modify I f : (forall s, I s -> I (f s)) -> keeps I (modify (W := PS W) f).
Proof. intros Hf s Hs. by apply Hf. Qed.
End rules.

(** Splits a pass into its parts, whatever they do to what [I] does not look at. *)
Ltac pass_parts := repeat first
  [ keeps_step | apply keeps_on; first [by intros ? [] | by intros [] []] | apply keeps_assign; [intros ? []; done|] | apply keeps_deferred ].

Section pass.
Context {W : Type} `{SecretClient W} `{MysqlEnv W} `{RandEnv W} `{UserEnv W} `{MysqlVersion W} `{VersionEnv W} `{StatusEnv W} `{CrashEnv W}
  `{VolEnv W} `{ObjEnv W} `{PauseEnv W} `{TlsEnv W} `{TlsLib W} `{QueryEnv W} `{ReplEnv W} `{SmartEnv W} `{SchedEnv W} `{GapEnv W}
  `{ServiceEnv W} `{ConfigEnv W} `{AppTemplates W} `{StsEnv W} `{StsLib} `{RetryLib} `{OnErrorLib} `{IniLib} `{HashLib} `{ApiLibs}.
Variable operatorVersion : string.
Variable serverVersion : option string.

(** Opens the parts of a pass. *)
Ltac open_pass := unfold Reconcile, pass, pass_deleted, pass_live, pass_recover, pass_users, pass_version, pass_deploy, pass_services, pass_proxysql,
  put_proxysql, pass_rest, pass_status, object_now.

(** ** The goroutine that copies users *)

(** The flag is as it was, or has been taken for a ready cluster with ProxySQL. *)
Definition sync_from (x : option PerconaXtraDBCluster) (s : PS W) : Prop :=
  ps_sync s = x \/ x = None /\ exists c, ps_sync s = Some c /\ ProxySQLEnabled c = true /\ cs_Status (cluster_Status c) = AppStateReady.

Lemma resync_sync x : keeps (sync_from x) (resyncPXCUsersWithProxySQL (W := W)).
Proof.
  intros s Hs. unfold resyncPXCUsersWithProxySQL. destruct (ProxySQLEnabled (ps_cr s)) eqn:Ep; [|done]. cbn [negb].
  case_bool_decide as Er; [|done]. cbn [negb orb]. case_bool_decide as Es; [done|]. cbn [fst]. right. split.
  - destruct Hs as [<-|[-> _]]; [|done]. destruct (ps_sync s); [|done]. by destruct Es.
  - exists (ps_cr s). by destruct s.
Qed.

(** C16: users are copied to ProxySQL by one goroutine at a time: a pass leaves one that is under way alone, and
    starts one only when there is none, for a ready cluster with ProxySQL. *)
Theorem users_sync_single n (s : PS W) :
  let s' := (Reconcile operatorVersion serverVersion n s).1 in
  ps_sync s' = ps_sync s \/
  ps_sync s = None /\ exists c, ps_sync s' = Some c /\ ProxySQLEnabled c = true /\ cs_Status (cluster_Status c) = AppStateReady.
Proof.
  assert (keeps (sync_from (ps_sync s)) (Reconcile operatorVersion serverVersion n)) as Hk; [|apply (Hk s); by left].
  open_pass. repeat first [apply resync_sync | progress pass_parts | apply keeps_modify; intros []; done].
Qed.

(** ** The flags of the version jobs *)

Lemma wait_jobs {A} x (m : M (JW W) A) : keeps (fun j => jw_wait j = x) m -> keeps (fun s : PS W => ps_wait s = x) (on jobs m).
Proof. intros Hm s Hs. specialize (Hm (mkJW (ps_w s) (ps_jobs s) (ps_wait s)) Hs). unfold on. cbn [fc_get jobs]. by destruct (m _). Qed.

Lemma wait_onJ {A} x (m : M W A) : keeps (fun j : JW W => jw_wait j = x) (onJ m).
Proof. intros j Hj. unfold onJ. by destruct (m (jw_w j)). Qed.
Lemma wait_modJobs x f : keeps (fun j : JW W => jw_wait j = x) (modJobs f).
Proof. by intros j Hj. Qed.

Lemma wait_scheduleEnsure x cr : keeps (fun j : JW W => jw_wait j = x) (scheduleEnsurePXCVersion cr).
Proof. unfold scheduleEnsurePXCVersion, AddVersionJob, store_job, getJobs. repeat first [keeps_step | apply wait_onJ | apply wait_modJobs]. Qed.
Lemma wait_scheduleTelemetry x cr : keeps (fun j : JW W => jw_wait j = x) (scheduleTelemetryRequests cr).
Proof. unfold scheduleTelemetryRequests, AddVersionJob, store_job, getJobs. repeat first [keeps_step | apply wait_onJ | apply wait_modJobs]. Qed.

(** A pass lets the next version job of its cluster run, and of no other cluster: whatever the
    pass does, and also if it fails or panics, the flag of the cluster is dropped and the other
    flags stay. *)
Theorem Reconcile_drops_wait n (s : PS W) :
  ps_wait (Reconcile operatorVersion serverVersion n s).1 = ps_wait s ∖ {[n]}.
Proof.
  unfold Reconcile. unfold deferred at 1. set (m := _ ≫= _).
  assert (keeps (fun s' : PS W => ps_wait s' = ps_wait s) m) as Hk; [|specialize (Hk s eq_refl); destruct (m s) as [s' r]; simpl in *; by rewrite Hk].
  subst m. open_pass.
  repeat first [apply wait_jobs; first [apply wait_scheduleEnsure|apply wait_scheduleTelemetry] | progress pass_parts | apply keeps_modify; intros []; done].
  intros s1 Hs1. unfold resyncPXCUsersWithProxySQL. by repeat case_match.
Qed.

(** ** Errors and the status *)

Definition wraps (e e0 : error) : Prop := e = e0 \/ exists msg, e = ErrWrap msg e0.

(** Errors that are returned through a variable of an inner scope. *)
Definition hidden (e : error) : Prop :=
  (exists e0, e = ErrWrap "set CR version" e0) \/ (exists e0, e = ErrWrap "update CR version" e0) \/
  exists annotations (v v' : VW W), reconcileHAProxy operatorVersion annotations v = (v', Err e).

(** What the variable [err] tells about the error that is returned. *)
Definition told (e : error) (s : PS W) : Prop := (exists e0, ps_err s = Some e0 /\ wraps e e0) \/ (ps_err s = None /\ hidden e).

Definition reports {A} (P : PS W -> Prop) (m : M (PS W) A) (R : PS W -> Prop) : Prop :=
  hoare P m (fun r s => match r with Ok _ => R s | Err e => told e s | Panic => True end).

Definition anything (s : PS W) : Prop := True.
Definition clean (s : PS W) : Prop := ps_err s = None.

(** A call that returns no error. *)
Definition no_err {S A} (m : M S A) : Prop := forall s, match (m s).2 with Err _ => False | _ => True end.
Definition no_err_res {A} (r : res A) : Prop := match r with Err _ => False | _ => True end.

Lemma reports_assign {A} (m : M (PS W) A) P : reports P (assign m) clean.
Proof. intros s _. unfold assign. destruct (m s) as [s' [a|e|]]; simpl; [done| |done]. left. exists e. split; [done|by left]. Qed.
Lemma reports_wrap_assign {A} msg (m : M (PS W) A) P : reports P (wrap msg (assign m)) clean.
Proof. intros s _. unfold wrap, assign. destruct (m s) as [s' [a|e|]]; simpl; [done| |done]. left. exists e. split; [done|right; eauto]. Qed.
Lemma reports_bind {A B} P Q R (m : M (PS W) A) (f : A -> M (PS W) B) : reports P m Q -> (forall a, reports Q (f a) R) -> reports P (m ≫= f) R.
Proof. intros Hm Hf. eapply hoare_bind; [exact Hm|intros a; apply Hf|done..]. Qed.
Lemma reports_quiet {A} P (m : M (PS W) A) : keeps P m -> no_err m -> reports P m P.
Proof. intros Hk Hn s Hs. specialize (Hk s Hs). specialize (Hn s). by destruct (m s).2. Qed.
Lemma reports_ret {A} (P : PS W -> Prop) (a : A) : reports P (mret a) P.
Proof. by intros s Hs. Qed.
Lemma reports_gets {A} (P : PS W -> Prop) (f : PS W -> A) : reports P (gets f) P.
Proof. by intros s Hs. Qed.
Lemma reports_lift {A} P (r : res A) : no_err_res r -> reports P (lift r) P.
Proof. intros Hr s Hs. unfold lift. simpl. by destruct r. Qed.
Lemma reports_try {A} P (m : M (PS W) A) : keeps P m -> reports P (try m) P.
Proof. intros Hk s Hs. specialize (Hk s Hs). unfold try. by destruct (m s) as [s' []]. Qed.
Lemma reports_any {A} P R (m : M (PS W) A) : reports anything m R -> reports P m R.
Proof. intros Hm s _. by apply Hm. Qed.
Lemma reports_try_assign {A} P (m : M (PS W) A) : reports P (try (assign m)) anything.
Proof. intros s Hs. unfold try. by destruct (assign m s) as [s' []]. Qed.

Lemma no_err_from_version cr v : no_err_res (from_version cr v).
Proof. unfold from_version, CompareVersionWith. by destruct (ver_valid _). Qed.
Lemma no_err_deref {A} (o : option A) : no_err_res (deref o).
Proof. by destruct o. Qed.
Lemma no_err_run_finalizers cr fs err : no_err (run_finalizers (W := W) cr fs err).
Proof.
  revert err. induction fs as [|f fs IH]; intros err w; [done|]. cbn [run_finalizers].
  destruct (finalizer_work cr f) as [work|]; unfold mbind, M_bind, try, mret, M_ret.
  - destruct (work w) as [w1 [[]|e|]]; [| |done]; [specialize (IH None w1)|specialize (IH (Some e) w1)]; by destruct (run_finalizers _ _ _ w1) as [w2 []].
  - specialize (IH err w). by destruct (run_finalizers _ _ _ w) as [w2 []].
Qed.

Lemma no_err_selector cr c : no_err_res (selector cr c).
Proof. unfold selector, before_1_16, CompareVersionWith. by destruct (ver_valid _). Qed.
Lemma no_err_NewServiceProxySQL cr : no_err_res (NewServiceProxySQL cr).
Proof. unfold NewServiceProxySQL, selector, before_1_16, from_version, CompareVersionWith. by destruct (ver_valid _). Qed.
Lemma no_err_NewServiceProxySQLUnready cr : no_err_res (NewServiceProxySQLUnready cr).
Proof. unfold NewServiceProxySQLUnready, unready_meta, selector, before_1_16, from_version, CompareVersionWith. by destruct (ver_valid _). Qed.

Ltac reports_step := lazymatch goal with
  | |- reports _ (if ?b then _ else _) _ => destruct b
  | |- reports _ (_ ≫= _) _ => eapply reports_bind; [|intros ?]
  | |- reports _ (mret _) _ => apply reports_ret
  | |- reports _ (gets _) _ => apply reports_gets
  | |- reports _ object_now _ => apply reports_gets
  | |- reports _ (assign _) _ => apply reports_assign
  | |- reports _ (wrap _ (assign _)) _ => apply reports_wrap_assign
  | |- reports _ (lift (from_version _ _)) _ => apply reports_lift, no_err_from_version
  | |- reports _ (lift (deref _)) _ => apply reports_lift, no_err_deref
  | |- reports _ (lift (NewServiceProxySQL _)) _ => apply reports_lift, no_err_NewServiceProxySQL
  | |- reports _ (lift (NewServiceProxySQLUnready _)) _ => apply reports_lift, no_err_NewServiceProxySQLUnready
  end.

Lemma reports_weaken {A} P R (m : M (PS W) A) : reports P m R -> reports P m anything.
Proof. intros Hm s Hs. specialize (Hm s Hs). by destruct (m s).2. Qed.

Lemma reports_recover P : reports P pass_recover anything.
Proof.
  unfold pass_recover. eapply reports_bind; [reports_step|intros cr]. eapply reports_bind; [reports_step|intros b7].
  destruct b7; [|by eapply reports_weaken, reports_ret]. cbn [negb]. eapply reports_bind; [reports_step|intros pxc].
  eapply reports_bind; [reports_step|intros []]; [|by eapply reports_weaken, reports_ret].
  eapply reports_bind; [apply reports_try_assign|intros _]. apply reports_ret.
Qed.

Lemma reports_users P : reports P pass_users clean.
Proof.
  unfold pass_users. repeat reports_step. apply reports_quiet.
  - intros s Hs. unfold resyncPXCUsersWithProxySQL. by repeat case_match.
  - intros s. unfold resyncPXCUsersWithProxySQL. by repeat case_match.
Qed.

Lemma reports_version : reports clean pass_version clean.
Proof.
  unfold pass_version. repeat reports_step. apply reports_try, keeps_on. by intros [] [].
Qed.

Lemma reports_deploy urr P : reports P (pass_deploy operatorVersion urr) clean.
Proof. unfold pass_deploy. repeat reports_step. Qed.

Lemma reports_services P : reports P pass_services clean.
Proof. unfold pass_services. repeat reports_step. Qed.

Lemma reports_put_proxysql new save P : (forall cr, no_err_res (new cr)) -> reports P (put_proxysql new save) clean.
Proof. intros Hn. unfold put_proxysql. repeat reports_step. apply reports_lift, Hn. Qed.

Lemma reports_proxysql urr P : reports P (pass_proxysql operatorVersion urr) clean.
Proof.
  unfold pass_proxysql. repeat first [reports_step | apply reports_put_proxysql; intros ?].
  - apply no_err_NewServiceProxySQL.
  - apply no_err_NewServiceProxySQLUnready.
Qed.

Lemma reports_fetch : reports clean (wrap "update CR version" (on both fetchVersionFromPXC)) clean.
Proof.
  intros s Hs. unfold wrap, on. cbn [fc_get both].
  destruct (fetchVersionFromPXC _) as [v' [[]|e|]]; simpl; [done| |done]. right. split; [done|]. right. left. eauto.
Qed.

Lemma reports_rest urr P : reports P (pass_rest urr) clean.
Proof.
  unfold pass_rest. eapply reports_bind; [reports_step|intros cr]. eapply reports_bind; [reports_step|intros b9].
  eapply (reports_bind _ anything).
  - destruct b9; [|by eapply reports_weaken, reports_ret]. eapply reports_bind; [apply reports_try_assign|intros _]. apply reports_ret.
  - intros _. repeat first [reports_step | apply reports_fetch].
Qed.

Lemma reports_haproxy ann : reports clean (on both (reconcileHAProxy operatorVersion ann)) clean.
Proof.
  intros s Hs. unfold on. cbn [fc_get both]. destruct (reconcileHAProxy _ _ _) as [v' [[]|e|]] eqn:E; simpl; [done| |done].
  right. split; [done|]. right. right. eauto.
Qed.


(** ** A cluster that is being deleted *)

End pass.
