(* ===== verification/ClusterPassMem.v ===== *)
(** * Passes of the cluster controller against a concrete server *)

From S2P Require Import Prelude GoStrings ApiTypes KubeApi KubeMem Naming Secrets MysqlUsers Users UserHandlers CustomUsers Queries ClusterStatus CrashRecovery CollectorPod ScheduledBackups ApiDefaults BackupController SmartUpdate Services Config Volumes PauseCluster Tls Deletion Replication Version PitrStatus StatefulSet Templates StatefulSetSpec BackupMem StatefulSetMem ClusterPass ClusterPassSpec.

(** A server with one cluster, secrets, config maps and stateful sets; other objects are not
    there, and services cannot be read while [pm_down] is set. *)
Record PMem := mkPMem { pm_cluster : option PerconaXtraDBCluster; pm_objs : TMem; pm_down : bool }.

Definition pm_on {A} (m : M TMem A) : M PMem A := fun w => let '(x, r) := m (pm_objs w) in (mkPMem (pm_cluster w) x (pm_down w), r).
Definition none {A} : M PMem A := fail not_found.
Definition pm_get (n : NamespacedName) : M PMem PerconaXtraDBCluster := fun w =>
  match pm_cluster w with
  | Some c => if bool_decide (meta_key (cluster_Meta c) = n) then (w, Ok c) else (w, Err not_found)
  | None => (w, Err not_found)
  end.
Definition pm_set (c : PerconaXtraDBCluster) : M PMem unit := modify (fun w => mkPMem (Some c) (pm_objs w) (pm_down w)).

Definition put_secret (s : Secret) : M PMem Secret := fun w =>
  (mkPMem (pm_cluster w) (mkTMem (tm_sets (pm_objs w)) (<[sec_key s := s]> (tm_secrets (pm_objs w))) (tm_maps (pm_objs w))) (pm_down w), Ok s).

#[export] Instance PMem_secrets : SecretClient PMem := {|
  sc_get n := pm_on (sc_get n); sc_create := put_secret; sc_update := put_secret; sc_patch _ := put_secret; sc_delete _ := mret tt |}.
#[export] Instance PMem_mysql : MysqlEnv PMem := {|
  my_Open _ := Err (ErrNew "no database"); my_Close _ := mret tt; my_Exec _ _ _ := none; my_Begin _ := none; my_TxExec _ _ _ := none;
  my_Rollback _ := none; my_Commit _ := none; my_QueryRow _ _ _ := none; my_Query _ _ _ := none |}.
#[export] Instance PMem_rand : RandEnv PMem := {| rand_Intn _ := mret 0; rand_Int _ := mret 0 |}.
#[export] Instance PMem_users : UserEnv PMem := {|
  ue_getPod _ := none; ue_Exec _ _ _ := none; ue_CreateOrUpdate _ _ := mret tt; ue_reversed _ := false |}.
#[export] Instance PMem_mversion : MysqlVersion PMem := fun _ => mret "8.0".
#[export] Instance PMem_version : VersionEnv PMem := {|
  vx_Apply _ _ _ := none; vx_url _ := Err (ErrNew "no url"); vx_env _ _ := None; vx_kube := ""; vx_patchCluster _ c := mret c;
  vx_sleepSecond := mret tt; vx_keys m _ := (map_to_list m).*1; vx_cron_valid _ := true |}.
#[export] Instance PMem_status : StatusEnv PMem := {|
  sx_listPods _ _ := mret []; sx_getSts _ := none; sx_podLogs _ _ := mret []; sx_ingress _ := mret [];
  sx_getCluster := pm_get; sx_statusUpdate := pm_set; sx_selector _ := ""; sx_now _ := 0 |}.
#[export] Instance PMem_crash : CrashEnv PMem := {| cx_IsPodRunning _ _ := none; cx_getPod _ := none; cx_exec _ _ _ := none; cx_sleep _ := mret tt |}.
#[export] Instance PMem_vol : VolEnv PMem := {|
  ve_listPVCs _ := mret []; ve_listPods _ := mret []; ve_getSts _ := none; ve_deleteSts _ := none; ve_listEvents _ _ := mret [];
  ve_getAnnotations _ := none; ve_patchAnnotations _ _ := none; ve_patchStorage _ _ := none; ve_updatePVC _ := none; ve_recordEvent _ _ := mret tt;
  ve_parseTime _ := Ok 0; ve_formatNow _ := "" |}.
#[export] Instance PMem_obj : ObjEnv PMem := {|
  oe_get _ _ := none; oe_list _ _ _ := mret []; oe_delete _ _ := none; oe_scale _ := none; oe_sleep _ := mret tt;
  oe_getCluster := pm_get; oe_updateCluster := pm_set |}.
#[export] Instance PMem_pause : PauseEnv PMem := {|
  pz_patchPause _ _ := mret tt; pz_listPods _ := mret []; pz_listPVCs _ := mret []; pz_deletePVC _ := mret tt; pz_sleepSecond := mret tt |}.
#[export] Instance PMem_tls : TlsEnv PMem := {|
  te_createIssuer _ := mret tt; te_createCertificate _ := mret tt; te_createSecret _ := mret tt; te_patchUnsafeTLS _ _ := mret tt;
  te_ticks _ := 1%nat; te_tick := mret tt |}.
#[export] Instance PMem_tlslib : TlsLib PMem := {|
  tl_GenerateKey _ := mret "key"; tl_public k := k; tl_CreateCertificate _ _ _ _ := mret "der"; tl_pem _ s := Ok s; tl_pkcs1 s := s;
  tl_now _ := 0; tl_operatorStartTime := 0 |}.
#[export] Instance PMem_query : QueryEnv PMem := {| qe_Ping _ := none; qe_Query _ _ _ := none |}.
#[export] Instance PMem_repl : ReplEnv PMem := {| rx_listPods _ := mret []; rx_updatePod _ := none; rx_order s _ := elements s |}.
#[export] Instance PMem_smart : SmartEnv PMem := {|
  sm_sleepSecond := mret tt; sm_getSts _ := none; sm_listPods _ := mret []; sm_getPod _ := none;
  sm_deletePod _ := mret tt; sm_listBackups _ := mret []; sm_connect _ _ _ _ := none; sm_Hostname _ := mret "";
  sm_PrimaryHost _ := mret ""; sm_PresentInHostgroup _ _ _ := mret true; sm_InstanceStatus _ _ := mret []; sm_WsrepState _ := mret "";
  sm_ConfigHasKey _ _ _ := Ok false; sm_ticks _ _ _ := 1%nat; sm_now _ := 0 |}.
#[export] Instance PMem_sched : SchedEnv PMem := {|
  se_listRestores _ := mret []; se_reconcileBinlogCollector _ := mret tt; se_deleteDeployment _ := none; se_deleteService _ := none;
  se_listBackups _ _ := mret []; se_deleteBackup _ := mret tt; se_createBackup _ := mret tt; se_getCluster := pm_get;
  se_now _ := mkClock 2024 1 11 0 0 0; se_cron_valid _ := true; se_sha1_5 s := s; se_range m := map_to_list m;
  se_range_all m := Permutation_refl (map_to_list m) |}.
#[export] Instance PMem_pod : CollectorPodEnv PMem := {| cp_listPods _ := mret []; cp_exec _ _ := none; cp_stderr _ := "" |}.
#[export] Instance PMem_gap : GapEnv PMem := {|
  ge_listBackups _ := mret []; ge_getDeployment _ := none; ge_collector := PMem_pod; ge_getOptions _ _ := none; ge_newStorage _ := none;
  ge_putObject _ _ := none; ge_getObject _ _ := none; ge_statusUpdate _ := mret tt |}.
#[export] Instance PMem_services : ServiceEnv PMem := {|
  sv_get n := fun w => (w, Err (if pm_down w && bool_decide (nn_name n = "c1-haproxy") then ErrNew "timeout" else not_found));
  sv_create _ := mret tt; sv_update _ := mret tt; sv_delete _ := mret tt; sv_list _ _ := mret []; sv_hash s := Ok (sv_Type s);
  sv_ownerRef cr := Ok (meta_UID (cluster_Meta cr)); sv_listRestores _ := mret [] |}.
#[export] Instance PMem_config : ConfigEnv PMem := {|
  cf_get n := pm_on (cf_get n); cf_create m := pm_on (cf_create m); cf_update m := pm_on (cf_update m); cf_delete m := pm_on (cf_delete m);
  cf_ownerRef cr := Ok (meta_UID (cluster_Meta cr)) |}.
#[export] Instance PMem_sts : StsEnv PMem := {|
  sse_get n := pm_on (sse_get n); sse_create s := pm_on (sse_create s); sse_update s := pm_on (sse_update s);
  pbe_get _ := none; pbe_create _ := mret tt; pbe_update _ := mret tt; sse_operatorPod := pm_on sse_operatorPod |}.

#[local] Instance pass_template_lib : TemplateLib := {| fnv32 _ := 2166136261; XtrabackupSidecar := false |}.
#[local] Instance pass_ini : IniLib := {| ini_Load _ := Ok ∅ |}.
#[local] Instance pass_hash : HashLib := {| sha256Hash s := s; json_Data := enc_map |}.
#[local] Instance pass_retry : RetryLib := loop_retry 4.
#[local] Instance pass_OnError : OnErrorLib := {|
  retry_OnError S A p := retry_loop p 4;
  retry_OnError_runs S A p fn s s' r := @retry_loop_runs S A p 4 fn s s' r |}.
#[local] Instance pass_libs : ApiLibs := {| api_versions := dotted_versions; tmpl_execute s _ := Ok s; MinimumCertificateDuration := hours 1 |}.

Definition start (cr : PerconaXtraDBCluster) (w : TMem) (down : bool) : PS PMem :=
  mkPS (mkPMem (Some cr) w down) cr (mkRegistry ∅ 0 ∅) (mkVersionCrons ∅ 0 ∅) {[ mkNN "ns" "c1" ]} None None.
Definition run (cr : PerconaXtraDBCluster) (w : TMem) (down : bool) : PS PMem * res Z := Reconcile "1.19.0" (Some "1.31") (mkNN "ns" "c1") (start cr w down).

(** ** A first pass *)

Definition fresh_cr : PerconaXtraDBCluster :=
  (sts_cr []) <| cluster_Status -> cs_Status := AppStateInit |> <| cluster_Status -> cs_PXC -> app_Status := AppStateInit |>.
Definition fresh_world : TMem := mkTMem ∅ (delete (key "internal-c1") secrets) {[ key "c1-pxc" := pxc_map ]}.
Definition status_of (s : PS PMem) : option (AppState * list string) :=
  (fun c => (cs_Status (cluster_Status c), cs_Messages (cluster_Status c))) <$> pm_cluster (ps_w s).

(** The whole pass runs: it makes the stateful sets of the database and of HAProxy, and
    the secret of the operator. *)
Example first_pass_deploys : (run fresh_cr fresh_world false).2 = Ok rr /\
  let w := pm_objs (ps_w (run fresh_cr fresh_world false).1) in
  dom (tm_sets w) = {[ key "c1-pxc"; key "c1-haproxy" ]} /\ is_Some (tm_secrets w !! key "internal-c1") /\ is_Some (tm_secrets w !! key "c1-secrets").
Proof. split; [vm_compute; reflexivity|]. cbv zeta. split; [vm_compute; reflexivity|]. split; vm_compute; eauto. Qed.

(** The service of HAProxy cannot be read: the pass fails, but the status it writes is
    that of a pass without errors. *)
Theorem haproxy_error_hidden :
  (run fresh_cr fresh_world true).2 = Err (ErrWrap "c1-haproxy upgrade error" (ErrWrap "get object" (ErrNew "timeout"))) /\
  status_of (run fresh_cr fresh_world true).1 = Some (AppStateInit, []) /\
  status_of (run fresh_cr fresh_world false).1 = Some (AppStateInit, []).
Proof. split_and!; vm_compute; reflexivity. Qed.

(** An error that is told: the users cannot be changed without the database. *)
Example users_error_told :
  status_of (run fresh_cr sts_world false).1 =
    Some (AppStateError, ["Error: manage sys users: new users manager: cannot connect to any host: no database"]).
Proof. vm_compute. reflexivity. Qed.

(** ** A deleted cluster *)

Definition dead_cr : PerconaXtraDBCluster :=
  fresh_cr <| cluster_Meta -> meta_DeletionTimestamp := Some 7 |> <| cluster_Meta -> meta_Finalizers := [FinalizerDeleteSSL; "foregroundDeletion"] |>.
Definition dead : PMem := mkPMem (Some dead_cr) fresh_world false.
Definition defaulted : PerconaXtraDBCluster := (CheckNSetDefaults (Some "1.31") dead_cr).1.
Definition finalized : PMem := (run_finalizers defaulted (meta_Finalizers (cluster_Meta dead_cr)) None dead).1.
Definition stored : PMem := (update_finalizers (mkNN "ns" "c1") [] finalized).1.

